(* ===== verification/_CoqProject ===== *)
-Q . S2P
Prelude.v
BitMap.v
LinkedList.v
OSTable.v
MachineState.v
Interrupt.v
Mips.v
Disk.v
FileHdr.v
OpenFile.v
AddrSpace.v
Directory.v
FileSys.v
Synch.v
Syscall.v
Processes.v
UserMemory.v
Handlers.v
VMap.v
VMem.v
Monitor.v
SynchList.v
DiningPh.v
SynchDisk.v
Network.v
Post.v
Console.v
