(* ===== verification/Prelude.v ===== *)
(** * The Nachos operating system of the CI-0122 workshops

    This library models the C++ kernel under src/NachOSx64/code and the
    machine it runs on, a simulated MIPS computer.  The definitions follow the
    source function by function, keep its names and its branches, and are
    executable; the theorems say what the functions compute, which invariants
    they keep, and in a few places that they do not do what they mean to.

    ** The program and its model

    The simulator (directory machine) is a CPU with memory and address
    translation, a clock with a queue of pending interrupts, a timer and a
    disk.  The kernel (threads, filesys, userprog) runs on it: threads and
    their synchronization, a file system on the disk, address spaces and the
    tables of a process.  Each file of the library is one part:

    - [Prelude] (this file): outcomes of C++ code, machine integers, arrays,
      counting loops, bytes in memory order, the tactics and hints shared by all.
    - [BitMap]: userprog/bitmap, the vector of bits of free sectors and pages.
    - [LinkedList]: threads/list.h on an explicit heap of cells, refined to
      sequences; the other files use the sequences.
    - [OSTable]: userprog/OSTable.h, the tables of open objects of a process.
    - [MachineState]: machine/machine and translate, registers, memory, page
      table and TLB, and [Translate].
    - [Interrupt]: machine/interrupt, stats and timer.  A [World] holds the
      machine, the interrupt hardware, the statistics and the rest of the kernel.
    - [Mips]: machine/mipssim and the memory accesses of translate.cc: every
      instruction, the run loop, and exceptions into the kernel.
    - [Disk]: machine/disk, requests and their completion interrupts.  The class
      [SectorStore] is the interface the file system uses; the disk followed by
      its interrupt is its instance.
    - [FileHdr], [OpenFile], [Directory], [FileSys]: filesys, from the i-node to
      the file system with its invariant, over any [SectorStore].
    - [AddrSpace]: userprog/addrspace, a program loaded into physical pages
      through an open file (class [Executable]), shared with a forked thread, and
      run by the machine.
    - [Synch]: threads/thread, scheduler and synch.  A small-step kernel in
      which threads, time slices and device interrupts interleave; what the
      threads do outside the kernel is the client, a parameter.
    - [Syscall]: userprog/exception and progtest, with the parts of thread and
      scheduler for user programs: the system calls, as a client of [Synch]
      whose state [OS] holds the machine, the page map, the tables and the host
      (class [UNIX]).
    - [Processes]: the whole system, [Syscall] running on [Synch].
    - [UserMemory], [Handlers]: what the system calls read, write and do.
    - [VMap], [VMem]: vm and userprog/addrspaceVM, the kernel built with VM: page
      faults, second chance replacement on the TLB and on physical memory, and the
      backing store on the map of vm/Map.hpp.

    - [Monitor]: code that runs between Acquire and Release of a lock: the rules
      with which the clients of the kernel below are verified.
    - [SynchList], [DiningPh]: threads/synchlist and diningph, with threadtest.
    - [SynchDisk]: filesys/synchdisk, the disk that threads share.
    - [Network], [Post]: machine/network and network/post, packets and mail.
    - [Console]: machine/console and the console test of userprog/progtest.

    A function whose C++ code can stop returns a [res]: a value, a failed
    [ASSERT], undefined behaviour, the exit of the simulator, or the end of the
    fuel of a loop.

    ** What the theorems show

    - File system: [Create], [Remove], [Open], [ReadAt], [WriteAt] and formatting
      implement a map from names to byte strings on the disk and keep [fs_ok]
      (no sector has two owners, exactly the owned sectors are marked); [Create]
      of more than a header can describe writes past the header's table.  Its
      pieces: the bit map is a set, the directory a map on names cut to nine
      characters, the header an injective table of sectors, the disk an array of
      sectors; each is written to the disk and read back unchanged.
    - Machine: no instruction word and no register contents make the simulator
      fail, apart from the instructions listed in [Mips.crash_instructions];
      decoding is total; multiplication is exact; overflow traps exactly when the
      result does not fit; translation raises the right exception or gives an
      address in memory; delayed loads and branch slots.
    - Address spaces: loading maps exactly the image of the program in free pages;
      a fork shares code and data; the machine started on a space reads its bytes
      through [Translate]; what deleting a space frees, and that it can free pages
      that a fork still uses.
    - Interrupts: each tick fires exactly the due interrupts in time order, an
      idle processor jumps to the next one.
    - Kernel: under every interleaving no [ASSERT] of the scheduler fails, no
      thread is lost or in two queues, and the next step is defined but for failures of
      the client and for a joined thread that finishes, which deletes the semaphore that
      its joiners use ([finish_fails]); a semaphore counts its [P]s and [V]s and
      loses no wake-up; locks exclude; what the barrier and [Broadcast] do
      instead of what they promise.
    - Whole system: in every reachable state the tables of a process are shared
      by exactly the threads that their counters say (none is used after it was
      deleted), and a thread finds its registers and page table again after a
      context switch.
    - System calls: the kernel reads and writes exactly the bytes the program
      sees; an identifier names one kernel object from its creation to its
      destruction; what [Write] gives the host; how exceptions end; and calls
      that do not do what they say ([Exec], bad identifiers and addresses).

    - Virtual memory: second chance ends, and where; a fault loads the page from
      the executable or exchanges it with a resident page through the backing
      store, and the retried instruction finds it; the TLB is copied back; and
      that an eviction leaves the frame it reuses marked free.

    - Clients of the kernel: under every interleaving a synchronized list is first
      in, first out, and neighbours at the dining table never eat together (its [print]
      reads the array without the lock, and changes nothing); threads
      share the disk as one atomic array of sectors; and how the condition variables
      lose a wake-up.
    - Network: a packet that is sent and not lost is received unchanged.  Under every
      interleaving and interrupt timing the post office sends one packet at a time, which
      an office with at least as many boxes expects; as long as what comes is what it
      expects itself, its worker delivers exactly what arrived; and mail reaches the box
      and the thread it is for with the bytes of the sender.
    - Terminal: the console test echoes exactly what is typed, up to the first q, as long
      as the byte 255 was not typed.

    ** Choices

    - An [int] is a [Z] in its range and signed overflow wraps around.  The host
      is little endian, 64 bits.
    - Memory that the code reads before writing it ([new char[n]], the half of a
      table that [memset] does not reach) is a parameter, so a theorem holds for
      all its contents.
    - Pointers that alias are modelled as names: cells of a list, page tables,
      threads.  A deleted name is undefined.
    - Loops with a counter run on [for_range]; the others take fuel.  The fuel is
      the length of the list for the walks of [LinkedList], the number of pending
      interrupts for [check_loop] (a handler only schedules for the future), 64
      for multiplication, two rounds of the table for second chance; each theorem
      proves that it is enough.
    - In [Synch] a thread gives up the processor only inside [Sleep] and [Yield];
      with interrupts on, a time slice may put a [Yield] before any step and a
      device may do a [V].  Objects can be created and deleted; deleting one that
      threads wait for, are inside a call of or are about to call is undefined.
    - Interrupts of the network and the terminal bring any datagrams and bytes; where a
      theorem needs more of them, it says so about the recorded ones ([came], [typed]).
    - In [Syscall] a handler is one step up to its first kernel call, and its
      [code] says what is left to do after it.  A user program runs between two
      exceptions as the parameter [user].  The names of threads and objects are
      never used again ([next]); [small] says that fewer than 2^31 were made.
    - In [Disk] the file system runs alone: each request is followed by its
      interrupt.  [SynchDisk] shows that threads see the same disk.
    - Debugging output is left out; the values that [Print] functions show are
      modelled.

    ** Not modelled

    - machine/sysdep, threads/switch.s, threads/preemptive.cc and the stacks of
      threads: calls to UNIX, assembly, signals and ptrace of the host.
    - network/nettest: a test that prints.
    - The calls of the virtual memory from exception.cc ([VM] of [VMem] is the
      address space and its handler; [Syscall] is the kernel without VM).
    - main.cc, fstest.cc, utility, the programs under test, the
      first programming task (TareasProgramadas) and the exam correction: drivers,
      tests and separate programs.
    - The [FILESYS_STUB] versions of the file system, which only call UNIX.

    ** Conventions

    [wf] is the invariant of a component, [abs] its abstract value.  A theorem
    whose comment begins with C and a number is one of the properties of the
    development; its witness, of the same name with [_witness], runs it on a
    concrete state. *)

From Stdlib Require Export ZArith Lia.
From stdpp Require Export base numbers list list_numbers option gmap.

#[export] Set Warnings "-clear-no-such-hyp".

Declare Scope nachos_scope.
Delimit Scope nachos_scope with nachos.
Open Scope Z_scope.

(** ** Outcomes of C++ code

    [Ok] is a normal return.  [Abort] is a failed [ASSERT], which ends in
    [Abort()] (utility.h).  [UB] is an access the C++ standard leaves
    undefined, such as an index outside an array.  [Exit] is the end of the
    process ([Exit(code)], sysdep.cc).  [NoFuel] is only returned by loops
    whose bound is given as fuel; the termination theorems exclude it. *)
Inductive res (A : Type) : Type :=
  | Ok (a : A)
  | Abort
  | UB
  | Exit (code : Z)
  | NoFuel.
Arguments Ok {A} a.
Arguments Abort {A}.
Arguments UB {A}.
Arguments Exit {A} code.
Arguments NoFuel {A}.

(** Sequencing: the first outcome that is not a normal return is the
    outcome of the whole. *)
Definition bind {A B} (m : res A) (f : A -> res B) : res B :=
  match m with
  | Ok a => f a
  | Abort => Abort
  | UB => UB
  | Exit c => Exit c
  | NoFuel => NoFuel
  end.

Notation "x ← y ; z" := (bind y (fun x => z))
  (at level 20, y at level 100, z at level 200, only parsing) : nachos_scope.
Notation "' x ← y ; z" := (bind y (fun x => z))
  (at level 20, x pattern, y at level 100, z at level 200, only parsing) : nachos_scope.
Notation "x ;; z" := (bind x (fun _ => z))
  (at level 100, z at level 200, only parsing, right associativity) : nachos_scope.
Open Scope nachos_scope.

(** [ASSERT(condition)] of threads/utility.h. *)
Definition ASSERT (condition : bool) : res unit :=
  if condition then Ok tt else Abort.

(** ** Machine integers

    A C++ [int] is a [Z] in [[-2^31, 2^31)], an [unsigned int] a [Z] in
    [[0, 2^32)].  [s32] and [u32] are the conversions to these types.  A
    signed operation that overflows wraps around, as on the hosts the
    program is built for. *)
Definition wrap (w z : Z) : Z := z mod 2 ^ w.
Definition swrap (w z : Z) : Z := (z + 2 ^ (w - 1)) mod 2 ^ w - 2 ^ (w - 1).

Definition u32 (z : Z) : Z := wrap 32 z.
Definition s32 (z : Z) : Z := swrap 32 z.
Definition u16 (z : Z) : Z := wrap 16 z.
Definition u8 (z : Z) : Z := wrap 8 z.
Definition s8 (z : Z) : Z := swrap 8 z.

Definition is_u32 (z : Z) : Prop := 0 <= z < 2 ^ 32.
Definition is_s32 (z : Z) : Prop := - 2 ^ 31 <= z < 2 ^ 31.
Definition is_byte (z : Z) : Prop := 0 <= z < 256.

#[export] Instance is_u32_dec z : Decision (is_u32 z).
Proof. unfold is_u32. apply _. Defined.
#[export] Instance is_s32_dec z : Decision (is_s32 z).
Proof. unfold is_s32. apply _. Defined.

(** The value of a condition or a [bool] used as an [int]. *)
Definition of_bool (b : bool) : Z := if b then 1 else 0.

(** ** Arrays

    [l[i]] on an array of the length of [l]; an index outside is [UB]. *)
Definition zget {A} (l : list A) (i : Z) : res A :=
  if (0 <=? i)%Z then
    match l !! Z.to_nat i with Some a => Ok a | None => UB end
  else UB.

Definition zset {A} (l : list A) (i : Z) (x : A) : res (list A) :=
  if (0 <=? i) && (i <? Z.of_nat (length l)) then Ok (<[Z.to_nat i := x]> l)
  else UB.

(** [zslice off n l]: [n] consecutive elements from offset [off]. *)
Definition zslice {A} (off n : Z) (l : list A) : list A :=
  take (Z.to_nat n) (drop (Z.to_nat off) l).

(** [zsplice off src l]: [l] with [src] copied over it at [off] (the effect
    of [bcopy] into an array large enough). *)
Definition zsplice {A} (off : Z) (src l : list A) : list A :=
  take (Z.to_nat off) l ++ src ++ drop (Z.to_nat off + length src) l.

(** [bcopy] out of and into an array; a range outside it is [UB]. *)
Definition zread {A} (off n : Z) (l : list A) : res (list A) :=
  if (0 <=? off) && (0 <=? n) && (off + n <=? Z.of_nat (length l))
  then Ok (zslice off n l) else UB.

Definition zcopy {A} (off : Z) (src l : list A) : res (list A) :=
  if (0 <=? off) && (off + Z.of_nat (length src) <=? Z.of_nat (length l))
  then Ok (zsplice off src l) else UB.

(** ** Counting loops

    [for (i = lo; i < lo + n; i++) s = body(i, s)]. *)
Fixpoint for_range {S : Type} (n : nat) (lo : Z) (body : Z -> S -> res S)
    (s : S) : res S :=
  match n with
  | O => Ok s
  | Datatypes.S n' => s' ← body lo s; for_range n' (lo + 1) body s'
  end.

(** The same loop with an early exit: [body] returns [inr r] to leave the
    loop with result [r], [inl s] to go on. *)
Fixpoint for_find {S R : Type} (n : nat) (lo : Z)
    (body : Z -> S -> res (S + R)) (s : S) : res (S + R) :=
  match n with
  | O => Ok (inl s)
  | Datatypes.S n' =>
      o ← body lo s;
      match o with
      | inl s' => for_find n' (lo + 1) body s'
      | inr r => Ok (inr r)
      end
  end.

(** ** Bytes of an integer in memory order (little endian) *)
Fixpoint le_bytes (n : nat) (z : Z) : list Z :=
  match n with
  | O => []
  | S n' => z mod 256 :: le_bytes n' (z / 256)
  end.

Fixpoint le_value (bs : list Z) : Z :=
  match bs with
  | [] => 0
  | b :: bs' => b + 256 * le_value bs'
  end.

(** ** Automation

    [nachos] is the hint database of the development (lemmas used by
    [eauto with nachos]); [nachos] is also its rewrite database. *)
Create HintDb nachos.
Create Rewrite HintDb nachos.

(** Split the results of a chain of [res] computations that ended in [Ok]. *)
Lemma bind_Ok {A B} (m : res A) (f : A -> res B) b :
  bind m f = Ok b <-> exists a, m = Ok a /\ f a = Ok b.
Proof.
  split.
  - destruct m; simpl; intros H; simplify_eq/=; eauto.
  - intros (a & -> & H). exact H.
Qed.

Lemma bind_assoc {A B C} (m : res A) (f : A -> res B) (g : B -> res C) :
  bind (bind m f) g = bind m (fun a => bind (f a) g).
Proof. by destruct m. Qed.

Lemma ASSERT_Ok b u : ASSERT b = Ok u <-> b = true.
Proof. destruct b, u; simpl; split; congruence. Qed.

Lemma ASSERT_true b : b = true -> ASSERT b = Ok tt.
Proof. by intros ->. Qed.

Ltac res_step :=
  match goal with
  | H : bind _ _ = Ok _ |- _ =>
      let a := fresh "a" in let Ha := fresh "Ha" in
      apply bind_Ok in H as (a & Ha & H)
  | H : ASSERT _ = Ok ?u |- _ => destruct u; apply ASSERT_Ok in H
  | H : Ok _ = Ok _ |- _ => injection H as H
  | H : (_ && _)%bool = true |- _ => apply andb_prop in H as [? ?]
  | H : ?x = true |- _ =>
      match x with
      | (_ <=? _)%Z => apply Z.leb_le in H
      | (_ <? _)%Z => apply Z.ltb_lt in H
      | (_ =? _)%Z => apply Z.eqb_eq in H
      end
  | H : ?x = false |- _ =>
      match x with
      | (_ <=? _)%Z => apply Z.leb_gt in H
      | (_ <? _)%Z => apply Z.ltb_ge in H
      | (_ =? _)%Z => apply Z.eqb_neq in H
      end
  end.
Ltac res_inv := repeat res_step.

(** Case analysis on the boolean integer comparisons of the goal. *)
Ltac zcases :=
  repeat match goal with
  | |- context [(?a <=? ?b)%Z] => destruct (Z.leb_spec a b)
  | |- context [(?a <? ?b)%Z] => destruct (Z.ltb_spec a b)
  | |- context [(?a =? ?b)%Z] => destruct (Z.eqb_spec a b)
  end; simpl.

(** [lia] with the equations of division and remainder. *)
Ltac dlia := Z.to_euclidean_division_equations; lia.

(** ** Machine integers: ranges and conversions *)
Lemma wrap_range w z : 0 <= w -> 0 <= wrap w z < 2 ^ w.
Proof. intros. apply Z.mod_pos_bound. lia. Qed.

Lemma u32_range z : is_u32 (u32 z).
Proof. by apply wrap_range. Qed.

Lemma s32_range z : is_s32 (s32 z).
Proof.
  unfold is_s32, s32, swrap.
  change (2 ^ (32 - 1)) with (2 ^ 31).
  pose proof (Z.mod_pos_bound (z + 2 ^ 31) (2 ^ 32) ltac:(lia)). lia.
Qed.

Lemma u32_id z : is_u32 z -> u32 z = z.
Proof. apply Z.mod_small. Qed.

Lemma s32_id z : is_s32 z -> s32 z = z.
Proof.
  unfold is_s32, s32, swrap. change (2 ^ (32 - 1)) with (2 ^ 31). intros.
  rewrite Z.mod_small; lia.
Qed.

Lemma u8_range z : is_byte (u8 z).
Proof. by apply wrap_range. Qed.

Lemma u8_id z : is_byte z -> u8 z = z.
Proof. apply Z.mod_small. Qed.

(** [u32] and [s32] only depend on the residue modulo [2^32]. *)
Lemma u32_eq_mod a b : u32 a = u32 b <-> (a - b) mod 2 ^ 32 = 0.
Proof.
  unfold u32, wrap. rewrite Zminus_mod. split; intros H.
  - by rewrite H, Z.sub_diag.
  - pose proof (Z.mod_pos_bound a (2 ^ 32) ltac:(lia)).
    pose proof (Z.mod_pos_bound b (2 ^ 32) ltac:(lia)).
    assert (a mod 2 ^ 32 - b mod 2 ^ 32 = 0); [|lia].
    destruct (decide (0 <= a mod 2 ^ 32 - b mod 2 ^ 32)) as [Hp|Hn].
    + rewrite Z.mod_small in H; lia.
    + rewrite <- (Z_mod_plus_full _ 1), Z.mod_small in H; lia.
Qed.

Lemma u32_s32 z : u32 (s32 z) = u32 z.
Proof.
  unfold u32, s32, wrap, swrap.
  rewrite Zminus_mod_idemp_l. f_equal. simpl. lia.
Qed.

Lemma s32_u32 z : s32 (u32 z) = s32 z.
Proof. unfold u32, s32, wrap, swrap. by rewrite Zplus_mod_idemp_l. Qed.

Lemma u32_idemp z : u32 (u32 z) = u32 z.
Proof. apply u32_id, u32_range. Qed.

Lemma s32_idemp z : s32 (s32 z) = s32 z.
Proof. apply s32_id, s32_range. Qed.

Lemma u32_small z : 0 <= z -> z < 2 ^ 32 -> u32 z = z.
Proof. intros. by apply u32_id. Qed.

Lemma u32_add_l a b : u32 (u32 a + b) = u32 (a + b).
Proof. unfold u32, wrap. by rewrite Zplus_mod_idemp_l. Qed.

Lemma u32_add_r a b : u32 (a + u32 b) = u32 (a + b).
Proof. unfold u32, wrap. by rewrite Zplus_mod_idemp_r. Qed.

#[export] Hint Resolve u32_range s32_range u8_range : nachos.
#[export] Hint Rewrite u32_s32 s32_u32 u32_idemp s32_idemp : nachos.

(** The bits of a word. *)
Lemma u32_testbit z i :
  Z.testbit (u32 z) i = Z.testbit z i && bool_decide (i < 32).
Proof.
  unfold u32, wrap. case_bool_decide.
  - destruct (decide (0 <= i)).
    + rewrite Z.mod_pow2_bits_low by lia. by rewrite andb_true_r.
    + by rewrite !Z.testbit_neg_r by lia.
  - rewrite Z.mod_pow2_bits_high by lia. by rewrite andb_false_r.
Qed.

(** A word is the sign extension of its bit 31. *)
Lemma is_s32_shiftr z : is_s32 z <-> Z.shiftr z 31 = 0 \/ Z.shiftr z 31 = -1.
Proof. unfold is_s32. rewrite Z.shiftr_div_pow2 by lia. dlia. Qed.

Lemma land_s32 a b : is_s32 a -> is_s32 b -> is_s32 (Z.land a b).
Proof.
  rewrite !is_s32_shiftr, Z.shiftr_land. intros [-> | ->] [-> | ->]; auto.
Qed.
Lemma lor_s32 a b : is_s32 a -> is_s32 b -> is_s32 (Z.lor a b).
Proof.
  rewrite !is_s32_shiftr, Z.shiftr_lor. intros [-> | ->] [-> | ->]; auto.
Qed.
Lemma lxor_s32 a b : is_s32 a -> is_s32 b -> is_s32 (Z.lxor a b).
Proof.
  rewrite !is_s32_shiftr, Z.shiftr_lxor. intros [-> | ->] [-> | ->]; auto.
Qed.
Lemma lnot_s32 a : is_s32 a -> is_s32 (Z.lnot a).
Proof. unfold is_s32, Z.lnot. lia. Qed.
Lemma shiftr_s32 a n : is_s32 a -> 0 <= n -> is_s32 (Z.shiftr a n).
Proof.
  unfold is_s32. intros. rewrite Z.shiftr_div_pow2 by done.
  assert (0 < 2 ^ n) by (apply Z.pow_pos_nonneg; lia).
  split; [apply Z.div_le_lower_bound|apply Z.div_lt_upper_bound]; nia.
Qed.
Lemma small_s32 z : 0 <= z < 2 ^ 31 -> is_s32 z.
Proof. unfold is_s32. lia. Qed.

#[export] Hint Resolve land_s32 lor_s32 lxor_s32 lnot_s32 shiftr_s32 : nachos.

(** The test of one bit with a mask. *)
Lemma land_pow2 v n : 0 <= n -> Z.land v (2 ^ n) = if Z.testbit v n then 2 ^ n else 0.
Proof.
  intros Hn. apply Z.bits_inj_iff'. intros i Hi.
  rewrite Z.land_spec, Z.pow2_bits_eqb by done.
  destruct (Z.eqb_spec n i) as [->|Hne].
  - destruct (Z.testbit v i); [by rewrite Z.pow2_bits_true|by rewrite Z.bits_0].
  - rewrite andb_false_r. destruct (Z.testbit v n); [by rewrite Z.pow2_bits_false|].
    by rewrite Z.bits_0.
Qed.

Lemma land_pow2_test v n :
  0 <= n -> negb (Z.land v (2 ^ n) =? 0) = Z.testbit v n.
Proof.
  intros Hn. rewrite land_pow2 by done. destruct (Z.testbit v n); [|done].
  pose proof (Z.pow_pos_nonneg 2 n). destruct (Z.eqb_spec (2 ^ n) 0); [lia|done].
Qed.

Lemma testbit_sign z n : 0 <= n -> - 2 ^ n <= z < 2 ^ n -> Z.testbit z n = (z <? 0).
Proof.
  intros Hn Hz. destruct (Z.ltb_spec z 0).
  - rewrite <- (Z.lnot_involutive z), Z.lnot_spec by done.
    rewrite <- (Z.mod_small (Z.lnot z) (2 ^ n)) by (unfold Z.lnot; lia).
    by rewrite Z.mod_pow2_bits_high by lia.
  - rewrite <- (Z.mod_small z (2 ^ n)) by lia.
    by rewrite Z.mod_pow2_bits_high by lia.
Qed.

(** A field of [n] bits is below [2^n]. *)
Lemma land_ones_range v n : 0 <= n -> 0 <= Z.land v (Z.ones n) < 2 ^ n.
Proof.
  intros. rewrite Z.land_ones by done. apply Z.mod_pos_bound.
  apply Z.pow_pos_nonneg; lia.
Qed.

(** ** Arrays *)
Lemma zget_Ok {A} (l : list A) i x :
  zget l i = Ok x <-> 0 <= i /\ l !! Z.to_nat i = Some x.
Proof.
  unfold zget. destruct (Z.leb_spec 0 i); [|split; [done|lia]].
  destruct (l !! Z.to_nat i); split.
  - intros [= ->]. auto.
  - intros [_ [= ->]]. auto.
  - done.
  - by intros [_ ?].
Qed.

Lemma zget_is_Ok {A} (l : list A) i :
  0 <= i < Z.of_nat (length l) -> exists x, zget l i = Ok x.
Proof.
  intros Hi. destruct (lookup_lt_is_Some_2 l (Z.to_nat i)) as [x Hx]; [lia|].
  exists x. apply zget_Ok. split; [lia|done].
Qed.

Lemma zget_range {A} (l : list A) i x :
  zget l i = Ok x -> 0 <= i < Z.of_nat (length l).
Proof. intros [? H]%zget_Ok. apply lookup_lt_Some in H. lia. Qed.

Lemma zset_Ok {A} (l : list A) i x l' :
  zset l i x = Ok l' <->
  0 <= i < Z.of_nat (length l) /\ l' = <[Z.to_nat i := x]> l.
Proof.
  unfold zset.
  destruct (Z.leb_spec 0 i), (Z.ltb_spec i (Z.of_nat (length l))); simpl;
    split; [intros [= <-]; split; lia || done|intros [? ->]; done || lia
           |done|lia|done|lia|done|lia].
Qed.

Lemma zset_eq {A} (l : list A) i x :
  0 <= i < Z.of_nat (length l) -> zset l i x = Ok (<[Z.to_nat i := x]> l).
Proof. intros. by apply zset_Ok. Qed.

Lemma zget_UB {A} (l : list A) i :
  ~ 0 <= i < Z.of_nat (length l) -> zget l i = UB.
Proof.
  intros Hi. unfold zget. destruct (Z.leb_spec 0 i); [|done].
  rewrite lookup_ge_None_2; [done|lia].
Qed.

Lemma zset_UB {A} (l : list A) i x :
  ~ 0 <= i < Z.of_nat (length l) -> zset l i x = UB.
Proof. intros Hi. unfold zset. zcases; done || lia. Qed.

Lemma length_zslice {A} off n (l : list A) :
  0 <= off -> 0 <= n -> off + n <= Z.of_nat (length l) ->
  Z.of_nat (length (zslice off n l)) = n.
Proof. intros. unfold zslice. rewrite length_take, length_drop. lia. Qed.

Lemma length_zsplice {A} off (src l : list A) :
  0 <= off -> off + Z.of_nat (length src) <= Z.of_nat (length l) ->
  length (zsplice off src l) = length l.
Proof.
  intros. unfold zsplice. rewrite !length_app, length_take, length_drop. lia.
Qed.

Lemma lookup_zslice {A} off n (l : list A) (i : nat) :
  Z.of_nat i < n -> 0 <= off -> zslice off n l !! i = l !! (Z.to_nat off + i)%nat.
Proof.
  intros. unfold zslice. rewrite lookup_take_lt by lia. by rewrite lookup_drop.
Qed.

Lemma lookup_zsplice {A} off (src l : list A) (i : nat) :
  0 <= off -> off + Z.of_nat (length src) <= Z.of_nat (length l) ->
  zsplice off src l !! i =
    if decide (off <= Z.of_nat i < off + Z.of_nat (length src))
    then src !! (i - Z.to_nat off)%nat else l !! i.
Proof.
  intros Ho Hl. unfold zsplice. case_decide as Hi.
  - rewrite lookup_app_r by (rewrite length_take; lia).
    rewrite length_take, lookup_app_l by lia. f_equal. lia.
  - destruct (decide (Z.of_nat i < off)).
    + rewrite lookup_app_l by (rewrite length_take; lia).
      by rewrite lookup_take_lt by lia.
    + rewrite lookup_app_r by (rewrite length_take; lia).
      rewrite length_take, lookup_app_r by lia.
      rewrite lookup_drop. f_equal. lia.
Qed.

(** Reading back what was copied, and what was not. *)
Lemma zslice_zsplice {A} off (src l : list A) :
  0 <= off -> off + Z.of_nat (length src) <= Z.of_nat (length l) ->
  zslice off (Z.of_nat (length src)) (zsplice off src l) = src.
Proof.
  intros. apply list_eq. intros i.
  destruct (decide (i < length src)%nat).
  - rewrite lookup_zslice, lookup_zsplice by lia.
    rewrite decide_True by lia. f_equal. lia.
  - rewrite !lookup_ge_None_2; [done|lia|].
    unfold zslice. rewrite length_take. lia.
Qed.

Lemma zslice_zsplice_disjoint {A} off off' n (src l : list A) :
  0 <= off -> 0 <= off' -> off + Z.of_nat (length src) <= Z.of_nat (length l) ->
  off' + n <= off \/ off + Z.of_nat (length src) <= off' ->
  zslice off' n (zsplice off src l) = zslice off' n l.
Proof.
  intros. apply list_eq. intros i.
  destruct (decide (Z.of_nat i < n)).
  - rewrite !lookup_zslice, lookup_zsplice by lia.
    rewrite decide_False by lia. done.
  - rewrite !lookup_ge_None_2; [done| |]; unfold zslice; rewrite length_take; lia.
Qed.

Lemma zsplice_Forall {A} (P : A -> Prop) off src l :
  Forall P src -> Forall P l -> Forall P (zsplice off src l).
Proof.
  intros. unfold zsplice. apply Forall_app; split; [by apply Forall_take|].
  apply Forall_app; split; [done|by apply Forall_drop].
Qed.

Lemma zslice_Forall {A} (P : A -> Prop) off n l :
  Forall P l -> Forall P (zslice off n l).
Proof. intros. unfold zslice. by apply Forall_take, Forall_drop. Qed.

(** A one-element copy is an assignment. *)
Lemma zset_zsplice {A} (l : list A) i x :
  0 <= i < Z.of_nat (length l) -> zset l i x = Ok (zsplice i [x] l).
Proof.
  intros Hi. rewrite zset_eq by done. f_equal. unfold zsplice. simpl.
  rewrite insert_take_drop by lia. do 3 f_equal. lia.
Qed.

Lemma zget_zslice {A} (l : list A) i x :
  0 <= i -> zslice i 1 l = [x] -> zget l i = Ok x.
Proof.
  intros Hi H. apply zget_Ok. split; [done|].
  assert (zslice i 1 l !! 0%nat = Some x) as E by (by rewrite H).
  rewrite lookup_zslice in E by lia. by rewrite Nat.add_0_r in E.
Qed.

Lemma zsplice_nil {A} off (l : list A) : zsplice off [] l = l.
Proof. unfold zsplice. cbn [length app]. rewrite Nat.add_0_r. apply take_drop. Qed.

Lemma zslice_0 {A} off (l : list A) : zslice off 0 l = [].
Proof. done. Qed.

(** The middle of a concatenation. *)
Lemma zslice_app {A} off n (a b c : list A) :
  Z.of_nat (length a) = off -> Z.of_nat (length b) = n -> zslice off n (a ++ b ++ c) = b.
Proof.
  intros <- <-. unfold zslice. rewrite !Nat2Z.id, drop_app_length.
  apply take_app_length.
Qed.

Lemma zread_Ok {A} off n (l : list A) :
  0 <= off -> 0 <= n -> off + n <= Z.of_nat (length l) -> zread off n l = Ok (zslice off n l).
Proof. intros. unfold zread. zcases; done || lia. Qed.

Lemma zcopy_Ok {A} off (src l : list A) :
  0 <= off -> off + Z.of_nat (length src) <= Z.of_nat (length l) ->
  zcopy off src l = Ok (zsplice off src l).
Proof. intros. unfold zcopy. zcases; done || lia. Qed.

Lemma zread_inv {A} off k (l bs : list A) :
  zread off k l = Ok bs ->
  0 <= off /\ 0 <= k /\ off + k <= Z.of_nat (length l) /\ bs = zslice off k l.
Proof.
  unfold zread. destruct (_ && _) eqn:E; [|done]. intros [= <-].
  rewrite !andb_true_iff, !Z.leb_le in E. tauto.
Qed.

Lemma zcopy_inv {A} off (src l bs : list A) :
  zcopy off src l = Ok bs ->
  0 <= off /\ off + Z.of_nat (length src) <= Z.of_nat (length l) /\ bs = zsplice off src l.
Proof.
  unfold zcopy. destruct (_ && _) eqn:E; [|done]. intros [= <-].
  rewrite !andb_true_iff, !Z.leb_le in E. tauto.
Qed.

Lemma zsplice_0 {A} (src l : list A) : zsplice 0 src l = src ++ drop (length src) l.
Proof. done. Qed.

Lemma Ok_inj {A} (a b : A) : Ok a = Ok b -> a = b.
Proof. by intros [= ->]. Qed.

Lemma zslice_zslice {A} off m k (l : list A) :
  0 <= off -> 0 <= m -> off + m <= k -> zslice off m (zslice 0 k l) = zslice off m l.
Proof.
  intros Ho Hm Hk. unfold zslice. rewrite drop_0, !take_drop_commute, take_take. do 2 f_equal. lia.
Qed.

(** ** Counting loops *)
Lemma range_S lo n : lo + Z.of_nat (S n) = lo + 1 + Z.of_nat n.
Proof. lia. Qed.

Lemma for_range_app {S} n m lo body (s : S) :
  for_range (n + m) lo body s =
    (s' ← for_range n lo body s; for_range m (lo + Z.of_nat n) body s').
Proof.
  revert lo s. induction n as [|n IH]; intros lo s; simpl.
  - f_equal. lia.
  - rewrite bind_assoc. destruct (body lo s); simpl; try done.
    by rewrite IH, range_S.
Qed.

Lemma for_range_S_r {S} n lo body (s : S) :
  for_range (Datatypes.S n) lo body s =
    (s' ← for_range n lo body s; body (lo + Z.of_nat n) s').
Proof.
  replace (Datatypes.S n) with (n + 1)%nat by lia. rewrite for_range_app.
  destruct (for_range n lo body s); simpl; try done.
  by destruct (body _ a).
Qed.

(** The loop rule: an invariant kept by every iteration holds at the end,
    and the loop returns. *)
Lemma for_range_rule {S} (I : Z -> S -> Prop) n lo body (s : S) :
  I lo s ->
  (forall i s, lo <= i < lo + Z.of_nat n -> I i s ->
     exists s', body i s = Ok s' /\ I (i + 1) s') ->
  exists s', for_range n lo body s = Ok s' /\ I (lo + Z.of_nat n) s'.
Proof.
  revert lo s. induction n as [|n IH]; intros lo s HI Hstep; simpl.
  - exists s. rewrite Z.add_0_r. done.
  - destruct (Hstep lo s) as (s1 & -> & HI1); [lia|done|]. simpl.
    destruct (IH (lo + 1) s1) as (s2 & -> & HI2); [done| |].
    + intros i s' Hi. apply Hstep. lia.
    + exists s2. by rewrite range_S.
Qed.

(** The same rule for a loop known to have returned. *)
Lemma for_range_inv {S} (I : Z -> S -> Prop) n lo body (s s' : S) :
  for_range n lo body s = Ok s' ->
  I lo s ->
  (forall i s s', lo <= i < lo + Z.of_nat n -> I i s -> body i s = Ok s' ->
     I (i + 1) s') ->
  I (lo + Z.of_nat n) s'.
Proof.
  revert lo s. induction n as [|n IH]; intros lo s Hrun HI Hstep; simpl in *.
  - simplify_eq. by rewrite Z.add_0_r.
  - res_inv. rewrite range_S. eapply IH; [done| |].
    + eapply Hstep; [|done|done]. lia.
    + intros i s1 s2 Hi. apply Hstep. lia.
Qed.

Lemma for_range_ext {S} n lo (f g : Z -> S -> res S) s :
  (forall i s, lo <= i < lo + Z.of_nat n -> f i s = g i s) ->
  for_range n lo f s = for_range n lo g s.
Proof.
  revert lo s. induction n as [|n IH]; intros lo s H; simpl; [done|].
  rewrite H by lia. destruct (g lo s); simpl; try done.
  apply IH. intros. apply H. lia.
Qed.

Lemma for_find_rule {S R} (I : Z -> S -> Prop) (Q : R -> Prop) n lo body (s : S) :
  I lo s ->
  (forall i s, lo <= i < lo + Z.of_nat n -> I i s ->
     exists o, body i s = Ok o /\
       match o with inl s' => I (i + 1) s' | inr r => Q r end) ->
  exists o, for_find n lo body s = Ok o /\
    match o with inl s' => I (lo + Z.of_nat n) s' | inr r => Q r end.
Proof.
  revert lo s. induction n as [|n IH]; intros lo s HI Hstep; simpl.
  - exists (inl s). rewrite Z.add_0_r. done.
  - destruct (Hstep lo s) as (o & -> & HI1); [lia|done|]. simpl.
    destruct o as [s1|r]; [|by exists (inr r)].
    destruct (IH (lo + 1) s1) as (o & -> & Ho); [done| |].
    + intros i s' Hi. apply Hstep. lia.
    + exists o. by rewrite range_S.
Qed.

(** ** Little-endian encodings *)
Lemma length_le_bytes n z : length (le_bytes n z) = n.
Proof. revert z. induction n; intros; simpl; [done|]. by rewrite IHn. Qed.

Lemma le_bytes_byte n z : Forall is_byte (le_bytes n z).
Proof.
  revert z. induction n; intros; simpl; constructor; [|done].
  apply Z.mod_pos_bound. lia.
Qed.

Lemma le_value_range bs :
  Forall is_byte bs -> 0 <= le_value bs < 2 ^ (8 * Z.of_nat (length bs)).
Proof.
  induction 1 as [|b bs Hb _ IH]; simpl; [lia|].
  replace (8 * Z.of_nat (S (length bs)))
    with (8 + 8 * Z.of_nat (length bs)) by lia.
  rewrite Z.pow_add_r by lia. unfold is_byte in Hb. simpl (2 ^ 8). lia.
Qed.

Lemma le_value_le_bytes n z :
  le_value (le_bytes n z) = z mod 2 ^ (8 * Z.of_nat n).
Proof.
  revert z. induction n as [|n IH]; intros z; simpl le_bytes; simpl le_value.
  - by rewrite Z.mod_1_r.
  - rewrite IH. replace (8 * Z.of_nat (S n)) with (8 + 8 * Z.of_nat n) by lia.
    rewrite Z.pow_add_r, Z.rem_mul_r by lia. done.
Qed.

Lemma le_bytes_le_value bs :
  Forall is_byte bs -> le_bytes (length bs) (le_value bs) = bs.
Proof.
  induction 1 as [|b bs Hb _ IH]; simpl; [done|].
  unfold is_byte in Hb.
  replace (b + 256 * le_value bs) with (le_value bs * 256 + b) by lia.
  f_equal.
  - rewrite Z.add_comm, Z_mod_plus_full. by apply Z.mod_small.
  - rewrite Z.div_add_l by lia. rewrite (Z.div_small b) by done.
    by rewrite Z.add_0_r.
Qed.

(** An [int] stored in memory and read back. *)
Lemma le_value_u32 z : le_value (le_bytes 4 z) = u32 z.
Proof. by rewrite le_value_le_bytes. Qed.

Lemma s32_of_bytes z : is_s32 z -> s32 (le_value (le_bytes 4 z)) = z.
Proof. intros. rewrite le_value_u32, s32_u32. by apply s32_id. Qed.

#[export] Hint Resolve le_bytes_byte : nachos.
#[export] Hint Rewrite length_le_bytes : nachos.

(** ** utility.h: rounding division *)
Definition divRoundDown (n s : Z) : Z := Z.quot n s.
Definition divRoundUp (n s : Z) : Z :=
  Z.quot n s + (if 0 <? Z.rem n s then 1 else 0).

Lemma divRoundDown_div n s : 0 <= n -> 0 < s -> divRoundDown n s = n / s.
Proof. intros. by apply Z.quot_div_nonneg. Qed.

(** [divRoundUp n s] is the least number of blocks of [s] that hold [n]. *)
Lemma divRoundUp_spec n s :
  0 <= n -> 0 < s -> s * (divRoundUp n s - 1) < n <= s * divRoundUp n s.
Proof.
  intros. unfold divRoundUp.
  pose proof (Z.quot_rem' n s). pose proof (Z.rem_bound_pos n s).
  zcases; lia.
Qed.

Lemma divRoundUp_nonneg n s : 0 <= n -> 0 < s -> 0 <= divRoundUp n s.
Proof. intros. pose proof (divRoundUp_spec n s). nia. Qed.

Lemma divRoundUp_le n m s :
  0 <= n -> 0 < s -> 0 <= m -> n <= s * m -> divRoundUp n s <= m.
Proof. intros. pose proof (divRoundUp_spec n s). nia. Qed.
