(* ===== verification/BitMap.v ===== *)
(** userprog/bitmap.h and bitmap.cc: the bit map that allocates disk
    sectors, physical pages and table slots.

    Module [BitMap] is the class: the storage is an array of 32-bit words and
    every operation works on words, as the code does.  [abs] reads the words
    back as a list of booleans, the abstract bit set, and the refinement
    lemmas state each operation as one on that list. *)

From S2P Require Import Prelude.

(** ** Abstract bit sets *)

(** The index of the first clear bit. *)
Fixpoint first_clear (l : list bool) : option nat :=
  match l with
  | [] => None
  | b :: l' => if b then S <$> first_clear l' else Some O
  end.

(** The number of clear bits. *)
Fixpoint count_clear (l : list bool) : nat :=
  match l with
  | [] => O
  | b :: l' => if b then count_clear l' else S (count_clear l')
  end.

Lemma first_clear_Some l n :
  first_clear l = Some n ->
  l !! n = Some false /\ forall m, (m < n)%nat -> l !! m = Some true.
Proof.
  revert n. induction l as [|[] l IH]; intros n; simpl; [done| |].
  - destruct (first_clear l) as [k|]; simpl; [|done]. intros [= <-].
    destruct (IH k eq_refl) as [H1 H2]. split; [done|].
    intros [|m] Hm; [done|]. apply H2. lia.
  - intros [= <-]. split; [done|lia].
Qed.

Lemma first_clear_None l :
  first_clear l = None -> forall n b, l !! n = Some b -> b = true.
Proof.
  induction l as [|[] l IH]; simpl; intros H n b; [done| |done].
  destruct (first_clear l); [done|].
  destruct n; simpl; [congruence|]. by apply IH.
Qed.

Lemma first_clear_is_Some l : (0 < count_clear l)%nat -> is_Some (first_clear l).
Proof.
  induction l as [|[] l IH]; simpl; intros H; [lia| |by eexists].
  destruct (IH H) as [k ->]. by eexists.
Qed.

(** Setting a clear bit removes exactly one clear bit; clearing a set bit
    adds one. *)
Lemma count_clear_set l n :
  l !! n = Some false -> count_clear l = S (count_clear (<[n := true]> l)).
Proof.
  revert n. induction l as [|b l IH]; intros [|n]; simpl; intros H; [done|done| |].
  - by injection H as ->.
  - destruct b; rewrite (IH n H); done.
Qed.

Lemma count_clear_clear l n :
  l !! n = Some true -> count_clear (<[n := false]> l) = S (count_clear l).
Proof.
  revert n. induction l as [|b l IH]; intros [|n]; simpl; intros H; [done|done| |].
  - by injection H as ->.
  - destruct b; rewrite (IH n H); done.
Qed.

Lemma count_clear_app l k :
  count_clear (l ++ k) = (count_clear l + count_clear k)%nat.
Proof. induction l as [|[] l IH]; simpl; lia. Qed.

Module BitMap.

(** ** State *)
Definition BitsInByte : Z := 8.
Definition BitsInWord : Z := 32.

Record BitMap := mkBitMap {
  numBits : Z;        (* number of bits in the bitmap *)
  numWords : Z;       (* number of words of bitmap storage *)
  map : list Z        (* bit storage, [unsigned int] words *)
}.

Definition set_map (m : list Z) (b : BitMap) : BitMap :=
  mkBitMap (numBits b) (numWords b) m.

(** ** Operations *)

(** The word index and the mask the three bit operations compute. *)
Definition word_of (which : Z) : Z := Z.quot which BitsInWord.
Definition mask_of (which : Z) : Z := Z.shiftl 1 (Z.rem which BitsInWord).

Definition Mark (which : Z) (b : BitMap) : res BitMap :=
  ASSERT ((0 <=? which) && (which <? numBits b));;
  w ← zget (map b) (word_of which);
  m ← zset (map b) (word_of which) (Z.lor w (u32 (mask_of which)));
  Ok (set_map m b).

Definition Clear (which : Z) (b : BitMap) : res BitMap :=
  ASSERT ((0 <=? which) && (which <? numBits b));;
  w ← zget (map b) (word_of which);
  m ← zset (map b) (word_of which) (Z.land w (u32 (Z.lnot (mask_of which))));
  Ok (set_map m b).

Definition Test (which : Z) (b : BitMap) : res bool :=
  ASSERT ((0 <=? which) && (which <? numBits b));;
  w ← zget (map b) (word_of which);
  Ok (negb (Z.land w (u32 (mask_of which)) =? 0)).

(** [BitMap(nitems)]; [storage] is what [new unsigned int[numWords]]
    returns, which C++ leaves uninitialised. *)
Definition new (nitems : Z) (storage : list Z) : res BitMap :=
  let b := mkBitMap nitems (divRoundUp nitems BitsInWord) storage in
  for_range (Z.to_nat nitems) 0 Clear b.

(** [Find()] returns the number found, or -1, and the updated map. *)
Definition Find (b : BitMap) : res (Z * BitMap) :=
  o ← for_find (Z.to_nat (numBits b)) 0
        (fun i b =>
           t ← Test i b;
           if negb t then (b' ← Mark i b; Ok (inr (i, b'))) else Ok (inl b))
        b;
  match o with
  | inr r => Ok r
  | inl b => Ok (-1, b)
  end.

Definition NumClear (b : BitMap) : res Z :=
  for_range (Z.to_nat (numBits b)) 0
    (fun i count => t ← Test i b; Ok (if negb t then count + 1 else count)) 0.

(** [Print()]: the numbers written, in order. *)
Definition Print (b : BitMap) : res (list Z) :=
  for_range (Z.to_nat (numBits b)) 0
    (fun i out => t ← Test i b; Ok (if (t : bool) then out ++ [i] else out)) [].

(** The storage as the bytes [(char * )map] that [WriteBack] writes, and the
    words [FetchFrom] leaves after reading such bytes. *)
Fixpoint to_bytes (m : list Z) : list Z :=
  match m with
  | [] => []
  | w :: m' => le_bytes 4 w ++ to_bytes m'
  end.

Fixpoint of_bytes (n : nat) (bs : list Z) : list Z :=
  match n with
  | O => []
  | S n' => le_value (take 4 bs) :: of_bytes n' (drop 4 bs)
  end.

(** ** The abstraction *)

Definition bit_at (m : list Z) (i : Z) : bool :=
  match m !! Z.to_nat (i / 32) with
  | Some w => Z.testbit w (i mod 32)
  | None => false
  end.

Definition abs (b : BitMap) : list bool := bit_at (map b) <$> seqZ 0 (numBits b).

(** The invariant of the class. *)
Record wf (b : BitMap) : Prop := {
  wf_bits : 0 <= numBits b;
  wf_numWords : numWords b = divRoundUp (numBits b) BitsInWord;
  wf_words : Z.of_nat (length (map b)) = numWords b;
  wf_word : Forall is_u32 (map b)
}.

(** ** Words and bits *)

Lemma word_of_div which : 0 <= which -> word_of which = which / 32.
Proof. intros. by apply Z.quot_div_nonneg. Qed.

Lemma mask_of_pow which : 0 <= which -> mask_of which = 2 ^ (which mod 32).
Proof.
  intros. unfold mask_of, BitsInWord. rewrite Z.rem_mod_nonneg by lia.
  rewrite Z.shiftl_1_l. done.
Qed.

Lemma mask_range which : 0 <= which -> is_u32 (mask_of which).
Proof.
  intros. rewrite mask_of_pow by done.
  pose proof (Z.mod_pos_bound which 32 ltac:(lia)). split.
  - apply Z.pow_nonneg. lia.
  - apply Z.pow_lt_mono_r; lia.
Qed.

Lemma mask_testbit which i :
  0 <= which -> 0 <= i ->
  Z.testbit (u32 (mask_of which)) i = bool_decide (which mod 32 = i).
Proof.
  intros. rewrite u32_id by by apply mask_range. rewrite mask_of_pow by done.
  pose proof (Z.mod_pos_bound which 32 ltac:(lia)).
  rewrite Z.pow2_bits_eqb by lia. case_bool_decide; zcases; done || lia.
Qed.

Lemma unmask_testbit which i :
  0 <= which -> 0 <= i < 32 ->
  Z.testbit (u32 (Z.lnot (mask_of which))) i = negb (bool_decide (which mod 32 = i)).
Proof.
  intros. rewrite u32_testbit, Z.lnot_spec by lia.
  rewrite <- (mask_testbit which i) by lia.
  rewrite u32_id by by apply mask_range.
  rewrite bool_decide_true by lia. by rewrite andb_true_r.
Qed.

Lemma log2_u32 x : is_u32 x -> Z.log2 x < 32.
Proof.
  intros [? ?]. destruct (decide (x = 0)) as [->|]; [done|].
  apply Z.log2_lt_pow2; lia.
Qed.

Lemma lor_u32 a b : is_u32 a -> is_u32 b -> is_u32 (Z.lor a b).
Proof.
  intros Ha Hb. pose proof (log2_u32 a Ha). pose proof (log2_u32 b Hb).
  destruct Ha, Hb. assert (0 <= Z.lor a b) by by apply Z.lor_nonneg.
  split; [done|].
  destruct (decide (Z.lor a b = 0)) as [->|]; [lia|].
  apply Z.log2_lt_pow2; [lia|]. rewrite Z.log2_lor by done. lia.
Qed.

Lemma land_u32 a b : is_u32 b -> is_u32 (Z.land a b).
Proof.
  intros Hb. enough (Z.land a b = u32 (Z.land a b)) as -> by apply u32_range.
  apply Z.bits_inj'. intros n _.
  rewrite u32_testbit, Z.land_spec, <- andb_assoc. f_equal.
  by rewrite <- u32_testbit, u32_id.
Qed.

(** The bit [i] after word [which / 32] has become [w]. *)
Lemma bit_at_insert m which w i :
  0 <= i -> 0 <= which -> which / 32 < Z.of_nat (length m) ->
  bit_at (<[Z.to_nat (which / 32) := w]> m) i =
    if decide (i / 32 = which / 32) then Z.testbit w (i mod 32)
    else bit_at m i.
Proof.
  intros Hi Hw Hl. unfold bit_at.
  pose proof (Z.div_pos i 32 Hi ltac:(lia)). pose proof (Z.div_pos which 32 Hw ltac:(lia)).
  case_decide as Heq.
  - rewrite Heq, list_lookup_insert_eq by lia. done.
  - rewrite list_lookup_insert_ne by lia. done.
Qed.

Lemma div_mod_inj i j : i / 32 = j / 32 -> i mod 32 = j mod 32 -> i = j.
Proof.
  intros. pose proof (Z.div_mod i 32). pose proof (Z.div_mod j 32). lia.
Qed.

(** The storage has a word for every bit. *)
Lemma wf_word_of b which :
  wf b -> 0 <= which < numBits b ->
  0 <= which / 32 < Z.of_nat (length (map b)).
Proof.
  intros [H0 Hn Hl _] Hw. rewrite Hl, Hn.
  pose proof (divRoundUp_spec (numBits b) BitsInWord H0 ltac:(done)).
  unfold BitsInWord in *. split; [by apply Z.div_pos; lia|].
  apply Z.div_lt_upper_bound; lia.
Qed.

(** ** The three bit operations *)

Lemma Mark_spec b which :
  wf b -> 0 <= which < numBits b ->
  exists b', Mark which b = Ok b' /\ wf b' /\ numBits b' = numBits b /\
    forall i, 0 <= i -> bit_at (map b') i = bool_decide (i = which) || bit_at (map b) i.
Proof.
  intros Hwf Hw. pose proof (wf_word_of b which Hwf Hw) as Hr.
  destruct Hwf as [H0 Hn Hl Hu].
  unfold Mark. rewrite ASSERT_true by (apply andb_true_intro; zcases; lia). simpl.
  rewrite word_of_div by lia.
  destruct (zget_is_Ok _ _ Hr) as [w Hg]. rewrite Hg. simpl.
  rewrite zset_eq by done. simpl. eexists; split; [done|].
  apply zget_Ok in Hg as [_ Hg].
  assert (is_u32 w) by (eapply Forall_lookup_1; eauto).
  split; [|split; [done|]].
  - split; simpl; [done|done|by rewrite length_insert|].
    apply Forall_insert; [done|]. apply lor_u32; auto with nachos.
  - intros i Hi. simpl. rewrite bit_at_insert by lia. unfold bit_at at 2.
    pose proof (Z.mod_pos_bound i 32 ltac:(lia)).
    case_decide as Heq.
    + rewrite Z.lor_spec, mask_testbit by lia. rewrite Heq, Hg, orb_comm.
      f_equal. apply bool_decide_ext. split; [|by intros ->].
      intros. by apply div_mod_inj.
    + rewrite bool_decide_false; [done|]. by intros ->.
Qed.

Lemma Clear_spec b which :
  wf b -> 0 <= which < numBits b ->
  exists b', Clear which b = Ok b' /\ wf b' /\ numBits b' = numBits b /\
    forall i, 0 <= i ->
      bit_at (map b') i = negb (bool_decide (i = which)) && bit_at (map b) i.
Proof.
  intros Hwf Hw. pose proof (wf_word_of b which Hwf Hw) as Hr.
  destruct Hwf as [H0 Hn Hl Hu].
  unfold Clear. rewrite ASSERT_true by (apply andb_true_intro; zcases; lia). simpl.
  rewrite word_of_div by lia.
  destruct (zget_is_Ok _ _ Hr) as [w Hg]. rewrite Hg. simpl.
  rewrite zset_eq by done. simpl. eexists; split; [done|].
  apply zget_Ok in Hg as [_ Hg].
  split; [|split; [done|]].
  - split; simpl; [done|done|by rewrite length_insert|].
    apply Forall_insert; [done|]. apply land_u32; auto with nachos.
  - intros i Hi. simpl. rewrite bit_at_insert by lia. unfold bit_at at 2.
    pose proof (Z.mod_pos_bound i 32 ltac:(lia)).
    case_decide as Heq.
    + rewrite Z.land_spec, unmask_testbit by lia. rewrite Heq, Hg, andb_comm.
      f_equal. f_equal. apply bool_decide_ext. split; [|by intros ->].
      intros. by apply div_mod_inj.
    + rewrite bool_decide_false; [done|]. by intros ->.
Qed.

Lemma Test_spec b which :
  wf b -> 0 <= which < numBits b -> Test which b = Ok (bit_at (map b) which).
Proof.
  intros Hwf Hw. pose proof (wf_word_of b which Hwf Hw) as Hr.
  unfold Test. rewrite ASSERT_true by (apply andb_true_intro; zcases; lia). simpl.
  rewrite word_of_div by lia.
  destruct (zget_is_Ok _ _ Hr) as [w Hg]. rewrite Hg. simpl.
  apply zget_Ok in Hg as [_ Hg]. unfold bit_at. rewrite Hg. f_equal.
  pose proof (Z.mod_pos_bound which 32 ltac:(lia)).
  assert (Z.testbit (Z.land w (u32 (mask_of which))) (which mod 32)
          = Z.testbit w (which mod 32)) as Hb.
  { rewrite Z.land_spec, mask_testbit, bool_decide_true by lia.
    by rewrite andb_true_r. }
  destruct (Z.eqb_spec (Z.land w (u32 (mask_of which))) 0) as [Hz|Hz]; simpl.
  - rewrite Hz, Z.bits_0 in Hb. done.
  - rewrite <- Hb. symmetry. apply not_false_is_true. intros Hf. apply Hz.
    apply Z.bits_inj_0. intros n. rewrite Z.land_spec.
    destruct (decide (0 <= n)); [|by rewrite Z.testbit_neg_r by lia].
    rewrite mask_testbit by lia. case_bool_decide; [|by rewrite andb_false_r].
    subst n. by rewrite <- Hb, Hf.
Qed.

(** ** Refinement: the operations on the abstract bit set *)

Lemma length_abs b : length (abs b) = Z.to_nat (numBits b).
Proof. unfold abs. by rewrite length_fmap, length_seqZ. Qed.

Lemma abs_lookup b n :
  Z.of_nat n < numBits b -> abs b !! n = Some (bit_at (map b) (Z.of_nat n)).
Proof.
  intros. unfold abs. rewrite list_lookup_fmap, lookup_seqZ_lt by lia. done.
Qed.

Lemma abs_lookup_Z b i :
  0 <= i < numBits b -> abs b !! Z.to_nat i = Some (bit_at (map b) i).
Proof. intros. rewrite abs_lookup by lia. by rewrite Z2Nat.id by lia. Qed.

Lemma abs_lookup_inv b n x :
  abs b !! n = Some x -> Z.of_nat n < numBits b /\ x = bit_at (map b) (Z.of_nat n).
Proof.
  intros H. assert (Z.of_nat n < numBits b).
  { apply lookup_lt_Some in H. rewrite length_abs in H. lia. }
  rewrite abs_lookup in H by done. split; congruence.
Qed.

(** A map that agrees with [b] except at one number. *)
Lemma abs_update b b' which v :
  numBits b' = numBits b -> 0 <= which < numBits b ->
  (forall i, 0 <= i -> bit_at (map b') i =
     if decide (i = which) then v else bit_at (map b) i) ->
  abs b' = <[Z.to_nat which := v]> (abs b).
Proof.
  intros Hn Hw Hb. apply list_eq. intros n.
  destruct (decide (Z.of_nat n < numBits b)) as [Hlt|Hge].
  - rewrite abs_lookup by lia. rewrite Hb by lia. case_decide as Heq.
    + subst which. rewrite Nat2Z.id, list_lookup_insert_eq; [done|].
      rewrite length_abs. lia.
    + rewrite list_lookup_insert_ne by lia. by rewrite abs_lookup by lia.
  - rewrite !lookup_ge_None_2; [done| |].
    + rewrite length_insert, length_abs. lia.
    + rewrite length_abs, Hn. lia.
Qed.

Lemma Mark_abs b which :
  wf b -> 0 <= which < numBits b ->
  exists b', Mark which b = Ok b' /\ wf b' /\ numBits b' = numBits b /\
    abs b' = <[Z.to_nat which := true]> (abs b).
Proof.
  intros Hwf Hw. destruct (Mark_spec b which Hwf Hw) as (b' & ? & ? & ? & Hb).
  exists b'. do 3 (split; [done|]). apply abs_update; [done..|].
  intros i Hi. rewrite Hb by done. case_decide; by case_bool_decide.
Qed.

Lemma Clear_abs b which :
  wf b -> 0 <= which < numBits b ->
  exists b', Clear which b = Ok b' /\ wf b' /\ numBits b' = numBits b /\
    abs b' = <[Z.to_nat which := false]> (abs b).
Proof.
  intros Hwf Hw. destruct (Clear_spec b which Hwf Hw) as (b' & ? & ? & ? & Hb).
  exists b'. do 3 (split; [done|]). apply abs_update; [done..|].
  intros i Hi. rewrite Hb by done. case_decide; by case_bool_decide.
Qed.

(** An assertion stops every operation on a number out of range. *)
Lemma out_of_range b which :
  ~ 0 <= which < numBits b ->
  Mark which b = Abort /\ Clear which b = Abort /\ Test which b = Abort.
Proof.
  intros H. unfold Mark, Clear, Test.
  assert ((0 <=? which) && (which <? numBits b) = false) as ->; [|done].
  zcases; done || lia.
Qed.

Lemma Find_search b k n :
  wf b -> 0 <= k -> k + Z.of_nat n = numBits b ->
  for_find n k
    (fun i b => t ← Test i b;
       if negb t then (b' ← Mark i b; Ok (inr (i, b'))) else Ok (inl b)) b
  = match first_clear (drop (Z.to_nat k) (abs b)) with
    | None => Ok (inl b)
    | Some m => b' ← Mark (k + Z.of_nat m) b; Ok (inr (k + Z.of_nat m, b'))
    end.
Proof.
  intros Hwf. revert k. induction n as [|n IH]; intros k Hk Hn; simpl.
  - rewrite drop_ge; [done|]. rewrite length_abs. lia.
  - rewrite Test_spec by (done || lia). simpl.
    erewrite (drop_S (abs b)); [|by apply abs_lookup_Z; lia].
    simpl. destruct (bit_at (map b) k) eqn:Hb; simpl.
    + rewrite IH by lia. replace (Z.to_nat (k + 1)) with (S (Z.to_nat k)) by lia.
      destruct (first_clear _) as [m|]; simpl; [|done].
      by replace (k + 1 + Z.of_nat m) with (k + Z.of_nat (S m)) by lia.
    + rewrite Z.add_0_r. destruct (Mark k b); done.
Qed.

(** [Find] returns the first clear number and marks it, or -1 when every
    number is set. *)
Lemma Find_spec b :
  wf b ->
  match first_clear (abs b) with
  | None => Find b = Ok (-1, b)
  | Some n => exists b', Find b = Ok (Z.of_nat n, b') /\ wf b' /\
      numBits b' = numBits b /\ Z.of_nat n < numBits b /\
      abs b' = <[n := true]> (abs b)
  end.
Proof.
  intros Hwf. pose proof (wf_bits b Hwf) as H0. unfold Find.
  rewrite (Find_search b 0) by (done || lia). change (Z.to_nat 0) with O.
  rewrite drop_0. destruct (first_clear (abs b)) as [n|] eqn:Hf; simpl; [|done].
  apply first_clear_Some in Hf as [Hf _]. apply abs_lookup_inv in Hf as [Hlt _].
  rewrite Z.add_0_l.
  destruct (Mark_abs b (Z.of_nat n) Hwf ltac:(lia)) as (b' & -> & Hwf' & Hn & Ha).
  simpl. exists b'. rewrite Nat2Z.id in Ha. done.
Qed.

Lemma abs_take_S b k :
  0 <= k < numBits b ->
  take (Z.to_nat (k + 1)) (abs b) = take (Z.to_nat k) (abs b) ++ [bit_at (map b) k].
Proof.
  intros. replace (Z.to_nat (k + 1)) with (S (Z.to_nat k)) by lia.
  apply take_S_r, abs_lookup_Z. done.
Qed.

Lemma NumClear_spec b :
  wf b -> NumClear b = Ok (Z.of_nat (count_clear (abs b))).
Proof.
  intros Hwf. pose proof (wf_bits b Hwf) as H0. unfold NumClear.
  destruct (for_range_rule
    (fun i c => c = Z.of_nat (count_clear (take (Z.to_nat i) (abs b))))
    (Z.to_nat (numBits b)) 0
    (fun i count => t ← Test i b; Ok (if negb t then count + 1 else count)) 0)
    as (c & -> & Hc).
  - done.
  - intros i c Hi ->. rewrite Test_spec by (done || lia). simpl.
    eexists; split; [done|]. rewrite abs_take_S by lia.
    rewrite count_clear_app. simpl. destruct (bit_at (map b) i); simpl; lia.
  - rewrite Hc, take_ge; [done|]. rewrite length_abs. lia.
Qed.

(** [Print] writes the numbers whose bit is set, in increasing order. *)
Lemma Print_spec b :
  wf b ->
  Print b = Ok (filter (fun i => bit_at (map b) i = true) (seqZ 0 (numBits b))).
Proof.
  intros Hwf. pose proof (wf_bits b Hwf) as H0. unfold Print.
  destruct (for_range_rule
    (fun i out => out = filter (fun i => bit_at (map b) i = true) (seqZ 0 i))
    (Z.to_nat (numBits b)) 0
    (fun i out => t ← Test i b; Ok (if (t : bool) then out ++ [i] else out)) [])
    as (c & -> & Hc).
  - done.
  - intros i c Hi ->. rewrite Test_spec by (done || lia). simpl.
    eexists; split; [done|]. rewrite seqZ_app by lia. rewrite filter_app.
    rewrite Z.add_0_l. change (seqZ i 1) with [i].
    rewrite filter_cons, filter_nil.
    destruct (bit_at (map b) i); simpl; [done|]. by rewrite app_nil_r.
  - rewrite Hc. do 3 f_equal. lia.
Qed.

(** The constructor: every number is clear, whatever the storage held. *)
Lemma new_spec nitems storage :
  0 <= nitems -> Z.of_nat (length storage) = divRoundUp nitems BitsInWord ->
  Forall is_u32 storage ->
  exists b, new nitems storage = Ok b /\ wf b /\ numBits b = nitems /\
    abs b = replicate (Z.to_nat nitems) false.
Proof.
  intros H0 Hl Hu. unfold new.
  set (b0 := mkBitMap nitems (divRoundUp nitems BitsInWord) storage).
  destruct (for_range_rule
    (fun k b => wf b /\ numBits b = nitems /\
       forall i, 0 <= i < k -> bit_at (map b) i = false)
    (Z.to_nat nitems) 0 Clear b0) as (b & -> & Hwf & Hn & Hb).
  - split; [by split|]. split; [done|]. lia.
  - intros i b Hi (Hwf & Hn & Hb).
    destruct (Clear_spec b i Hwf ltac:(lia)) as (b' & HC & Hwf' & Hn' & Hb').
    exists b'. split; [done|]. split; [done|]. split; [congruence|].
    intros j Hj. rewrite Hb' by lia. case_bool_decide; [done|].
    rewrite Hb by lia. done.
  - exists b. do 3 (split; [done|]). apply list_eq. intros n.
    destruct (decide (Z.of_nat n < nitems)).
    + rewrite abs_lookup, Hb by lia. rewrite lookup_replicate_2 by lia. done.
    + rewrite !lookup_ge_None_2; [done| |].
      * rewrite length_replicate. lia.
      * rewrite length_abs. lia.
Qed.

(** ** The storage in a file *)

Lemma length_to_bytes m : length (to_bytes m) = (4 * length m)%nat.
Proof.
  induction m as [|w m IH]; cbn [to_bytes]; [done|].
  rewrite length_app, length_le_bytes, IH. simpl. lia.
Qed.

Lemma to_bytes_byte m : Forall is_byte (to_bytes m).
Proof.
  induction m as [|w m IH]; cbn [to_bytes]; [done|].
  apply Forall_app; split; [apply le_bytes_byte|done].
Qed.

Lemma of_to_bytes m :
  Forall is_u32 m -> of_bytes (length m) (to_bytes m) = m.
Proof.
  induction 1 as [|w m Hw _ IH]; [done|].
  cbn [to_bytes of_bytes length].
  rewrite take_app_length', drop_app_length' by by rewrite length_le_bytes.
  by rewrite IH, le_value_u32, u32_id.
Qed.

(** ** Properties *)

(** [Mark], [Clear] and [Test] on a well-formed map set, reset and read
    exactly one bit, and stop the simulator for a number out of range. *)
Theorem bit_operations_correct b which :
  wf b ->
  (0 <= which < numBits b ->
    (exists b', Mark which b = Ok b' /\ wf b' /\
      abs b' = <[Z.to_nat which := true]> (abs b)) /\
    (exists b', Clear which b = Ok b' /\ wf b' /\
      abs b' = <[Z.to_nat which := false]> (abs b)) /\
    exists v, abs b !! Z.to_nat which = Some v /\ Test which b = Ok v) /\
  (~ 0 <= which < numBits b ->
    Mark which b = Abort /\ Clear which b = Abort /\ Test which b = Abort).
Proof.
  intros Hb. split; [|apply out_of_range]. intros Hw. split; [|split].
  - destruct (Mark_abs b which Hb Hw) as (b' & E & Hb' & _ & Ha). by exists b'.
  - destruct (Clear_abs b which Hb Hw) as (b' & E & Hb' & _ & Ha). by exists b'.
  - exists (bit_at (map b) which). split; [by apply abs_lookup_Z|by apply Test_spec].
Qed.

(** [Find] takes the lowest clear bit and marks it, and answers -1 exactly
    when every bit is set; [NumClear] counts the clear bits and [Print] lists the
    set ones. *)
Theorem bitmap_search_correct b :
  wf b ->
  match first_clear (abs b) with
  | Some n => exists b', Find b = Ok (Z.of_nat n, b') /\ wf b' /\
      abs b !! n = Some false /\ (forall m, (m < n)%nat -> abs b !! m = Some true) /\
      abs b' = <[n := true]> (abs b) /\
      (count_clear (abs b) = S (count_clear (abs b')))
  | None => Find b = Ok (-1, b) /\ forall n v, abs b !! n = Some v -> v = true
  end /\
  NumClear b = Ok (Z.of_nat (count_clear (abs b))) /\
  Print b = Ok (filter (fun i => bit_at (map b) i = true) (seqZ 0 (numBits b))).
Proof.
  intros Hb. split; [|split; [by apply NumClear_spec|by apply Print_spec]].
  pose proof (Find_spec b Hb) as Hf. destruct (first_clear (abs b)) as [n|] eqn:E.
  - destruct Hf as (b' & Ef & Hb' & _ & _ & Ha). apply first_clear_Some in E as [E1 E2].
    exists b'. split_and!; try done. rewrite Ha. by apply count_clear_set.
  - split; [done|]. intros n v. by apply first_clear_None.
Qed.

Lemma bit_operations_correct_witness :
  Test 9 (mkBitMap 40 2 [512; 0]) = Ok true /\ Test 40 (mkBitMap 40 2 [512; 0]) = Abort.
Proof.
  assert (wf (mkBitMap 40 2 [512; 0])) as Hb
    by (split; [done|done|done|by repeat apply Forall_cons_2]).
  destruct (bit_operations_correct _ 9 Hb) as [Hin _].
  destruct (bit_operations_correct _ 40 Hb) as [_ Hout]. split.
  - destruct Hin as (_ & _ & v & Hl & E); [done|]. rewrite E. vm_compute in Hl. congruence.
  - apply Hout. cbn. lia.
Defined.

Lemma bitmap_search_correct_witness :
  exists b', Find (mkBitMap 40 2 [7; 0]) = Ok (3, b').
Proof.
  assert (wf (mkBitMap 40 2 [7; 0])) as Hb
    by (split; [done|done|done|by repeat apply Forall_cons_2]).
  destruct (bitmap_search_correct _ Hb) as [Hf _].
  change (first_clear _) with (Some 3%nat) in Hf.
  destruct Hf as (b' & E & _). exists b'. exact E.
Defined.

End BitMap.
