(* ===== verification/LinkedList.v ===== *)
(** threads/list.h: the singly linked list [List<Item>] used for the ready
    list, the waiting queues and the pending interrupts.

    Module [NList] models the list on an explicit heap of [ListElement]s with
    [first], [last] and [next] pointers; a dereference of a null or dangling
    pointer is [UB].  [repr h l locs xs] says that the list object [l] holds
    the pairs (key, item) [xs], stored in the cells [locs].  The refinement
    theorems state each operation as a function on [xs]; the other components
    use those functions ([append], [sorted_insert], ...). *)

From S2P Require Import Prelude.

(** ** The abstract list: pairs (key, item), front first *)
Section abstract.
Context {Item : Type}.
Implicit Types xs : list (Z * Item).

Definition append (x : Item) xs := xs ++ [(0, x)].
Definition prepend (x : Item) xs := (0, x) :: xs.

(** Insertion before the first element with a greater key. *)
Fixpoint sorted_insert (x : Item) (sortKey : Z) xs :=
  match xs with
  | [] => [(sortKey, x)]
  | (k, y) :: xs' =>
      if sortKey <? k then (sortKey, x) :: xs
      else (k, y) :: sorted_insert x sortKey xs'
  end.

(** Every key is at most the keys after it. *)
Fixpoint sorted xs : Prop :=
  match xs with
  | [] => True
  | (k, _) :: xs' => Forall (fun p => k <= p.1) xs' /\ sorted xs'
  end.

Lemma filter_none {A} (P : A -> Prop) `{!forall x, Decision (P x)} (l : list A) :
  Forall (fun x => ~ P x) l -> filter P l = [].
Proof.
  induction 1; [done|]. by rewrite filter_cons_False.
Qed.

Lemma sorted_insert_perm x k xs : sorted_insert x k xs ≡ₚ (k, x) :: xs.
Proof.
  induction xs as [|[k' y] xs IH]; simpl; [done|].
  destruct (k <? k'); [done|]. rewrite IH. apply Permutation_swap.
Qed.

Lemma sorted_insert_sorted x k xs : sorted xs -> sorted (sorted_insert x k xs).
Proof.
  induction xs as [|[k' y] xs IH]; simpl; [done|]. intros [Hall Hs].
  destruct (Z.ltb_spec k k'); simpl.
  - split; [|done]. constructor; [simpl; lia|].
    eapply Forall_impl; [exact Hall|]. intros p. simpl. lia.
  - split; [|by apply IH]. rewrite sorted_insert_perm. constructor; [simpl; lia|done].
Qed.

(** Elements with equal keys keep the order of their insertion. *)
Lemma sorted_insert_stable x k k0 xs :
  sorted xs ->
  filter (fun p => p.1 = k0) (sorted_insert x k xs) =
  filter (fun p => p.1 = k0) xs ++ (if decide (k = k0) then [(k, x)] else []).
Proof.
  induction xs as [|[k' y] xs IH]; simpl; intros Hs.
  - rewrite filter_cons. simpl. by case_decide.
  - destruct Hs as [Hall Hs]. destruct (Z.ltb_spec k k').
    + rewrite filter_cons. simpl. case_decide as Hk; [|by rewrite app_nil_r].
      rewrite filter_cons_False by (simpl; lia).
      rewrite filter_none; [done|].
      eapply Forall_impl; [exact Hall|]. intros [k1 ?]. simpl. lia.
    + rewrite !filter_cons. simpl. rewrite IH by done. by destruct (decide (k' = k0)).
Qed.
End abstract.

Module NList.

Abbreviation lastof := last.

(** ** State *)

(** The address of a list element; [None] is [NULL]. *)
Abbreviation loc := positive.

Section list.
Context {Item : Type}.

Record ListElement := mkElement {
  next : option loc;   (* next element on list, NULL if this is the last *)
  key : Z;             (* priority, for a sorted list *)
  item : Item          (* item on the list *)
}.

Abbreviation heap := (gmap loc ListElement).

Record List := mkList {
  first : option loc;  (* head of the list, NULL if list is empty *)
  last : option loc    (* last element of list *)
}.

(** [*p] and [p->next = n]. *)
Definition deref (h : heap) (p : option loc) : res ListElement :=
  match p with
  | Some a => match h !! a with Some e => Ok e | None => UB end
  | None => UB
  end.

Definition set_next (h : heap) (p : option loc) (n : option loc) : res heap :=
  match p with
  | Some a =>
      match h !! a with
      | Some e => Ok (<[a := mkElement n (key e) (item e)]> h)
      | None => UB
      end
  | None => UB
  end.

(** ** Operations *)

(** [new ListNode(anItem, sortKey)] *)
Definition new_element (h : heap) (anItem : Item) (sortKey : Z) : loc * heap :=
  let a := fresh (dom h) in (a, <[a := mkElement None sortKey anItem]> h).

(** [List::List()] *)
Definition new_list : List := mkList None None.

Definition IsEmpty (l : List) : bool :=
  match first l with None => true | Some _ => false end.

Definition Append (it : Item) (h : heap) (l : List) : res (heap * List) :=
  let '(element, h) := new_element h it 0 in
  if IsEmpty l then Ok (h, mkList (Some element) (Some element))
  else
    h' ← set_next h (last l) (Some element);
    Ok (h', mkList (first l) (Some element)).

Definition Prepend (it : Item) (h : heap) (l : List) : res (heap * List) :=
  let '(element, h) := new_element h it 0 in
  if IsEmpty l then Ok (h, mkList (Some element) (Some element))
  else
    h' ← set_next h (Some element) (first l);
    Ok (h', mkList (Some element) (last l)).

(** The [for] loop of [SortedInsert], from [ptr]; [fuel] bounds the walk. *)
Fixpoint insert_loop (fuel : nat) (element : loc) (sortKey : Z) (ptr : option loc)
    (h : heap) (l : List) : res (heap * List) :=
  match fuel with
  | O => NoFuel
  | S fuel =>
      e ← deref h ptr;
      match next e with
      | None =>
          (* item goes at end of list *)
          h' ← set_next h (last l) (Some element);
          Ok (h', mkList (first l) (Some element))
      | Some n =>
          en ← deref h (Some n);
          if sortKey <? key en then
            h1 ← set_next h (Some element) (next e);
            h2 ← set_next h1 ptr (Some element);
            Ok (h2, l)
          else insert_loop fuel element sortKey (Some n) h l
      end
  end.

Definition SortedInsert (it : Item) (sortKey : Z) (h : heap) (l : List)
    : res (heap * List) :=
  let '(element, h) := new_element h it sortKey in
  if IsEmpty l then Ok (h, mkList (Some element) (Some element))
  else
    f ← deref h (first l);
    if sortKey <? key f then
      h' ← set_next h (Some element) (first l);
      Ok (h', mkList (Some element) (last l))
    else insert_loop (size h) element sortKey (first l) h l.

(** [SortedRemove(keyPtr)]: the removed item and the key stored in
    [*keyPtr]; [None] is [Item()] on an empty list. *)
Definition SortedRemove (h : heap) (l : List)
    : res (option (Z * Item) * heap * List) :=
  if IsEmpty l then Ok (None, h, l)
  else
    element ← deref h (first l);
    let l' := if bool_decide (first l = last l) then mkList None None
              else mkList (next element) (last l) in
    match first l with
    | Some a => Ok (Some (key element, item element), delete a h, l')
    | None => UB
    end.

(** [Remove()]: same as [SortedRemove], but ignore the key. *)
Definition Remove (h : heap) (l : List) : res (option Item * heap * List) :=
  '(o, h', l') ← SortedRemove h l; Ok (snd <$> o, h', l').

(** [Apply(func)]: the effect of the calls of [func], in order, on [s]. *)
Fixpoint apply_loop {T} (fuel : nat) (func : Item -> T -> T) (ptr : option loc)
    (h : heap) (s : T) : res T :=
  match ptr with
  | None => Ok s
  | Some a =>
      match fuel with
      | O => NoFuel
      | S fuel =>
          e ← deref h (Some a);
          apply_loop fuel func (next e) h (func (item e) s)
      end
  end.

Definition Apply {T} (func : Item -> T -> T) (h : heap) (l : List) (s : T) : res T :=
  apply_loop (size h) func (first l) h s.

(** [~List()]: remove until the list is empty. *)
Fixpoint destroy_loop (fuel : nat) (h : heap) (l : List) : res heap :=
  if IsEmpty l then Ok h
  else
    match fuel with
    | O => NoFuel
    | S fuel => '(_, h', l') ← Remove h l; destroy_loop fuel h' l'
    end.

Definition destroy (h : heap) (l : List) : res heap := destroy_loop (size h) h l.
End list.
Arguments ListElement : clear implicits.

(** ** Representation *)

Section repr.
Context {Item : Type}.
Abbreviation heap := (gmap loc (ListElement Item)).
Implicit Types (h : heap) (l : List) (p : option loc) (locs : list loc)
  (xs : list (Z * Item)).

(** From [p], the cells [locs] hold [xs] and the last [next] is null. *)
Fixpoint chain h p locs xs : Prop :=
  match locs, xs with
  | [], [] => p = None
  | a :: locs', (k, x) :: xs' =>
      p = Some a /\ exists n, h !! a = Some (mkElement n k x) /\ chain h n locs' xs'
  | _, _ => False
  end.

Record repr h l locs xs : Prop := {
  repr_chain : chain h (first l) locs xs;
  repr_last : last l = lastof locs;
  repr_nodup : NoDup locs
}.

Lemma chain_frame h h' p locs xs :
  chain h p locs xs -> (forall a, a ∈ locs -> h' !! a = h !! a) -> chain h' p locs xs.
Proof.
  revert p xs. induction locs as [|a locs IH]; intros p [|[k x] xs]; simpl; try done.
  intros (-> & n & Ha & Hc) Hf. split; [done|]. exists n. split.
  - rewrite Hf; [done|]. by left.
  - apply IH; [done|]. intros b Hb. apply Hf. by right.
Qed.

Lemma chain_insert h p locs xs a e :
  chain h p locs xs -> a ∉ locs -> chain (<[a := e]> h) p locs xs.
Proof.
  intros Hc Ha. eapply chain_frame; [done|]. intros b Hb.
  rewrite lookup_insert_ne; [done|]. by intros ->.
Qed.

Lemma chain_dom h p locs xs a : chain h p locs xs -> a ∈ locs -> a ∈ dom h.
Proof.
  revert p xs. induction locs as [|b locs IH]; intros p [|[k x] xs]; simpl; try done.
  - intros _ H. by apply elem_of_nil in H.
  - intros (-> & n & Hb & Hc) [->|Ha]%elem_of_cons; [|by eapply IH].
    apply elem_of_dom. by eexists.
Qed.

Lemma chain_size h p locs xs :
  chain h p locs xs -> NoDup locs -> (length locs <= size h)%nat.
Proof.
  intros Hc Hnd. rewrite <- size_dom, <- (size_list_to_set (C := gset loc)) by done.
  apply subseteq_size. intros a Ha%elem_of_list_to_set. by eapply chain_dom.
Qed.

(** Linking the cell [a] after the last cell. *)
Lemma chain_snoc h p locs xs a c k x :
  chain h p locs xs -> NoDup locs -> lastof locs = Some c -> a ∉ locs ->
  h !! a = Some (mkElement None k x) ->
  exists h', set_next h (Some c) (Some a) = Ok h' /\
    chain h' p (locs ++ [a]) (xs ++ [(k, x)]) /\
    forall b, b <> c -> h' !! b = h !! b.
Proof.
  intros Hc Hnd Hl Ha Hx.
  assert (exists ec, h !! c = Some ec) as [ec Hec].
  { apply elem_of_dom, (chain_dom h p locs xs); [done|].
    rewrite last_lookup in Hl. by eapply list_elem_of_lookup_2. }
  simpl. rewrite Hec. eexists; split; [done|]. split.
  2: { intros b Hb. by rewrite lookup_insert_ne. }
  revert p xs Hc Hnd Hl Ha. induction locs as [|d locs IH]; [done|].
  intros p [|[k' x'] xs] Hc Hnd Hl Ha; [done|].
  destruct Hc as (-> & n & Hd & Hc). apply NoDup_cons in Hnd as [Hnin Hnd].
  apply not_elem_of_cons in Ha as [Hne Ha].
  destruct locs as [|d' locs].
  - injection Hl as ->. destruct xs as [|? xs]; [|done].
    rewrite Hd in Hec. injection Hec as <-. simpl.
    split; [done|]. eexists. rewrite lookup_insert_eq. split; [done|].
    split; [done|]. eexists. rewrite lookup_insert_ne by done.
    rewrite Hx. done.
  - cbn [app chain]. split; [done|]. exists n. split.
    + rewrite lookup_insert_ne; [done|]. intros ->. apply Hnin.
      rewrite last_cons_cons, last_lookup in Hl. by eapply list_elem_of_lookup_2.
    + apply IH; [done|done| |done]. by rewrite last_cons_cons in Hl.
Qed.

Lemma repr_empty h l locs xs :
  repr h l locs xs -> IsEmpty l = bool_decide (xs = []).
Proof.
  intros [Hc _ _]. unfold IsEmpty. destruct locs, xs as [|[]]; simpl in Hc; try done.
  - by rewrite Hc.
  - destruct Hc as [-> _]. done.
Qed.

Lemma fresh_notin h p locs xs : chain h p locs xs -> fresh (dom h) ∉ locs.
Proof. intros Hc Ha. eapply (is_fresh (dom h)), chain_dom; eauto. Qed.

(** The cells a list operation may change: its own and the new one. *)
Definition same_outside (cells : list loc) h h' : Prop :=
  forall b, b ∉ cells -> h' !! b = h !! b.

(** *** Insertion *)

Lemma last_app_single (locs : list loc) a : lastof (locs ++ [a]) = Some a.
Proof. apply last_snoc. Qed.

Lemma repr_first_last h l locs xs :
  repr h l locs xs -> xs <> [] ->
  exists a c, first l = Some a /\ last l = Some c /\ lastof locs = Some c /\
    a ∈ locs /\ c ∈ locs.
Proof.
  intros [Hc Hl Hnd] Hne. destruct locs as [|a locs], xs as [|[k x] xs]; try done.
  destruct Hc as [Hf _]. destruct (last_is_Some (a :: locs)) as [_ Hls].
  destruct Hls as [c Hcl]; [done|]. exists a, c. rewrite Hl. do 3 (split; [done|]).
  split; [by left|]. rewrite last_lookup in Hcl. by eapply list_elem_of_lookup_2.
Qed.

Lemma repr_singleton h a k x :
  repr (<[a := mkElement None k x]> h) (mkList (Some a) (Some a)) [a] [(k, x)].
Proof.
  split; [|done|apply NoDup_singleton]. simpl. split; [done|].
  exists None. by rewrite lookup_insert_eq.
Qed.

Lemma Append_refines it h l locs xs :
  repr h l locs xs ->
  exists h' l' a, Append it h l = Ok (h', l') /\ (a ∉ dom h) /\
    repr h' l' (locs ++ [a]) (append it xs) /\ same_outside (a :: locs) h h'.
Proof.
  intros Hr. unfold Append, new_element. cbn zeta iota beta.
  set (a := fresh (dom h)). assert ((a ∉ dom h)) as Ha by (apply is_fresh).
  assert (a ∉ locs) as Hal by (eapply fresh_notin, repr_chain; done).
  rewrite (repr_empty _ _ _ _ Hr). case_bool_decide as Hx.
  - subst xs. destruct Hr as [Hc _ _]. destruct locs as [|? ?]; [|done].
    do 3 eexists. split; [done|]. split; [done|]. split; [apply repr_singleton|].
    intros b Hb. rewrite lookup_insert_ne; [done|]. set_solver.
  - destruct (repr_first_last _ _ _ _ Hr Hx) as (f & c & Hf & Hl & Hlo & _ & Hcl).
    destruct Hr as [Hc Hlast Hnd]. rewrite Hl.
    destruct (chain_snoc (<[a := mkElement None 0 it]> h) (first l) locs xs a c 0 it)
      as (h' & -> & Hc' & Hs); [by apply chain_insert|done|done|done|by rewrite lookup_insert_eq|].
    simpl. do 3 eexists. split; [done|]. split; [done|]. split.
    + split; simpl; [done|by rewrite last_app_single|].
      apply NoDup_app; split; [done|]. split; [|apply NoDup_singleton]. set_solver.
    + intros b Hb. rewrite Hs by set_solver.
      rewrite lookup_insert_ne; [done|]. set_solver.
Qed.

Lemma Prepend_refines it h l locs xs :
  repr h l locs xs ->
  exists h' l' a, Prepend it h l = Ok (h', l') /\ (a ∉ dom h) /\
    repr h' l' (a :: locs) (prepend it xs) /\ same_outside (a :: locs) h h'.
Proof.
  intros Hr. unfold Prepend, new_element. cbn zeta iota beta.
  set (a := fresh (dom h)). assert ((a ∉ dom h)) as Ha by (apply is_fresh).
  assert (a ∉ locs) as Hal by (eapply fresh_notin, repr_chain; done).
  rewrite (repr_empty _ _ _ _ Hr). case_bool_decide as Hx.
  - subst xs. destruct Hr as [Hc _ _]. destruct locs as [|? ?]; [|done].
    do 3 eexists. split; [done|]. split; [done|]. split; [apply repr_singleton|].
    intros b Hb. rewrite lookup_insert_ne; [done|]. set_solver.
  - destruct (repr_first_last _ _ _ _ Hr Hx) as (f & c & Hf & Hl & Hlo & _ & _).
    destruct Hr as [Hc Hlast Hnd]. unfold set_next.
    rewrite lookup_insert_eq. simpl. rewrite insert_insert_eq.
    do 3 eexists. split; [done|]. split; [done|]. split.
    + split; simpl.
      * split; [done|]. exists (first l). rewrite lookup_insert_eq. split; [done|].
        by apply chain_insert.
      * rewrite Hlast. destruct locs; [done|]. by rewrite last_cons_cons.
      * by apply NoDup_cons.
    + intros b Hb. rewrite lookup_insert_ne; [done|]. set_solver.
Qed.

(** The walk of [SortedInsert] from a cell whose key is not greater. *)
Lemma insert_loop_refines element it sortKey fuel a k x p' locs xs h l :
  chain h p' (a :: locs) ((k, x) :: xs) -> p' = Some a -> NoDup (a :: locs) ->
  element ∉ a :: locs -> h !! element = Some (mkElement None sortKey it) ->
  last l = lastof (a :: locs) -> (length locs < fuel)%nat ->
  exists h' l' locs', insert_loop fuel element sortKey (Some a) h l = Ok (h', l') /\
    chain h' (Some a) (a :: locs') ((k, x) :: sorted_insert it sortKey xs) /\
    locs' ≡ₚ element :: locs /\ last l' = lastof (a :: locs') /\
    first l' = first l /\ same_outside (element :: a :: locs) h h'.
Proof.
  intros Hc ->. revert fuel a k x xs Hc.
  induction locs as [|b locs IH]; intros [|fuel] a k x xs Hc Hnd He Hh Hl Hf;
    try (simpl in Hf; lia).
  - destruct Hc as (_ & n & Ha & Hc). destruct xs as [|? ?]; [|done].
    cbn [chain] in Hc. subst n.
    destruct (chain_snoc h (Some a) [a] [(k, x)] element a sortKey it)
      as (h' & Hset & Hc' & Hs); [| |done|done|done|].
    { split; [done|]. by exists None. } { apply NoDup_singleton. }
    cbn [insert_loop deref]. rewrite Ha. cbn [bind next]. rewrite Hl. cbn [lastof].
    change (lastof [a]) with (Some a). rewrite Hset. simpl.
    exists h', (mkList (first l) (Some element)), [element].
    split; [done|]. split; [exact Hc'|]. split; [done|].
    do 2 (split; [done|]). intros c Hcn. apply Hs. set_solver.
  - destruct Hc as (_ & n & Ha & Hc). destruct xs as [|[k2 x2] xs]; [done|].
    pose proof Hc as (-> & n2 & Hb & Hc2).
    apply NoDup_cons in Hnd as [Hnin Hnd].
    apply not_elem_of_cons in He as [Hea Hel].
    cbn [insert_loop deref]. rewrite Ha. cbn [bind next]. rewrite Hb. cbn [bind NList.key].
    cbn [sorted_insert].
    destruct (sortKey <? k2) eqn:Hlt.
    + unfold set_next. rewrite Hh. cbn [bind NList.key item].
      rewrite lookup_insert_ne by done. rewrite Ha. cbn [bind NList.key item].
      do 3 eexists. split; [done|]. split; [|split; [|split; [|split]]].
      * split; [done|]. exists (Some element). rewrite lookup_insert_eq. split; [done|].
        instantiate (1 := element :: b :: locs). split; [done|].
        exists (Some b). rewrite lookup_insert_ne, lookup_insert_eq by done.
        split; [done|]. apply chain_insert; [|done]. by apply chain_insert.
      * done.
      * rewrite Hl. by rewrite !last_cons_cons.
      * done.
      * intros c Hcn. rewrite !lookup_insert_ne; [done| |]; set_solver.
    + destruct (IH fuel b k2 x2 xs Hc Hnd Hel Hh) as
        (h' & l' & locs' & Hrun & Hc' & Hp & Hl' & Hfst & Hs).
      { by rewrite Hl, last_cons_cons. } { simpl in Hf. lia. }
      exists h', l', (b :: locs'). rewrite Hrun. split; [done|].
      split; [|split; [|split; [|split]]].
      * split; [done|]. exists (Some b). split; [|done].
        rewrite Hs; [done|]. set_solver.
      * rewrite Hp. apply Permutation_swap.
      * by rewrite Hl', last_cons_cons.
      * done.
      * intros c Hcn. apply Hs. set_solver.
Qed.

Lemma SortedInsert_refines it sortKey h l locs xs :
  repr h l locs xs ->
  exists h' l' a locs', SortedInsert it sortKey h l = Ok (h', l') /\ (a ∉ dom h) /\
    locs' ≡ₚ a :: locs /\
    repr h' l' locs' (sorted_insert it sortKey xs) /\ same_outside (a :: locs) h h'.
Proof.
  intros Hr. unfold SortedInsert, new_element. cbn zeta iota beta.
  set (a := fresh (dom h)). assert ((a ∉ dom h)) as Ha by (apply is_fresh).
  assert (a ∉ locs) as Hal by (eapply fresh_notin, repr_chain; done).
  rewrite (repr_empty _ _ _ _ Hr). case_bool_decide as Hx.
  - subst xs. destruct Hr as [Hc _ _]. destruct locs as [|? ?]; [|done].
    do 4 eexists. split; [done|]. split; [done|]. split; [done|].
    split; [apply repr_singleton|].
    intros b Hb. rewrite lookup_insert_ne; [done|]. set_solver.
  - destruct Hr as [Hc Hlast Hnd].
    destruct locs as [|b locs], xs as [|[k x] xs]; try done.
    pose proof (chain_insert _ _ _ _ a (mkElement None sortKey it) Hc Hal) as Hci.
    pose proof Hci as (Hf & n & Hb & _).
    rewrite Hf. cbn [deref]. rewrite Hb. cbn [bind NList.key sorted_insert].
    destruct (sortKey <? k).
    + unfold set_next. rewrite lookup_insert_eq. cbn [bind NList.key item].
      rewrite insert_insert_eq.
      do 4 eexists. split; [done|]. split; [done|]. split; [reflexivity|]. split.
      * split; cbn [first last]; [|by rewrite Hlast, last_cons_cons|by apply NoDup_cons].
        split; [done|]. exists (Some b). rewrite lookup_insert_eq. split; [done|].
        rewrite <- Hf. by apply chain_insert.
      * intros c Hcn. rewrite lookup_insert_ne; [done|]. set_solver.
    + destruct (insert_loop_refines a it sortKey
        (size (<[a := mkElement None sortKey it]> h)) b k x (first l) locs xs
        (<[a := mkElement None sortKey it]> h) l)
        as (h' & l' & locs' & -> & Hc' & Hp & Hl' & Hf' & Hs);
        [done|done|done|done|by rewrite lookup_insert_eq|done| |].
      { pose proof (chain_size _ _ _ _ Hci Hnd). simpl in *. lia. }
      exists h', l', a, (b :: locs'). split; [done|]. split; [done|].
      split; [rewrite Hp; apply Permutation_swap|]. split.
      * split; [by rewrite Hf', Hf|done|].
        rewrite Hp, Permutation_swap. by apply NoDup_cons.
      * intros c Hcn. rewrite Hs by set_solver. rewrite lookup_insert_ne; set_solver.
Qed.

(** *** Removal and traversal *)

Lemma SortedRemove_refines h l locs xs :
  repr h l locs xs ->
  match locs, xs with
  | a :: locs', kx :: xs' =>
      exists h' l', SortedRemove h l = Ok (Some kx, h', l') /\ h' = delete a h /\
        repr h' l' locs' xs'
  | _, _ => locs = [] /\ xs = [] /\ SortedRemove h l = Ok (None, h, l)
  end.
Proof.
  intros Hr. unfold SortedRemove. rewrite (repr_empty _ _ _ _ Hr).
  destruct Hr as [Hc Hlast Hnd].
  destruct locs as [|a locs], xs as [|[k x] xs]; try done.
  destruct Hc as (Hf & n & Ha & Hc). apply NoDup_cons in Hnd as [Hnin Hnd].
  rewrite bool_decide_false by done. rewrite Hf. cbn [deref]. rewrite Ha. cbn [bind].
  do 2 eexists. split; [done|]. split; [done|].
  assert (chain (delete a h) n locs xs) as Hcd.
  { eapply chain_frame; [done|]. intros b Hb. rewrite lookup_delete_ne; [done|].
    by intros ->. }
  case_bool_decide as Heq.
  - assert (locs = []) as ->.
    { destruct locs as [|b locs]; [done|]. exfalso. apply Hnin.
      rewrite Hlast, last_cons_cons, last_lookup in Heq. symmetry in Heq.
      by eapply list_elem_of_lookup_2. }
    destruct xs; [|done]. split; done.
  - split; [done| |done]. cbn [last]. rewrite Hlast.
    destruct locs; [|by rewrite last_cons_cons].
    exfalso. apply Heq. by rewrite Hlast.
Qed.

Lemma Remove_refines h l locs xs :
  repr h l locs xs ->
  exists h' l', Remove h l = Ok (snd <$> head xs, h', l') /\
    repr h' l' (tail locs) (tail xs) /\ same_outside locs h h'.
Proof.
  intros Hr. pose proof (SortedRemove_refines _ _ _ _ Hr) as H. unfold Remove.
  destruct locs as [|a locs], xs as [|[k x] xs].
  - destruct H as (_ & _ & ->). exists h, l. done.
  - by destruct H as (_ & ? & _).
  - by destruct H as (? & _).
  - destruct H as (h' & l' & -> & -> & Hr'). do 2 eexists. split; [done|].
    split; [done|]. intros b Hb. rewrite lookup_delete_ne; [done|]. set_solver.
Qed.

Lemma apply_loop_refines {T} (func : Item -> T -> T) fuel h p locs xs s :
  chain h p locs xs -> (length locs <= fuel)%nat ->
  apply_loop fuel func p h s = Ok (fold_left (fun s kx => func kx.2 s) xs s).
Proof.
  revert fuel p xs s. induction locs as [|a locs IH];
    intros fuel p [|[k x] xs] s Hc Hf; try done.
  - cbn [chain] in Hc. subst p. by destruct fuel.
  - destruct Hc as (-> & n & Ha & Hc). destruct fuel as [|fuel]; [simpl in Hf; lia|].
    cbn [apply_loop deref]. rewrite Ha. cbn [bind next item fold_left].
    apply IH; [done|]. simpl in Hf. lia.
Qed.

Lemma Apply_refines {T} (func : Item -> T -> T) h l locs xs s :
  repr h l locs xs ->
  Apply func h l s = Ok (fold_left (fun s kx => func kx.2 s) xs s).
Proof.
  intros [Hc _ Hnd]. eapply apply_loop_refines; [done|]. by eapply chain_size.
Qed.

Lemma destroy_loop_refines fuel h l locs xs :
  repr h l locs xs -> (length locs <= fuel)%nat ->
  exists h', destroy_loop fuel h l = Ok h' /\ same_outside locs h h' /\
    forall a, a ∈ locs -> h' !! a = None.
Proof.
  revert h l locs xs. induction fuel as [|fuel IH]; intros h l locs xs Hr Hf;
    cbn [destroy_loop]; rewrite (repr_empty _ _ _ _ Hr); case_bool_decide as Hx.
  - subst xs. pose proof (repr_chain _ _ _ _ Hr). exists h. destruct locs; [|done].
    split; [done|]. split; [done|]. set_solver.
  - destruct Hr as [Hc _ _]. destruct locs; [|simpl in Hf; lia]. by destruct xs.
  - subst xs. pose proof (repr_chain _ _ _ _ Hr). exists h. destruct locs; [|done].
    split; [done|]. split; [done|]. set_solver.
  - pose proof (SortedRemove_refines _ _ _ _ Hr) as Hsr.
    pose proof (repr_nodup _ _ _ _ Hr) as Hnd.
    destruct locs as [|a locs], xs as [|kx xs]; try naive_solver.
    destruct Hsr as (h1 & l1 & Hrun & -> & Hr1). unfold Remove. rewrite Hrun.
    cbn [bind]. destruct (IH _ _ _ _ Hr1) as (h' & -> & Hs & Hd); [simpl in Hf; lia|].
    exists h'. split; [done|]. apply NoDup_cons in Hnd as [Hnin _]. split.
    + intros b Hb. rewrite Hs by set_solver. rewrite lookup_delete_ne; set_solver.
    + intros b [->|Hb]%elem_of_cons; [|by apply Hd].
      rewrite Hs by done. by rewrite lookup_delete_eq.
Qed.

(** [~List()] ends, and frees exactly the cells of the list. *)
Lemma destroy_refines h l locs xs :
  repr h l locs xs ->
  exists h', destroy h l = Ok h' /\ same_outside locs h h' /\
    forall a, a ∈ locs -> h' !! a = None.
Proof.
  intros Hr. eapply destroy_loop_refines; [done|].
  eapply chain_size; by destruct Hr.
Qed.
(** ** The list as an object: sequences of operations *)

(** The operations of the class; [Remove] is [SortedRemove] without the key. *)
Inductive op :=
  | OpAppend (x : Item)
  | OpPrepend (x : Item)
  | OpSortedInsert (x : Item) (k : Z)
  | OpSortedRemove
  | OpRemove.

(** One operation on the heap: what it returns and the new list. *)
Definition exec (o : op) h l : res (option (option Z * Item) * heap * List) :=
  match o with
  | OpAppend x => '(h, l) ← Append x h l; Ok (None, h, l)
  | OpPrepend x => '(h, l) ← Prepend x h l; Ok (None, h, l)
  | OpSortedInsert x k => '(h, l) ← SortedInsert x k h l; Ok (None, h, l)
  | OpSortedRemove =>
      '(r, h, l) ← SortedRemove h l; Ok ((fun p : Z * Item => (Some p.1, p.2)) <$> r, h, l)
  | OpRemove => '(r, h, l) ← Remove h l; Ok ((fun x : Item => (None, x)) <$> r, h, l)
  end.

Fixpoint exec_all (os : list op) h l
    : res (list (option (option Z * Item)) * heap * List) :=
  match os with
  | [] => Ok ([], h, l)
  | o :: os =>
      '(r, h, l) ← exec o h l;
      '(rs, h, l) ← exec_all os h l;
      Ok (r :: rs, h, l)
  end.

(** The specification: the same operations on a sequence. *)
Definition spec (o : op) xs : option (option Z * Item) * list (Z * Item) :=
  match o with
  | OpAppend x => (None, append x xs)
  | OpPrepend x => (None, prepend x xs)
  | OpSortedInsert x k => (None, sorted_insert x k xs)
  | OpSortedRemove => ((fun p : Z * Item => (Some p.1, p.2)) <$> head xs, tail xs)
  | OpRemove => ((fun p : Z * Item => (None, p.2)) <$> head xs, tail xs)
  end.

Fixpoint spec_all (os : list op) xs : list (option (option Z * Item)) * list (Z * Item) :=
  match os with
  | [] => ([], xs)
  | o :: os =>
      let '(r, xs) := spec o xs in
      let '(rs, xs) := spec_all os xs in
      (r :: rs, xs)
  end.

(** One operation simulates the specification. *)
Lemma exec_simulates o h l locs xs :
  repr h l locs xs ->
  exists h' l' locs', exec o h l = Ok ((spec o xs).1, h', l') /\ repr h' l' locs' (spec o xs).2.
Proof.
  intros Hr. destruct o as [x|x|x k| |]; cbn [exec spec fst snd].
  - destruct (Append_refines x h l locs xs Hr) as (h' & l' & a & -> & _ & Hr' & _).
    by exists h', l', (locs ++ [a]).
  - destruct (Prepend_refines x h l locs xs Hr) as (h' & l' & a & -> & _ & Hr' & _).
    by exists h', l', (a :: locs).
  - destruct (SortedInsert_refines x k h l locs xs Hr) as (h' & l' & a & locs' & -> & _ & _ & Hr' & _).
    by exists h', l', locs'.
  - pose proof (SortedRemove_refines h l locs xs Hr) as Hs.
    destruct locs as [|a locs'], xs as [|kx xs'];
      try (destruct Hs as (E1 & E2 & E); try discriminate; rewrite E; by exists h, l, []).
    destruct Hs as (h' & l' & -> & _ & Hr'). by exists h', l', locs'.
  - destruct (Remove_refines h l locs xs Hr) as (h' & l' & -> & Hr' & _).
    exists h', l', (tail locs). split; [|done]. cbn [bind]. by destruct xs.
Qed.

Lemma exec_all_simulates os h l locs xs :
  repr h l locs xs ->
  exists h' l' locs', exec_all os h l = Ok ((spec_all os xs).1, h', l') /\
    repr h' l' locs' (spec_all os xs).2.
Proof.
  revert h l locs xs. induction os as [|o os IH]; intros h l locs xs Hr.
  - by exists h, l, locs.
  - cbn [exec_all spec_all].
    destruct (exec_simulates o h l locs xs Hr) as (h1 & l1 & locs1 & -> & Hr1). cbn [bind].
    destruct (spec o xs) as [r xs1]. cbn [fst snd] in *.
    destruct (IH h1 l1 locs1 xs1 Hr1) as (h2 & l2 & locs2 & -> & Hr2). cbn [bind].
    destruct (spec_all os xs1) as [rs xs2]. cbn [fst snd] in *. by exists h2, l2, locs2.
Qed.

Lemma empty_repr h : repr h new_list [] [].
Proof. split; [done|done|by apply NoDup_nil_2]. Qed.

(** ** Properties *)

(** C35: any sequence of operations on a new list, over any heap, runs without
    a null or dangling dereference, returns exactly what the same operations
    return on a plain sequence, and leaves cells that the destructor frees. *)
Theorem list_refines os h :
  exists h' l' locs h'', exec_all os h new_list = Ok ((spec_all os []).1, h', l') /\
    repr h' l' locs (spec_all os []).2 /\
    destroy h' l' = Ok h'' /\ forall a, a ∈ locs -> h'' !! a = None.
Proof.
  destruct (exec_all_simulates os h new_list [] [] (empty_repr h)) as (h' & l' & locs & E & Hr).
  destruct (destroy_refines h' l' locs _ Hr) as (h'' & Ed & _ & Hf).
  by exists h', l', locs, h''.
Qed.

(** [SortedInsert] into a sorted list keeps it sorted, adds exactly the new
    item, and puts it after the items of the same key, so equal keys leave in
    the order they came. *)
Theorem SortedInsert_correct it sortKey h l locs xs :
  repr h l locs xs -> sorted xs ->
  exists h' l' locs' ys, SortedInsert it sortKey h l = Ok (h', l') /\ repr h' l' locs' ys /\
    sorted ys /\ ys ≡ₚ (sortKey, it) :: xs /\
    forall k, filter (fun kx => kx.1 = k) ys =
      filter (fun kx => kx.1 = k) xs ++ (if decide (sortKey = k) then [(sortKey, it)] else []).
Proof.
  intros Hr Hs. destruct (SortedInsert_refines it sortKey h l locs xs Hr)
    as (h' & l' & a & locs' & E & _ & _ & Hr' & _).
  exists h', l', locs', (sorted_insert it sortKey xs). split; [done|]. split; [done|].
  split; [by apply sorted_insert_sorted|]. split; [apply sorted_insert_perm|].
  intros k. by apply sorted_insert_stable.
Qed.

End repr.

Lemma SortedInsert_correct_witness :
  exists h l, SortedInsert 7 3 (∅ : gmap loc (ListElement Z)) new_list = Ok (h, l).
Proof.
  destruct (SortedInsert_correct 7 3 (∅ : gmap loc (ListElement Z)) new_list [] []
    (empty_repr _) I) as (h & l & locs & ys & E & _).
  exists h, l. exact E.
Defined.

End NList.
