(* ===== verification/OSTable.v ===== *)
(** userprog/OSTable.h: the control tables of a process, which map small
    identifiers to open files, threads, semaphores, locks and conditions.

    Module [ControlTable] is the class template.  [binding] reads a table as a
    partial map from identifiers to objects, and the lemmas state every
    operation on that map. *)

From S2P Require Import Prelude BitMap.

Module ControlTable.

Definition TABLE_SIZE : Z := 100.

Section table.
Context {DataType : Type} `{EqDecision DataType}.

(** The object whose bytes are all zero, as [memset] leaves it. *)
Context (zero : DataType).

Record ControlTable := mkTable {
  openObjects : list DataType;      (* the objects *)
  logicalMap : BitMap.BitMap;       (* which identifiers are in use *)
  usage : Z                         (* processes using the table *)
}.

(** ** Operations *)

(** The constructor: [memset(openObjects, 0, TABLE_SIZE)] clears [TABLE_SIZE]
    bytes, the first [TABLE_SIZE / sizeof] objects; the others keep what [new]
    returned ([objects]). *)
Definition new (sizeof : Z) (objects : list DataType) (storage : list Z)
    : res ControlTable :=
  m ← BitMap.new TABLE_SIZE storage;
  let cleared := Z.to_nat (TABLE_SIZE / sizeof) in
  Ok (mkTable (replicate cleared zero ++ drop cleared objects) m 1).

(** [Open(object)] returns the identifier given to the object.  When the map is
    full the identifier is -1, and the store at [openObjects[-1]] is [UB]. *)
Definition Open (object : DataType) (t : ControlTable) : res (Z * ControlTable) :=
  '(id, m) ← BitMap.Find (logicalMap t);
  objs ← zset (openObjects t) id object;
  Ok (id, mkTable objs m (usage t)).

(** An object left uninitialised, as in [DataType object; return object;], is
    [None]. *)
Definition Close (id : Z) (t : ControlTable) : res (option DataType * ControlTable) :=
  ASSERT ((id <? TABLE_SIZE) && (0 <=? id));;
  b ← BitMap.Test id (logicalMap t);
  if (b : bool) then
    object ← zget (openObjects t) id;
    m ← BitMap.Clear id (logicalMap t);
    objs ← zset (openObjects t) id zero;
    Ok (Some object, mkTable objs m (usage t))
  else Ok (None, t).

Definition isOpened (id : Z) (t : ControlTable) : res bool :=
  ASSERT ((id <? TABLE_SIZE) && (0 <=? id));;
  BitMap.Test id (logicalMap t).

Definition getObject (id : Z) (t : ControlTable) : res (option DataType) :=
  ASSERT ((id <? TABLE_SIZE) && (0 <=? id));;
  b ← BitMap.Test id (logicalMap t);
  if (b : bool) then (object ← zget (openObjects t) id; Ok (Some object)) else Ok None.

(** [getID(object)]: the first position that holds [object], in use or not. *)
Definition getID (object : DataType) (t : ControlTable) : res Z :=
  o ← for_find (Z.to_nat TABLE_SIZE) 0
        (fun i (_ : unit) =>
           x ← zget (openObjects t) i;
           Ok (if decide (x = object) then inr i else inl tt)) tt;
  Ok (match o with inr i => i | inl _ => -1 end).

Definition addThread (t : ControlTable) : ControlTable :=
  mkTable (openObjects t) (logicalMap t) (s32 (usage t + 1)).

Definition delThread (t : ControlTable) : ControlTable :=
  mkTable (openObjects t) (logicalMap t) (s32 (usage t - 1)).

Definition getThreadCount (t : ControlTable) : Z := usage t.

(** [~ControlTable()]: whether the map and the objects are deallocated. *)
Definition destroy (t : ControlTable) : bool := usage t =? 1.

(** ** The abstraction: a partial map *)

Record wf (t : ControlTable) : Prop := {
  wf_map : BitMap.wf (logicalMap t);
  wf_size : BitMap.numBits (logicalMap t) = TABLE_SIZE;
  wf_objects : Z.of_nat (length (openObjects t)) = TABLE_SIZE
}.

Definition in_use (t : ControlTable) (id : Z) : bool :=
  BitMap.bit_at (BitMap.map (logicalMap t)) id.

Definition binding (t : ControlTable) (id : Z) : option DataType :=
  if decide (0 <= id < TABLE_SIZE) then
    if in_use t id then openObjects t !! Z.to_nat id else None
  else None.

Lemma binding_is_Some t id :
  wf t -> 0 <= id < TABLE_SIZE -> is_Some (binding t id) <-> in_use t id = true.
Proof.
  intros [_ _ Hl] Hid. unfold binding. rewrite decide_True by done.
  destruct (in_use t id); [|split; intros []%is_Some_None || done].
  split; [done|]. intros _. apply lookup_lt_is_Some_2. lia.
Qed.

Lemma range_check id :
  (id <? TABLE_SIZE) && (0 <=? id) = bool_decide (0 <= id < TABLE_SIZE).
Proof. case_bool_decide; zcases; done || lia. Qed.

(** *** Operations on the partial map *)

Lemma Test_binding t id :
  wf t -> 0 <= id < TABLE_SIZE ->
  BitMap.Test id (logicalMap t) = Ok (in_use t id).
Proof. intros [Hm Hs _] Hid. apply BitMap.Test_spec; [done|]. by rewrite Hs. Qed.

Lemma isOpened_spec t id :
  wf t -> 0 <= id < TABLE_SIZE ->
  isOpened id t = Ok (bool_decide (is_Some (binding t id))).
Proof.
  intros Hwf Hid. unfold isOpened. rewrite range_check, bool_decide_true by done.
  cbn [ASSERT bind]. rewrite Test_binding by done. f_equal.
  pose proof (binding_is_Some t id Hwf Hid) as H.
  destruct (in_use t id); symmetry;
    [by apply bool_decide_true, H|apply bool_decide_false; intros HS; by apply H in HS].
Qed.

Lemma getObject_spec t id :
  wf t -> 0 <= id < TABLE_SIZE -> getObject id t = Ok (binding t id).
Proof.
  intros Hwf Hid. unfold getObject. rewrite range_check, bool_decide_true by done.
  cbn [ASSERT bind]. rewrite Test_binding by done. cbn [bind].
  unfold binding. rewrite decide_True by done. destruct (in_use t id); [|done].
  unfold zget. destruct (Z.leb_spec 0 id); [|lia].
  destruct Hwf as [_ _ Hl].
  destruct (lookup_lt_is_Some_2 (openObjects t) (Z.to_nat id)) as [x ->]; [lia|done].
Qed.

Lemma in_use_abs t id :
  wf t -> 0 <= id < TABLE_SIZE ->
  BitMap.abs (logicalMap t) !! Z.to_nat id = Some (in_use t id).
Proof. intros [Hm Hs _] Hid. apply BitMap.abs_lookup_Z. by rewrite Hs. Qed.

(** Updating one identifier of the map and of the objects. *)
Lemma binding_update t t' id (v : bool) x :
  wf t -> wf t' -> 0 <= id < TABLE_SIZE ->
  BitMap.abs (logicalMap t') = <[Z.to_nat id := v]> (BitMap.abs (logicalMap t)) ->
  openObjects t' = <[Z.to_nat id := x]> (openObjects t) ->
  forall j, binding t' j =
    if decide (j = id) then (if v then Some x else None) else binding t j.
Proof.
  intros Hwf Hwf' Hid Ha Ho j. unfold binding.
  destruct (decide (0 <= j < TABLE_SIZE)) as [Hj|Hj].
  2: { rewrite decide_False by (intros ->; done). done. }
  pose proof (in_use_abs t' j Hwf' Hj) as Hj'. rewrite Ha in Hj'.
  destruct (decide (j = id)) as [->|Hne].
  - rewrite list_lookup_insert_eq in Hj'.
    + injection Hj' as <-. destruct v; [|done]. rewrite Ho, list_lookup_insert_eq; [done|].
      destruct Hwf as [_ _ Hl]. lia.
    + rewrite BitMap.length_abs. destruct Hwf as [_ -> _]. lia.
  - rewrite list_lookup_insert_ne, (in_use_abs t j Hwf Hj) in Hj' by lia.
    injection Hj' as ->. rewrite Ho, list_lookup_insert_ne by lia. done.
Qed.

(** [Open] binds the first free identifier; on a full table it is undefined. *)
Lemma Open_spec object t :
  wf t ->
  match first_clear (BitMap.abs (logicalMap t)) with
  | Some n => exists t', Open object t = Ok (Z.of_nat n, t') /\ wf t' /\
      usage t' = usage t /\ Z.of_nat n < TABLE_SIZE /\ binding t (Z.of_nat n) = None /\
      (forall k, 0 <= k < Z.of_nat n -> is_Some (binding t k)) /\
      forall j, binding t' j =
        if decide (j = Z.of_nat n) then Some object else binding t j
  | None => (forall k, 0 <= k < TABLE_SIZE -> is_Some (binding t k)) /\ Open object t = UB
  end.
Proof.
  intros Hwf. pose proof Hwf as [Hm Hs Hl]. unfold Open.
  pose proof (BitMap.Find_spec _ Hm) as HF.
  destruct (first_clear _) as [n|] eqn:Hf.
  - destruct HF as (m & -> & Hm' & Hn & Hlt & Ha). rewrite Hs in Hlt. cbn [bind].
    rewrite zset_eq by lia. cbn [bind]. eexists. split; [done|].
    apply first_clear_Some in Hf as [Hf Hall].
    assert (forall k, 0 <= k < TABLE_SIZE -> (k = Z.of_nat n -> binding t k = None) /\
      (k < Z.of_nat n -> is_Some (binding t k))) as Hb.
    { intros k Hk. pose proof (in_use_abs t k Hwf Hk) as Hu. split; intros Hkn.
      - subst k. rewrite Nat2Z.id, Hf in Hu. unfold binding.
        rewrite decide_True by done. by injection Hu as <-.
      - apply binding_is_Some; [done..|].
        rewrite (Hall (Z.to_nat k)) in Hu by lia. by injection Hu as <-. }
    split; [split; [done|cbn [logicalMap]; congruence|cbn [openObjects]; by rewrite length_insert]|].
    do 2 (split; [done|]). split; [by apply Hb; lia|].
    split; [intros; by apply Hb; lia|].
    apply (binding_update t _ (Z.of_nat n) true object);
      [done|split; [done|cbn [logicalMap]; congruence|cbn [openObjects]; by rewrite length_insert]|lia|by rewrite Nat2Z.id|done].
  - rewrite HF. cbn [bind]. split.
    + intros k Hk. apply binding_is_Some; [done..|].
      eapply first_clear_None; [done|]. by apply in_use_abs.
    + by rewrite zset_UB by lia.
Qed.

Lemma Close_spec id t :
  wf t -> 0 <= id < TABLE_SIZE ->
  exists t', Close id t = Ok (binding t id, t') /\ wf t' /\ usage t' = usage t /\
    forall j, binding t' j = if decide (j = id) then None else binding t j.
Proof.
  intros Hwf Hid. pose proof Hwf as [Hm Hs Hl].
  unfold Close. rewrite range_check, bool_decide_true by done.
  cbn [ASSERT bind]. rewrite Test_binding by done. cbn [bind].
  pose proof (getObject_spec t id Hwf Hid) as Hget. unfold getObject in Hget.
  rewrite range_check, bool_decide_true in Hget by done.
  cbn [ASSERT bind] in Hget. rewrite Test_binding in Hget by done. cbn [bind] in Hget.
  destruct (in_use t id) eqn:Hu.
  - res_inv. rewrite Ha. cbn [bind].
    destruct (BitMap.Clear_abs (logicalMap t) id Hm) as (m & -> & Hm' & Hn & Hab);
      [by rewrite Hs|]. cbn [bind]. rewrite zset_eq by lia. cbn [bind].
    eexists. rewrite <- Hget. split; [done|].
    split; [split; [done|cbn [logicalMap]; congruence|cbn [openObjects]; by rewrite length_insert]|]. split; [done|].
    apply (binding_update t _ id false zero);
      [done|split; [done|cbn [logicalMap]; congruence|cbn [openObjects]; by rewrite length_insert]|done|done|done].
  - injection Hget as Hget. rewrite <- Hget. exists t. do 3 (split; [done|]).
    intros j. case_decide as Hj; [by subst j|done].
Qed.

(** An identifier outside the table stops the kernel. *)
Lemma bad_id id t :
  ~ 0 <= id < TABLE_SIZE ->
  Close id t = Abort /\ isOpened id t = Abort /\ getObject id t = Abort.
Proof.
  intros H. unfold Close, isOpened, getObject.
  by rewrite range_check, bool_decide_false.
Qed.

Lemma getID_spec object t :
  wf t ->
  exists id, getID object t = Ok id /\
    (id = -1 \/ 0 <= id < TABLE_SIZE /\ openObjects t !! Z.to_nat id = Some object) /\
    forall k, 0 <= k < (if id =? -1 then TABLE_SIZE else id) ->
      openObjects t !! Z.to_nat k <> Some object.
Proof.
  intros [_ _ Hl]. unfold getID.
  destruct (for_find_rule
    (fun k (_ : unit) => forall j, 0 <= j < k -> openObjects t !! Z.to_nat j <> Some object)
    (fun id => 0 <= id < TABLE_SIZE /\ openObjects t !! Z.to_nat id = Some object /\
       forall j, 0 <= j < id -> openObjects t !! Z.to_nat j <> Some object)
    (Z.to_nat TABLE_SIZE) 0
    (fun i (_ : unit) => x ← zget (openObjects t) i;
       Ok (if decide (x = object) then inr i else inl tt)) tt) as (o & -> & Ho).
  - lia.
  - intros i [] Hi Hall. change (Z.of_nat (Z.to_nat TABLE_SIZE)) with TABLE_SIZE in Hi.
    destruct (zget_is_Ok (openObjects t) i) as [x Hx]; [lia|].
    rewrite Hx. cbn [bind]. apply zget_Ok in Hx as [_ Hx].
    eexists. split; [done|]. case_decide as Heq.
    + subst x. split; [lia|done].
    + intros j Hj. destruct (decide (j = i)) as [->|]; [congruence|].
      apply Hall. lia.
  - destruct o as [[]|id]; cbn [bind]; eexists; (split; [done|]).
    + split; [by left|]. intros k. simpl. apply Ho.
    + destruct Ho as (Hr & Hid & Hall). split; [by right|].
      destruct (Z.eqb_spec id (-1)); [lia|done].
Qed.

Lemma table_new_spec sizeof objects storage :
  0 < sizeof -> Z.of_nat (length objects) = TABLE_SIZE ->
  length storage = 4%nat -> Forall is_u32 storage ->
  exists t, new sizeof objects storage = Ok t /\ wf t /\ usage t = 1 /\
    forall id, binding t id = None.
Proof.
  intros Hs Hl Hst Hu. unfold new.
  destruct (BitMap.new_spec TABLE_SIZE storage) as (m & -> & Hm & Hn & Ha);
    [done|by rewrite Hst|done|]. cbn [bind]. eexists. split; [done|].
  assert (0 <= TABLE_SIZE / sizeof <= TABLE_SIZE) as Hd.
  { split; [by apply Z.div_pos|]. apply Z.div_le_upper_bound; unfold TABLE_SIZE; lia. }
  assert (wf (mkTable (replicate (Z.to_nat (TABLE_SIZE / sizeof)) zero ++
    drop (Z.to_nat (TABLE_SIZE / sizeof)) objects) m 1)) as Hwf.
  { split; cbn [logicalMap openObjects]; [done|done|].
    rewrite length_app, length_replicate, length_drop. lia. }
  split; [done|]. split; [done|]. intros id. unfold binding. case_decide as Hid; [|done].
  pose proof (in_use_abs _ id Hwf Hid) as Hin. cbn [logicalMap] in Hin. rewrite Ha in Hin.
  rewrite lookup_replicate_2 in Hin by lia. injection Hin as <-. done.
Qed.
(** ** Properties *)

(** A table is a partial map from the identifiers 0 to 99 to objects:
    [Open] binds the object to the lowest free identifier, [Close] answers what
    the identifier was bound to and unbinds it, [isOpened] and [getObject] read
    it; no other binding changes. *)
Theorem table_is_map t id object :
  wf t -> 0 <= id < TABLE_SIZE ->
  isOpened id t = Ok (bool_decide (is_Some (binding t id))) /\
  getObject id t = Ok (binding t id) /\
  (exists t', Close id t = Ok (binding t id, t') /\ wf t' /\ usage t' = usage t /\
    forall j, binding t' j = if decide (j = id) then None else binding t j) /\
  (binding t id = None ->
    exists n t', Open object t = Ok (n, t') /\ wf t' /\ usage t' = usage t /\
      0 <= n <= id /\ binding t n = None /\
      (forall k, 0 <= k < n -> is_Some (binding t k)) /\
      forall j, binding t' j = if decide (j = n) then Some object else binding t j).
Proof.
  intros Ht Hid. split; [by apply isOpened_spec|]. split; [by apply getObject_spec|].
  split; [by apply Close_spec|]. intros Hnone. pose proof (Open_spec object t Ht) as Ho.
  destruct (first_clear (BitMap.abs (logicalMap t))) as [n|].
  - destruct Ho as (t' & E & Ht' & Hu & Hn & Hb & Hlow & Hmap).
    exists (Z.of_nat n), t'. split_and!; try done; [lia|].
    destruct (Z_lt_le_dec id (Z.of_nat n)) as [Hlt|]; [|done].
    destruct (Hlow id) as [x Hx]; [lia|]. by rewrite Hx in Hnone.
  - destruct Ho as [Hall _]. destruct (Hall id Hid) as [x Hx]. by rewrite Hx in Hnone.
Qed.

(** Identifiers out of range stop the simulator, and opening one object
    more than a table holds stores at index -1. *)
Theorem table_errors t id object :
  wf t ->
  (~ 0 <= id < TABLE_SIZE ->
    Close id t = Abort /\ isOpened id t = Abort /\ getObject id t = Abort) /\
  ((forall k, 0 <= k < TABLE_SIZE -> is_Some (binding t k)) -> Open object t = UB).
Proof.
  intros Ht. split; [apply bad_id|]. intros Hall. pose proof (Open_spec object t Ht) as Ho.
  destruct (first_clear (BitMap.abs (logicalMap t))) as [n|]; [|apply Ho].
  destruct Ho as (t' & _ & _ & _ & Hn & Hb & _).
  destruct (Hall (Z.of_nat n)) as [x Hx]; [lia|]. by rewrite Hx in Hb.
Qed.

End table.
Arguments ControlTable : clear implicits.

(** The table of a process with nothing open, for the witnesses. *)
Lemma fresh_table_exists :
  exists t : ControlTable Z, new 0 4 (replicate 100 0) (replicate 4 0) = Ok t /\ wf t /\
    usage t = 1 /\ forall id, binding t id = None.
Proof.
  apply (table_new_spec 0 4 (replicate 100 0) (replicate 4 0)); try done.
  by apply Forall_replicate.
Qed.

Lemma table_is_map_witness :
  exists t t' : ControlTable Z, Open 42 t = Ok (0, t').
Proof.
  destruct fresh_table_exists as (t & _ & Ht & _ & Hb).
  destruct (table_is_map 0 t 0 42 Ht) as (_ & _ & _ & Ho); [done|].
  destruct (Ho (Hb 0)) as (n & t' & E & _ & _ & Hn & _).
  exists t, t'. rewrite E. repeat f_equal. lia.
Defined.

Lemma table_errors_witness :
  exists t : ControlTable Z, isOpened 100 t = Abort.
Proof.
  destruct fresh_table_exists as (t & _ & Ht & _ & _). exists t.
  destruct (table_errors 0 t 100 0 Ht) as [He _].
  apply He. unfold TABLE_SIZE. lia.
Defined.

End ControlTable.
