(* ===== verification/MachineState.v ===== *)
(** machine/machine.h, machine.cc, translate.h and the address translation of
    translate.cc: the simulated CPU registers, main memory and translation
    tables.

    Module [Machine] is the part of the class that does not call the kernel;
    the memory accesses and instructions, which raise exceptions, are in
    [Mips.v].  Page tables live on a heap ([tables]) because an [AddrSpace] and
    the machine share them: [machine->pageTable] is a pointer. *)

From S2P Require Import Prelude.
From Stdlib Require Ascii.

Module Machine.

(** ** Constants *)
Definition SectorSize : Z := 128.
Definition PageSize : Z := SectorSize.
Definition NumPhysPages : Z := 32.
Definition MemorySize : Z := NumPhysPages * PageSize.
Definition TLBSize : Z := 4.

Definition StackReg : Z := 29.
Definition RetAddrReg : Z := 31.
Definition NumGPRegs : Z := 32.
Definition HiReg : Z := 32.
Definition LoReg : Z := 33.
Definition PCReg : Z := 34.
Definition NextPCReg : Z := 35.
Definition PrevPCReg : Z := 36.
Definition LoadReg : Z := 37.
Definition LoadValueReg : Z := 38.
Definition BadVAddrReg : Z := 39.
Definition NumTotalRegs : Z := 40.

Inductive ExceptionType :=
  | NoException
  | SyscallException
  | PageFaultException
  | ReadOnlyException
  | BusErrorException
  | AddressErrorException
  | OverflowException
  | IllegalInstrException
  | NumExceptionTypes.

#[export] Instance ExceptionType_eq_dec : EqDecision ExceptionType.
Proof. solve_decision. Defined.

(** ** State *)

Record TranslationEntry := mkEntry {
  virtualPage : Z;
  physicalPage : Z;
  valid : bool;
  readOnly : bool;
  use : bool;
  dirty : bool
}.

Definition set_use (e : TranslationEntry) : TranslationEntry :=
  mkEntry (virtualPage e) (physicalPage e) (valid e) (readOnly e) true (dirty e).

Definition set_dirty (e : TranslationEntry) : TranslationEntry :=
  mkEntry (virtualPage e) (physicalPage e) (valid e) (readOnly e) (use e) true.

(** The address of a page table allocated by an [AddrSpace]. *)
Abbreviation table_loc := positive.

Record Machine := mkMachine {
  mainMemory : list Z;                     (* bytes of physical memory *)
  registers : list Z;                      (* CPU registers *)
  tlb : option (list TranslationEntry);    (* NULL unless USE_TLB *)
  pageTable : option table_loc;            (* current page table *)
  pageTableSize : Z;
  tables : gmap table_loc (list TranslationEntry);  (* the page tables *)
  singleStep : bool;
  runUntilTime : Z
}.

Definition set_memory (mem : list Z) (m : Machine) : Machine :=
  mkMachine mem (registers m) (tlb m) (pageTable m) (pageTableSize m) (tables m)
    (singleStep m) (runUntilTime m).
Definition set_registers (r : list Z) (m : Machine) : Machine :=
  mkMachine (mainMemory m) r (tlb m) (pageTable m) (pageTableSize m) (tables m)
    (singleStep m) (runUntilTime m).
Definition set_tlb (t : list TranslationEntry) (m : Machine) : Machine :=
  mkMachine (mainMemory m) (registers m) (Some t) (pageTable m) (pageTableSize m)
    (tables m) (singleStep m) (runUntilTime m).
Definition set_table (a : table_loc) (t : list TranslationEntry) (m : Machine) : Machine :=
  mkMachine (mainMemory m) (registers m) (tlb m) (pageTable m) (pageTableSize m)
    (<[a := t]> (tables m)) (singleStep m) (runUntilTime m).

(** ** Operations *)

(** [Machine(debug)]; [use_tlb] is the macro [USE_TLB], [entries] what
    [new TranslationEntry[TLBSize]] returns, and [pts] the uninitialised
    [pageTableSize] and [runUntilTime]. *)
Definition new (use_tlb debug : bool) (entries : list TranslationEntry)
    (pts : Z * Z) : Machine :=
  mkMachine
    (replicate (Z.to_nat MemorySize) 0)
    (replicate (Z.to_nat NumTotalRegs) 0)
    (if use_tlb then
       Some ((fun e => mkEntry (virtualPage e) (physicalPage e) false (readOnly e)
                         (use e) (dirty e)) <$> entries)
     else None)
    None (fst pts) ∅ debug (snd pts).

(** [registers[i]] and [registers[i] = v]. *)
Definition reg (i : Z) (m : Machine) : res Z := zget (registers m) i.

Definition set_reg (i v : Z) (m : Machine) : res Machine :=
  r ← zset (registers m) i v; Ok (set_registers r m).

Definition ReadRegister (num : Z) (m : Machine) : res Z :=
  ASSERT ((0 <=? num) && (num <? NumTotalRegs));;
  reg num m.

Definition WriteRegister (num value : Z) (m : Machine) : res Machine :=
  ASSERT ((0 <=? num) && (num <? NumTotalRegs));;
  set_reg num value m.

(** mipssim.cc: apply the pending load, record the next one, keep R0 zero. *)
Definition DelayedLoad (nextReg nextValue : Z) (m : Machine) : res Machine :=
  lr ← reg LoadReg m;
  lv ← reg LoadValueReg m;
  m ← set_reg lr lv m;
  m ← set_reg LoadReg nextReg m;
  m ← set_reg LoadValueReg nextValue m;
  set_reg 0 0 m.

(** Where [Translate] found the entry it uses. *)
Inductive entry_ref :=
  | InTable (a : table_loc) (i : Z)
  | InTLB (i : Z).

(** The search of the TLB loop: the first valid entry for [vpn]. *)
Fixpoint find_tlb (vpn : Z) (l : list TranslationEntry) (i : Z)
    : option (Z * TranslationEntry) :=
  match l with
  | [] => None
  | e :: l' =>
      if valid e && (virtualPage e =? s32 vpn) then Some (i, e)
      else find_tlb vpn l' (i + 1)
  end.

(** The selection of the translation entry: the exception, or the entry. *)
Definition lookup_entry (vpn : Z) (m : Machine)
    : res (ExceptionType + entry_ref * TranslationEntry) :=
  match tlb m with
  | None =>
      if pageTableSize m <=? vpn then Ok (inl AddressErrorException)
      else
        match pageTable m with
        | None => UB
        | Some a =>
            match tables m !! a with
            | None => UB
            | Some t =>
                e ← zget t vpn;
                if negb (valid e) then Ok (inl PageFaultException)
                else Ok (inr (InTable a vpn, e))
            end
        end
  | Some t =>
      match find_tlb vpn (take (Z.to_nat TLBSize) t) 0 with
      | Some (i, e) => Ok (inr (InTLB i, e))
      | None => Ok (inl PageFaultException)
      end
  end.

(** The store of the modified entry through its pointer. *)
Definition store_entry (r : entry_ref) (e : TranslationEntry) (m : Machine)
    : res Machine :=
  match r with
  | InTable a i =>
      match tables m !! a with
      | None => UB
      | Some t => t' ← zset t i e; Ok (set_table a t' m)
      end
  | InTLB i =>
      match tlb m with
      | None => UB
      | Some t => t' ← zset t i e; Ok (set_tlb t' m)
      end
  end.

(** A pointer is null. *)
Definition isNull {A} (p : option A) : bool :=
  match p with None => true | Some _ => false end.

(** [Translate]: the exception raised, or the physical address and the machine
    with the use and dirty bits set. *)
Definition Translate (virtAddr size : Z) (writing : bool) (m : Machine)
    : res (ExceptionType + Z * Machine) :=
  if ((size =? 4) && negb (Z.land virtAddr 3 =? 0)) ||
     ((size =? 2) && negb (Z.land virtAddr 1 =? 0))
  then Ok (inl AddressErrorException)
  else
    ASSERT (isNull (tlb m) || isNull (pageTable m));;
    ASSERT (negb (isNull (tlb m)) || negb (isNull (pageTable m)));;
    let vpn := u32 virtAddr / PageSize in
    let offset := u32 virtAddr mod PageSize in
    o ← lookup_entry vpn m;
    match o with
    | inl exception => Ok (inl exception)
    | inr (r, entry) =>
        if readOnly entry && writing then Ok (inl ReadOnlyException)
        else
          let pageFrame := u32 (physicalPage entry) in
          if NumPhysPages <=? pageFrame then Ok (inl BusErrorException)
          else
            let entry := set_use entry in
            let entry := if writing then set_dirty entry else entry in
            m ← store_entry r entry m;
            let physAddr := s32 (pageFrame * PageSize + offset) in
            ASSERT ((0 <=? physAddr) && (physAddr + size <=? MemorySize));;
            Ok (inr (physAddr, m))
    end.

(** The switch on the size of [ReadMem]: the value at a physical address.
    Bytes of [mainMemory] are [char]s, which sign-extend. *)
Definition load (physAddr size : Z) (m : Machine) : res Z :=
  let bytes := zslice physAddr size (mainMemory m) in
  if size =? 1 then (b ← zget (mainMemory m) physAddr; Ok (s8 b))
  else if size =? 2 then
    ASSERT (Z.of_nat (length bytes) =? 2);; Ok (le_value bytes)
  else if size =? 4 then
    ASSERT (Z.of_nat (length bytes) =? 4);; Ok (s32 (le_value bytes))
  else Abort.

(** The switch on the size of [WriteMem]. *)
Definition store (physAddr size value : Z) (m : Machine) : res Machine :=
  if size =? 1 then
    mem ← zset (mainMemory m) physAddr (u8 value); Ok (set_memory mem m)
  else if (size =? 2) || (size =? 4) then
    Ok (set_memory (zsplice physAddr (le_bytes (Z.to_nat size) value) (mainMemory m)) m)
  else Abort.

(** What [Debugger] reads from the user: a number, or the first character. *)
Inductive debugger_input :=
  | InputNumber (num : Z)
  | InputChar (c : Ascii.ascii).

(** [Debugger]: its effect on the machine; 99 is ['c']. *)
Definition Debugger (buf : debugger_input) (m : Machine) : Machine :=
  let run (s : bool) (t : Z) :=
    mkMachine (mainMemory m) (registers m) (tlb m) (pageTable m) (pageTableSize m)
      (tables m) s t in
  match buf with
  | InputNumber num => run (singleStep m) num
  | InputChar c => run (singleStep m && negb (Ascii.eqb c (Ascii.ascii_of_nat 99))) 0
  end.

(** [DumpState]: the registers it prints, in order. *)
Definition DumpState (m : Machine) : res (list Z) :=
  out ← for_range (Z.to_nat NumGPRegs) 0
          (fun i out => v ← reg i m; Ok (out ++ [v])) [];
  hi ← reg HiReg m; lo ← reg LoReg m;
  pc ← reg PCReg m; npc ← reg NextPCReg m; ppc ← reg PrevPCReg m;
  ld ← reg LoadReg m; ldv ← reg LoadValueReg m;
  Ok (out ++ [hi; lo; pc; npc; ppc; ld; ldv]).

(** ** Well-formed machines *)

(** The registers: 40 words, R0 zero, the pending load aimed at a general
    register. *)
Record regs_ok (m : Machine) : Prop := {
  regs_length : length (registers m) = Z.to_nat NumTotalRegs;
  regs_s32 : Forall is_s32 (registers m);
  regs_R0 : reg 0 m = Ok 0;
  regs_load : exists r, reg LoadReg m = Ok r /\ 0 <= r < NumGPRegs
}.

(** Exactly one of TLB and page table, each of the size the code assumes. *)
Definition mmu_ok (m : Machine) : Prop :=
  match tlb m with
  | Some t => pageTable m = None /\ length t = Z.to_nat TLBSize
  | None => exists a t, pageTable m = Some a /\ tables m !! a = Some t /\
      pageTableSize m <= Z.of_nat (length t)
  end.

Record mem_ok (m : Machine) : Prop := {
  mem_length : Z.of_nat (length (mainMemory m)) = MemorySize;
  mem_bytes : Forall is_byte (mainMemory m)
}.

(** ** Registers *)
Lemma reg_spec i m :
  regs_ok m -> 0 <= i < NumTotalRegs -> exists v, reg i m = Ok v /\ is_s32 v.
Proof.
  intros [Hl Hs _ _] Hi. unfold reg.
  destruct (zget_is_Ok (registers m) i) as [v Hv]; [rewrite Hl; lia|].
  exists v. split; [done|]. apply zget_Ok in Hv as [_ Hv].
  by eapply Forall_lookup_1 in Hv.
Qed.

Lemma set_reg_eq i v m :
  length (registers m) = Z.to_nat NumTotalRegs -> 0 <= i < NumTotalRegs ->
  set_reg i v m = Ok (set_registers (<[Z.to_nat i := v]> (registers m)) m).
Proof. intros Hl Hi. unfold set_reg. rewrite zset_eq by (rewrite Hl; lia). done. Qed.

Lemma reg_set_registers i j v m :
  length (registers m) = Z.to_nat NumTotalRegs -> 0 <= j < NumTotalRegs -> 0 <= i ->
  reg i (set_registers (<[Z.to_nat j := v]> (registers m)) m) =
    if i =? j then Ok v else reg i m.
Proof.
  intros Hl Hj Hi. unfold reg, zget. simpl. destruct (Z.leb_spec 0 i); [|lia].
  destruct (Z.eqb_spec i j) as [->|Hij].
  - rewrite list_lookup_insert_eq by (rewrite Hl; lia). done.
  - by rewrite list_lookup_insert_ne by lia.
Qed.

(** A write of a word to a register: what the register file becomes. *)
Lemma set_reg_spec i v m :
  length (registers m) = Z.to_nat NumTotalRegs -> Forall is_s32 (registers m) ->
  is_s32 v -> 0 <= i < NumTotalRegs ->
  exists m', set_reg i v m = Ok m' /\
    length (registers m') = Z.to_nat NumTotalRegs /\ Forall is_s32 (registers m') /\
    (forall j, 0 <= j -> reg j m' = if j =? i then Ok v else reg j m) /\
    m' = set_registers (registers m') m.
Proof.
  intros Hl Hs Hv Hi. rewrite set_reg_eq by done. eexists. split; [done|].
  simpl. rewrite length_insert. split; [done|]. split; [by apply Forall_insert|].
  split; [|done]. intros j Hj. by apply reg_set_registers.
Qed.

(** [DelayedLoad] from a register file in which R0 may hold anything. *)
Lemma DelayedLoad_spec nextReg nextValue m lr lv :
  length (registers m) = Z.to_nat NumTotalRegs -> Forall is_s32 (registers m) ->
  reg LoadReg m = Ok lr -> 0 <= lr < NumGPRegs -> reg LoadValueReg m = Ok lv ->
  is_s32 nextValue -> 0 <= nextReg < NumGPRegs ->
  exists m', DelayedLoad nextReg nextValue m = Ok m' /\ regs_ok m' /\
    (forall j, 0 <= j -> reg j m' =
       if j =? 0 then Ok 0
       else if j =? LoadValueReg then Ok nextValue
       else if j =? LoadReg then Ok nextReg
       else if j =? lr then Ok lv else reg j m) /\
    m' = set_registers (registers m') m.
Proof.
  intros Hl Hs Hlr Hr Hlv Hnv Hnr. unfold DelayedLoad. rewrite Hlr, Hlv. simpl.
  assert (is_s32 lv) as Hlvs.
  { apply zget_Ok in Hlv as [_ Hlv]. by eapply Forall_lookup_1 in Hlv. }
  destruct (set_reg_spec lr lv m) as (m1 & -> & Hl1 & Hs1 & R1 & E1);
    [done..|unfold NumGPRegs, NumTotalRegs in *; lia|]. simpl.
  destruct (set_reg_spec LoadReg nextReg m1) as (m2 & -> & Hl2 & Hs2 & R2 & E2);
    [done..|unfold NumGPRegs, is_s32 in *; lia|done|]. simpl.
  destruct (set_reg_spec LoadValueReg nextValue m2) as (m3 & -> & Hl3 & Hs3 & R3 & E3);
    [done..|]. simpl.
  destruct (set_reg_spec 0 0 m3) as (m4 & -> & Hl4 & Hs4 & R4 & E4); [done..|].
  assert (forall j, 0 <= j -> reg j m4 =
       if j =? 0 then Ok 0
       else if j =? LoadValueReg then Ok nextValue
       else if j =? LoadReg then Ok nextReg
       else if j =? lr then Ok lv else reg j m) as R.
  { intros j Hj. by rewrite R4, R3, R2, R1 by done. }
  exists m4. split; [done|]. split; [|split; [done|]].
  - split; [done|done|by rewrite R|]. exists nextReg. by rewrite R.
  - rewrite E4, E3, E2, E1. done.
Qed.

(** ** Address translation *)

(** The entry found at a reference. *)
Definition at_ref (r : entry_ref) (e : TranslationEntry) (m : Machine) : Prop :=
  match r with
  | InTable a i =>
      tlb m = None /\ pageTable m = Some a /\ i < pageTableSize m /\
      exists t, tables m !! a = Some t /\ zget t i = Ok e
  | InTLB i =>
      exists t, tlb m = Some t /\ zget t i = Ok e
  end.

(** [e'] translates like [e]. *)
Definition same_mapping (e e' : TranslationEntry) : Prop :=
  virtualPage e' = virtualPage e /\ physicalPage e' = physicalPage e /\
  valid e' = valid e /\ readOnly e' = readOnly e.

Lemma find_tlb_Some vpn l i j e :
  find_tlb vpn l i = Some (j, e) ->
  i <= j /\ l !! Z.to_nat (j - i) = Some e /\ valid e = true /\ virtualPage e = s32 vpn.
Proof.
  revert i. induction l as [|e' l IH]; intros i; simpl; [done|].
  destruct (valid e' && (virtualPage e' =? s32 vpn)) eqn:E.
  - intros [= <- <-]. apply andb_prop in E as [? ?%Z.eqb_eq].
    split; [lia|]. by rewrite Z.sub_diag.
  - intros (Hj & Hl & He)%IH. split; [lia|]. split; [|done].
    by replace (Z.to_nat (j - i)) with (S (Z.to_nat (j - (i + 1)))) by lia.
Qed.

Lemma find_tlb_insert vpn l i j e e' :
  find_tlb vpn l i = Some (j, e) -> same_mapping e e' ->
  find_tlb vpn (<[Z.to_nat (j - i) := e']> l) i = Some (j, e').
Proof.
  intros Hf (H1 & H2 & H3 & H4). revert i Hf.
  induction l as [|e0 l IH]; intros i; simpl; [done|].
  destruct (valid e0 && (virtualPage e0 =? s32 vpn)) eqn:E.
  - intros [= <- <-]. rewrite Z.sub_diag. simpl. by rewrite H3, H1, E.
  - intros Hf. pose proof (find_tlb_Some _ _ _ _ _ Hf) as (Hj & _).
    replace (Z.to_nat (j - i)) with (S (Z.to_nat (j - (i + 1)))) by lia.
    simpl. rewrite E. by apply IH.
Qed.

Lemma lookup_entry_total vpn m :
  mmu_ok m -> 0 <= vpn ->
  exists o, lookup_entry vpn m = Ok o /\
    match o with
    | inl e => e = AddressErrorException \/ e = PageFaultException
    | inr (r, e) => at_ref r e m /\ valid e = true
    end.
Proof.
  unfold mmu_ok, lookup_entry. intros Hm Hv. destruct (tlb m) as [t|] eqn:Et.
  - destruct Hm as [_ Hl].
    destruct (find_tlb vpn _ 0) as [[i e]|] eqn:E; (eexists; split; [done|]); [|by right].
    apply find_tlb_Some in E as (Hi & Hl' & Hval & _). split; [|done].
    exists t. split; [done|]. apply zget_Ok. split; [done|].
    rewrite Z.sub_0_r in Hl'. rewrite take_ge in Hl' by lia. done.
  - destruct Hm as (a & t & Ha & Ht & Hs). rewrite Ha, Ht.
    destruct (Z.leb_spec (pageTableSize m) vpn); [eexists; split; [done|]; by left|].
    destruct (zget_is_Ok t vpn) as [e He]; [lia|]. rewrite He. simpl.
    destruct (valid e) eqn:Ev; (eexists; split; [done|]); [|by right].
    split; [|done]. simpl. repeat (split; [done|]). by exists t.
Qed.

(** Storing an entry back through its reference: it is found there again, and
    nothing else of the machine changes. *)
Lemma store_entry_spec vpn r e e' m :
  mmu_ok m -> 0 <= vpn -> lookup_entry vpn m = Ok (inr (r, e)) -> same_mapping e e' ->
  exists m', store_entry r e' m = Ok m' /\ mmu_ok m' /\
    lookup_entry vpn m' = Ok (inr (r, e')) /\
    mainMemory m' = mainMemory m /\ registers m' = registers m.
Proof.
  unfold mmu_ok, lookup_entry. intros Hm Hv Hl He.
  destruct (tlb m) as [t|] eqn:Et.
  - destruct Hm as [Hp Hlen]. rewrite (take_ge t) in Hl by lia.
    destruct (find_tlb vpn t 0) as [[i e1]|] eqn:E; [|done]. simplify_eq/=.
    rewrite Et. pose proof (find_tlb_insert _ _ _ _ _ e' E He) as Ei.
    apply find_tlb_Some in E as (Hi & Hl' & _). apply lookup_lt_Some in Hl'.
    rewrite Z.sub_0_r in *. rewrite zset_eq by lia. simpl.
    eexists. split; [done|]. simpl. rewrite length_insert. split; [done|].
    rewrite take_ge by (rewrite length_insert; lia). by rewrite Ei.
  - destruct Hm as (a & t & Ha & Ht & Hs). rewrite Ha, Ht in Hl.
    destruct (Z.leb_spec (pageTableSize m) vpn); [done|].
    destruct (zget_is_Ok t vpn) as [e1 He1]; [lia|]. rewrite He1 in Hl. simpl in Hl.
    destruct (valid e1) eqn:Ev; simplify_eq/=. rewrite Ht.
    rewrite zset_eq by lia. simpl. eexists. split; [done|]. simpl.
    rewrite Et, Ha, lookup_insert_eq. split.
    { eexists _, _. rewrite lookup_insert_eq. rewrite length_insert. done. }
    destruct (Z.leb_spec (pageTableSize m) vpn); [lia|]. unfold zget.
    destruct (Z.leb_spec 0 vpn); [|lia].
    rewrite list_lookup_insert_eq by lia. simpl.
    destruct He as (_ & _ & -> & _). by rewrite Ev.
Qed.

(** The entry after a use of it. *)
Definition marked (writing : bool) (e : TranslationEntry) : TranslationEntry :=
  if writing then set_dirty (set_use e) else set_use e.

Definition misaligned (virtAddr size : Z) : bool :=
  ((size =? 4) && negb (Z.land virtAddr 3 =? 0)) ||
  ((size =? 2) && negb (Z.land virtAddr 1 =? 0)).

Definition access_size (size : Z) : Prop := size = 1 \/ size = 2 \/ size = 4.

Lemma marked_mapping writing e : same_mapping e (marked writing e).
Proof. by destruct writing. Qed.

(** An aligned access stays inside its page. *)
Lemma aligned_offset virtAddr size :
  access_size size -> misaligned virtAddr size = false ->
  (u32 virtAddr mod PageSize) mod size = 0 /\
  0 <= u32 virtAddr mod PageSize /\ u32 virtAddr mod PageSize + size <= PageSize.
Proof.
  intros Hs Hal. unfold misaligned in Hal.
  assert (virtAddr mod size = 0) as Hm.
  { destruct Hs as [->|[->| ->]]; simpl in Hal; [apply Z.mod_1_r| |].
    - change 1 with (Z.ones 1) in Hal. rewrite Z.land_ones in Hal by lia.
      by apply negb_false_iff, Z.eqb_eq in Hal.
    - change 3 with (Z.ones 2) in Hal. rewrite Z.land_ones in Hal by lia.
      rewrite orb_false_r in Hal. by apply negb_false_iff, Z.eqb_eq in Hal. }
  unfold u32, wrap, PageSize, SectorSize.
  assert ((virtAddr mod 2 ^ 32) mod 128 = virtAddr mod 128) as E by dlia.
  rewrite E. destruct Hs as [->|[->| ->]]; dlia.
Qed.

Lemma same_mapping_store e1 e2 : same_mapping e1 e2 ->
  readOnly e2 = readOnly e1 /\ physicalPage e2 = physicalPage e1.
Proof. by intros (_ & -> & _ & ->). Qed.

(** [Translate] once the entry is known. *)
Lemma Translate_entry virtAddr size writing m r e :
  mmu_ok m -> access_size size -> misaligned virtAddr size = false ->
  lookup_entry (u32 virtAddr / PageSize) m = Ok (inr (r, e)) ->
  readOnly e && writing = false -> u32 (physicalPage e) < NumPhysPages ->
  let physAddr := u32 (physicalPage e) * PageSize + u32 virtAddr mod PageSize in
  exists m', Translate virtAddr size writing m = Ok (inr (physAddr, m')) /\
    mmu_ok m' /\
    lookup_entry (u32 virtAddr / PageSize) m' = Ok (inr (r, marked writing e)) /\
    mainMemory m' = mainMemory m /\ registers m' = registers m.
Proof.
  intros Hm Hs Hal Hl Hro Hf physAddr. unfold Translate.
  change (_ || _) with (misaligned virtAddr size) at 1. rewrite Hal.
  rewrite ASSERT_true
    by (unfold mmu_ok in Hm; destruct (tlb m); [by destruct Hm as [-> _]|done]). simpl.
  rewrite ASSERT_true
    by (unfold mmu_ok in Hm; destruct (tlb m); [done|by destruct Hm as (? & ? & -> & _)]).
  simpl. rewrite Hl. simpl. rewrite Hro.
  destruct (Z.leb_spec NumPhysPages (u32 (physicalPage e))); [lia|].
  change (if writing then set_dirty (set_use e) else set_use e) with (marked writing e).
  assert (0 <= u32 virtAddr / PageSize) as Hv.
  { apply Z.div_pos; [apply u32_range|done]. }
  destruct (store_entry_spec _ _ _ (marked writing e) _ Hm Hv Hl) as (m' & -> & Hm' & Hl' & Hmem & Hr);
    [apply marked_mapping|]. simpl.
  destruct (aligned_offset virtAddr size Hs Hal) as (_ & Ho & Ho').
  pose proof (u32_range (physicalPage e)) as [Hp _].
  unfold physAddr, NumPhysPages, PageSize, SectorSize in *.
  rewrite s32_id by (unfold is_s32, access_size in *; lia).
  rewrite ASSERT_true
    by (unfold MemorySize, NumPhysPages, PageSize, SectorSize, access_size in *; zcases; done || lia).
  by exists m'.
Qed.

(** The two exceptions raised after a valid entry was found. *)
Lemma Translate_refused virtAddr size writing m r e :
  mmu_ok m -> misaligned virtAddr size = false ->
  lookup_entry (u32 virtAddr / PageSize) m = Ok (inr (r, e)) ->
  readOnly e && writing = true \/ NumPhysPages <= u32 (physicalPage e) ->
  Translate virtAddr size writing m =
    Ok (inl (if readOnly e && writing then ReadOnlyException else BusErrorException)).
Proof.
  intros Hm Hal Hl Hx. unfold Translate.
  change (_ || _) with (misaligned virtAddr size) at 1. rewrite Hal.
  unfold mmu_ok in Hm. destruct (tlb m);
    [destruct Hm as [-> _]|destruct Hm as (? & ? & -> & _)]; simpl; rewrite Hl; simpl;
    destruct (readOnly e && writing); try done;
    by destruct (Z.leb_spec NumPhysPages (u32 (physicalPage e))); [|destruct Hx; [done|lia]].
Qed.

(** On a well-formed machine [Translate] never aborts: it raises one of four
    exceptions or gives an address whose bytes are in physical memory. *)
Lemma Translate_total virtAddr size writing m :
  mmu_ok m -> access_size size ->
  exists o, Translate virtAddr size writing m = Ok o /\
    match o with
    | inl e => In e [AddressErrorException; PageFaultException;
                     ReadOnlyException; BusErrorException]
    | inr (physAddr, m') =>
        misaligned virtAddr size = false /\
        exists r e, lookup_entry (u32 virtAddr / PageSize) m = Ok (inr (r, e)) /\
          readOnly e && writing = false /\ u32 (physicalPage e) < NumPhysPages /\
          physAddr = u32 (physicalPage e) * PageSize + u32 virtAddr mod PageSize /\
          0 <= physAddr /\ physAddr + size <= MemorySize /\ physAddr mod size = 0
    end.
Proof.
  intros Hm Hs. destruct (misaligned virtAddr size) eqn:Hal.
  { exists (inl AddressErrorException). split; [|simpl; tauto].
    unfold Translate. change (_ || _) with (misaligned virtAddr size) at 1. by rewrite Hal. }
  assert (0 <= u32 virtAddr / PageSize) as Hv.
  { apply Z.div_pos; [apply u32_range|done]. }
  destruct (lookup_entry_total _ m Hm Hv) as (o & Hl & Ho).
  destruct o as [e|[r e]].
  { exists (inl e). split; [|simpl; intuition]. unfold Translate.
    change (_ || _) with (misaligned virtAddr size) at 1. rewrite Hal.
    unfold mmu_ok in Hm. destruct (tlb m);
      [destruct Hm as [-> _]|destruct Hm as (? & ? & -> & _)]; simpl; by rewrite Hl. }
  destruct (readOnly e && writing) eqn:Hro.
  { exists (inl ReadOnlyException). split; [|simpl; tauto].
    rewrite (Translate_refused virtAddr size writing m r e) by auto. by rewrite Hro. }
  destruct (Z_lt_le_dec (u32 (physicalPage e)) NumPhysPages) as [Hf|Hf].
  - destruct (Translate_entry virtAddr size writing m r e) as (m' & Ht & _); try done.
    eexists. split; [exact Ht|]. split; [done|]. exists r, e.
    destruct (aligned_offset virtAddr size Hs Hal) as (Hz & Ho1 & Ho2).
    pose proof (u32_range (physicalPage e)) as [Hp _].
    unfold MemorySize, NumPhysPages, PageSize, SectorSize in *.
    repeat (split; [done || lia|]).
    destruct Hs as [->|[->| ->]]; dlia.
  - exists (inl BusErrorException). split; [|simpl; tauto].
    rewrite (Translate_refused virtAddr size writing m r e) by auto. by rewrite Hro.
Qed.

(** ** Physical memory *)

(** What [ReadMem] gives back for [value] written with [size]: bytes
    sign-extend, half-words zero-extend. *)
Definition narrowed (size value : Z) : Z :=
  if size =? 1 then s8 (u8 value) else if size =? 2 then u16 value else s32 value.

Definition in_memory (physAddr size : Z) : Prop :=
  0 <= physAddr /\ physAddr + size <= MemorySize.

(** [store] writes the bytes of the value, lowest first. *)
Lemma store_spec physAddr size value m :
  mem_ok m -> access_size size -> in_memory physAddr size ->
  store physAddr size value m =
    Ok (set_memory (zsplice physAddr (le_bytes (Z.to_nat size) value) (mainMemory m)) m).
Proof.
  intros [Hl _] Hs [H0 H1]. unfold store.
  destruct Hs as [->|[->| ->]]; simpl (_ =? _); cbv iota; [|done..].
  rewrite zset_zsplice by lia. done.
Qed.

Lemma store_mem_ok physAddr size value m :
  mem_ok m -> access_size size -> in_memory physAddr size ->
  mem_ok (set_memory (zsplice physAddr (le_bytes (Z.to_nat size) value) (mainMemory m)) m).
Proof.
  intros [Hl Hb] Hs [H0 H1]. split; simpl.
  - rewrite length_zsplice; [done|done|].
    rewrite length_le_bytes. unfold access_size in Hs. lia.
  - apply zsplice_Forall; auto with nachos.
Qed.

(** [load] depends on the bytes it reads only. *)
Lemma load_bytes physAddr size m bs :
  access_size size -> 0 <= physAddr -> zslice physAddr size (mainMemory m) = bs ->
  Z.of_nat (length bs) = size ->
  load physAddr size m =
    Ok (if size =? 1 then s8 (le_value bs)
        else if size =? 2 then le_value bs else s32 (le_value bs)).
Proof.
  intros Hs H0 Hbs Hl. unfold load.
  destruct Hs as [->|[->| ->]]; simpl (_ =? _); cbv iota.
  - destruct bs as [|b [|? ?]]; simpl in Hl; try lia.
    rewrite (zget_zslice _ _ b) by done. simpl. do 2 f_equal. lia.
  - by rewrite Hbs, Hl.
  - by rewrite Hbs, Hl.
Qed.

Lemma load_total physAddr size m :
  mem_ok m -> access_size size -> in_memory physAddr size ->
  exists v, load physAddr size m = Ok v /\ is_s32 v.
Proof.
  intros [Hl Hb] Hs [H0 H1].
  assert (Z.of_nat (length (zslice physAddr size (mainMemory m))) = size) as Hlen.
  { apply length_zslice; unfold access_size in Hs; lia. }
  pose proof (zslice_Forall is_byte physAddr size _ Hb) as Hbs.
  pose proof (le_value_range _ Hbs) as Hr.
  rewrite (load_bytes physAddr size m _ Hs H0 eq_refl Hlen).
  eexists. split; [done|].
  destruct Hs as [->|[->| ->]]; simpl (_ =? _); cbv iota; [| |apply s32_range].
  - unfold s8, swrap, is_s32. simpl. dlia.
  - replace (8 * _) with 16 in Hr by lia. unfold is_s32. lia.
Qed.

Lemma load_store_same physAddr size value m :
  mem_ok m -> access_size size -> in_memory physAddr size ->
  load physAddr size
    (set_memory (zsplice physAddr (le_bytes (Z.to_nat size) value) (mainMemory m)) m) =
  Ok (narrowed size value).
Proof.
  intros [Hl Hb] Hs [H0 H1].
  assert (Z.of_nat (length (le_bytes (Z.to_nat size) value)) = size) as Hlen.
  { rewrite length_le_bytes. unfold access_size in Hs. lia. }
  rewrite (load_bytes physAddr size _ (le_bytes (Z.to_nat size) value)); try done.
  - rewrite le_value_le_bytes. unfold narrowed.
    destruct Hs as [->|[->| ->]]; simpl; [done..|].
    by rewrite <- (s32_u32 value).
  - simpl. rewrite <- Hlen at 1. apply zslice_zsplice; lia.
Qed.

Lemma load_store_other physAddr size value physAddr' size' m :
  mem_ok m -> access_size size -> access_size size' ->
  in_memory physAddr size -> in_memory physAddr' size' ->
  physAddr' + size' <= physAddr \/ physAddr + size <= physAddr' ->
  load physAddr' size'
    (set_memory (zsplice physAddr (le_bytes (Z.to_nat size) value) (mainMemory m)) m) =
  load physAddr' size' m.
Proof.
  intros [Hl Hb] Hs Hs' [H0 H1] [H0' H1'] Hd.
  assert (Z.of_nat (length (le_bytes (Z.to_nat size) value)) = size) as Hlen.
  { rewrite length_le_bytes. unfold access_size in Hs. lia. }
  assert (Z.of_nat (length (zslice physAddr' size' (mainMemory m))) = size') as Hlen'.
  { apply length_zslice; unfold access_size in Hs'; lia. }
  rewrite !(load_bytes physAddr' size' _ (zslice physAddr' size' (mainMemory m))); try done.
  simpl. apply zslice_zsplice_disjoint; lia.
Qed.

(** ** Properties *)

(** What an access does once it has found the entry [e]; the entry is [accessed writing e]
    in the machine [m] after it. *)
Definition accessed (writing : bool) (e : TranslationEntry) : TranslationEntry :=
  mkEntry (virtualPage e) (physicalPage e) (valid e) (readOnly e) true (dirty e || writing).

Definition access (virtAddr : Z) (writing : bool) (e : TranslationEntry) (m : Machine)
    : ExceptionType + Z * Machine :=
  if readOnly e && writing then inl ReadOnlyException
  else if NumPhysPages <=? u32 (physicalPage e) then inl BusErrorException
  else inr (u32 (physicalPage e) * PageSize + u32 virtAddr mod PageSize, m).

Lemma marked_accessed writing e : marked writing e = accessed writing e.
Proof. destruct e as [? ? ? ? ? []], writing; done. Qed.

Lemma misaligned_mod virtAddr size :
  access_size size -> misaligned virtAddr size = negb (virtAddr mod size =? 0).
Proof.
  unfold misaligned. intros [->|[->| ->]]; cbn [Z.eqb Pos.eqb andb orb].
  - by rewrite Z.mod_1_r.
  - change 1 with (Z.ones 1). by rewrite Z.land_ones.
  - change 3 with (Z.ones 2). by rewrite Z.land_ones, orb_false_r.
Qed.

(** The loop over the TLB looks for the first valid entry of the page. *)
Lemma find_tlb_first vpn t i :
  s32 vpn = vpn ->
  find_tlb vpn t i =
    (fun p => (i + Z.of_nat p.1, p.2)) <$> list_find (fun e => valid e = true /\ virtualPage e = vpn) t.
Proof.
  intros Hvpn. revert i. induction t as [|e t IH]; intros i; [done|]. cbn [find_tlb list_find]. rewrite Hvpn.
  destruct (decide (valid e = true /\ virtualPage e = vpn)) as [[E1 E2]|Hne].
  - rewrite E1, E2, Z.eqb_refl. cbn. by rewrite Z.add_0_r.
  - assert (valid e && (virtualPage e =? vpn) = false) as ->.
    { apply not_true_is_false. intros [? ?%Z.eqb_eq]%andb_prop. by apply Hne. }
    rewrite IH. destruct (list_find _ t) as [[j e']|]; [|done]. cbn. do 2 f_equal. lia.
Qed.

Lemma page_number virtAddr : s32 (u32 virtAddr / PageSize) = u32 virtAddr / PageSize.
Proof.
  apply s32_id. pose proof (u32_range virtAddr) as Hu. unfold is_u32, is_s32, PageSize, SectorSize in *. dlia.
Qed.

(** [Translate] with the entry that was looked up. *)
Lemma Translate_of_entry virtAddr size writing m r e m' :
  mmu_ok m -> access_size size -> misaligned virtAddr size = false ->
  lookup_entry (u32 virtAddr / PageSize) m = Ok (inr (r, e)) -> store_entry r (marked writing e) m = Ok m' ->
  Translate virtAddr size writing m = Ok (access virtAddr writing e m').
Proof.
  intros Hm Hs Hal Hl Hst. unfold access.
  destruct (readOnly e && writing) eqn:Hro; [|destruct (Z.leb_spec NumPhysPages (u32 (physicalPage e)))].
  - rewrite (Translate_refused virtAddr size writing m r e) by auto. by rewrite Hro.
  - rewrite (Translate_refused virtAddr size writing m r e) by auto. by rewrite Hro.
  - destruct (Translate_entry virtAddr size writing m r e) as (m1 & Ht & _); try done.
    rewrite Ht. revert Ht. unfold Translate. change (_ || _) with (misaligned virtAddr size) at 1. rewrite Hal.
    destruct (ASSERT (isNull _ || _)) as [[]| | | |]; try done. cbn [bind].
    destruct (ASSERT (negb _ || _)) as [[]| | | |]; try done. cbn [bind].
    rewrite Hl. cbn [bind]. rewrite Hro, (proj2 (Z.leb_gt _ _)) by done.
    change (if writing then set_dirty (set_use e) else set_use e) with (marked writing e). rewrite Hst. cbn [bind].
    destruct (ASSERT _) as [[]| | | |]; try done. cbn [bind]. intros E. injection E as _ ->. done.
Qed.

Lemma Translate_no_entry virtAddr size writing m ex :
  mmu_ok m -> misaligned virtAddr size = false -> lookup_entry (u32 virtAddr / PageSize) m = Ok (inl ex) ->
  Translate virtAddr size writing m = Ok (inl ex).
Proof.
  intros Hm Hal Hl. unfold Translate. change (_ || _) with (misaligned virtAddr size) at 1. rewrite Hal.
  unfold mmu_ok in Hm. destruct (tlb m);
    [destruct Hm as [-> _]|destruct Hm as (? & ? & -> & _)]; cbn [isNull orb negb ASSERT bind]; by rewrite Hl.
Qed.

(** C34: [Translate] of a 1, 2 or 4 byte access never fails.  A misaligned address is an
    address error.  Without a TLB a page past the page table is an address error, and an
    entry that is not valid a page fault; with a TLB a page without a valid entry is a page
    fault, and the first valid entry of the page is used.  A write through a read-only
    entry and a frame past physical memory raise their exceptions; otherwise the physical
    address is that of the frame, the entry becomes used (and dirty for a write), and the
    machine is the same but for that entry; the whole access is aligned and lies in main
    memory. *)
Theorem Translate_correct virtAddr size writing m :
  mmu_ok m -> access_size size ->
  let vpn := u32 virtAddr / PageSize in
  (if virtAddr mod size =? 0 then
    match tlb m with
    | None => exists a t, pageTable m = Some a /\ tables m !! a = Some t /\
        if pageTableSize m <=? vpn then Translate virtAddr size writing m = Ok (inl AddressErrorException)
        else exists e, t !! Z.to_nat vpn = Some e /\
          Translate virtAddr size writing m =
            Ok (if valid e then
                  access virtAddr writing e (set_table a (<[Z.to_nat vpn := accessed writing e]> t) m)
                else inl PageFaultException)
    | Some t =>
        Translate virtAddr size writing m =
          Ok match list_find (fun e => valid e = true /\ virtualPage e = vpn) t with
             | Some (i, e) => access virtAddr writing e (set_tlb (<[i := accessed writing e]> t) m)
             | None => inl PageFaultException
             end
    end
  else Translate virtAddr size writing m = Ok (inl AddressErrorException)) /\
  forall physAddr m', Translate virtAddr size writing m = Ok (inr (physAddr, m')) ->
    0 <= physAddr /\ physAddr + size <= MemorySize /\ physAddr mod size = 0.
Proof.
  intros Hm Hs vpn. pose proof (misaligned_mod virtAddr size Hs) as Hmis.
  assert (0 <= vpn) as Hv by (apply Z.div_pos; [apply u32_range|done]). split.
  2: { intros physAddr m' E. destruct (Translate_total virtAddr size writing m Hm Hs) as (o & Ht & Hcase).
    rewrite Ht in E. injection E as ->. destruct Hcase as (_ & r' & e' & _ & _ & _ & _ & H0 & H1 & H2). done. }
  destruct (virtAddr mod size =? 0) eqn:Hmod; cbn [negb] in Hmis.
  2: { unfold Translate. change (_ || _) with (misaligned virtAddr size) at 1. by rewrite Hmis. }
  destruct (tlb m) as [t|] eqn:Et.
  - assert (lookup_entry vpn m = match list_find (fun e => valid e = true /\ virtualPage e = vpn) t with
      | Some (i, e) => Ok (inr (InTLB (Z.of_nat i), e)) | None => Ok (inl PageFaultException) end) as El.
    { pose proof Hm as Hm'. unfold mmu_ok in Hm'. rewrite Et in Hm'. destruct Hm' as [_ Hlen].
      unfold lookup_entry. rewrite Et, take_ge, find_tlb_first by (exact (page_number virtAddr) || lia).
      by destruct (list_find _ t) as [[i e]|]. }
    destruct (list_find _ t) as [[i e]|] eqn:Ef; [|by apply Translate_no_entry].
    eapply Translate_of_entry; [done..|]. cbn [store_entry]. rewrite Et.
    apply list_find_Some in Ef as (Hi & _ & _). apply lookup_lt_Some in Hi.
    rewrite zset_eq, Nat2Z.id, marked_accessed by lia. done.
  - pose proof Hm as Hm'. unfold mmu_ok in Hm'. rewrite Et in Hm'. destruct Hm' as (a & t & Ha & Ht & Hlen).
    exists a, t. split; [done|]. split; [done|].
    assert (lookup_entry vpn m = if pageTableSize m <=? vpn then Ok (inl AddressErrorException)
      else e ← zget t vpn; if negb (valid e) then Ok (inl PageFaultException) else Ok (inr (InTable a vpn, e))) as El
      by (unfold lookup_entry; by rewrite Et, Ha, Ht).
    destruct (Z.leb_spec (pageTableSize m) vpn); [by apply Translate_no_entry|].
    destruct (zget_is_Ok t vpn) as [e He]; [lia|]. rewrite He in El. cbn [bind] in El.
    pose proof (proj1 (zget_Ok _ _ _) He) as [_ He']. exists e. split; [done|].
    destruct (valid e); cbn [negb] in El; [|by apply Translate_no_entry].
    eapply Translate_of_entry; [done..|]. cbn [store_entry]. rewrite Ht.
    by rewrite zset_eq, marked_accessed by lia.
Qed.

(** In physical memory, a load after a store at the same address and size
    gives the value stored, cut to that size (sign-extended for a byte and a word,
    not for a half word), and a load of any bytes apart from it is unchanged. *)
Theorem store_load_correct physAddr size value m :
  mem_ok m -> access_size size -> in_memory physAddr size ->
  exists m', store physAddr size value m = Ok m' /\ mem_ok m' /\ registers m' = registers m /\
    load physAddr size m' = Ok (narrowed size value) /\
    forall physAddr' size', access_size size' -> in_memory physAddr' size' ->
      physAddr' + size' <= physAddr \/ physAddr + size <= physAddr' ->
      load physAddr' size' m' = load physAddr' size' m.
Proof.
  intros Hm Hs Hp. rewrite store_spec by done. eexists. split; [done|].
  split; [by apply store_mem_ok|]. split; [done|]. split; [by apply load_store_same|].
  intros physAddr' size' Hs' Hp' Hdis. by apply load_store_other.
Qed.

(** A machine with two pages, the second read-only, for the witnesses. *)
Definition two_pages : Machine :=
  mkMachine (replicate (Z.to_nat MemorySize) 0) (replicate (Z.to_nat NumTotalRegs) 0) None
    (Some 1%positive) 2
    {[1%positive := [mkEntry 0 3 true false false false; mkEntry 1 4 true true false false]]}
    false 0.

Lemma two_pages_mmu : mmu_ok two_pages.
Proof. exists 1%positive. eexists. split; [done|]. split; [apply lookup_singleton_eq|done]. Qed.

Lemma zero_memory_ok r t p n ts s u :
  mem_ok (mkMachine (replicate (Z.to_nat MemorySize) 0) r t p n ts s u).
Proof.
  split; cbn [mainMemory]; [|by apply Forall_replicate].
  rewrite length_replicate. by apply Z2Nat.id.
Qed.

Lemma Translate_correct_witness :
  Translate 8 4 true two_pages = Ok (inr (3 * PageSize + 8,
    set_table 1 [mkEntry 0 3 true false true true; mkEntry 1 4 true true false false] two_pages)) /\
  Translate (PageSize + 8) 4 true two_pages = Ok (inl ReadOnlyException) /\
  Translate (2 * PageSize) 4 true two_pages = Ok (inl AddressErrorException) /\
  Translate 6 4 true two_pages = Ok (inl AddressErrorException).
Proof.
  assert (access_size 4) as Hs by (by right; right).
  destruct (Translate_correct 8 4 true two_pages two_pages_mmu Hs)
    as ((a & t & [= <-] & [= <-] & e & [= <-] & H1) & _).
  destruct (Translate_correct (PageSize + 8) 4 true two_pages two_pages_mmu Hs)
    as ((a & t & [= <-] & [= <-] & e & [= <-] & H2) & _).
  destruct (Translate_correct (2 * PageSize) 4 true two_pages two_pages_mmu Hs)
    as ((a & t & [= <-] & [= <-] & H3) & _).
  destruct (Translate_correct 6 4 true two_pages two_pages_mmu Hs) as [H4 _].
  split; [exact H1|]. split; [exact H2|]. split; [exact H3|exact H4].
Defined.

Lemma store_load_correct_witness :
  exists m', store 100 2 (-1) two_pages = Ok m' /\ load 100 2 m' = Ok 65535.
Proof.
  destruct (store_load_correct 100 2 (-1) two_pages (zero_memory_ok _ _ _ _ _ _ _))
    as (m' & E & _ & _ & El & _); [by right; left|done|].
  exists m'. split; [exact E|exact El].
Defined.

End Machine.
