(* ===== verification/Interrupt.v ===== *)
(** machine/stats.h, stats.cc, interrupt.h, interrupt.cc and timer.cc: the
    simulated clock and the interrupt hardware.

    Module [Stats] is the class [Statistics].  Module [Interrupt] is the
    class of that name over the [World] record, which gathers the objects the
    hardware simulation reaches through global variables: [machine],
    [interrupt], [stats] and, as the type parameter [K], the rest of the
    kernel.  A pending interrupt carries a value of the parameter [H] for its
    function pointer and argument; [run_handler] calls it and [Yield] is
    [currentThread->Yield()].  Module [Timer] is the timer device. *)

From S2P Require Import Prelude LinkedList MachineState.

Module Stats.

Record Statistics := mkStats {
  totalTicks : Z;              (* total time running Nachos *)
  idleTicks : Z;               (* time spent idle *)
  systemTicks : Z;             (* time spent executing system code *)
  userTicks : Z;               (* time spent executing user code *)
  numDiskReads : Z;
  numDiskWrites : Z;
  numConsoleCharsRead : Z;
  numConsoleCharsWritten : Z;
  numPageFaults : Z;
  numPacketsSent : Z;
  numPacketsRecvd : Z
}.

Definition UserTick : Z := 1.
Definition SystemTick : Z := 10.
Definition RotationTime : Z := 500.
Definition SeekTime : Z := 500.
Definition ConsoleTime : Z := 100.
Definition NetworkTime : Z := 100.
Definition TimerTicks : Z := 100.

Definition new : Statistics := mkStats 0 0 0 0 0 0 0 0 0 0 0.

(** The clock jumps to [when] while the machine is idle. *)
Definition advance_to (when : Z) (s : Statistics) : Statistics :=
  mkStats when (s32 (idleTicks s + s32 (when - totalTicks s))) (systemTicks s) (userTicks s)
    (numDiskReads s) (numDiskWrites s) (numConsoleCharsRead s)
    (numConsoleCharsWritten s) (numPageFaults s) (numPacketsSent s) (numPacketsRecvd s).
(** The clock advances by [n], charged to system or user time. *)
Definition tick_system (n : Z) (s : Statistics) : Statistics :=
  mkStats (s32 (totalTicks s + n)) (idleTicks s) (s32 (systemTicks s + n)) (userTicks s)
    (numDiskReads s) (numDiskWrites s) (numConsoleCharsRead s)
    (numConsoleCharsWritten s) (numPageFaults s) (numPacketsSent s) (numPacketsRecvd s).
Definition tick_user (n : Z) (s : Statistics) : Statistics :=
  mkStats (s32 (totalTicks s + n)) (idleTicks s) (systemTicks s) (s32 (userTicks s + n))
    (numDiskReads s) (numDiskWrites s) (numConsoleCharsRead s)
    (numConsoleCharsWritten s) (numPageFaults s) (numPacketsSent s) (numPacketsRecvd s).

Definition count_disk_read (s : Statistics) : Statistics :=
  mkStats (totalTicks s) (idleTicks s) (systemTicks s) (userTicks s)
    (s32 (numDiskReads s + 1)) (numDiskWrites s) (numConsoleCharsRead s)
    (numConsoleCharsWritten s) (numPageFaults s) (numPacketsSent s) (numPacketsRecvd s).
Definition count_disk_write (s : Statistics) : Statistics :=
  mkStats (totalTicks s) (idleTicks s) (systemTicks s) (userTicks s)
    (numDiskReads s) (s32 (numDiskWrites s + 1)) (numConsoleCharsRead s)
    (numConsoleCharsWritten s) (numPageFaults s) (numPacketsSent s) (numPacketsRecvd s).

(** The figures [Print] prints, in its order. *)
Definition Print (s : Statistics) : list Z :=
  [totalTicks s; idleTicks s; systemTicks s; userTicks s;
   numDiskReads s; numDiskWrites s;
   numConsoleCharsRead s; numConsoleCharsWritten s;
   numPageFaults s; numPacketsRecvd s; numPacketsSent s].

(** Every tick is charged to exactly one counter (modulo [2^32]). *)
Definition balanced (s : Statistics) : Prop :=
  is_s32 (totalTicks s) /\
  u32 (totalTicks s) = u32 (idleTicks s + systemTicks s + userTicks s).

Lemma u32_shift a b n : u32 a = u32 b -> u32 (a + n) = u32 (b + n).
Proof. intros H. by rewrite <- u32_add_l, H, u32_add_l. Qed.

Lemma u32_s32_add a b : u32 (a + s32 b) = u32 (a + b).
Proof. by rewrite <- u32_add_r, u32_s32, u32_add_r. Qed.

Lemma advance_to_balanced n s : is_s32 n -> balanced s -> balanced (advance_to n s).
Proof.
  intros Hn [_ H]. split; simpl; [done|].
  replace (s32 (idleTicks s + s32 (n - totalTicks s)) + systemTicks s + userTicks s)
    with (systemTicks s + userTicks s + s32 (idleTicks s + s32 (n - totalTicks s))) by lia.
  rewrite u32_s32_add.
  replace (systemTicks s + userTicks s + (idleTicks s + s32 (n - totalTicks s)))
    with (idleTicks s + systemTicks s + userTicks s + s32 (n - totalTicks s)) by lia.
  rewrite u32_s32_add, <- u32_add_l, <- H, u32_add_l. f_equal. lia.
Qed.

Lemma tick_system_balanced n s : balanced s -> balanced (tick_system n s).
Proof.
  intros [_ H]. split; simpl; [apply s32_range|]. rewrite u32_s32.
  apply (u32_shift _ _ n) in H. rewrite H.
  replace (idleTicks s + s32 (systemTicks s + n) + userTicks s)
    with (idleTicks s + userTicks s + s32 (systemTicks s + n)) by lia.
  rewrite u32_s32_add. f_equal. lia.
Qed.

Lemma tick_user_balanced n s : balanced s -> balanced (tick_user n s).
Proof.
  intros [_ H]. split; simpl; [apply s32_range|]. rewrite u32_s32.
  apply (u32_shift _ _ n) in H. rewrite H, u32_s32_add. f_equal. lia.
Qed.

#[export] Hint Resolve advance_to_balanced tick_system_balanced tick_user_balanced : nachos.

End Stats.

Module Interrupt.

Import Machine Stats.

Inductive IntStatus := IntOff | IntOn.
Inductive MachineStatus := IdleMode | SystemMode | UserMode.
Inductive IntType :=
  | TimerInt | DiskInt | ConsoleWriteInt | ConsoleReadInt
  | NetworkSendInt | NetworkRecvInt.

#[export] Instance IntStatus_eq_dec : EqDecision IntStatus.
Proof. solve_decision. Defined.
#[export] Instance MachineStatus_eq_dec : EqDecision MachineStatus.
Proof. solve_decision. Defined.
#[export] Instance IntType_eq_dec : EqDecision IntType.
Proof. solve_decision. Defined.

Section interrupt.
(** [K]: the rest of the kernel; [H]: function pointers with an argument. *)
Context {K H : Type}.

Record PendingInterrupt := mkPending {
  handler : H;        (* the function to call, with its argument *)
  when : Z;           (* when the interrupt is supposed to fire *)
  type : IntType
}.

Record Interrupt := mkInterrupt {
  level : IntStatus;
  pending : list (Z * PendingInterrupt);   (* with the sort keys *)
  inHandler : bool;
  yieldOnReturn : bool;
  status : MachineStatus
}.

Record World := mkWorld {
  machine : option Machine;     (* NULL outside user programs *)
  interrupt : Interrupt;
  stats : Statistics;
  kernel : K
}.

(** ** Assignments to the fields *)
Definition set_machine (m : Machine) (w : World) : World :=
  mkWorld (Some m) (interrupt w) (stats w) (kernel w).
Definition set_stats (s : Statistics) (w : World) : World :=
  mkWorld (machine w) (interrupt w) s (kernel w).
Definition set_kernel (k : K) (w : World) : World :=
  mkWorld (machine w) (interrupt w) (stats w) k.
Definition upd_interrupt (f : Interrupt -> Interrupt) (w : World) : World :=
  mkWorld (machine w) (f (interrupt w)) (stats w) (kernel w).
Definition set_level (l : IntStatus) : World -> World :=
  upd_interrupt (fun i => mkInterrupt l (pending i) (inHandler i) (yieldOnReturn i) (status i)).
Definition set_pending (p : list (Z * PendingInterrupt)) : World -> World :=
  upd_interrupt (fun i => mkInterrupt (level i) p (inHandler i) (yieldOnReturn i) (status i)).
Definition set_inHandler (b : bool) : World -> World :=
  upd_interrupt (fun i => mkInterrupt (level i) (pending i) b (yieldOnReturn i) (status i)).
Definition set_yield (b : bool) : World -> World :=
  upd_interrupt (fun i => mkInterrupt (level i) (pending i) (inHandler i) b (status i)).
Definition setStatus (st : MachineStatus) : World -> World :=
  upd_interrupt (fun i => mkInterrupt (level i) (pending i) (inHandler i) (yieldOnReturn i) st).

(** ** Operations *)
Definition getLevel (w : World) : IntStatus := level (interrupt w).
Definition getStatus (w : World) : MachineStatus := status (interrupt w).

(** [Interrupt::Interrupt()] *)
Definition new : Interrupt := mkInterrupt IntOff [] false false SystemMode.

Definition ChangeLevel (old now : IntStatus) (w : World) : World := set_level now w.

Definition YieldOnReturn (w : World) : World := set_yield true w.

(** [Halt]: print the statistics, then [Cleanup()], which calls [Exit(0)]. *)
Definition Halt (w : World) : res World := Exit 0.

Definition Schedule (h : H) (fromNow : Z) (ty : IntType) (w : World) : res World :=
  let when := s32 (totalTicks (stats w) + fromNow) in
  let toOccur := mkPending h when ty in
  ASSERT (0 <? fromNow);;
  Ok (set_pending (sorted_insert toOccur when (pending (interrupt w))) w).

(** The order in which [PrintPending] is applied by [DumpState]. *)
Definition DumpState (w : World) : Z * IntStatus * list (IntType * Z) :=
  (totalTicks (stats w), getLevel w,
   (fun p => (type p.2, when p.2)) <$> pending (interrupt w)).

Context (run_handler : H -> World -> res World).
Context (Yield : World -> res World).

(** The call of a handler: pending load, handler mode, the call, and back. *)
Definition fire (old : MachineStatus) (toOccur : PendingInterrupt) (w : World)
    : res World :=
  w ← match machine w with
      | Some m => m ← DelayedLoad 0 0 m; Ok (set_machine m w)
      | None => Ok w
      end;
  let w := set_inHandler true w in
  let w := setStatus SystemMode w in
  w ← run_handler (handler toOccur) w;
  let w := setStatus old w in
  Ok (set_inHandler false w).

Definition CheckIfDue (advanceClock : bool) (w : World) : res (bool * World) :=
  let old := getStatus w in
  ASSERT (bool_decide (getLevel w = IntOff));;
  match pending (interrupt w) with
  | [] => Ok (false, w)
  | (when, toOccur) :: rest =>
      let w := set_pending rest w in
      let later := totalTicks (stats w) <? when in
      let advanced :=
        if advanceClock && later then Some (set_stats (advance_to when (stats w)) w)
        else if later then None
        else Some w in
      match advanced with
      | None => Ok (false, set_pending (sorted_insert toOccur when rest) w)
      | Some w =>
        if bool_decide (getStatus w = IdleMode) && bool_decide (type toOccur = TimerInt)
           && bool_decide (rest = []) then
          Ok (false, set_pending (sorted_insert toOccur when rest) w)
        else
          w ← fire old toOccur w;
          Ok (true, w)
      end
  end.

(** [while (CheckIfDue(false));] *)
Fixpoint check_loop (fuel : nat) (w : World) : res World :=
  match fuel with
  | O => NoFuel
  | S fuel =>
      '(fired, w) ← CheckIfDue false w;
      if fired then check_loop fuel w else Ok w
  end.

Context (fuel : nat).

Definition OneTick (w : World) : res World :=
  let old := getStatus w in
  let w := set_stats
             (if bool_decide (getStatus w = SystemMode)
              then tick_system SystemTick (stats w)
              else tick_user UserTick (stats w)) w in
  let w := ChangeLevel IntOn IntOff w in
  w ← check_loop fuel w;
  let w := ChangeLevel IntOff IntOn w in
  if yieldOnReturn (interrupt w) then
    let w := set_yield false w in
    let w := setStatus SystemMode w in
    w ← Yield w;
    Ok (setStatus old w)
  else Ok w.

Definition SetLevel (now : IntStatus) (w : World) : res (IntStatus * World) :=
  let old := getLevel w in
  ASSERT (bool_decide (now = IntOff) || negb (inHandler (interrupt w)));;
  let w := ChangeLevel old now w in
  if bool_decide (now = IntOn) && bool_decide (old = IntOff) then
    w ← OneTick w; Ok (old, w)
  else Ok (old, w).

Definition Enable (w : World) : res World :=
  '(_, w) ← SetLevel IntOn w; Ok w.

Definition Idle (w : World) : res World :=
  let w := setStatus IdleMode w in
  '(fired, w) ← CheckIfDue true w;
  if fired then
    w ← check_loop fuel w;
    let w := set_yield false w in
    Ok (setStatus SystemMode w)
  else Halt w.

(** ** Well-formed interrupt state *)

(** The pending list is ordered by firing time, which is its sort key. *)
Record wf (w : World) : Prop := {
  wf_sorted : sorted (pending (interrupt w));
  wf_when : Forall (fun p => p.1 = when p.2 /\ is_s32 p.1) (pending (interrupt w));
  wf_balanced : balanced (stats w)
}.

(** The pending interrupts that are due. *)
Definition due (w : World) : list (Z * PendingInterrupt) :=
  filter (fun p => p.1 <= totalTicks (stats w)) (pending (interrupt w)).

Definition same_clock (w w' : World) : Prop :=
  totalTicks (stats w') = totalTicks (stats w) /\
  idleTicks (stats w') = idleTicks (stats w) /\
  systemTicks (stats w') = systemTicks (stats w) /\
  userTicks (stats w') = userTicks (stats w).

(** [w'] is [w] with more interrupts scheduled for the future. *)
Definition later_only (t : Z) (p : Z * PendingInterrupt) : Prop :=
  t < p.1 /\ p.1 = when p.2 /\ is_s32 p.1.

Definition insert_all (news xs : list (Z * PendingInterrupt)) :=
  foldl (fun l p => sorted_insert p.2 p.1 l) xs news.

Definition schedules (w w' : World) : Prop :=
  same_clock w w' /\ getLevel w' = getLevel w /\
  exists news, Forall (later_only (totalTicks (stats w))) news /\
    pending (interrupt w') = insert_all news (pending (interrupt w)).

Lemma wf_insert_all news xs t :
  Forall (later_only t) news -> sorted xs ->
  Forall (fun p => p.1 = when p.2 /\ is_s32 p.1) xs ->
  sorted (insert_all news xs) /\
  Forall (fun p => p.1 = when p.2 /\ is_s32 p.1) (insert_all news xs).
Proof.
  unfold insert_all. intros Hnews. revert xs.
  induction Hnews as [|[k x] news (_ & Hk & Hr) _ IH]; simpl; intros xs Hs Hw; [done|].
  apply IH; [by apply sorted_insert_sorted|].
  rewrite sorted_insert_perm. by constructor.
Qed.

Lemma filter_sorted_insert_later t x k (xs : list (Z * PendingInterrupt)) :
  t < k ->
  filter (fun p => p.1 <= t) (sorted_insert x k xs) = filter (fun p => p.1 <= t) xs.
Proof.
  intros Hk. induction xs as [|[k' y] xs IH]; simpl.
  - rewrite filter_cons_False; [done|simpl; lia].
  - destruct (k <? k').
    + rewrite filter_cons_False; [done|simpl; lia].
    + rewrite !filter_cons, IH. done.
Qed.

Lemma filter_insert_all t news (xs : list (Z * PendingInterrupt)) :
  Forall (later_only t) news ->
  filter (fun p => p.1 <= t) (insert_all news xs) = filter (fun p => p.1 <= t) xs.
Proof.
  unfold insert_all. intros Hnews. revert xs.
  induction Hnews as [|[k x] news (Hk & _) _ IH]; simpl; intros xs; [done|].
  rewrite IH. by apply filter_sorted_insert_later.
Qed.

Lemma schedules_wf w w' : schedules w w' -> wf w -> wf w'.
Proof.
  intros ((H1 & H2 & H3 & H4) & _ & news & Hnews & Hp) [Hs Hw [Hb Hb']].
  destruct (wf_insert_all news (pending (interrupt w)) _ Hnews Hs Hw).
  split; rewrite ?Hp; try done. split; rewrite ?H1, ?H2, ?H3, ?H4; done.
Qed.

Lemma schedules_due w w' : schedules w w' -> due w' = due w.
Proof.
  intros ((H1 & _) & _ & news & Hnews & Hp). unfold due. rewrite H1, Hp.
  by apply filter_insert_all.
Qed.

Lemma schedules_refl w : schedules w w.
Proof. repeat split. by exists []. Qed.

Lemma schedules_trans w1 w2 w3 : schedules w1 w2 -> schedules w2 w3 -> schedules w1 w3.
Proof.
  intros ((A1 & A2 & A3 & A4) & Al & n1 & F1 & P1) ((B1 & B2 & B3 & B4) & Bl & n2 & F2 & P2).
  split; [repeat split; congruence|]. split; [congruence|].
  exists (n1 ++ n2). split; [apply Forall_app; rewrite A1 in F2; done|].
  rewrite P2, P1. unfold insert_all. by rewrite foldl_app.
Qed.

(** [Schedule] aborts unless the time is in the future, and otherwise inserts
    the interrupt in order. *)
Lemma Schedule_spec h fromNow ty w :
  0 < fromNow -> is_s32 (totalTicks (stats w) + fromNow) ->
  exists w', Schedule h fromNow ty w = Ok w' /\ schedules w w' /\
    pending (interrupt w') =
      sorted_insert (mkPending h (totalTicks (stats w) + fromNow) ty)
        (totalTicks (stats w) + fromNow) (pending (interrupt w)) /\
    kernel w' = kernel w /\ machine w' = machine w /\ stats w' = stats w.
Proof.
  intros Hf Ht. unfold Schedule. rewrite ASSERT_true by (zcases; done || lia).
  rewrite s32_id by done. eexists. split; [reflexivity|].
  split; [|done]. split; [done|]. split; [done|].
  exists [(totalTicks (stats w) + fromNow, mkPending h (totalTicks (stats w) + fromNow) ty)].
  split; [|reflexivity].
  constructor; [|done]. unfold later_only. cbn [fst snd when].
  split_and!; [lia|done|exact Ht].
Qed.

(** ** The loop over the due interrupts *)

(** What the hardware promises about the handlers it calls: in the states
    [Inv] of the machine and kernel they return, and they only schedule
    interrupts for later. *)
Class HandlerLaw (Inv : option Machine -> K -> Prop) : Prop := {
  law_load m k : Inv (Some m) k ->
    exists m', DelayedLoad 0 0 m = Ok m' /\ Inv (Some m') k;
  law_handler h w : Inv (machine w) (kernel w) -> getLevel w = IntOff ->
    exists w', run_handler h w = Ok w' /\ schedules w w' /\
      Inv (machine w') (kernel w')
}.

(** The invariant of the loop. *)
Record ready (Inv : option Machine -> K -> Prop) (w : World) : Prop := {
  ready_wf : wf w;
  ready_off : getLevel w = IntOff;
  ready_inv : Inv (machine w) (kernel w)
}.

Definition pop (w : World) : World := set_pending (tail (pending (interrupt w))) w.

(** A failed check removes the first interrupt and inserts it again, after
    the others of the same time. *)
Definition put_back (w : World) : World :=
  match pending (interrupt w) with
  | [] => w
  | (k, x) :: rest => set_pending (sorted_insert x k rest) w
  end.

(** Call the handlers of [l] one after the other. *)
Fixpoint fire_all (old : MachineStatus) (l : list (Z * PendingInterrupt)) (w : World)
    : res World :=
  match l with
  | [] => Ok w
  | p :: l => w ← fire old p.2 (pop w); fire_all old l w
  end.

Context (Inv : option Machine -> K -> Prop) `{!HandlerLaw Inv}.

Lemma pop_wf w : wf w -> wf (pop w).
Proof.
  intros [Hs Hw Hb]. unfold pop. split; simpl; [| |done].
  - destruct (pending (interrupt w)) as [|[k x] rest]; simpl; [done|]. apply Hs.
  - destruct (pending (interrupt w)) as [|[k x] rest]; simpl; [done|].
    by inversion Hw.
Qed.

Lemma put_back_perm w :
  pending (interrupt (put_back w)) ≡ₚ pending (interrupt w).
Proof.
  unfold put_back. destruct (pending (interrupt w)) as [|[k x] rest] eqn:E; simpl.
  - by rewrite E.
  - apply sorted_insert_perm.
Qed.

Lemma put_back_wf w : wf w -> wf (put_back w).
Proof.
  intros [Hs Hw Hb]. split.
  - unfold put_back. destruct (pending (interrupt w)) as [|[k x] rest] eqn:E; simpl.
    + by rewrite E.
    + apply sorted_insert_sorted, Hs.
  - by rewrite put_back_perm.
  - unfold put_back. by destruct (pending (interrupt w)) as [|[k x] rest].
Qed.

Lemma put_back_ready w : ready Inv w -> ready Inv (put_back w).
Proof.
  intros [Hw Ho Hi]. split; [by apply put_back_wf| |];
    unfold put_back; by destruct (pending (interrupt w)) as [|[k x] rest].
Qed.

Lemma fire_ready old p w :
  ready Inv w ->
  exists w', fire old p w = Ok w' /\ ready Inv w' /\ schedules w w' /\
    getStatus w' = old /\ inHandler (interrupt w') = false.
Proof.
  intros [Hw Ho Hi]. unfold fire.
  assert (exists w1,
    match machine w with
    | Some m => m ← DelayedLoad 0 0 m; Ok (set_machine m w)
    | None => Ok w
    end = Ok w1 /\ interrupt w1 = interrupt w /\ stats w1 = stats w /\
    Inv (machine w1) (kernel w1)) as (w1 & -> & Hint & Hst & Hi1).
  { destruct (machine w) as [m|] eqn:E; [|rewrite <- E in Hi; by exists w].
    destruct (law_load _ _ Hi) as (m' & -> & Hi'). simpl. by eexists. }
  simpl.
  destruct (law_handler (handler p) (setStatus SystemMode (set_inHandler true w1)))
    as (w2 & -> & Hs & Hi2); [done|unfold getLevel in *; simpl; by rewrite Hint|].
  simpl. eexists. split; [reflexivity|].
  assert (schedules w w2) as Hsch.
  { destruct Hs as ((H1 & H2 & H3 & H4) & Hl & news & F & P). simpl in *.
    rewrite Hst in *. unfold getLevel in *. simpl in *. rewrite Hint in *.
    split; [done|]. split; [done|]. by exists news. }
  split; [|split; [|done]].
  - apply (schedules_wf _ _ Hsch) in Hw as [? ? ?].
    destruct Hsch as (_ & Hl & _). split; [done| |done].
    change (getLevel w2 = IntOff). congruence.
  - destruct Hsch as (A & B & C). done.
Qed.

(** In a sorted list the due interrupts come first. *)
Lemma due_nil w :
  wf w -> due w = [] ->
  pending (interrupt w) = [] \/
  exists k x rest, pending (interrupt w) = (k, x) :: rest /\ totalTicks (stats w) < k.
Proof.
  intros Hw Hd. unfold due in Hd.
  destruct (pending (interrupt w)) as [|[k x] rest]; [by left|right].
  exists k, x, rest. split; [done|].
  rewrite filter_cons in Hd. simpl in Hd. case_decide; [done|lia].
Qed.

Lemma due_cons w p l :
  wf w -> due w = p :: l ->
  pending (interrupt w) = p :: tail (pending (interrupt w)) /\
  p.1 <= totalTicks (stats w) /\ due (pop w) = l.
Proof.
  intros [Hs _ _] Hd. unfold due, pop in *. simpl.
  destruct (pending (interrupt w)) as [|[k x] rest]; [done|]. simpl in *.
  destruct Hs as [Hall _]. rewrite filter_cons in Hd. simpl in Hd.
  case_decide; [by simplify_eq|].
  rewrite filter_none in Hd; [done|].
  eapply Forall_impl; [exact Hall|]. intros q. simpl. lia.
Qed.

Lemma CheckIfDue_wait w :
  ready Inv w -> due w = [] -> CheckIfDue false w = Ok (false, put_back w).
Proof.
  intros [Hw Ho _] Hd. unfold CheckIfDue, put_back. rewrite Ho. simpl.
  destruct (due_nil w Hw Hd) as [E|(k & x & rest & E & Hk)]; rewrite E; [done|].
  simpl. by destruct (Z.ltb_spec (totalTicks (stats w)) k); [|lia].
Qed.

Lemma CheckIfDue_fire advanceClock w p l :
  ready Inv w -> due w = p :: l ->
  ~ (getStatus w = IdleMode /\ type p.2 = TimerInt /\ pending (interrupt (pop w)) = []) ->
  CheckIfDue advanceClock w =
    (w' ← fire (getStatus w) p.2 (pop w); Ok (true, w')).
Proof.
  intros [Hw Ho _] Hd Hn. unfold CheckIfDue. rewrite Ho. simpl.
  destruct (due_cons w p l Hw Hd) as (E & Hk & _). unfold pop in *. simpl in *.
  rewrite E. destruct p as [k x], (tail _) as [|q rest]; simpl in *;
  (destruct (Z.ltb_spec (totalTicks (stats w)) k); [lia|]);
  rewrite andb_false_r; unfold getStatus in *; simpl.
  - do 2 (case_bool_decide; simpl; [|done]). naive_solver.
  - by rewrite andb_false_r.
Qed.

Lemma pop_ready w : ready Inv w -> ready Inv (pop w).
Proof. intros [? ? ?]. split; [by apply pop_wf|done|done]. Qed.

Lemma same_clock_trans w1 w2 w3 : same_clock w1 w2 -> same_clock w2 w3 -> same_clock w1 w3.
Proof. unfold same_clock. intuition congruence. Qed.

(** Firing the due interrupts: all of them return, the clock does not move,
    and none is due afterwards. *)
Lemma fire_all_ready old w :
  ready Inv w ->
  exists w', fire_all old (due w) w = Ok w' /\ ready Inv w' /\ due w' = [] /\
    same_clock w w' /\ (due w <> [] -> getStatus w' = old) /\
    (due w = [] -> w' = w).
Proof.
  remember (due w) as l eqn:E. revert w E.
  induction l as [|p l IH]; intros w E Hr; simpl.
  - exists w. by split_and!.
  - symmetry in E. destruct (due_cons w p l (ready_wf _ _ Hr) E) as (_ & _ & Hl).
    destruct (fire_ready old p.2 (pop w)) as (w1 & -> & Hr1 & Hs & Hst & _);
      [by apply pop_ready|]. simpl.
    assert (l = due w1) as Hl1 by (by rewrite (schedules_due _ _ Hs), Hl).
    destruct (IH w1 Hl1 Hr1) as (w' & -> & Hr' & Hd' & Hc & Hold & Hnil).
    exists w'. split; [done|]. split; [done|]. split; [done|].
    split; [eapply same_clock_trans; [apply Hs|done]|].
    split; [|done]. intros _. destruct l; [by rewrite Hnil|by apply Hold].
Qed.

(** The loop of [OneTick] calls exactly the handlers that are due, in order
    of their time, and stops. *)
Lemma check_loop_fire_all n w :
  ready Inv w -> getStatus w <> IdleMode -> (length (due w) < n)%nat ->
  check_loop n w = (w' ← fire_all (getStatus w) (due w) w; Ok (put_back w')).
Proof.
  revert w. induction n as [|n IH]; intros w Hr Hst Hn; [lia|]. simpl.
  destruct (due w) as [|p l] eqn:E.
  - by rewrite CheckIfDue_wait.
  - rewrite (CheckIfDue_fire _ _ p l) by (done || tauto).
    destruct (due_cons w p l (ready_wf _ _ Hr) E) as (_ & _ & Hl). simpl.
    destruct (fire_ready (getStatus w) p.2 (pop w)) as (w1 & -> & Hr1 & Hs & Hs1 & _);
      [by apply pop_ready|]. simpl.
    assert (due w1 = l) as Hl1 by (by rewrite (schedules_due _ _ Hs), Hl).
    rewrite IH by (rewrite ?Hl1, ?Hs1; simpl in Hn; done || lia).
    by rewrite Hl1, Hs1.
Qed.

(** The idle machine does not run the handler of a lone timer interrupt. *)
Definition lone_timer (w : World) : Prop :=
  exists p, pending (interrupt w) = [p] /\ type p.2 = TimerInt.

Lemma put_back_due w : due w = [] -> due (put_back w) = [].
Proof.
  intros Hd. assert (stats (put_back w) = stats w) as Hs
    by (unfold put_back; by destruct (pending (interrupt w)) as [|[k x] rest]).
  apply Permutation_nil. unfold due in *. by rewrite Hs, put_back_perm, Hd.
Qed.

Lemma put_back_same w :
  stats (put_back w) = stats w /\ getStatus (put_back w) = getStatus w /\
  getLevel (put_back w) = getLevel w /\ kernel (put_back w) = kernel w /\
  yieldOnReturn (interrupt (put_back w)) = yieldOnReturn (interrupt w).
Proof. unfold put_back. by destruct (pending (interrupt w)) as [|[k x] rest]. Qed.

(** In any mode the loop stops after at most as many calls as there are due
    interrupts. *)
Lemma check_loop_total n w :
  ready Inv w -> (length (due w) < n)%nat ->
  exists w', check_loop n w = Ok w' /\ ready Inv w' /\ same_clock w w' /\
    getStatus w' = getStatus w /\
    (due w' = [] \/ getStatus w = IdleMode /\ lone_timer w').
Proof.
  revert w. induction n as [|n IH]; intros w Hr Hn; [lia|]. simpl.
  destruct (due w) as [|p l] eqn:E.
  - rewrite CheckIfDue_wait by done. simpl. exists (put_back w).
    destruct (put_back_same w) as (Hs & Hst & _).
    split; [done|]. split; [by apply put_back_ready|].
    split; [unfold same_clock; by rewrite Hs|]. split; [done|].
    left. by apply put_back_due.
  - destruct (due_cons w p l (ready_wf _ _ Hr) E) as (Ep & Hk & Hl).
    destruct (decide (getStatus w = IdleMode /\ type p.2 = TimerInt /\
                      pending (interrupt (pop w)) = [])) as [(Hi & Ht & Hp)|Hno].
    + exists w. unfold CheckIfDue, pop in *. simpl in Hp.
      rewrite (ready_off _ _ Hr), Ep, Hp. destruct p as [k x]. simpl in *.
      destruct (Z.ltb_spec (totalTicks (stats w)) k); [lia|].
      rewrite !bool_decide_eq_true_2 by done. simpl.
      rewrite Hp in Ep. split.
      { f_equal. unfold set_pending, upd_interrupt. rewrite <- Ep.
        by destruct w as [? [] ? ?]. }
      split; [done|]. split; [done|]. split; [done|]. right. split; [done|].
      by exists (k, x).
    + rewrite (CheckIfDue_fire _ _ p l) by done. simpl.
      destruct (fire_ready (getStatus w) p.2 (pop w)) as (w1 & -> & Hr1 & Hs & Hs1 & _);
        [by apply pop_ready|]. simpl.
      destruct (IH w1) as (w' & -> & Hr' & Hc & Hst & Hd); [done| |].
      { rewrite (schedules_due _ _ Hs), Hl. simpl in Hn. lia. }
      exists w'. rewrite Hs1 in *. split; [done|]. split; [done|].
      split; [|done]. eapply same_clock_trans; [apply Hs|done].
Qed.

(** The world in which [OneTick] and [Idle] start to fire interrupts. *)
Definition ticked (w : World) : World :=
  set_level IntOff
    (set_stats (if bool_decide (getStatus w = SystemMode)
                then tick_system SystemTick (stats w)
                else tick_user UserTick (stats w)) w).

Lemma ticked_ready w : wf w -> Inv (machine w) (kernel w) -> ready Inv (ticked w).
Proof.
  intros [Hs Hw Hb] Hi. split; [|done|done]. split; simpl; [done|done|].
  case_bool_decide; auto with nachos.
Qed.

(** The end of [OneTick], once the due interrupts have been handled. *)
Definition end_tick (old : MachineStatus) (w : World) : res World :=
  let w := set_level IntOn w in
  if yieldOnReturn (interrupt w) then
    w ← Yield (setStatus SystemMode (set_yield false w)); Ok (setStatus old w)
  else Ok w.

Lemma OneTick_fires w :
  wf w -> Inv (machine w) (kernel w) -> getStatus w <> IdleMode ->
  (length (due (ticked w)) < fuel)%nat ->
  exists w1, fire_all (getStatus w) (due (ticked w)) (ticked w) = Ok w1 /\
    OneTick w = end_tick (getStatus w) (put_back w1) /\
    ready Inv (put_back w1) /\ due (put_back w1) = [] /\
    same_clock (ticked w) (put_back w1) /\ getStatus (put_back w1) = getStatus w.
Proof.
  intros Hw Hi Hst Hn. pose proof (ticked_ready w Hw Hi) as Hr.
  destruct (fire_all_ready (getStatus w) (ticked w) Hr)
    as (w1 & Hf & Hr1 & Hd & Hc & Hold & Hnil).
  exists w1. split; [done|]. split.
  - change (OneTick w) with (w' ← check_loop fuel (ticked w); end_tick (getStatus w) w').
    rewrite check_loop_fire_all by done.
    change (getStatus (ticked w)) with (getStatus w). by rewrite Hf.
  - destruct (put_back_same w1) as (Hs & Hs' & _).
    split; [by apply put_back_ready|]. split; [by apply put_back_due|].
    split; [unfold same_clock; by rewrite Hs|]. rewrite Hs'.
    destruct (due (ticked w)); [by rewrite Hnil|by apply Hold].
Qed.

(** The world in which [Idle] fires the first interrupt, due at [k]. *)
Definition idled (k : Z) (w : World) : World :=
  let w := setStatus IdleMode w in
  if totalTicks (stats w) <? k then set_stats (advance_to k (stats w)) w else w.

Lemma idled_ready k w :
  is_s32 k -> ready Inv w -> ready Inv (idled k w).
Proof.
  intros Hk [[Hs Hw Hb] Ho Hi]. unfold idled. simpl.
  destruct (_ <? _); (split; [split|..]); simpl; auto with nachos.
Qed.

Lemma idled_clock k w :
  stats (idled k w) =
    if totalTicks (stats w) <? k then advance_to k (stats w) else stats w.
Proof. unfold idled. simpl. by destruct (_ <? _). Qed.

Lemma CheckIfDue_idle w k x rest :
  wf w -> getLevel w = IntOff -> pending (interrupt w) = (k, x) :: rest ->
  ~ (type x = TimerInt /\ rest = []) ->
  CheckIfDue true (setStatus IdleMode w) =
    (w' ← fire IdleMode x (pop (idled k w)); Ok (true, w')).
Proof.
  intros Hw Ho E Hn. unfold CheckIfDue, getLevel in *. simpl.
  rewrite Ho, E. unfold idled, pop. simpl.
  destruct (totalTicks (stats w) <? k); simpl; rewrite E;
    unfold getStatus; simpl; do 2 (case_bool_decide; simpl; try done); tauto.
Qed.

Lemma Idle_halts w :
  getLevel w = IntOff -> pending (interrupt w) = [] \/ lone_timer w ->
  Idle w = Exit 0.
Proof.
  intros Ho Hp. unfold Idle, CheckIfDue, getLevel in *. simpl. rewrite Ho.
  destruct Hp as [->|([k x] & -> & Ht)]; [done|]. simpl.
  destruct (totalTicks (stats w) <? k); simpl in *;
    unfold getStatus; simpl; by rewrite !bool_decide_eq_true_2 by done.
Qed.

Lemma Idle_advances w k x rest :
  ready Inv w -> pending (interrupt w) = (k, x) :: rest ->
  ~ (type x = TimerInt /\ rest = []) ->
  (length (due (idled k w)) <= fuel)%nat ->
  exists w', Idle w = Ok w' /\ ready Inv w' /\ getStatus w' = SystemMode /\
    yieldOnReturn (interrupt w') = false /\
    same_clock (idled k w) w' /\ (due w' = [] \/ lone_timer w').
Proof.
  intros Hr E Hn Hfuel. pose proof (ready_wf _ _ Hr) as Hw.
  assert (is_s32 k) as Hk.
  { destruct Hw as [_ Hall _]. rewrite E in Hall. by inversion Hall as [|? ? [? ?]]. }
  unfold Idle. rewrite (CheckIfDue_idle w k x rest) by (done || apply Hr).
  pose proof (idled_ready k w Hk Hr) as Hri.
  destruct (fire_ready IdleMode x (pop (idled k w))) as (w1 & -> & Hr1 & Hs & Hs1 & _);
    [by apply pop_ready|]. simpl.
  assert (exists l, due (idled k w) = (k, x) :: l) as [l El].
  { unfold due. rewrite idled_clock. unfold idled. simpl.
    destruct (Z.ltb_spec (totalTicks (stats w)) k); simpl; rewrite E; eexists;
      apply filter_cons_True; simpl; lia. }
  destruct (due_cons _ _ _ (ready_wf _ _ Hri) El) as (_ & _ & Hl).
  destruct (check_loop_total fuel w1) as (w2 & -> & [Hw2 Ho2 Hi2] & Hc & Hst & Hd); [done| |].
  { rewrite (schedules_due _ _ Hs), Hl. rewrite El in Hfuel. simpl in Hfuel. lia. }
  simpl. eexists. split; [reflexivity|]. split.
  { split; [|done|done]. by destruct Hw2. }
  do 2 (split; [done|]). split; [|destruct Hd as [?|[_ ?]]; auto].
  eapply same_clock_trans; [apply Hs|done].
Qed.

(** ** Properties *)

(** C12: [OneTick] advances the clock by the tick of the current mode, runs the
    handlers of exactly the interrupts due at the new time, one after the other
    in the order of their times, with interrupts off and in system mode, and
    ends with none due; interrupts that the handlers schedule wait for a later
    tick, the total time stays the sum of idle, system and user time, and then
    the thread yields when a handler asked for it. *)
Theorem OneTick_correct w :
  wf w -> Inv (machine w) (kernel w) -> getStatus w <> IdleMode ->
  (length (due (ticked w)) < fuel)%nat ->
  exists w1, fire_all (getStatus w) (due (ticked w)) (ticked w) = Ok w1 /\
    OneTick w = end_tick (getStatus w) (put_back w1) /\
    wf (put_back w1) /\ due (put_back w1) = [] /\ getStatus (put_back w1) = getStatus w /\
    totalTicks (stats (put_back w1)) =
      s32 (totalTicks (stats w) +
           if bool_decide (getStatus w = SystemMode) then SystemTick else UserTick) /\
    Inv (machine (put_back w1)) (kernel (put_back w1)).
Proof.
  intros Hw Hi Hs Hf.
  destruct (OneTick_fires w Hw Hi Hs Hf) as (w1 & E & Et & [Hw1 _ Hi1] & Hd & [Hc _] & Hst).
  exists w1. split_and!; try done. rewrite Hc. unfold ticked. cbn.
  by destruct (bool_decide (getStatus w = SystemMode)).
Qed.

(** [Idle] with nothing pending, or only the timer, halts the simulator;
    otherwise it advances the clock to the first pending interrupt (never
    backwards), fires it and what is due with it, and returns in system mode
    without a pending request to yield. *)
Theorem Idle_correct w :
  (getLevel w = IntOff -> pending (interrupt w) = [] \/ lone_timer w -> Idle w = Exit 0) /\
  (forall k x rest, ready Inv w -> pending (interrupt w) = (k, x) :: rest ->
    ~ (type x = TimerInt /\ rest = []) -> (length (due (idled k w)) <= fuel)%nat ->
    exists w', Idle w = Ok w' /\ ready Inv w' /\ getStatus w' = SystemMode /\
      yieldOnReturn (interrupt w') = false /\
      totalTicks (stats w') = Z.max (totalTicks (stats w)) k /\
      (due w' = [] \/ lone_timer w')).
Proof.
  split; [intros Hl; by apply Idle_halts|]. intros k x rest Hr Hp Hn Hf.
  destruct (Idle_advances w k x rest Hr Hp Hn Hf) as (w' & E & Hr' & Hst & Hy & [Hc _] & Hd).
  exists w'. split_and!; try done. rewrite Hc, idled_clock.
  destruct (Z.ltb_spec (totalTicks (stats w)) k); cbn; lia.
Qed.

End interrupt.

Arguments PendingInterrupt H : clear implicits.
Arguments Interrupt H : clear implicits.
Arguments World K H : clear implicits.

(** A kernel whose handlers do nothing, with two interrupts pending, for the
    witnesses. *)
Definition no_handler (_ : unit) (w : World unit unit) : res (World unit unit) := Ok w.
Definition no_cpu (m : option Machine) (_ : unit) : Prop := m = None.

#[local] Instance no_handler_law : HandlerLaw no_handler no_cpu.
Proof.
  split; [done|]. intros h w Hw _. exists w. split; [done|]. split; [|done].
  apply schedules_refl.
Qed.

Definition two_pending : World unit unit :=
  mkWorld None
    (mkInterrupt IntOff
       [(5, mkPending tt 5 DiskInt); (30, mkPending tt 30 TimerInt)] false false SystemMode)
    Stats.new tt.

Lemma two_pending_wf : wf two_pending.
Proof.
  split.
  - repeat constructor; cbn; lia.
  - repeat constructor; cbn; unfold is_s32; lia.
  - done.
Qed.

Lemma OneTick_correct_witness :
  exists w', OneTick no_handler (fun w => Ok w) 2 two_pending = Ok w' /\
    totalTicks (stats w') = 10.
Proof.
  destruct (OneTick_correct no_handler (fun w => Ok w) 2 no_cpu two_pending two_pending_wf)
    as (w1 & E & Et & _ & _ & Hst & Hc & _); [done|done|vm_compute; lia|].
  vm_compute in E. injection E as <-. rewrite Et. eexists. split; [reflexivity|exact Hc].
Defined.

Lemma Idle_correct_witness :
  exists w', Idle no_handler 2 two_pending = Ok w' /\ totalTicks (stats w') = 5.
Proof.
  destruct (Idle_correct no_handler (fun w => Ok w) 2 no_cpu two_pending) as [_ Hadv].
  destruct (Hadv 5 (mkPending tt 5 DiskInt) [(30, mkPending tt 30 TimerInt)])
    as (w' & E & _ & _ & _ & Hc & _);
    [split; [exact two_pending_wf|done|done]|done|by intros [? ?]|vm_compute; lia|].
  exists w'. split; [exact E|exact Hc].
Defined.

(** ** The interrupts of one handler that are pending *)
Section pending_of.
Context {H : Type} `{EqDecision H}.
Implicit Types l : list (Z * PendingInterrupt H).

Definition pending_of (h : H) l : nat := length (filter (fun p => handler p.2 = h) l).

Lemma pending_of_perm h l l' : l ≡ₚ l' -> pending_of h l = pending_of h l'.
Proof. unfold pending_of. by intros ->. Qed.

Lemma pending_of_cons h p l :
  pending_of h (p :: l) = if decide (handler p.2 = h) then S (pending_of h l) else pending_of h l.
Proof. unfold pending_of. rewrite filter_cons. by case_decide. Qed.

(** The one that fires is one less, the one that is scheduled one more. *)
Lemma pending_of_middle h l1 p l2 : pending_of h (l1 ++ p :: l2) = pending_of h (p :: l1 ++ l2).
Proof. apply pending_of_perm. symmetry. apply Permutation_middle. Qed.

Lemma pending_of_insert h p when l :
  pending_of h (sorted_insert p when l) =
    if decide (handler p = h) then S (pending_of h l) else pending_of h l.
Proof. etrans; [apply pending_of_perm, sorted_insert_perm|apply pending_of_cons]. Qed.

End pending_of.

End Interrupt.

Module Timer.

Import Stats Interrupt.

Section timer.
Context {K H : Type}.

(** [Random()]: a non-negative pseudo-random number of the host. *)
Context (Random : World K H -> Z * World K H).

(** The device; [handler] is the kernel's function and its argument, and
    [TimerHandler] the value of [H] for the static function of that name
    applied to this timer. *)
Record Timer := mkTimer {
  randomize : bool;
  handler : World K H -> res (World K H)
}.

Definition TimeOfNextInterrupt (t : Timer) (w : World K H) : Z * World K H :=
  if randomize t then
    let '(r, w) := Random w in (1 + Z.rem r (TimerTicks * 2), w)
  else (TimerTicks, w).

(** [Timer(timerHandler, callArg, doRandom)] *)
Definition new (TimerHandler : H) (timerHandler : World K H -> res (World K H))
    (doRandom : bool) (w : World K H) : res (Timer * World K H) :=
  let t := mkTimer doRandom timerHandler in
  let '(fromNow, w) := TimeOfNextInterrupt t w in
  w ← Schedule TimerHandler fromNow TimerInt w;
  Ok (t, w).

Definition TimerExpired (TimerHandler : H) (t : Timer) (w : World K H)
    : res (World K H) :=
  let '(fromNow, w) := TimeOfNextInterrupt t w in
  w ← Schedule TimerHandler fromNow TimerInt w;
  handler t w.

Lemma TimeOfNextInterrupt_range t w :
  0 <= (Random w).1 ->
  1 <= (TimeOfNextInterrupt t w).1 <= 2 * TimerTicks.
Proof.
  intros Hr. unfold TimeOfNextInterrupt. destruct (randomize t); [|done].
  destruct (Random w) as [r w']. unfold TimerTicks. simpl in *.
  pose proof (Z.rem_bound_pos r (100 * 2)). lia.
Qed.

(** A timer interrupt schedules the next one 1 to 200 ticks later (exactly
    100 when not random), in time order, before it calls the kernel's handler; it
    changes neither the clock nor the interrupts that were pending. *)
Theorem TimerExpired_correct TimerHandler t w :
  (forall w, 0 <= (Random w).1 /\ (Random w).2 = w) ->
  0 <= totalTicks (stats w) -> totalTicks (stats w) + 2 * TimerTicks < 2 ^ 31 ->
  exists fromNow w1, 1 <= fromNow <= 2 * TimerTicks /\
    (randomize t = false -> fromNow = TimerTicks) /\
    TimerExpired TimerHandler t w = handler t w1 /\ stats w1 = stats w /\
    pending (interrupt w1) =
      sorted_insert (mkPending TimerHandler (totalTicks (stats w) + fromNow) TimerInt)
        (totalTicks (stats w) + fromNow) (pending (interrupt w)).
Proof.
  intros Hr H0 Ht. pose proof (TimeOfNextInterrupt_range t w (proj1 (Hr w))) as Hn.
  unfold TimerExpired. pose proof (Hr w) as [_ Hrw].
  assert ((TimeOfNextInterrupt t w).2 = w /\
    (randomize t = false -> (TimeOfNextInterrupt t w).1 = TimerTicks)) as [Hw Hfix].
  { unfold TimeOfNextInterrupt. destruct (randomize t); [|done].
    by destruct (Random w). }
  destruct (TimeOfNextInterrupt t w) as [fromNow w']. cbn [fst snd] in *. subst w'.
  destruct (Schedule_spec TimerHandler fromNow TimerInt w)
    as (w1 & -> & _ & Hp & _ & _ & Hst); [lia|unfold is_s32; lia|].
  by exists fromNow, w1.
Qed.

End timer.

Lemma TimerExpired_correct_witness :
  exists w, TimerExpired (fun w : World unit unit => (57, w)) tt (mkTimer true (fun w => Ok w))
    Interrupt.two_pending = Ok w /\ stats w = stats Interrupt.two_pending.
Proof.
  destruct (TimerExpired_correct (fun w : World unit unit => (57, w)) tt
    (mkTimer true (fun w => Ok w)) Interrupt.two_pending)
    as (fromNow & w1 & _ & _ & E & Hs & _); [done|done|done|].
  exists w1. split; [exact E|exact Hs].
Defined.

End Timer.
