(* ===== verification/Mips.v ===== *)
(** machine/mipssim.h, mipssim.cc and the memory accesses of translate.cc: the
    simulated MIPS processor.

    Module [Mips] decodes instructions ([Decode]), executes one
    ([OneInstruction]) and runs a program ([Run]).  The cases of the [switch]
    of [OneInstruction] are grouped by their alphabetical range, in source
    order; a group is a function of the machine that ends in [Done] with the
    next program counter, or in [Trap] where the code calls [RaiseException]
    and returns.  The kernel is entered through [ExceptionHandler], a
    parameter. *)

From S2P Require Import Prelude LinkedList MachineState Interrupt.
From stdpp Require Import strings.
Open Scope Z_scope.
Open Scope nachos_scope.

Module Mips.

Import Machine Stats Interrupt.

(** ** Operation codes *)
Inductive OpCode :=
  | OP_ADD | OP_ADDI | OP_ADDIU | OP_ADDU | OP_AND | OP_ANDI | OP_BEQ | OP_BGEZ
  | OP_BGEZAL | OP_BGTZ | OP_BLEZ | OP_BLTZ | OP_BLTZAL | OP_BNE | OP_DIV
  | OP_DIVU | OP_J | OP_JAL | OP_JALR | OP_JR | OP_LB | OP_LBU | OP_LH | OP_LHU
  | OP_LUI | OP_LW | OP_LWL | OP_LWR | OP_MFHI | OP_MFLO | OP_MTHI | OP_MTLO
  | OP_MULT | OP_MULTU | OP_NOR | OP_OR | OP_ORI | OP_RFE | OP_SB | OP_SH
  | OP_SLL | OP_SLLV | OP_SLT | OP_SLTI | OP_SLTIU | OP_SLTU | OP_SRA | OP_SRAV
  | OP_SRL | OP_SRLV | OP_SUB | OP_SUBU | OP_SW | OP_SWL | OP_SWR | OP_XOR
  | OP_XORI | OP_SYSCALL | OP_UNIMP | OP_RES | SPECIAL | BCOND.

#[export] Instance OpCode_eq_dec : EqDecision OpCode.
Proof. solve_decision. Defined.

(** The value of the macro. *)
Definition code (op : OpCode) : Z :=
  match op with
  | OP_ADD => 1 | OP_ADDI => 2 | OP_ADDIU => 3 | OP_ADDU => 4 | OP_AND => 5
  | OP_ANDI => 6 | OP_BEQ => 7 | OP_BGEZ => 8 | OP_BGEZAL => 9 | OP_BGTZ => 10
  | OP_BLEZ => 11 | OP_BLTZ => 12 | OP_BLTZAL => 13 | OP_BNE => 14 | OP_DIV => 16
  | OP_DIVU => 17 | OP_J => 18 | OP_JAL => 19 | OP_JALR => 20 | OP_JR => 21
  | OP_LB => 22 | OP_LBU => 23 | OP_LH => 24 | OP_LHU => 25 | OP_LUI => 26
  | OP_LW => 27 | OP_LWL => 28 | OP_LWR => 29 | OP_MFHI => 31 | OP_MFLO => 32
  | OP_MTHI => 34 | OP_MTLO => 35 | OP_MULT => 36 | OP_MULTU => 37 | OP_NOR => 38
  | OP_OR => 39 | OP_ORI => 40 | OP_RFE => 41 | OP_SB => 42 | OP_SH => 43
  | OP_SLL => 44 | OP_SLLV => 45 | OP_SLT => 46 | OP_SLTI => 47 | OP_SLTIU => 48
  | OP_SLTU => 49 | OP_SRA => 50 | OP_SRAV => 51 | OP_SRL => 52 | OP_SRLV => 53
  | OP_SUB => 54 | OP_SUBU => 55 | OP_SW => 56 | OP_SWL => 57 | OP_SWR => 58
  | OP_XOR => 59 | OP_XORI => 60 | OP_SYSCALL => 61 | OP_UNIMP => 62
  | OP_RES => 63 | SPECIAL => 100 | BCOND => 101
  end.

Definition MaxOpcode : Z := 63.

Definition IndexToAddr (x : Z) : Z := s32 (Z.shiftl x 2).
Definition SIGN_BIT : Z := 0x80000000.
Definition R31 : Z := 31.

Inductive Format := IFMT | JFMT | RFMT.

(** The translation of bits 31:26 of an instruction. *)
Definition opTable : list (OpCode * Format) :=
  [(SPECIAL, RFMT); (BCOND, IFMT); (OP_J, JFMT); (OP_JAL, JFMT); (OP_BEQ, IFMT);
   (OP_BNE, IFMT); (OP_BLEZ, IFMT); (OP_BGTZ, IFMT); (OP_ADDI, IFMT);
   (OP_ADDIU, IFMT); (OP_SLTI, IFMT); (OP_SLTIU, IFMT); (OP_ANDI, IFMT);
   (OP_ORI, IFMT); (OP_XORI, IFMT); (OP_LUI, IFMT); (OP_UNIMP, IFMT);
   (OP_UNIMP, IFMT); (OP_UNIMP, IFMT); (OP_UNIMP, IFMT); (OP_RES, IFMT);
   (OP_RES, IFMT); (OP_RES, IFMT); (OP_RES, IFMT); (OP_RES, IFMT); (OP_RES, IFMT);
   (OP_RES, IFMT); (OP_RES, IFMT); (OP_RES, IFMT); (OP_RES, IFMT); (OP_RES, IFMT);
   (OP_RES, IFMT); (OP_LB, IFMT); (OP_LH, IFMT); (OP_LWL, IFMT); (OP_LW, IFMT);
   (OP_LBU, IFMT); (OP_LHU, IFMT); (OP_LWR, IFMT); (OP_RES, IFMT); (OP_SB, IFMT);
   (OP_SH, IFMT); (OP_SWL, IFMT); (OP_SW, IFMT); (OP_RES, IFMT); (OP_RES, IFMT);
   (OP_SWR, IFMT); (OP_RES, IFMT); (OP_UNIMP, IFMT); (OP_UNIMP, IFMT);
   (OP_UNIMP, IFMT); (OP_UNIMP, IFMT); (OP_RES, IFMT); (OP_RES, IFMT);
   (OP_RES, IFMT); (OP_RES, IFMT); (OP_UNIMP, IFMT); (OP_UNIMP, IFMT);
   (OP_UNIMP, IFMT); (OP_UNIMP, IFMT); (OP_RES, IFMT); (OP_RES, IFMT);
   (OP_RES, IFMT); (OP_RES, IFMT)].

(** The translation of bits 5:0 of a SPECIAL instruction. *)
Definition specialTable : list OpCode :=
  [OP_SLL; OP_RES; OP_SRL; OP_SRA; OP_SLLV; OP_RES; OP_SRLV; OP_SRAV; OP_JR;
   OP_JALR; OP_RES; OP_RES; OP_SYSCALL; OP_UNIMP; OP_RES; OP_RES; OP_MFHI; OP_MTHI;
   OP_MFLO; OP_MTLO; OP_RES; OP_RES; OP_RES; OP_RES; OP_MULT; OP_MULTU; OP_DIV;
   OP_DIVU; OP_RES; OP_RES; OP_RES; OP_RES; OP_ADD; OP_ADDU; OP_SUB; OP_SUBU;
   OP_AND; OP_OR; OP_XOR; OP_NOR; OP_RES; OP_RES; OP_SLT; OP_SLTU; OP_RES; OP_RES;
   OP_RES; OP_RES; OP_RES; OP_RES; OP_RES; OP_RES; OP_RES; OP_RES; OP_RES; OP_RES;
   OP_RES; OP_RES; OP_RES; OP_RES; OP_RES; OP_RES; OP_RES; OP_RES].

Inductive RegType := NONE | RS | RT | RD | EXTRA.

(** The printed version of each instruction, by operation code. *)
Definition opStrings : list (string * list RegType) :=
  [("Shouldn't happen"%string, [NONE; NONE; NONE]);
   ("ADD r%d,r%d,r%d"%string, [RD; RS; RT]);
   ("ADDI r%d,r%d,%d"%string, [RT; RS; EXTRA]);
   ("ADDIU r%d,r%d,%d"%string, [RT; RS; EXTRA]);
   ("ADDU r%d,r%d,r%d"%string, [RD; RS; RT]);
   ("AND r%d,r%d,r%d"%string, [RD; RS; RT]);
   ("ANDI r%d,r%d,%d"%string, [RT; RS; EXTRA]);
   ("BEQ r%d,r%d,%d"%string, [RS; RT; EXTRA]);
   ("BGEZ r%d,%d"%string, [RS; EXTRA; NONE]);
   ("BGEZAL r%d,%d"%string, [RS; EXTRA; NONE]);
   ("BGTZ r%d,%d"%string, [RS; EXTRA; NONE]);
   ("BLEZ r%d,%d"%string, [RS; EXTRA; NONE]);
   ("BLTZ r%d,%d"%string, [RS; EXTRA; NONE]);
   ("BLTZAL r%d,%d"%string, [RS; EXTRA; NONE]);
   ("BNE r%d,r%d,%d"%string, [RS; RT; EXTRA]);
   ("Shouldn't happen"%string, [NONE; NONE; NONE]);
   ("DIV r%d,r%d"%string, [RS; RT; NONE]);
   ("DIVU r%d,r%d"%string, [RS; RT; NONE]);
   ("J %d"%string, [EXTRA; NONE; NONE]);
   ("JAL %d"%string, [EXTRA; NONE; NONE]);
   ("JALR r%d,r%d"%string, [RD; RS; NONE]);
   ("JR r%d,r%d"%string, [RD; RS; NONE]);
   ("LB r%d,%d(r%d)"%string, [RT; EXTRA; RS]);
   ("LBU r%d,%d(r%d)"%string, [RT; EXTRA; RS]);
   ("LH r%d,%d(r%d)"%string, [RT; EXTRA; RS]);
   ("LHU r%d,%d(r%d)"%string, [RT; EXTRA; RS]);
   ("LUI r%d,%d"%string, [RT; EXTRA; NONE]);
   ("LW r%d,%d(r%d)"%string, [RT; EXTRA; RS]);
   ("LWL r%d,%d(r%d)"%string, [RT; EXTRA; RS]);
   ("LWR r%d,%d(r%d)"%string, [RT; EXTRA; RS]);
   ("Shouldn't happen"%string, [NONE; NONE; NONE]);
   ("MFHI r%d"%string, [RD; NONE; NONE]);
   ("MFLO r%d"%string, [RD; NONE; NONE]);
   ("Shouldn't happen"%string, [NONE; NONE; NONE]);
   ("MTHI r%d"%string, [RS; NONE; NONE]);
   ("MTLO r%d"%string, [RS; NONE; NONE]);
   ("MULT r%d,r%d"%string, [RS; RT; NONE]);
   ("MULTU r%d,r%d"%string, [RS; RT; NONE]);
   ("NOR r%d,r%d,r%d"%string, [RD; RS; RT]);
   ("OR r%d,r%d,r%d"%string, [RD; RS; RT]);
   ("ORI r%d,r%d,%d"%string, [RT; RS; EXTRA]);
   ("RFE"%string, [NONE; NONE; NONE]);
   ("SB r%d,%d(r%d)"%string, [RT; EXTRA; RS]);
   ("SH r%d,%d(r%d)"%string, [RT; EXTRA; RS]);
   ("SLL r%d,r%d,%d"%string, [RD; RT; EXTRA]);
   ("SLLV r%d,r%d,r%d"%string, [RD; RT; RS]);
   ("SLT r%d,r%d,r%d"%string, [RD; RS; RT]);
   ("SLTI r%d,r%d,%d"%string, [RT; RS; EXTRA]);
   ("SLTIU r%d,r%d,%d"%string, [RT; RS; EXTRA]);
   ("SLTU r%d,r%d,r%d"%string, [RD; RS; RT]);
   ("SRA r%d,r%d,%d"%string, [RD; RT; EXTRA]);
   ("SRAV r%d,r%d,r%d"%string, [RD; RT; RS]);
   ("SRL r%d,r%d,%d"%string, [RD; RT; EXTRA]);
   ("SRLV r%d,r%d,r%d"%string, [RD; RT; RS]);
   ("SUB r%d,r%d,r%d"%string, [RD; RS; RT]);
   ("SUBU r%d,r%d,r%d"%string, [RD; RS; RT]);
   ("SW r%d,%d(r%d)"%string, [RT; EXTRA; RS]);
   ("SWL r%d,%d(r%d)"%string, [RT; EXTRA; RS]);
   ("SWR r%d,%d(r%d)"%string, [RT; EXTRA; RS]);
   ("XOR r%d,r%d,r%d"%string, [RD; RS; RT]);
   ("XORI r%d,r%d,%d"%string, [RT; RS; EXTRA]);
   ("SYSCALL"%string, [NONE; NONE; NONE]);
   ("Unimplemented"%string, [NONE; NONE; NONE]);
   ("Reserved"%string, [NONE; NONE; NONE])].

Record Instruction := mkInstr {
  value : Z;         (* binary representation *)
  opCode : OpCode;
  rs : Z; rt : Z; rd : Z;
  extra : Z          (* immediate, target, shift amount or offset *)
}.

(** ** Decoding *)

Definition bits (v sh m : Z) : Z := Z.land (Z.shiftr v sh) m.

Definition Decode (value : Z) : res Instruction :=
  let rs := bits value 21 0x1f in
  let rt := bits value 16 0x1f in
  let rd := bits value 11 0x1f in
  '(op, format) ← zget opTable (bits value 26 0x3f);
  let extra :=
    match format with
    | IFMT =>
        let extra := Z.land value 0xffff in
        if negb (Z.land extra 0x8000 =? 0) then s32 (Z.lor extra 0xffff0000) else extra
    | RFMT => bits value 6 0x1f
    | JFMT => Z.land value 0x3ffffff
    end in
  op ← (if bool_decide (op = SPECIAL) then zget specialTable (Z.land value 0x3f)
        else if bool_decide (op = BCOND) then
          let i := Z.land value 0x1f0000 in
          Ok (if i =? 0 then OP_BLTZ
              else if i =? 0x10000 then OP_BGEZ
              else if i =? 0x100000 then OP_BLTZAL
              else if i =? 0x110000 then OP_BGEZAL
              else OP_UNIMP)
        else Ok op);
  Ok (mkInstr value op rs rt rd extra).

(** The register number or operand printed for [reg]. *)
Definition TypeToReg (reg : RegType) (instr : Instruction) : Z :=
  match reg with
  | RS => rs instr
  | RT => rt instr
  | RD => rd instr
  | EXTRA => extra instr
  | NONE => -1
  end.

(** What the debugging output of [OneInstruction] prints for [instr]. *)
Definition describe (instr : Instruction) : res (string * list Z) :=
  '(fmt, args) ← zget opStrings (code (opCode instr));
  ASSERT (code (opCode instr) <=? MaxOpcode);;
  Ok (fmt, (fun a => TypeToReg a instr) <$> args).

(** ** Multiplication *)

(** The loop of [Mult]: the remaining bits of [a], the shifted [b] and the
    sum so far. *)
Fixpoint mult_loop (n : nat) (a bLo bHi lo hi : Z) : Z * Z :=
  match n with
  | O => (hi, lo)
  | S n =>
      let odd := negb (Z.land a 1 =? 0) in
      let lo' := if odd then u32 (lo + bLo) else lo in
      let hi' :=
        if odd then
          let hi := if lo' <? bLo then u32 (hi + 1) else hi in u32 (hi + bHi)
        else hi in
      if odd && (Z.land a 0xfffffffe =? 0) then (hi', lo')
      else
        let bHi := u32 (Z.shiftl bHi 1) in
        let bHi := if negb (Z.land bLo 0x80000000 =? 0) then Z.lor bHi 1 else bHi in
        let bLo := u32 (Z.shiftl bLo 1) in
        mult_loop n (Z.shiftr a 1) bLo bHi lo' hi'
  end.

(** [Mult(a, b, signedArith, hiPtr, loPtr)]: the words stored. *)
Definition Mult (a b : Z) (signedArith : bool) : Z * Z :=
  if (a =? 0) || (b =? 0) then (0, 0)
  else
    let negative := false in
    let '(a, negative) :=
      if signedArith && (a <? 0) then (s32 (- a), negb negative) else (a, negative) in
    let '(b, negative) :=
      if signedArith && (b <? 0) then (s32 (- b), negb negative) else (b, negative) in
    let '(hi, lo) := mult_loop 32 a (u32 b) 0 0 0 in
    let '(hi, lo) :=
      if negative then
        let hi := u32 (Z.lnot hi) in
        let lo := u32 (Z.lnot lo) in
        let lo := u32 (lo + 1) in
        if lo =? 0 then (u32 (hi + 1), lo) else (hi, lo)
      else (hi, lo) in
    (s32 hi, s32 lo).

(** ** Instructions that only use the registers *)

Inductive alu_result :=
  | Trap (which : ExceptionType) (badVAddr : Z)   (* raise and return *)
  | Done (m : Machine) (pcAfter : Z).             (* break *)

(** A word has its sign bit set. *)
Definition sign (v : Z) : bool := negb (Z.land v SIGN_BIT =? 0).

(** [registers[dst] = v] and on to the next instruction. *)
Definition put (dst v pcAfter : Z) (m : Machine) : res alu_result :=
  m ← set_reg dst v m; Ok (Done m pcAfter).

(** [pcAfter = registers[NextPCReg] + IndexToAddr(instr->extra)] if [taken]. *)
Definition branch (taken : bool) (i : Instruction) (pcAfter : Z) (m : Machine)
    : res alu_result :=
  if taken then
    n ← reg NextPCReg m; Ok (Done m (s32 (n + IndexToAddr (extra i))))
  else Ok (Done m pcAfter).

(** [registers[dst] = registers[NextPCReg] + 4]. *)
Definition link (dst : Z) (m : Machine) : res Machine :=
  n ← reg NextPCReg m; set_reg dst (s32 (n + 4)) m.

(** OP_ADD to OP_BNE. *)
Definition exec_ADD_BNE (i : Instruction) (pcAfter : Z) (m : Machine) : res alu_result :=
  match opCode i with
  | OP_ADD =>
      a ← reg (rs i) m; b ← reg (rt i) m;
      let sum := s32 (a + b) in
      if negb (sign (Z.lxor a b)) && sign (Z.lxor a sum)
      then Ok (Trap OverflowException 0)
      else put (rd i) sum pcAfter m
  | OP_ADDI =>
      a ← reg (rs i) m;
      let sum := s32 (a + extra i) in
      if negb (sign (Z.lxor a (extra i))) && sign (Z.lxor (extra i) sum)
      then Ok (Trap OverflowException 0)
      else put (rt i) sum pcAfter m
  | OP_ADDIU =>
      a ← reg (rs i) m; put (rt i) (s32 (a + extra i)) pcAfter m
  | OP_ADDU =>
      a ← reg (rs i) m; b ← reg (rt i) m; put (rd i) (s32 (a + b)) pcAfter m
  | OP_AND =>
      a ← reg (rs i) m; b ← reg (rt i) m; put (rd i) (Z.land a b) pcAfter m
  | OP_ANDI =>
      a ← reg (rs i) m; put (rt i) (Z.land a (Z.land (extra i) 0xffff)) pcAfter m
  | OP_BEQ =>
      a ← reg (rs i) m; b ← reg (rt i) m; branch (a =? b) i pcAfter m
  | OP_BGEZAL =>
      m ← link R31 m;
      a ← reg (rs i) m; branch (negb (sign a)) i pcAfter m
  | OP_BGEZ =>
      a ← reg (rs i) m; branch (negb (sign a)) i pcAfter m
  | OP_BGTZ =>
      a ← reg (rs i) m; branch (0 <? a) i pcAfter m
  | OP_BLEZ =>
      a ← reg (rs i) m; branch (a <=? 0) i pcAfter m
  | OP_BLTZAL =>
      m ← link R31 m;
      a ← reg (rs i) m; branch (sign a) i pcAfter m
  | OP_BLTZ =>
      a ← reg (rs i) m; branch (sign a) i pcAfter m
  | OP_BNE =>
      a ← reg (rs i) m; b ← reg (rt i) m; branch (negb (a =? b)) i pcAfter m
  | _ => Abort
  end.

(** C++ [/] and [%] on [int]: the one overflowing quotient is undefined. *)
Definition int_div (a b : Z) : res (Z * Z) :=
  if (b =? 0) || ((a =? - 2 ^ 31) && (b =? -1)) then UB
  else Ok (Z.quot a b, Z.rem a b).

(** OP_DIV to OP_JR. *)
Definition exec_DIV_JR (i : Instruction) (pcAfter : Z) (m : Machine) : res alu_result :=
  match opCode i with
  | OP_DIV =>
      b ← reg (rt i) m;
      if b =? 0 then
        m ← set_reg LoReg 0 m; put HiReg 0 pcAfter m
      else
        a ← reg (rs i) m;
        '(q, r) ← int_div a b;
        m ← set_reg LoReg q m; put HiReg r pcAfter m
  | OP_DIVU =>
      a ← reg (rs i) m; b ← reg (rt i) m;
      let rs := u32 a in
      let rt := u32 b in
      if rt =? 0 then
        m ← set_reg LoReg 0 m; put HiReg 0 pcAfter m
      else
        m ← set_reg LoReg (s32 (rs / rt)) m;
        put HiReg (s32 (rs mod rt)) pcAfter m
  | OP_JAL =>
      m ← link R31 m;
      Ok (Done m (s32 (Z.lor (Z.land (u32 pcAfter) 0xf0000000) (u32 (IndexToAddr (extra i))))))
  | OP_J =>
      Ok (Done m (s32 (Z.lor (Z.land (u32 pcAfter) 0xf0000000) (u32 (IndexToAddr (extra i))))))
  | OP_JALR =>
      m ← link (rd i) m;
      a ← reg (rs i) m; Ok (Done m a)
  | OP_JR =>
      a ← reg (rs i) m; Ok (Done m a)
  | _ => Abort
  end.

(** OP_MFHI to OP_ORI. *)
Definition exec_MFHI_ORI (i : Instruction) (pcAfter : Z) (m : Machine) : res alu_result :=
  match opCode i with
  | OP_MFHI => a ← reg HiReg m; put (rd i) a pcAfter m
  | OP_MFLO => a ← reg LoReg m; put (rd i) a pcAfter m
  | OP_MTHI => a ← reg (rs i) m; put HiReg a pcAfter m
  | OP_MTLO => a ← reg (rs i) m; put LoReg a pcAfter m
  | OP_MULT =>
      a ← reg (rs i) m; b ← reg (rt i) m;
      let '(hi, lo) := Mult a b true in
      m ← set_reg HiReg hi m; put LoReg lo pcAfter m
  | OP_MULTU =>
      a ← reg (rs i) m; b ← reg (rt i) m;
      let '(hi, lo) := Mult a b false in
      m ← set_reg HiReg hi m; put LoReg lo pcAfter m
  | OP_NOR =>
      a ← reg (rs i) m; b ← reg (rt i) m; put (rd i) (Z.lnot (Z.lor a b)) pcAfter m
  | OP_OR =>
      a ← reg (rs i) m; b ← reg (rs i) m; put (rd i) (Z.lor a b) pcAfter m
  | OP_ORI =>
      a ← reg (rs i) m; put (rt i) (Z.lor a (Z.land (extra i) 0xffff)) pcAfter m
  | _ => Abort
  end.

(** OP_SLL to OP_SLTU. *)
Definition exec_SLL_SLTU (i : Instruction) (pcAfter : Z) (m : Machine) : res alu_result :=
  match opCode i with
  | OP_SLL =>
      b ← reg (rt i) m; put (rd i) (s32 (Z.shiftl b (extra i))) pcAfter m
  | OP_SLLV =>
      b ← reg (rt i) m; a ← reg (rs i) m;
      put (rd i) (s32 (Z.shiftl b (Z.land a 0x1f))) pcAfter m
  | OP_SLT =>
      a ← reg (rs i) m; b ← reg (rt i) m; put (rd i) (of_bool (a <? b)) pcAfter m
  | OP_SLTI =>
      a ← reg (rs i) m; put (rt i) (of_bool (a <? extra i)) pcAfter m
  | OP_SLTIU =>
      a ← reg (rs i) m; put (rt i) (of_bool (u32 a <? u32 (extra i))) pcAfter m
  | OP_SLTU =>
      a ← reg (rs i) m; b ← reg (rt i) m;
      put (rd i) (of_bool (u32 a <? u32 b)) pcAfter m
  | _ => Abort
  end.

(** OP_SRA to OP_SUBU. *)
Definition exec_SRA_SUBU (i : Instruction) (pcAfter : Z) (m : Machine) : res alu_result :=
  match opCode i with
  | OP_SRA =>
      b ← reg (rt i) m; put (rd i) (Z.shiftr b (extra i)) pcAfter m
  | OP_SRAV =>
      b ← reg (rt i) m; a ← reg (rs i) m;
      put (rd i) (Z.shiftr b (Z.land a 0x1f)) pcAfter m
  | OP_SRL =>
      tmp ← reg (rt i) m; put (rd i) (Z.shiftr tmp (extra i)) pcAfter m
  | OP_SRLV =>
      tmp ← reg (rt i) m; a ← reg (rs i) m;
      put (rd i) (Z.shiftr tmp (Z.land a 0x1f)) pcAfter m
  | OP_SUB =>
      a ← reg (rs i) m; b ← reg (rt i) m;
      let diff := s32 (a - b) in
      if sign (Z.lxor a b) && sign (Z.lxor a diff)
      then Ok (Trap OverflowException 0)
      else put (rd i) diff pcAfter m
  | OP_SUBU =>
      a ← reg (rs i) m; b ← reg (rt i) m; put (rd i) (s32 (a - b)) pcAfter m
  | _ => Abort
  end.

(** OP_XOR and OP_XORI. *)
Definition exec_XOR_XORI (i : Instruction) (pcAfter : Z) (m : Machine) : res alu_result :=
  match opCode i with
  | OP_XOR =>
      a ← reg (rs i) m; b ← reg (rt i) m; put (rd i) (Z.lxor a b) pcAfter m
  | OP_XORI =>
      a ← reg (rs i) m; put (rt i) (Z.lxor a (Z.land (extra i) 0xffff)) pcAfter m
  | _ => Abort
  end.

(** ** Instructions that access memory or trap *)
Section exec.
Context {K H : Type}.
Implicit Types w : World K H.

(** Entry point of the kernel (exception.cc). *)
Context (ExceptionHandler : ExceptionType -> World K H -> res (World K H)).

(** [machine->...] *)
Definition get_machine w : res Machine :=
  match machine w with Some m => Ok m | None => UB end.

Definition RaiseException (which : ExceptionType) (badVAddr : Z) w : res (World K H) :=
  m ← get_machine w;
  m ← set_reg BadVAddrReg badVAddr m;
  m ← DelayedLoad 0 0 m;
  let w := setStatus SystemMode (set_machine m w) in
  w ← ExceptionHandler which w;
  Ok (setStatus UserMode w).

(** The value read; [None] when an exception was raised. *)
Definition ReadMem (addr size : Z) w : res (option Z * World K H) :=
  m ← get_machine w;
  o ← Translate addr size false m;
  match o with
  | inl exception => w ← RaiseException exception addr w; Ok (None, w)
  | inr (physicalAddress, m) =>
      value ← load physicalAddress size m;
      Ok (Some value, set_machine m w)
  end.

Definition WriteMem (addr size value : Z) w : res (bool * World K H) :=
  m ← get_machine w;
  o ← Translate addr size true m;
  match o with
  | inl exception => w ← RaiseException exception addr w; Ok (false, w)
  | inr (physicalAddress, m) =>
      m ← store physicalAddress size value m;
      Ok (true, set_machine m w)
  end.

(** How a case of the [switch] ends. *)
Inductive outcome :=
  | Return (w : World K H)
  | Break (w : World K H) (nextLoadReg nextLoadValue pcAfter : Z).

(** A register instruction. *)
Definition run_alu (exec : Instruction -> Z -> Machine -> res alu_result)
    (i : Instruction) (pcAfter : Z) w : res outcome :=
  m ← get_machine w;
  r ← exec i pcAfter m;
  match r with
  | Trap which badVAddr => w ← RaiseException which badVAddr w; Ok (Return w)
  | Done m pcAfter => Ok (Break (set_machine m w) 0 0 pcAfter)
  end.

(** [tmp = registers[(int)instr->rs] + instr->extra] *)
Definition effective (i : Instruction) w : res Z :=
  m ← get_machine w;
  a ← reg (rs i) m;
  Ok (s32 (a + extra i)).

(** [if (!machine->ReadMem(tmp, size, &value)) return;] and then [k]. *)
Definition read_or_return (addr size : Z) w
    (k : Z -> World K H -> res outcome) : res outcome :=
  '(v, w) ← ReadMem addr size w;
  match v with
  | None => Ok (Return w)
  | Some value => k value w
  end.

Definition write_or_return (addr size value : Z) w
    (k : World K H -> res outcome) : res outcome :=
  '(ok, w) ← WriteMem addr size value w;
  if ok then k w else Ok (Return w).

(** The value a partial load merges into. *)
Definition merge_target (i : Instruction) w : res Z :=
  m ← get_machine w;
  lr ← reg LoadReg m;
  if lr =? rt i then reg LoadValueReg m else reg (rt i) m.

(** OP_LB to OP_LWR. *)
Definition exec_LB_LWR (i : Instruction) (pcAfter : Z) w : res outcome :=
  match opCode i with
  | OP_LB | OP_LBU =>
      tmp ← effective i w;
      read_or_return tmp 1 w (fun value w =>
        let value :=
          if negb (Z.land value 0x80 =? 0) && bool_decide (opCode i = OP_LB)
          then s32 (Z.lor (u32 value) 0xffffff00) else Z.land value 0xff in
        Ok (Break w (rt i) value pcAfter))
  | OP_LH | OP_LHU =>
      tmp ← effective i w;
      if negb (Z.land tmp 0x1 =? 0) then
        w ← RaiseException AddressErrorException tmp w; Ok (Return w)
      else
        read_or_return tmp 2 w (fun value w =>
          let value :=
            if negb (Z.land value 0x8000 =? 0) && bool_decide (opCode i = OP_LH)
            then s32 (Z.lor (u32 value) 0xffff0000) else Z.land value 0xffff in
          Ok (Break w (rt i) value pcAfter))
  | OP_LUI =>
      m ← get_machine w;
      m ← set_reg (rt i) (s32 (Z.shiftl (extra i) 16)) m;
      Ok (Break (set_machine m w) 0 0 pcAfter)
  | OP_LW =>
      tmp ← effective i w;
      if negb (Z.land tmp 0x3 =? 0) then
        w ← RaiseException AddressErrorException tmp w; Ok (Return w)
      else
        read_or_return tmp 4 w (fun value w => Ok (Break w (rt i) value pcAfter))
  | OP_LWL =>
      tmp ← effective i w;
      ASSERT (Z.land tmp 0x3 =? 0);;
      read_or_return tmp 4 w (fun value w =>
        old ← merge_target i w;
        let v :=
          match Z.land tmp 0x3 with
          | 0 => value
          | 1 => Z.lor (Z.land old 0xff) (s32 (Z.shiftl value 8))
          | 2 => Z.lor (Z.land old 0xffff) (s32 (Z.shiftl value 16))
          | 3 => Z.lor (Z.land old 0xffffff) (s32 (Z.shiftl value 24))
          | _ => old
          end in
        Ok (Break w (rt i) v pcAfter))
  | OP_LWR =>
      tmp ← effective i w;
      ASSERT (Z.land tmp 0x3 =? 0);;
      read_or_return tmp 4 w (fun value w =>
        old ← merge_target i w;
        let v :=
          match Z.land tmp 0x3 with
          | 0 => s32 (Z.lor (Z.land old 0xffffff00) (Z.land (Z.shiftr value 24) 0xff))
          | 1 => s32 (Z.lor (Z.land old 0xffff0000) (Z.land (Z.shiftr value 16) 0xffff))
          | 2 => s32 (Z.lor (Z.land old 0xff000000) (Z.land (Z.shiftr value 8) 0xffffff))
          | 3 => value
          | _ => old
          end in
        Ok (Break w (rt i) v pcAfter))
  | _ => Abort
  end.

(** [WriteMem] of the register [rt] at the effective address. *)
Definition store_word (size : Z) (i : Instruction) (pcAfter : Z) w : res outcome :=
  tmp ← effective i w;
  m ← get_machine w;
  b ← reg (rt i) m;
  write_or_return tmp size b w (fun w => Ok (Break w 0 0 pcAfter)).

(** OP_SB and OP_SH. *)
Definition exec_SB_SH (i : Instruction) (pcAfter : Z) w : res outcome :=
  match opCode i with
  | OP_SB => store_word 1 i pcAfter w
  | OP_SH => store_word 2 i pcAfter w
  | _ => Abort
  end.

(** OP_SW to OP_SWR. *)
Definition exec_SW_SWR (i : Instruction) (pcAfter : Z) w : res outcome :=
  match opCode i with
  | OP_SW => store_word 4 i pcAfter w
  | OP_SWL =>
      tmp ← effective i w;
      ASSERT (Z.land tmp 0x3 =? 0);;
      read_or_return (Z.land tmp (Z.lnot 0x3)) 4 w (fun value w =>
        m ← get_machine w;
        b ← reg (rt i) m;
        let v :=
          match Z.land tmp 0x3 with
          | 0 => b
          | 1 => s32 (Z.lor (Z.land value 0xff000000) (Z.land (Z.shiftr b 8) 0xffffff))
          | 2 => s32 (Z.lor (Z.land value 0xffff0000) (Z.land (Z.shiftr b 16) 0xffff))
          | 3 => s32 (Z.lor (Z.land value 0xffffff00) (Z.land (Z.shiftr b 24) 0xff))
          | _ => value
          end in
        write_or_return (Z.land tmp (Z.lnot 0x3)) 4 v w
          (fun w => Ok (Break w 0 0 pcAfter)))
  | OP_SWR =>
      tmp ← effective i w;
      ASSERT (Z.land tmp 0x3 =? 0);;
      read_or_return (Z.land tmp (Z.lnot 0x3)) 4 w (fun value w =>
        m ← get_machine w;
        b ← reg (rt i) m;
        let v :=
          match Z.land tmp 0x3 with
          | 0 => Z.lor (Z.land value 0xffffff) (s32 (Z.shiftl b 24))
          | 1 => Z.lor (Z.land value 0xffff) (s32 (Z.shiftl b 16))
          | 2 => Z.lor (Z.land value 0xff) (s32 (Z.shiftl b 8))
          | 3 => b
          | _ => value
          end in
        write_or_return (Z.land tmp (Z.lnot 0x3)) 4 v w
          (fun w => Ok (Break w 0 0 pcAfter)))
  | _ => Abort
  end.

(** ** One instruction *)

(** The [switch] on the operation code; its [default] is [ASSERT(false)]. *)
Definition execute (i : Instruction) (pcAfter : Z) w : res outcome :=
  match opCode i with
  | OP_ADD | OP_ADDI | OP_ADDIU | OP_ADDU | OP_AND | OP_ANDI | OP_BEQ | OP_BGEZ
  | OP_BGEZAL | OP_BGTZ | OP_BLEZ | OP_BLTZ | OP_BLTZAL | OP_BNE =>
      run_alu exec_ADD_BNE i pcAfter w
  | OP_DIV | OP_DIVU | OP_J | OP_JAL | OP_JALR | OP_JR =>
      run_alu exec_DIV_JR i pcAfter w
  | OP_LB | OP_LBU | OP_LH | OP_LHU | OP_LUI | OP_LW | OP_LWL | OP_LWR =>
      exec_LB_LWR i pcAfter w
  | OP_MFHI | OP_MFLO | OP_MTHI | OP_MTLO | OP_MULT | OP_MULTU | OP_NOR | OP_OR
  | OP_ORI =>
      run_alu exec_MFHI_ORI i pcAfter w
  | OP_SB | OP_SH => exec_SB_SH i pcAfter w
  | OP_SLL | OP_SLLV | OP_SLT | OP_SLTI | OP_SLTIU | OP_SLTU =>
      run_alu exec_SLL_SLTU i pcAfter w
  | OP_SRA | OP_SRAV | OP_SRL | OP_SRLV | OP_SUB | OP_SUBU =>
      run_alu exec_SRA_SUBU i pcAfter w
  | OP_SW | OP_SWL | OP_SWR => exec_SW_SWR i pcAfter w
  | OP_SYSCALL =>
      w ← RaiseException SyscallException 0 w; Ok (Return w)
  | OP_XOR | OP_XORI => run_alu exec_XOR_XORI i pcAfter w
  | OP_RES | OP_UNIMP =>
      w ← RaiseException IllegalInstrException 0 w; Ok (Return w)
  | OP_RFE | SPECIAL | BCOND => Abort
  end.

(** The delayed load and the program counters, after a [break]. *)
Definition finish (nextLoadReg nextLoadValue pcAfter : Z) (m : Machine) : res Machine :=
  m ← DelayedLoad nextLoadReg nextLoadValue m;
  pc ← reg PCReg m;
  m ← set_reg PrevPCReg pc m;
  npc ← reg NextPCReg m;
  m ← set_reg PCReg npc m;
  set_reg NextPCReg pcAfter m.

Definition OneInstruction w : res (World K H) :=
  m ← get_machine w;
  pc ← reg PCReg m;
  '(raw, w) ← ReadMem pc 4 w;
  match raw with
  | None => Ok w
  | Some raw =>
      instr ← Decode (u32 raw);
      m ← get_machine w;
      npc ← reg NextPCReg m;
      let pcAfter := s32 (npc + 4) in
      o ← execute instr pcAfter w;
      match o with
      | Return w => Ok w
      | Break w nextLoadReg nextLoadValue pcAfter =>
          m ← get_machine w;
          m ← finish nextLoadReg nextLoadValue pcAfter m;
          Ok (set_machine m w)
      end
  end.

(** ** The loop of [Run] *)
Context (run_handler : H -> World K H -> res (World K H)).
Context (Yield : World K H -> res (World K H)).
Context (Debugger : World K H -> res (World K H)).
Context (fuel : nat).

(** One iteration of the loop. *)
Definition run_step w : res (World K H) :=
  w ← OneInstruction w;
  w ← OneTick run_handler Yield fuel w;
  m ← get_machine w;
  if singleStep m && (runUntilTime m <=? totalTicks (stats w)) then Debugger w else Ok w.

(** The first [n] iterations of [Run], which never returns by itself. *)
Fixpoint Run_loop (n : nat) w : res (World K H) :=
  match n with
  | O => NoFuel
  | S n => w ← run_step w; Run_loop n w
  end.

Definition Run (n : nat) w : res (World K H) := Run_loop n (setStatus UserMode w).

End exec.

(** ** Decoding *)

(** The shifts by a constant. *)
Definition shift_op (op : OpCode) : bool :=
  match op with OP_SLL | OP_SRA | OP_SRL => true | _ => false end.

(** The operands of a decoded instruction are in range, and its operation is
    one that [OneInstruction] has a case for. *)
Record instr_ok (i : Instruction) : Prop := {
  ok_rs : 0 <= rs i < NumGPRegs;
  ok_rt : 0 <= rt i < NumGPRegs;
  ok_rd : 0 <= rd i < NumGPRegs;
  ok_extra : - 2 ^ 15 <= extra i < 2 ^ 26;
  ok_shamt : shift_op (opCode i) = true -> 0 <= extra i < 32;
  ok_op : opCode i <> OP_RFE /\ opCode i <> SPECIAL /\ opCode i <> BCOND
}.

Lemma bits_range v sh n : 0 <= n -> 0 <= bits v sh (Z.ones n) < 2 ^ n.
Proof. apply land_ones_range. Qed.

(** The 16-bit immediate is sign-extended. *)
Lemma immediate_spec v :
  (let e := Z.land v 0xffff in
   if negb (Z.land e 0x8000 =? 0) then s32 (Z.lor e 0xffff0000) else e) = swrap 16 v.
Proof.
  cbv zeta. change 0xffff with (Z.ones 16). rewrite Z.land_ones by lia.
  change 0x8000 with (2 ^ 15). rewrite land_pow2_test by lia.
  pose proof (Z.mod_pos_bound v (2 ^ 16) ltac:(lia)) as Hr.
  assert (Z.testbit (v mod 2 ^ 16) 15 = (2 ^ 15 <=? v mod 2 ^ 16)) as ->.
  { destruct (Z.leb_spec (2 ^ 15) (v mod 2 ^ 16)).
    - rewrite Z.testbit_true by lia.
      assert (v mod 2 ^ 16 / 2 ^ 15 = 1) as -> by dlia. done.
    - rewrite Z.testbit_false by lia. rewrite Z.div_small by lia. done. }
  unfold swrap. change (16 - 1) with 15.
  destruct (Z.leb_spec (2 ^ 15) (v mod 2 ^ 16)).
  - assert (Z.lor (v mod 2 ^ 16) 0xffff0000 = v mod 2 ^ 16 + 0xffff0000) as ->.
    { rewrite <- Z.add_lor_land. change 0xffff0000 with (Z.shiftl 0xffff 16).
      replace (Z.land (v mod 2 ^ 16) (Z.shiftl 0xffff 16)) with 0; [lia|].
      symmetry. apply Z.bits_inj_iff'. intros n Hn. rewrite Z.bits_0, Z.land_spec.
      destruct (decide (n < 16)).
      - by rewrite Z.shiftl_spec_low, andb_false_r by lia.
      - by rewrite Z.mod_pow2_bits_high by lia. }
    unfold s32, swrap. change (32 - 1) with 31. dlia.
  - dlia.
Qed.

Lemma specialTable_ok :
  Forall (fun op => op <> OP_RFE /\ op <> SPECIAL /\ op <> BCOND) specialTable.
Proof. repeat constructor; discriminate. Qed.

Lemma opTable_ok :
  Forall (fun p => p.1 <> OP_RFE /\ shift_op p.1 = false /\ (p.1 = SPECIAL -> p.2 = RFMT))
    opTable.
Proof. repeat constructor; discriminate. Qed.

Definition extra_of (format : Format) (v : Z) : Z :=
  match format with
  | IFMT => let extra := Z.land v 0xffff in
      if negb (Z.land extra 0x8000 =? 0) then s32 (Z.lor extra 0xffff0000) else extra
  | RFMT => bits v 6 0x1f
  | JFMT => Z.land v 0x3ffffff
  end.

Lemma extra_range format v :
  - 2 ^ 15 <= extra_of format v < 2 ^ 26 /\
  (format = RFMT -> 0 <= extra_of format v < 32).
Proof.
  unfold extra_of. destruct format; (split; [|try done]).
  - rewrite immediate_spec. unfold swrap. dlia.
  - pose proof (land_ones_range v 26). change (Z.ones 26) with 0x3ffffff in *. lia.
  - pose proof (bits_range v 6 5). change (Z.ones 5) with 0x1f in *. lia.
  - intros _. apply (bits_range v 6 5). lia.
Qed.

Lemma Decode_ok v : exists i, Decode v = Ok i /\ instr_ok i /\ value i = v.
Proof.
  unfold Decode.
  destruct (zget_is_Ok opTable (bits v 26 0x3f)) as ([op format] & Hop).
  { change (Z.of_nat (length opTable)) with (2 ^ 6). by apply (bits_range v 26 6). }
  rewrite Hop. cbn [bind]. change (match format with IFMT => _ | _ => _ end)
    with (extra_of format v).
  destruct (extra_range format v) as [Hx Hxr].
  apply zget_Ok in Hop as [_ Hop].
  pose proof (Forall_lookup_1 _ _ _ _ opTable_ok Hop) as (Hrfe & Hsh & Hsp).
  cbn [fst snd] in Hrfe, Hsh, Hsp.
  destruct (zget_is_Ok specialTable (Z.land v 0x3f)) as (op2 & Hop2).
  { change (Z.of_nat (length specialTable)) with (2 ^ 6). by apply (land_ones_range v 6). }
  rewrite Hop2. apply zget_Ok in Hop2 as [_ Hop2].
  pose proof (Forall_lookup_1 _ _ _ _ specialTable_ok Hop2) as Hop3.
  cbv beta in Hop3.
  assert (forall op, op <> OP_RFE /\ op <> SPECIAL /\ op <> BCOND ->
    (shift_op op = true -> format = RFMT) ->
    instr_ok (mkInstr v op (bits v 21 0x1f) (bits v 16 0x1f) (bits v 11 0x1f)
      (extra_of format v))) as Hok.
  { intros op' Hop' Hs. split; cbn [rs rt rd extra opCode];
      [apply (bits_range _ _ 5); lia..|done|auto|done]. }
  repeat case_bool_decide; cbn [bind].
  - eexists. split; [reflexivity|]. split; [apply Hok; auto|done].
  - eexists. split; [reflexivity|]. split; [apply Hok|done];
      repeat case_match; done.
  - eexists. split; [reflexivity|]. split; [apply Hok; [done|congruence]|done].
Qed.

(** The tables of the simulator agree: the printed form of every decoded
    operation exists. *)
Lemma describe_ok i : instr_ok i -> exists s, describe i = Ok s.
Proof.
  intros [_ _ _ _ _ (H1 & H2 & H3)]. unfold describe.
  destruct (opCode i); try done; by eexists.
Qed.

(** ** The sign bit *)
Lemma sign_spec v : is_s32 v -> sign v = (v <? 0).
Proof.
  intros Hv. unfold sign, SIGN_BIT. change 0x80000000 with (2 ^ 31).
  rewrite land_pow2_test by lia. by apply testbit_sign.
Qed.

Lemma sign_lxor a b : sign (Z.lxor a b) = xorb (sign a) (sign b).
Proof.
  unfold sign, SIGN_BIT. change 0x80000000 with (2 ^ 31).
  rewrite !land_pow2_test by lia. apply Z.lxor_spec.
Qed.

(** The overflow tests are exact. *)
Lemma add_overflow a b :
  is_s32 a -> is_s32 b ->
  negb (sign (Z.lxor a b)) && sign (Z.lxor a (s32 (a + b))) =
    negb (bool_decide (is_s32 (a + b))).
Proof.
  intros Ha Hb. rewrite !sign_lxor, !sign_spec by (done || apply s32_range).
  pose proof (s32_range (a + b)) as Hs. unfold s32, swrap, is_s32 in *.
  change (32 - 1) with 31 in *.
  zcases; case_bool_decide; simpl; try done; exfalso; dlia.
Qed.

Lemma sub_overflow a b :
  is_s32 a -> is_s32 b ->
  sign (Z.lxor a b) && sign (Z.lxor a (s32 (a - b))) =
    negb (bool_decide (is_s32 (a - b))).
Proof.
  intros Ha Hb. rewrite !sign_lxor, !sign_spec by (done || apply s32_range).
  pose proof (s32_range (a - b)) as Hs. unfold s32, swrap, is_s32 in *.
  change (32 - 1) with 31 in *.
  zcases; case_bool_decide; simpl; try done; exfalso; dlia.
Qed.

(** ** Multiplication *)

(** The double word [hi:lo]. *)
Definition double (hi lo : Z) : Z := hi * 2 ^ 32 + lo.

(** Adding with carry. *)
Lemma double_add hi lo bHi bLo :
  is_u32 hi -> is_u32 lo -> is_u32 bHi -> is_u32 bLo ->
  let lo' := u32 (lo + bLo) in
  let hi' := u32 ((if lo' <? bLo then u32 (hi + 1) else hi) + bHi) in
  is_u32 hi' /\ is_u32 lo' /\
  double hi' lo' = (double hi lo + double bHi bLo) mod 2 ^ 64.
Proof.
  intros Hh Hl Hbh Hbl lo' hi'.
  split; [apply u32_range|]. split; [apply u32_range|].
  assert (lo' = if lo + bLo <? 2 ^ 32 then lo + bLo else lo + bLo - 2 ^ 32) as El.
  { unfold lo', u32, wrap, is_u32 in *. zcases; dlia. }
  assert (hi' = u32 (hi + (if lo + bLo <? 2 ^ 32 then 0 else 1) + bHi)) as Eh.
  { unfold hi'. rewrite El. unfold is_u32 in *.
    destruct (Z.ltb_spec (lo + bLo) (2 ^ 32)).
    - destruct (Z.ltb_spec (lo + bLo) bLo); [lia|]. f_equal. lia.
    - destruct (Z.ltb_spec (lo + bLo - 2 ^ 32) bLo); [|lia]. by rewrite u32_add_l. }
  rewrite Eh, El. unfold double, u32, wrap, is_u32 in *. zcases; dlia.
Qed.

(** Doubling the shifted multiplicand. *)
Lemma double_shift bHi bLo :
  is_u32 bHi -> is_u32 bLo ->
  let bHi' := (if negb (Z.land bLo 0x80000000 =? 0)
               then Z.lor (u32 (Z.shiftl bHi 1)) 1 else u32 (Z.shiftl bHi 1)) in
  let bLo' := u32 (Z.shiftl bLo 1) in
  is_u32 bHi' /\ is_u32 bLo' /\ double bHi' bLo' = (2 * double bHi bLo) mod 2 ^ 64.
Proof.
  intros Hh Hl. cbv zeta. change 0x80000000 with (2 ^ 31).
  rewrite land_pow2_test by lia.
  assert (Z.testbit bLo 31 = (2 ^ 31 <=? bLo)) as ->.
  { unfold is_u32 in *. destruct (Z.leb_spec (2 ^ 31) bLo).
    - rewrite Z.testbit_true by lia. assert (bLo / 2 ^ 31 = 1) as -> by dlia. done.
    - rewrite Z.testbit_false, Z.div_small by lia. done. }
  assert (Z.lor (u32 (Z.shiftl bHi 1)) 1 = u32 (Z.shiftl bHi 1) + 1) as ->.
  { rewrite <- Z.add_lor_land.
    pose proof (land_pow2 (u32 (Z.shiftl bHi 1)) 0 ltac:(lia)) as E.
    change (2 ^ 0) with 1 in E. rewrite E.
    rewrite u32_testbit, Z.shiftl_spec by lia. rewrite Z.testbit_neg_r by lia. simpl. lia. }
  rewrite !Z.shiftl_mul_pow2 by lia. unfold u32, wrap, double, is_u32 in *.
  zcases; split_and!; dlia.
Qed.

(** One bit of the multiplier. *)
Lemma land_1_mod a : Z.land a 1 = a mod 2.
Proof. change 1 with (Z.ones 1). by rewrite Z.land_ones. Qed.

Lemma last_bit a : is_s32 a -> a mod 2 = 1 -> Z.land a 0xfffffffe = 0 -> a = 1.
Proof.
  intros Ha Hodd Hz.
  assert (Z.land (Z.shiftr a 1) 0x7fffffff = 0) as H0.
  { change 0x7fffffff with (Z.shiftr 0xfffffffe 1).
    by rewrite <- Z.shiftr_land, Hz. }
  change 0x7fffffff with (Z.ones 31) in H0. rewrite Z.land_ones in H0 by lia.
  rewrite Z.shiftr_div_pow2 in H0 by lia. unfold is_s32 in Ha. simpl in *. dlia.
Qed.

Lemma mod_add_mul x y c m : 0 < m -> x mod m = y mod m -> (x + c) mod m = (y + c) mod m.
Proof. intros Hm H. rewrite <- Zplus_mod_idemp_l, H, Zplus_mod_idemp_l. done. Qed.

Lemma mod_mul x y c m : 0 < m -> x mod m = y mod m -> (c * x) mod m = (c * y) mod m.
Proof. intros Hm H. rewrite <- Zmult_mod_idemp_r, H, Zmult_mod_idemp_r. done. Qed.

(** The loop adds [a] times the multiplicand, as a signed number until its
    bits run out. *)
Lemma mult_loop_spec n a bLo bHi lo hi :
  (n <= 32)%nat -> is_s32 a ->
  is_u32 bLo -> is_u32 bHi -> is_u32 lo -> is_u32 hi ->
  let '(hi', lo') := mult_loop n a bLo bHi lo hi in
  is_u32 hi' /\ is_u32 lo' /\
  double hi' lo' = (double hi lo + (a mod 2 ^ Z.of_nat n) * double bHi bLo) mod 2 ^ 64.
Proof.
  revert a bLo bHi lo hi.
  induction n as [|n IH]; intros a bLo bHi lo hi Hn Ha HbLo HbHi Hlo Hhi.
  - simpl. split; [done|]. split; [done|]. rewrite Z.mod_1_r.
    unfold double, is_u32 in *. rewrite Z.mod_small; lia.
  - cbn [mult_loop]. cbv zeta. rewrite land_1_mod.
    destruct (double_add hi lo bHi bLo) as (Hh1 & Hl1 & E1); try done. cbv zeta in *.
    destruct (double_shift bHi bLo) as (Hh2 & Hl2 & E2); try done. cbv zeta in *.
    assert (2 ^ Z.of_nat (S n) = 2 * 2 ^ Z.of_nat n) as Hp
      by (rewrite Nat2Z.inj_succ, Z.pow_succ_r by lia; done).
    assert (a mod 2 ^ Z.of_nat (S n) = 2 * (Z.shiftr a 1 mod 2 ^ Z.of_nat n) + a mod 2) as Hmod.
    { rewrite Hp, Z.rem_mul_r, Z.shiftr_div_pow2 by lia. change (2 ^ 1) with 2. lia. }
    assert (is_s32 (Z.shiftr a 1)) as Hs by (apply shiftr_s32; done || lia).
    set (q := Z.shiftr a 1 mod 2 ^ Z.of_nat n) in *.
    destruct (Z.eqb_spec (a mod 2) 0) as [Hev|Hodd]; cbn [negb andb].
    + destruct (mult_loop n _ _ _ lo hi) as [hi' lo'] eqn:El.
      specialize (IH (Z.shiftr a 1) _ _ lo hi ltac:(lia) Hs Hl2 Hh2 Hlo Hhi).
      rewrite El in IH. destruct IH as (Hh' & Hl' & ->).
      split; [done|]. split; [done|]. fold q. rewrite E2, Hmod, Hev.
      replace (double hi lo + (2 * q + 0) * double bHi bLo)
        with (q * (2 * double bHi bLo) + double hi lo) by lia.
      rewrite (Z.add_comm (double hi lo)). apply mod_add_mul; [lia|].
      apply Zmult_mod_idemp_r.
    + assert (a mod 2 = 1) as Hodd1 by dlia.
      destruct (Z.eqb_spec (Z.land a 0xfffffffe) 0) as [Hz|Hnz].
      * split; [done|]. split; [done|]. rewrite E1.
        pose proof (last_bit a Ha Hodd1 Hz) as ->.
        assert (1 mod 2 ^ Z.of_nat (S n) = 1) as ->; [|by rewrite Z.mul_1_l].
        pose proof (Z.pow_pos_nonneg 2 (Z.of_nat n) ltac:(lia) ltac:(lia)).
        apply Z.mod_small. lia.
      * destruct (mult_loop n _ _ _ _ _) as [hi' lo'] eqn:El.
        specialize (IH (Z.shiftr a 1) _ _ _ _ ltac:(lia) Hs Hl2 Hh2 Hl1 Hh1).
        rewrite El in IH. destruct IH as (Hh' & Hl' & ->).
        split; [done|]. split; [done|]. fold q. rewrite E1, E2, Hmod, Hodd1.
        rewrite Zplus_mod_idemp_l.
        replace (double hi lo + (2 * q + 1) * double bHi bLo)
          with (q * (2 * double bHi bLo) + (double hi lo + double bHi bLo)) by lia.
        rewrite (Z.add_comm (double hi lo + _)). apply mod_add_mul; [lia|].
        apply Zmult_mod_idemp_r.
Qed.

(** The two's complement of the double word. *)
Lemma double_neg hi lo :
  is_u32 hi -> is_u32 lo ->
  let hi1 := u32 (Z.lnot hi) in
  let lo1 := u32 (u32 (Z.lnot lo) + 1) in
  let hi2 := if lo1 =? 0 then u32 (hi1 + 1) else hi1 in
  is_u32 hi2 /\ is_u32 lo1 /\ double hi2 lo1 = (- double hi lo) mod 2 ^ 64.
Proof.
  intros Hh Hl hi1 lo1 hi2.
  assert (hi1 = 2 ^ 32 - 1 - hi) as E1
    by (unfold hi1, u32, wrap, Z.lnot, is_u32 in *; dlia).
  assert (lo1 = if lo =? 0 then 0 else 2 ^ 32 - lo) as E2.
  { unfold lo1. rewrite u32_add_l. unfold u32, wrap, Z.lnot, is_u32 in *. zcases; dlia. }
  assert (hi2 = if lo =? 0 then u32 (2 ^ 32 - hi) else 2 ^ 32 - 1 - hi) as E3.
  { unfold hi2. rewrite E1, E2. unfold is_u32 in *.
    destruct (Z.eqb_spec lo 0); simpl; [f_equal; lia|].
    destruct (Z.eqb_spec (2 ^ 32 - lo) 0); [lia|done]. }
  rewrite E3, E2. unfold double, u32, wrap, is_u32 in *.
  destruct (Z.eqb_spec lo 0); split_and!; dlia.
Qed.

Lemma double_s32 hi lo :
  is_u32 hi -> is_u32 lo -> double (u32 (s32 hi)) (u32 (s32 lo)) = double hi lo.
Proof. intros. by rewrite !u32_s32, !u32_id. Qed.

(** The magnitude of an operand of a signed multiplication. *)
Lemma u32_abs a : is_s32 a -> u32 (if a <? 0 then s32 (- a) else a) = Z.abs a.
Proof.
  intros Ha. unfold is_s32 in Ha. destruct (Z.ltb_spec a 0).
  - rewrite u32_s32, u32_id; unfold is_u32; lia.
  - rewrite u32_id; unfold is_u32; lia.
Qed.

Lemma u32_mod a : u32 a = a mod 2 ^ 32.
Proof. done. Qed.

Lemma mod_opp_mod x m : 0 < m -> (- (x mod m)) mod m = (- x) mod m.
Proof.
  intros. replace (- (x mod m)) with (0 - x mod m) by lia.
  rewrite Zminus_mod_idemp_r. done.
Qed.

(** The magnitudes, and whether the product is negative. *)
Definition mult_sign (signedArith : bool) (a b : Z) : bool :=
  signedArith && xorb (a <? 0) (b <? 0).
Definition magnitude (signedArith : bool) (a : Z) : Z :=
  if signedArith && (a <? 0) then s32 (- a) else a.

Lemma magnitude_spec sa a : is_s32 a ->
  is_s32 (magnitude sa a) /\ u32 (magnitude sa a) = if sa then Z.abs a else u32 a.
Proof.
  intros Ha. unfold magnitude. destruct sa; simpl; [|done].
  split; [destruct (a <? 0); [apply s32_range|done]|by apply u32_abs].
Qed.

Lemma Mult_eq a b sa :
  Mult a b sa =
    if (a =? 0) || (b =? 0) then (0, 0)
    else
      let '(hi, lo) := mult_loop 32 (magnitude sa a) (u32 (magnitude sa b)) 0 0 0 in
      let '(hi, lo) :=
        if mult_sign sa a b then
          let hi1 := u32 (Z.lnot hi) in
          let lo1 := u32 (u32 (Z.lnot lo) + 1) in
          (if lo1 =? 0 then u32 (hi1 + 1) else hi1, lo1)
        else (hi, lo) in
      (s32 hi, s32 lo).
Proof.
  unfold Mult, magnitude, mult_sign. destruct ((a =? 0) || (b =? 0)); [done|].
  destruct sa, (a <? 0), (b <? 0); simpl negb; cbn [andb xorb];
    destruct (mult_loop _ _ _ _ _ _); cbv zeta; try done;
    by destruct (_ =? 0).
Qed.

Lemma Mult_correct a b sa :
  is_s32 a -> is_s32 b ->
  let '(hi, lo) := Mult a b sa in
  is_s32 hi /\ is_s32 lo /\
  double (u32 hi) (u32 lo) = (if sa then a * b else u32 a * u32 b) mod 2 ^ 64.
Proof.
  intros Ha Hb. rewrite Mult_eq.
  destruct ((a =? 0) || (b =? 0)) eqn:Ez.
  { do 2 (split; [done|]). apply orb_true_iff in Ez.
    destruct Ez as [->%Z.eqb_eq| ->%Z.eqb_eq], sa; unfold double;
      rewrite ?Z.mul_0_r; done. }
  destruct (magnitude_spec sa a Ha) as [Hma Ea], (magnitude_spec sa b Hb) as [Hmb Eb].
  destruct (mult_loop 32 _ _ 0 0 0) as [hi lo] eqn:El.
  pose proof (mult_loop_spec 32 (magnitude sa a) (u32 (magnitude sa b)) 0 0 0
    ltac:(lia) Hma (u32_range _)) as Hspec.
  rewrite El in Hspec. destruct Hspec as (Hh & Hl & Hd); [done..|].
  assert (double hi lo = ((if sa then Z.abs a else u32 a) *
            (if sa then Z.abs b else u32 b)) mod 2 ^ 64) as Hd'.
  { rewrite Hd. change (2 ^ Z.of_nat 32) with (2 ^ 32). rewrite <- u32_mod, Ea, Eb.
    by rewrite Z.add_0_l. }
  destruct (mult_sign sa a b) eqn:En; cbv zeta.
  - destruct (double_neg hi lo Hh Hl) as (Hh' & Hl' & Hn). cbv zeta in *.
    split; [apply s32_range|]. split; [apply s32_range|].
    rewrite double_s32, Hn, Hd', mod_opp_mod by done.
    unfold mult_sign in En. destruct sa; [|done]. simpl in En. f_equal.
    destruct (Z.ltb_spec a 0), (Z.ltb_spec b 0); try done;
      [rewrite (Z.abs_neq a), (Z.abs_eq b)|rewrite (Z.abs_eq a), (Z.abs_neq b)]; lia.
  - split; [apply s32_range|]. split; [apply s32_range|].
    rewrite double_s32, Hd' by done. unfold mult_sign in En.
    destruct sa; [|done]. simpl in En. f_equal.
    destruct (Z.ltb_spec a 0), (Z.ltb_spec b 0); try done;
      [rewrite !Z.abs_neq|rewrite !Z.abs_eq]; lia.
Qed.

(** ** The register file while an instruction executes

    R0 may be overwritten in the middle of an instruction; [DelayedLoad]
    clears it at the end. *)
Record regs_w (m : Machine) : Prop := {
  rw_length : length (registers m) = Z.to_nat NumTotalRegs;
  rw_s32 : Forall is_s32 (registers m);
  rw_load : exists r, reg LoadReg m = Ok r /\ 0 <= r < NumGPRegs
}.

Lemma regs_ok_w m : regs_ok m -> regs_w m.
Proof. by intros [? ? _ ?]. Qed.

(** Only the registers differ. *)
Definition same_rest (m m' : Machine) : Prop := m' = set_registers (registers m') m.

Lemma same_rest_refl m : same_rest m m.
Proof. by destruct m. Qed.

Lemma same_rest_trans m1 m2 m3 : same_rest m1 m2 -> same_rest m2 m3 -> same_rest m1 m3.
Proof. unfold same_rest. intros H1 H2. rewrite H2, H1. done. Qed.

Lemma reg_w i m :
  regs_w m -> 0 <= i < NumTotalRegs -> exists v, reg i m = Ok v /\ is_s32 v.
Proof.
  intros [Hl Hs _] Hi. destruct (zget_is_Ok (registers m) i) as [v Hv]; [rewrite Hl; lia|].
  exists v. split; [done|]. apply zget_Ok in Hv as [_ Hv]. by eapply Forall_lookup_1 in Hv.
Qed.

Lemma set_reg_w i v m :
  regs_w m -> is_s32 v -> 0 <= i < NumTotalRegs -> i <> LoadReg ->
  exists m', set_reg i v m = Ok m' /\ regs_w m' /\ same_rest m m'.
Proof.
  intros [Hl Hs (r & Hr & Hr')] Hv Hi Hne.
  destruct (set_reg_spec i v m) as (m' & -> & Hl' & Hs' & R & E); [done..|].
  exists m'. split; [done|]. split; [|done]. split; [done|done|].
  exists r. rewrite R by done. destruct (Z.eqb_spec LoadReg i); [congruence|done].
Qed.

(** What a register instruction may end in. *)
Definition alu_safe (m : Machine) (r : res alu_result) : Prop :=
  match r with
  | Ok (Trap _ v) => is_s32 v
  | Ok (Done m' pcAfter) => regs_w m' /\ same_rest m m' /\ is_s32 pcAfter
  | _ => False
  end.

(** A general register or one of the special ones a program can name. *)
Definition writable (i : Z) : Prop := 0 <= i < NumTotalRegs /\ i <> LoadReg.

Lemma alu_reg m0 i m k :
  regs_w m -> 0 <= i < NumTotalRegs -> (forall v, reg i m = Ok v -> is_s32 v -> alu_safe m0 (k v)) ->
  alu_safe m0 (a ← reg i m; k a).
Proof. intros Hm Hi Hk. destruct (reg_w i m Hm Hi) as (v & E & Hv). rewrite E. by apply Hk. Qed.

Lemma alu_set_reg m0 i v m k :
  regs_w m -> same_rest m0 m -> writable i -> is_s32 v ->
  (forall m', regs_w m' -> same_rest m0 m' -> alu_safe m0 (k m')) ->
  alu_safe m0 (m ← set_reg i v m; k m).
Proof.
  intros Hm H0 [Hi Hne] Hv Hk.
  destruct (set_reg_w i v m) as (m' & -> & Hm' & Hs); [done..|].
  apply Hk; [done|by eapply same_rest_trans].
Qed.

Lemma alu_put m0 i v pc m :
  regs_w m -> same_rest m0 m -> writable i -> is_s32 v -> is_s32 pc ->
  alu_safe m0 (put i v pc m).
Proof. intros. unfold put. apply alu_set_reg; by auto. Qed.

Lemma alu_branch m0 b i pc m :
  regs_w m -> same_rest m0 m -> is_s32 pc -> alu_safe m0 (branch b i pc m).
Proof.
  intros. unfold branch. destruct b; [|done].
  apply alu_reg; [done|done|]. intros v _ Hv. simpl. auto with nachos.
Qed.

Lemma alu_link m0 i m k :
  regs_w m -> same_rest m0 m -> writable i ->
  (forall m', regs_w m' -> same_rest m0 m' -> alu_safe m0 (k m')) ->
  alu_safe m0 (m ← link i m; k m).
Proof.
  intros Hm H0 Hi Hk. unfold link. rewrite bind_assoc.
  apply alu_reg; [done|done|]. intros v _ Hv. apply alu_set_reg; auto with nachos.
Qed.

Lemma alu_if m0 (b : bool) r1 r2 :
  (b = true -> alu_safe m0 r1) -> (b = false -> alu_safe m0 r2) ->
  alu_safe m0 (if b then r1 else r2).
Proof. destruct b; auto. Qed.

Lemma operand_reg i :
  instr_ok i ->
  (0 <= rs i < NumTotalRegs /\ 0 <= rt i < NumTotalRegs /\ 0 <= rd i < NumTotalRegs) /\
  writable (rt i) /\ writable (rd i) /\ is_s32 (extra i).
Proof.
  intros [? ? ? ? _ _]. unfold writable, NumGPRegs, NumTotalRegs, LoadReg, is_s32 in *. lia.
Qed.

Lemma bool_s32 b : is_s32 (of_bool b).
Proof. by destruct b. Qed.

Lemma imm_s32 v : is_s32 (Z.land v 0xffff).
Proof.
  change 0xffff with (Z.ones 16). pose proof (land_ones_range v 16). unfold is_s32. lia.
Qed.

Lemma shamt_range v : 0 <= Z.land v 0x1f.
Proof. change 0x1f with (Z.ones 5). pose proof (land_ones_range v 5). lia. Qed.

#[export] Hint Resolve bool_s32 imm_s32 shamt_range same_rest_refl : nachos.

(** One step of the proof that a case is safe. *)
Ltac alu_step :=
  first
    [ apply alu_reg; [done|done|intros ? ? ?]
    | apply alu_put; [done|done|done|eauto with nachos|done]
    | apply alu_branch; [done|done|done]
    | apply alu_link; [done|done|done|intros ? ? ?]
    | apply alu_set_reg; [done|done|done|eauto with nachos|intros ? ? ?]
    | apply alu_if; intros ?; [exact (small_s32 0 (conj (Z.le_refl 0) eq_refl))|] ].

Section alu.
Context (i : Instruction) (pcAfter : Z) (m : Machine).
Context (Hi : instr_ok i) (Hpc : is_s32 pcAfter) (Hm : regs_w m).

Lemma exec_ADD_BNE_safe :
  1 <= code (opCode i) <= 14 -> alu_safe m (exec_ADD_BNE i pcAfter m).
Proof.
  intros Hc. destruct (operand_reg i Hi) as ((? & ? & ?) & ? & ? & ?).
  assert (same_rest m m) by apply same_rest_refl.
  unfold exec_ADD_BNE. destruct (opCode i); simpl in Hc; try lia; clear Hc;
    cbv zeta; repeat alu_step.
Qed.

(** The division of a program crashes the simulator on one pair. *)
Definition div_overflows : Prop :=
  opCode i = OP_DIV /\ reg (rs i) m = Ok (- 2 ^ 31) /\ reg (rt i) m = Ok (-1).

Lemma int_div_s32 a b :
  is_s32 a -> is_s32 b -> b <> 0 -> ~ (a = - 2 ^ 31 /\ b = -1) ->
  int_div a b = Ok (Z.quot a b, Z.rem a b) /\ is_s32 (Z.quot a b) /\ is_s32 (Z.rem a b).
Proof.
  intros Ha Hb H0 Hov. unfold int_div.
  destruct (Z.eqb_spec b 0); [done|].
  split; [destruct (Z.eqb_spec a (- 2 ^ 31)), (Z.eqb_spec b (-1)); tauto|].
  unfold is_s32 in *. pose proof (Z.quot_rem' a b) as E.
  pose proof (Z.rem_bound_abs a b H0).
  assert (Z.abs (Z.quot a b) <= Z.abs a) as Hq.
  { rewrite <- Z.quot_abs by done. apply Z.quot_le_upper_bound; nia. }
  split; [|lia].
  assert (Z.quot a b = 2 ^ 31 -> False); [|lia].
  intros Hq'. rewrite Hq' in E.
  assert (a = - 2 ^ 31) by lia. subst a. nia.
Qed.

Lemma quot_u32_s32 a b : is_s32 (s32 (u32 a / u32 b)) /\ is_s32 (s32 (u32 a mod u32 b)).
Proof. split; apply s32_range. Qed.

Lemma exec_DIV_JR_safe :
  16 <= code (opCode i) <= 21 -> ~ div_overflows -> alu_safe m (exec_DIV_JR i pcAfter m).
Proof.
  intros Hc Hov. destruct (operand_reg i Hi) as ((? & ? & ?) & ? & ? & ?).
  assert (same_rest m m) by apply same_rest_refl.
  assert (writable LoReg /\ writable HiReg /\ writable R31) as (? & ? & ?) by done.
  unfold exec_DIV_JR. destruct (opCode i) eqn:Eop; simpl in Hc; try lia; clear Hc;
    cbv zeta; repeat alu_step.
  - rename v into b. destruct (Z.eqb_spec b 0) as [->|Hb0]; [repeat alu_step; done|].
    alu_step. destruct (int_div_s32 v b) as (-> & ? & ?); [done..| |].
    { intros [-> ->]. by apply Hov. }
    cbn [bind]. repeat alu_step.
  - destruct (_ =? 0); repeat alu_step; done.
  - simpl. eauto with nachos.
  - simpl. eauto with nachos.
  - simpl. eauto with nachos.
  - simpl. eauto with nachos.
Qed.

Lemma Mult_s32 a b sa :
  is_s32 a -> is_s32 b -> exists hi lo, Mult a b sa = (hi, lo) /\ is_s32 hi /\ is_s32 lo.
Proof.
  intros Ha Hb. pose proof (Mult_correct a b sa Ha Hb) as Hc.
  destruct (Mult a b sa) as [hi lo]. exists hi, lo. tauto.
Qed.

Lemma exec_MFHI_ORI_safe :
  31 <= code (opCode i) <= 40 -> alu_safe m (exec_MFHI_ORI i pcAfter m).
Proof.
  intros Hc. destruct (operand_reg i Hi) as ((? & ? & ?) & ? & ? & ?).
  assert (same_rest m m) by apply same_rest_refl.
  assert (writable LoReg /\ writable HiReg) as (? & ?) by done.
  assert (0 <= HiReg < NumTotalRegs /\ 0 <= LoReg < NumTotalRegs) as (? & ?) by done.
  unfold exec_MFHI_ORI. destruct (opCode i); simpl in Hc; try lia; clear Hc;
    repeat alu_step.
  - destruct (Mult_s32 v v0 true) as (hi & lo & -> & ? & ?); [done..|]. repeat alu_step.
  - destruct (Mult_s32 v v0 false) as (hi & lo & -> & ? & ?); [done..|]. repeat alu_step.
Qed.

Lemma exec_SLL_SLTU_safe :
  44 <= code (opCode i) <= 49 -> alu_safe m (exec_SLL_SLTU i pcAfter m).
Proof.
  intros Hc. destruct (operand_reg i Hi) as ((? & ? & ?) & ? & ? & ?).
  assert (same_rest m m) by apply same_rest_refl.
  unfold exec_SLL_SLTU. destruct (opCode i); simpl in Hc; try lia; clear Hc;
    repeat alu_step.
Qed.

Lemma exec_SRA_SUBU_safe :
  50 <= code (opCode i) <= 55 -> alu_safe m (exec_SRA_SUBU i pcAfter m).
Proof.
  intros Hc. pose proof (ok_shamt i Hi) as Hx. destruct (operand_reg i Hi) as ((? & ? & ?) & ? & ? & ?).
  assert (same_rest m m) by apply same_rest_refl.
  unfold exec_SRA_SUBU. destruct (opCode i); simpl in *; try lia; clear Hc;
    cbv zeta; try (assert (0 <= extra i) by (by apply Hx)); repeat alu_step.
Qed.

Lemma exec_XOR_XORI_safe :
  59 <= code (opCode i) <= 60 -> alu_safe m (exec_XOR_XORI i pcAfter m).
Proof.
  intros Hc. destruct (operand_reg i Hi) as ((? & ? & ?) & ? & ? & ?).
  assert (same_rest m m) by apply same_rest_refl.
  unfold exec_XOR_XORI. destruct (opCode i); simpl in Hc; try lia; clear Hc;
    repeat alu_step.
Qed.

End alu.

(** ** The machine seen by an instruction *)
Record machine_w (m : Machine) : Prop := {
  mw_regs : regs_w m;
  mw_mmu : mmu_ok m;
  mw_mem : mem_ok m
}.

Definition machine_ok (m : Machine) : Prop := regs_ok m /\ mmu_ok m /\ mem_ok m.

Lemma machine_ok_w m : machine_ok m -> machine_w m.
Proof. intros (? & ? & ?). split; [by apply regs_ok_w|done|done]. Qed.

Lemma same_rest_machine_w m m' :
  same_rest m m' -> machine_w m -> regs_w m' -> machine_w m'.
Proof. unfold same_rest. intros -> [_ Hm [? ?]] ?. done. Qed.

Lemma machine_w_same_regs m m' :
  registers m' = registers m -> regs_w m -> regs_w m'.
Proof. intros E [? ? ?]. unfold reg in *. split; unfold reg; rewrite E; done. Qed.

Lemma mem_ok_same m m' : mainMemory m' = mainMemory m -> mem_ok m -> mem_ok m'.
Proof. intros E [? ?]. split; rewrite E; done. Qed.

Lemma same_rest_ok m m' :
  same_rest m m' -> mmu_ok m -> mem_ok m -> mmu_ok m' /\ mem_ok m'.
Proof. unfold same_rest. intros E Hu He. split; [by rewrite E|].
  eapply mem_ok_same; [|exact He]. by rewrite E.
Qed.

(** The end of an instruction makes the machine well-formed again. *)
Lemma DelayedLoad_ok nextReg nextValue m :
  machine_w m -> is_s32 nextValue -> 0 <= nextReg < NumGPRegs ->
  exists m', DelayedLoad nextReg nextValue m = Ok m' /\ machine_ok m' /\ same_rest m m'.
Proof.
  intros [Hr Hm Hmem] Hv Hn. pose proof Hr as [Hl Hs (r & Er & Hr')].
  destruct (reg_w LoadValueReg m Hr) as (lv & Elv & _); [done|].
  destruct (DelayedLoad_spec nextReg nextValue m r lv) as (m' & -> & Hok & _ & E); [done..|].
  exists m'. split; [done|]. split; [|done]. split; [done|by apply (same_rest_ok m)].
Qed.

Lemma finish_ok nextReg nextValue pcAfter m :
  machine_w m -> is_s32 nextValue -> 0 <= nextReg < NumGPRegs -> is_s32 pcAfter ->
  exists m', finish nextReg nextValue pcAfter m = Ok m' /\ machine_ok m'.
Proof.
  intros Hm Hv Hn Hpc. unfold finish.
  destruct (DelayedLoad_ok nextReg nextValue m Hm Hv Hn) as (m1 & -> & (Hr1 & Hu1 & He1) & _).
  cbn [bind].
  assert (forall i v m, machine_ok m -> is_s32 v -> PCReg <= i <= PrevPCReg ->
    exists m', set_reg i v m = Ok m' /\ machine_ok m') as Hset.
  { clear. intros i v m (Hr & Hu & He) Hv Hi. unfold PCReg, PrevPCReg in Hi.
    pose proof Hr as [Hl Hs H0 (r & Er & Hr')].
    destruct (set_reg_spec i v m) as (m' & -> & Hl' & Hs' & R & E);
      [done..|unfold NumTotalRegs; lia|].
    exists m'. split; [done|]. split; [|by apply (same_rest_ok m)]. split; [done|done| |].
    - rewrite R by done. by destruct (Z.eqb_spec 0 i); [lia|].
    - exists r. rewrite R by done. unfold LoadReg in *.
      by destruct (Z.eqb_spec 37 i); [lia|]. }
  destruct (reg_spec PCReg m1 Hr1) as (pc & -> & Hpcs); [done|]. cbn [bind].
  destruct (Hset PrevPCReg pc m1) as (m2 & -> & Hm2); [done..|]. cbn [bind].
  destruct (reg_spec NextPCReg m2) as (npc & -> & Hnpc); [apply Hm2|done|]. cbn [bind].
  destruct (Hset PCReg npc m2) as (m3 & -> & Hm3); [done..|]. cbn [bind].
  destruct (Hset NextPCReg pcAfter m3) as (m4 & -> & Hm4); [done..|]. by exists m4.
Qed.

Section safety.
Context {K H : Type}.
Implicit Types w : World K H.
Context (ExceptionHandler : ExceptionType -> World K H -> res (World K H)).

Definition cpu_ok w : Prop := exists m, machine w = Some m /\ machine_ok m.
Definition cpu_w w : Prop := exists m, machine w = Some m /\ machine_w m.

Lemma cpu_ok_w w : cpu_ok w -> cpu_w w.
Proof. intros (m & ? & ?). exists m. split; [done|by apply machine_ok_w]. Qed.

(** A computation returns a good state or ends the process. *)
Definition safe (r : res (World K H)) : Prop :=
  match r with Ok w => cpu_ok w | Exit _ => True | _ => False end.

(** What the processor needs of the kernel: it keeps the machine well-formed. *)
Class KernelLaw : Prop :=
  kernel_safe e w : cpu_ok w -> safe (ExceptionHandler e w).

Definition outcome_safe (r : res (outcome (K := K) (H := H))) : Prop :=
  match r with
  | Ok (Return w) => cpu_ok w
  | Ok (Break w nextReg nextValue pcAfter) =>
      cpu_w w /\ 0 <= nextReg < NumGPRegs /\ is_s32 nextValue /\ is_s32 pcAfter
  | Exit _ => True
  | _ => False
  end.

Context `{!KernelLaw}.

Lemma RaiseException_safe e v w :
  cpu_w w -> is_s32 v -> safe (RaiseException ExceptionHandler e v w).
Proof.
  intros (m & Em & Hm) Hv. unfold RaiseException, get_machine. rewrite Em. cbn [bind].
  destruct (set_reg_w BadVAddrReg v m) as (m1 & -> & Hr1 & Hs1); [apply Hm|done..|].
  cbn [bind].
  destruct (DelayedLoad_ok 0 0 m1) as (m2 & -> & Hm2 & _);
    [by eapply same_rest_machine_w|done|done|]. cbn [bind].
  pose proof (kernel_safe e (setStatus SystemMode (set_machine m2 w))) as Hk.
  destruct (ExceptionHandler _ _) as [w'| | | |]; simpl in *;
    try (apply Hk; by exists m2); try done.
Qed.

Lemma raise_outcome e v w :
  cpu_w w -> is_s32 v ->
  outcome_safe (w' ← RaiseException ExceptionHandler e v w; Ok (Return w')).
Proof.
  intros Hw Hv. pose proof (RaiseException_safe e v w Hw Hv) as Hs.
  destruct (RaiseException _ _ _ _); done.
Qed.

(** A successful access leaves the registers and the mapping. *)
Lemma Translate_machine_w virtAddr size writing m physAddr m' :
  machine_w m -> access_size size -> Translate virtAddr size writing m = Ok (inr (physAddr, m')) ->
  machine_w m' /\ in_memory physAddr size.
Proof.
  intros [Hr Hu He] Hs Ht.
  destruct (Translate_total virtAddr size writing m Hu Hs) as (o & Ho & Hspec).
  rewrite Ht in Ho. injection Ho as <-.
  destruct Hspec as (Hal & r & e & Hl & Hro & Hf & Hpa & Hb1 & Hb2 & _).
  destruct (Translate_entry virtAddr size writing m r e) as (m1 & Ht1 & Hu1 & _ & Hmem & Hreg);
    [done..|].
  rewrite Ht in Ht1. injection Ht1 as _ <-. split; [|done].
  split; [by eapply machine_w_same_regs|done|by eapply mem_ok_same].
Qed.

Lemma read_safe addr size w k :
  cpu_w w -> is_s32 addr -> access_size size ->
  (forall v w', is_s32 v -> cpu_w w' -> outcome_safe (k v w')) ->
  outcome_safe (read_or_return ExceptionHandler addr size w k).
Proof.
  intros (m & Em & Hm) Ha Hs Hk. unfold read_or_return, ReadMem, get_machine.
  rewrite Em. cbn [bind].
  destruct (Translate_total addr size false m (mw_mmu _ Hm) Hs) as ([e|[pa m']] & Ht & _);
    rewrite Ht; cbn [bind].
  - pose proof (RaiseException_safe e addr w) as Hr.
    destruct (RaiseException _ _ _ _); simpl in *; try (apply Hr; [by exists m|done]); done.
  - destruct (Translate_machine_w _ _ _ _ _ _ Hm Hs Ht) as [Hm' Hin].
    destruct (load_total pa size m' (mw_mem _ Hm') Hs Hin) as (v & -> & Hv). cbn [bind].
    apply Hk; [done|]. by exists m'.
Qed.

Lemma write_safe addr size value w k :
  cpu_w w -> is_s32 addr -> access_size size ->
  (forall w', cpu_w w' -> outcome_safe (k w')) ->
  outcome_safe (write_or_return ExceptionHandler addr size value w k).
Proof.
  intros (m & Em & Hm) Ha Hs Hk. unfold write_or_return, WriteMem, get_machine.
  rewrite Em. cbn [bind].
  destruct (Translate_total addr size true m (mw_mmu _ Hm) Hs) as ([e|[pa m']] & Ht & _);
    rewrite Ht; cbn [bind].
  - pose proof (RaiseException_safe e addr w) as Hr.
    destruct (RaiseException _ _ _ _); simpl in *; try (apply Hr; [by exists m|done]); done.
  - destruct (Translate_machine_w _ _ _ _ _ _ Hm Hs Ht) as [[Hr' Hu' He'] Hin].
    rewrite store_spec by done. cbn [bind]. apply Hk.
    eexists. split; [reflexivity|]. split; [|done|by apply store_mem_ok].
    by eapply machine_w_same_regs; [|exact Hr'].
Qed.

Lemma run_alu_safe exec i pcAfter w :
  (forall m, machine w = Some m -> alu_safe m (exec i pcAfter m)) -> cpu_w w ->
  outcome_safe (run_alu ExceptionHandler exec i pcAfter w).
Proof.
  intros He (m & Em & Hm). unfold run_alu, get_machine. rewrite Em. cbn [bind].
  specialize (He m Em). destruct (exec i pcAfter m) as [[e v|m' pc]| | | |]; try done.
  - cbn [bind]. apply raise_outcome; [by exists m|done].
  - simpl. destruct He as (Hr & Hs & Hpc). split; [|done]. exists m'.
    split; [done|by eapply same_rest_machine_w].
Qed.

(** The operands on which the simulator itself fails: the overflowing
    division, and the partial word accesses that are not aligned. *)
Definition crash_free (i : Instruction) (m : Machine) : Prop :=
  match opCode i with
  | OP_DIV => ~ (reg (rs i) m = Ok (- 2 ^ 31) /\ reg (rt i) m = Ok (-1))
  | OP_LWL | OP_LWR | OP_SWL | OP_SWR =>
      forall a, reg (rs i) m = Ok a -> Z.land (s32 (a + extra i)) 0x3 = 0
  | _ => True
  end.

Lemma effective_ok i w :
  instr_ok i -> cpu_w w ->
  exists m a, machine w = Some m /\ machine_w m /\ reg (rs i) m = Ok a /\
    effective i w = Ok (s32 (a + extra i)).
Proof.
  intros Hi (m & Em & Hm). destruct (operand_reg i Hi) as ((Hrs & _) & _).
  destruct (reg_w (rs i) m (mw_regs _ Hm) Hrs) as (a & Ea & _).
  exists m, a. unfold effective, get_machine. by rewrite Em, <- Ea; cbn [bind]; rewrite Ea.
Qed.

Lemma merge_target_ok i w :
  instr_ok i -> cpu_w w -> exists v, merge_target i w = Ok v /\ is_s32 v.
Proof.
  intros Hi (m & Em & Hm). destruct (operand_reg i Hi) as ((_ & Hrt & _) & _).
  unfold merge_target, get_machine. rewrite Em. cbn [bind].
  destruct (reg_w LoadReg m (mw_regs _ Hm)) as (lr & -> & _); [done|]. cbn [bind].
  destruct (lr =? rt i); apply reg_w; apply Hm || done.
Qed.

Lemma rt_value i w :
  instr_ok i -> cpu_w w ->
  exists m b, get_machine w = Ok m /\ reg (rt i) m = Ok b /\ is_s32 b.
Proof.
  intros Hi (m & Em & Hm). destruct (operand_reg i Hi) as ((_ & Hrt & _) & _).
  destruct (reg_w (rt i) m (mw_regs _ Hm) Hrt) as (b & Eb & Hb).
  exists m, b. unfold get_machine. by rewrite Em.
Qed.

Lemma byte_mask_s32 v : is_s32 (Z.land v 0xff).
Proof.
  change 0xff with (Z.ones 8). pose proof (land_ones_range v 8). unfold is_s32. lia.
Qed.

Lemma break_safe i pcAfter w v :
  instr_ok i -> cpu_w w -> is_s32 v -> is_s32 pcAfter ->
  outcome_safe (Ok (Break w (rt i) v pcAfter)).
Proof. intros Hi Hw Hv Hpc. split; [done|]. split; [apply Hi|done]. Qed.

Lemma break_safe_0 pcAfter w :
  cpu_w w -> is_s32 pcAfter -> outcome_safe (Ok (Break w 0 0 pcAfter)).
Proof. by intros Hw Hpc. Qed.

Lemma access_sizes : access_size 1 /\ access_size 2 /\ access_size 4.
Proof. unfold access_size. lia. Qed.

Section instruction.
Context (i : Instruction) (pcAfter : Z) (w : World K H).
Context (Hi : instr_ok i) (Hpc : is_s32 pcAfter) (Hw : cpu_w w).

Lemma exec_LB_LWR_safe :
  22 <= code (opCode i) <= 29 ->
  (forall m, machine w = Some m -> crash_free i m) ->
  outcome_safe (exec_LB_LWR ExceptionHandler i pcAfter w).
Proof.
  intros Hc Hcf. destruct access_sizes as (A1 & A2 & A4).
  destruct (effective_ok i w Hi Hw) as (m & a & Em & Hm & Ea & Ee).
  specialize (Hcf m Em). unfold exec_LB_LWR. rewrite Ee. cbn [bind].
  pose proof (s32_range (a + extra i)) as Ht. unfold crash_free in Hcf.
  destruct (opCode i) eqn:Eop; simpl in Hc; try lia; clear Hc.
  - apply read_safe; [done..|]. intros v w' Hv Hw'. apply break_safe; try done.
    destruct (_ && _); auto using byte_mask_s32 with nachos.
  - apply read_safe; [done..|]. intros v w' Hv Hw'. apply break_safe; try done.
    destruct (_ && _); auto using byte_mask_s32 with nachos.
  - destruct (negb _); [by apply raise_outcome|].
    apply read_safe; [done..|]. intros v w' Hv Hw'. apply break_safe; try done.
    destruct (_ && _); auto with nachos.
  - destruct (negb _); [by apply raise_outcome|].
    apply read_safe; [done..|]. intros v w' Hv Hw'. apply break_safe; try done.
    destruct (_ && _); auto with nachos.
  - unfold get_machine. rewrite Em. cbn [bind].
    destruct (operand_reg i Hi) as (_ & [Hr1 Hr2] & _).
    destruct (set_reg_w (rt i) (s32 (Z.shiftl (extra i) 16)) m) as (m' & -> & Hm' & Hs);
      [apply Hm|apply s32_range|done..|].
    cbn [bind]. apply break_safe_0; [|done]. exists m'.
    split; [done|by eapply same_rest_machine_w].
  - destruct (negb _); [by apply raise_outcome|].
    apply read_safe; [done..|]. intros v w' Hv Hw'. by apply break_safe.
  - rewrite (Hcf a Ea). apply read_safe; [done..|]. intros v w' Hv Hw'.
    destruct (merge_target_ok i w' Hi Hw') as (old & -> & _). by apply break_safe.
  - rewrite (Hcf a Ea). apply read_safe; [done..|]. intros v w' Hv Hw'.
    destruct (merge_target_ok i w' Hi Hw') as (old & -> & _).
    apply break_safe; auto with nachos.
Qed.

Lemma store_word_safe size :
  access_size size -> outcome_safe (store_word ExceptionHandler size i pcAfter w).
Proof.
  intros Hs. destruct (effective_ok i w Hi Hw) as (m & a & Em & Hm & Ea & Ee).
  destruct (rt_value i w Hi Hw) as (m' & b & Em' & Eb & Hb).
  unfold store_word. rewrite Ee. cbn [bind]. rewrite Em'. cbn [bind]. rewrite Eb. cbn [bind].
  apply write_safe; auto with nachos. intros w' Hw'. by apply break_safe_0.
Qed.

Lemma exec_SW_SWR_safe :
  56 <= code (opCode i) <= 58 ->
  (forall m, machine w = Some m -> crash_free i m) ->
  outcome_safe (exec_SW_SWR ExceptionHandler i pcAfter w).
Proof.
  intros Hc Hcf. destruct access_sizes as (A1 & A2 & A4).
  destruct (effective_ok i w Hi Hw) as (m & a & Em & Hm & Ea & Ee).
  specialize (Hcf m Em). unfold exec_SW_SWR.
  assert (is_s32 (Z.land (s32 (a + extra i)) (Z.lnot 3))) as Ht
    by (apply land_s32; [apply s32_range|done]).
  unfold crash_free in Hcf.
  destruct (opCode i) eqn:Eop; simpl in Hc; try lia; clear Hc;
    [by apply store_word_safe|..]; rewrite Ee; cbn [bind]; rewrite (Hcf a Ea).
  all: apply read_safe; [done..|]; intros v w' Hv Hw';
    destruct (rt_value i w' Hi Hw') as (m' & b & Em' & Eb & Hb);
    rewrite Em'; cbn [bind]; rewrite Eb; cbn [bind];
    apply write_safe; [done..|]; intros w2 Hw2; by apply break_safe_0.
Qed.

(** Executing a decoded instruction never fails, but for the operands that
    crash the simulator. *)
Lemma execute_ok :
  (forall m, machine w = Some m -> crash_free i m) ->
  outcome_safe (execute ExceptionHandler i pcAfter w).
Proof.
  intros Hcf. destruct access_sizes as (A1 & A2 & A4).
  pose proof (ok_op i Hi) as (O1 & O2 & O3).
  pose proof Hw as (m & Em & Hm). specialize (Hcf m Em).
  pose proof (mw_regs _ Hm) as Hr.
  unfold execute. destruct (opCode i) eqn:Eop; try done;
    try (by apply raise_outcome);
    try (apply run_alu_safe; [|done]; intros m' Em'; rewrite Em in Em'; injection Em' as <-);
    first
    [ apply exec_ADD_BNE_safe; rewrite ?Eop; done
    | apply exec_DIV_JR_safe; rewrite ?Eop; try done;
      intros (Eq & ? & ?); unfold crash_free in Hcf; rewrite Eq in *; by auto
    | apply exec_MFHI_ORI_safe; rewrite ?Eop; done
    | apply exec_SLL_SLTU_safe; rewrite ?Eop; done
    | apply exec_SRA_SUBU_safe; rewrite ?Eop; done
    | apply exec_XOR_XORI_safe; rewrite ?Eop; done
    | apply exec_LB_LWR_safe; rewrite ?Eop; try done;
      intros m' Em'; rewrite Em in Em'; by injection Em' as <-
    | apply exec_SW_SWR_safe; rewrite ?Eop; try done;
      intros m' Em'; rewrite Em in Em'; by injection Em' as <-
    | unfold exec_SB_SH; rewrite Eop; by apply store_word_safe ].
Qed.

End instruction.

(** ** The whole instruction *)

(** The instruction at the program counter is crash-free. *)
Definition next_crash_free (w0 : World K H) : Prop :=
  forall m pc raw w1 i m1,
    machine w0 = Some m -> reg PCReg m = Ok pc ->
    ReadMem ExceptionHandler pc 4 w0 = Ok (Some raw, w1) ->
    Decode (u32 raw) = Ok i -> machine w1 = Some m1 -> crash_free i m1.

Lemma cpu_ok_regs w : cpu_ok w -> exists m, machine w = Some m /\ machine_ok m /\ machine_w m.
Proof. intros (m & ? & Hm). exists m. split_and!; try done. by apply machine_ok_w. Qed.

Lemma finish_outcome o :
  outcome_safe o ->
  safe (o' ← o;
    match o' with
    | Return w => Ok w
    | Break w nextLoadReg nextLoadValue pcAfter =>
        m ← get_machine w;
        m ← finish nextLoadReg nextLoadValue pcAfter m;
        Ok (set_machine m w)
    end).
Proof.
  destruct o as [[w'|w' nr nv pc]| | | |]; try done. simpl.
  intros ((m & Em & Hm) & Hnr & Hnv & Hpc). unfold get_machine. rewrite Em. cbn [bind].
  destruct (finish_ok nr nv pc m) as (m' & -> & Hm'); [done..|]. simpl. by exists m'.
Qed.

(** The second half of [OneInstruction] as a continuation of the fetch. *)
Definition after_fetch (raw : Z) (w : World K H) : res (World K H) :=
  instr ← Decode (u32 raw);
  m ← get_machine w;
  npc ← reg NextPCReg m;
  o ← execute ExceptionHandler instr (s32 (npc + 4)) w;
  match o with
  | Return w => Ok w
  | Break w nextLoadReg nextLoadValue pcAfter =>
      m ← get_machine w;
      m ← finish nextLoadReg nextLoadValue pcAfter m;
      Ok (set_machine m w)
  end.

Lemma after_fetch_safe raw w :
  cpu_w w ->
  (forall i m, Decode (u32 raw) = Ok i -> machine w = Some m -> crash_free i m) ->
  safe (after_fetch raw w).
Proof.
  intros Hw Hcf. unfold after_fetch.
  destruct (Decode_ok (u32 raw)) as (i & Ei & Hi & _). rewrite Ei. cbn [bind].
  pose proof Hw as (m & Em & Hm). unfold get_machine at 1. rewrite Em. cbn [bind].
  destruct (reg_w NextPCReg m (mw_regs _ Hm)) as (npc & -> & _); [done|]. cbn [bind].
  apply finish_outcome, execute_ok; auto with nachos.
Qed.

(** The fetch: an exception, or a state in which the registers are the same. *)
Lemma OneInstruction_ok w :
  cpu_ok w -> next_crash_free w -> safe (OneInstruction ExceptionHandler w).
Proof.
  intros Hw Hcf. pose proof (cpu_ok_w w Hw) as (m & Em & Hm).
  destruct (reg_w PCReg m (mw_regs _ Hm)) as (pc & Epc & Hpc); [done|].
  destruct access_sizes as (_ & _ & A4).
  unfold OneInstruction. unfold get_machine at 1. rewrite Em. cbn [bind].
  rewrite Epc. cbn [bind].
  destruct (Translate_total pc 4 false m (mw_mmu _ Hm) A4) as ([e|[pa m']] & Ht & _).
  - assert (ReadMem ExceptionHandler pc 4 w =
      (w ← RaiseException ExceptionHandler e pc w; Ok (None, w))) as ->
      by (unfold ReadMem, get_machine; rewrite Em; cbn [bind]; by rewrite Ht).
    pose proof (RaiseException_safe e pc w) as Hr.
    destruct (RaiseException _ _ _ _); simpl in *; try (apply Hr; [by exists m|done]); done.
  - destruct (Translate_machine_w _ _ _ _ _ _ Hm A4 Ht) as [Hm' Hin].
    destruct (load_total pa 4 m' (mw_mem _ Hm') A4 Hin) as (raw & Eraw & _).
    assert (ReadMem ExceptionHandler pc 4 w = Ok (Some raw, set_machine m' w)) as Er
      by (unfold ReadMem, get_machine; rewrite Em; cbn [bind]; rewrite Ht; cbn [bind];
          by rewrite Eraw).
    rewrite Er. cbn [bind]. apply after_fetch_safe; [by exists m'|].
    intros i m1 Ei Em1. by eapply Hcf.
Qed.

End safety.

(** ** Functional behaviour *)

(** A word, half word or byte that [WriteMem] stored through the page table
    is what [ReadMem] of the same address gives back, cut to the size. *)
Theorem write_then_read {K H} (EH : ExceptionType -> World K H -> res (World K H))
    addr size value w w' m :
  machine w = Some m -> machine_w m -> access_size size ->
  WriteMem EH addr size value w = Ok (true, w') ->
  exists w'', ReadMem EH addr size w' = Ok (Some (narrowed size value), w'').
Proof.
  intros Em Hm Hs Hw. unfold WriteMem, get_machine in Hw. rewrite Em in Hw. cbn [bind] in Hw.
  destruct (Translate_total addr size true m (mw_mmu _ Hm) Hs) as ([e|[pa m1]] & Ht & Hspec);
    rewrite Ht in Hw; cbn [bind] in Hw; [res_inv; by simplify_eq|].
  destruct (Translate_machine_w _ _ _ _ _ _ Hm Hs Ht) as [[Hr1 Hu1 He1] Hin].
  rewrite store_spec in Hw by done. cbn [bind] in Hw. injection Hw as <-.
  destruct Hspec as (Hal & r & e & Hl & Hro & Hf & Hpa & _).
  destruct (Translate_entry addr size true m r e) as (m1' & Ht1 & Hu1' & Hl1 & _); [apply Hm|done..|].
  rewrite Ht in Ht1. injection Ht1 as _ <-.
  set (m2 := set_memory _ m1).
  destruct (Translate_entry addr size false m2 r (marked true e))
    as (m3 & Ht3 & _ & _ & Hmem & _); [exact Hu1|exact Hs|exact Hal|exact Hl1| |exact Hf|].
  { by rewrite andb_false_r. }
  unfold ReadMem, get_machine. cbn [machine set_machine bind]. fold m2. rewrite Ht3.
  cbn [bind]. change (physicalPage (marked true e)) with (physicalPage e). rewrite <- Hpa.
  assert (load pa size m3 = load pa size m2) as -> by (unfold load; by rewrite Hmem).
  unfold m2. rewrite load_store_same by done. by eexists.
Qed.

(** At the end of an instruction the pending load lands in its register
    (after the instruction could still read the old value), the new load becomes
    pending, register 0 is zero again, and the program counters move on by one
    delay slot: the next instruction is the one after the branch. *)
Theorem finish_correct nextReg nextValue pcAfter m lr lv pc npc :
  machine_w m -> is_s32 nextValue -> 0 <= nextReg < NumGPRegs -> is_s32 pcAfter ->
  reg LoadReg m = Ok lr -> reg LoadValueReg m = Ok lv ->
  reg PCReg m = Ok pc -> reg NextPCReg m = Ok npc ->
  exists m', finish nextReg nextValue pcAfter m = Ok m' /\
    forall j, 0 <= j -> reg j m' =
      if j =? NextPCReg then Ok pcAfter
      else if j =? PCReg then Ok npc
      else if j =? PrevPCReg then Ok pc
      else if j =? 0 then Ok 0
      else if j =? LoadValueReg then Ok nextValue
      else if j =? LoadReg then Ok nextReg
      else if j =? lr then Ok lv
      else reg j m.
Proof.
  intros [[Hl Hs (r & Er & Hr')] _ _] Hv Hn Hpca Elr Elv Epc Enpc.
  rewrite Er in Elr. injection Elr as ->. unfold finish.
  assert (is_s32 pc /\ is_s32 npc) as [Hpc Hnpc].
  { apply zget_Ok in Epc as [_ Epc], Enpc as [_ Enpc].
    split; by eapply Forall_lookup_1. }
  destruct (DelayedLoad_spec nextReg nextValue m lr lv) as (m1 & -> & [Hl1 Hs1 _ _] & R1 & _);
    [done..|]. cbn [bind].
  unfold NumGPRegs in *.
  assert (reg PCReg m1 = Ok pc) as ->.
  { rewrite R1 by done. change (PCReg =? 0) with false.
    change (PCReg =? LoadValueReg) with false. change (PCReg =? LoadReg) with false.
    cbv iota. by rewrite (proj2 (Z.eqb_neq PCReg lr)) by (unfold PCReg; lia). }
  cbn [bind].
  destruct (set_reg_spec PrevPCReg pc m1) as (m2 & -> & Hl2 & Hs2 & R2 & _); [done..|].
  cbn [bind].
  assert (reg NextPCReg m2 = Ok npc) as ->.
  { rewrite R2, R1 by done. change (NextPCReg =? PrevPCReg) with false.
    change (NextPCReg =? 0) with false. change (NextPCReg =? LoadValueReg) with false.
    change (NextPCReg =? LoadReg) with false. cbv iota.
    by rewrite (proj2 (Z.eqb_neq NextPCReg lr)) by (unfold NextPCReg; lia). }
  cbn [bind].
  destruct (set_reg_spec PCReg npc m2) as (m3 & -> & Hl3 & Hs3 & R3 & _); [done..|].
  cbn [bind].
  destruct (set_reg_spec NextPCReg pcAfter m3) as (m4 & -> & Hl4 & Hs4 & R4 & _); [done..|].
  exists m4. split; [done|]. intros j Hj. by rewrite R4, R3, R2, R1 by done.
Qed.

(** The instructions that trap on overflow compute the exact sum. *)
Definition exact_or_trap (dst v pcAfter : Z) (m : Machine) : res alu_result :=
  if bool_decide (is_s32 v) then put dst v pcAfter m else Ok (Trap OverflowException 0).

Lemma trap_if_exact (b : bool) dst z pcAfter m :
  b = negb (bool_decide (is_s32 z)) ->
  (if b then Ok (Trap OverflowException 0) else put dst (s32 z) pcAfter m) =
    exact_or_trap dst z pcAfter m.
Proof.
  intros ->. unfold exact_or_trap. case_bool_decide; simpl; [|done].
  by rewrite s32_id by done.
Qed.

Lemma addi_overflow a b :
  is_s32 a -> is_s32 b ->
  negb (sign (Z.lxor a b)) && sign (Z.lxor b (s32 (a + b))) =
    negb (bool_decide (is_s32 (a + b))).
Proof.
  intros Ha Hb. rewrite <- add_overflow by done. rewrite !sign_lxor.
  by destruct (sign a), (sign b).
Qed.

(** ** Properties *)

(** C7: in a well-formed machine one instruction of any user program whatsoever
    ends in a well-formed machine (or the simulation exits), as long as the
    kernel's exception handler keeps the machine well formed and the instruction
    is not one of the few that crash the simulator: no null pointer, no index out
    of range, no failed assertion. *)
Theorem OneInstruction_safe {K H} (EH : ExceptionType -> World K H -> res (World K H)) w :
  KernelLaw EH -> cpu_ok w -> next_crash_free EH w -> safe (OneInstruction EH w).
Proof. intros HK Hw Hn. by apply OneInstruction_ok. Qed.

(** The instructions that crash the simulator do so: a user program that
    divides -2^31 by -1 reaches undefined behaviour, and an unaligned LWL, LWR,
    SWL or SWR (what these instructions are for) fails an assertion. *)
Theorem crash_instructions {K H} (EH : ExceptionType -> World K H -> res (World K H))
    i pcAfter w m a :
  machine w = Some m -> reg (rs i) m = Ok a ->
  (opCode i = OP_DIV -> a = - 2 ^ 31 -> reg (rt i) m = Ok (-1) -> execute EH i pcAfter w = UB) /\
  (opCode i = OP_LWL \/ opCode i = OP_LWR \/ opCode i = OP_SWL \/ opCode i = OP_SWR ->
   Z.land (s32 (a + extra i)) 0x3 <> 0 -> execute EH i pcAfter w = Abort).
Proof.
  intros Hm Ha. split.
  - intros Ho -> Hb. unfold execute. rewrite Ho. unfold run_alu, get_machine. rewrite Hm.
    cbn [bind]. unfold exec_DIV_JR. rewrite Ho, Hb. cbn [bind]. rewrite Ha. done.
  - intros Ho Hal. apply Z.eqb_neq in Hal. unfold execute.
    destruct Ho as [Ho|[Ho|[Ho|Ho]]]; rewrite Ho; unfold exec_LB_LWR, exec_SW_SWR;
      rewrite Ho; unfold effective, get_machine; rewrite Hm; cbn [bind]; rewrite Ha;
      cbn [bind]; rewrite Hal; done.
Qed.

(** C33: ADD, ADDI and SUB store the exact sum or difference, and trap without
    storing anything exactly when it does not fit in 32 bits. *)
Theorem overflow_correct i pcAfter m a b :
  instr_ok i -> is_s32 a -> is_s32 b -> reg (rs i) m = Ok a -> reg (rt i) m = Ok b ->
  (opCode i = OP_ADD -> exec_ADD_BNE i pcAfter m = exact_or_trap (rd i) (a + b) pcAfter m) /\
  (opCode i = OP_ADDI -> exec_ADD_BNE i pcAfter m = exact_or_trap (rt i) (a + extra i) pcAfter m) /\
  (opCode i = OP_SUB -> exec_SRA_SUBU i pcAfter m = exact_or_trap (rd i) (a - b) pcAfter m).
Proof.
  intros Hi Ha Hb Ea Eb. assert (is_s32 (extra i)) as He
    by (destruct Hi; unfold is_s32; lia).
  split; [|split]; intros Ho.
  - unfold exec_ADD_BNE. rewrite Ho, Ea. cbn [bind]. rewrite Eb. cbn [bind].
    by apply trap_if_exact, add_overflow.
  - unfold exec_ADD_BNE. rewrite Ho, Ea. cbn [bind]. by apply trap_if_exact, addi_overflow.
  - unfold exec_SRA_SUBU. rewrite Ho, Ea. cbn [bind]. rewrite Eb. cbn [bind].
    by apply trap_if_exact, sub_overflow.
Qed.

(** C32: MULT and MULTU leave the exact 64-bit product of the signed or unsigned
    operands in Hi and Lo and change no other register: the shift-and-add loop of
    32-bit words is multiplication. *)
Theorem multiply_correct i pcAfter m a b :
  instr_ok i -> regs_w m -> reg (rs i) m = Ok a -> reg (rt i) m = Ok b ->
  opCode i = OP_MULT \/ opCode i = OP_MULTU ->
  exists m' hi lo, exec_MFHI_ORI i pcAfter m = Ok (Done m' pcAfter) /\
    reg HiReg m' = Ok hi /\ reg LoReg m' = Ok lo /\
    double (u32 hi) (u32 lo) =
      (if bool_decide (opCode i = OP_MULT) then a * b else u32 a * u32 b) mod 2 ^ 64 /\
    forall j, 0 <= j -> j <> HiReg -> j <> LoReg -> reg j m' = reg j m.
Proof.
  intros Hi Hm Ea Eb Ho. destruct (operand_reg i Hi) as ((Hrs & Hrt & _) & _).
  destruct (reg_w (rs i) m Hm Hrs) as (a' & Ea' & Ha). rewrite Ea in Ea'. injection Ea' as <-.
  destruct (reg_w (rt i) m Hm Hrt) as (b' & Eb' & Hb). rewrite Eb in Eb'. injection Eb' as <-.
  assert (exec_MFHI_ORI i pcAfter m =
    (let '(hi, lo) := Mult a b (bool_decide (opCode i = OP_MULT)) in
     m ← set_reg HiReg hi m; put LoReg lo pcAfter m)) as ->.
  { unfold exec_MFHI_ORI. destruct Ho as [Ho|Ho]; rewrite Ho, Ea; cbn [bind]; rewrite Eb; done. }
  pose proof (Mult_correct a b (bool_decide (opCode i = OP_MULT)) Ha Hb) as Hc.
  destruct (Mult a b _) as [hi lo]. destruct Hc as (Hhi & Hlo & Hd).
  destruct (set_reg_spec HiReg hi m) as (m1 & -> & Hl1 & Hs1 & R1 & _);
    [apply Hm|apply Hm|done|done|]. cbn [bind]. unfold put.
  destruct (set_reg_spec LoReg lo m1) as (m2 & -> & _ & _ & R2 & _); [done..|]. cbn [bind].
  exists m2, hi, lo. split; [done|]. split; [rewrite R2, R1 by done; done|].
  split; [rewrite R2 by done; done|]. split.
  - rewrite Hd. by case_bool_decide.
  - intros j Hj Hne Hne'. rewrite R2, R1 by done.
    by rewrite (proj2 (Z.eqb_neq j HiReg)), (proj2 (Z.eqb_neq j LoReg)).
Qed.

Lemma bits_field v sh n : 0 <= sh -> 0 <= n -> bits v sh (Z.ones n) = (v / 2 ^ sh) mod 2 ^ n.
Proof. intros. unfold bits. by rewrite Z.land_ones, Z.shiftr_div_pow2. Qed.

Lemma extra_of_field format v :
  extra_of format v =
    match format with
    | IFMT => if v mod 2 ^ 16 <? 2 ^ 15 then v mod 2 ^ 16 else v mod 2 ^ 16 - 2 ^ 16
    | RFMT => (v / 2 ^ 6) mod 2 ^ 5
    | JFMT => v mod 2 ^ 26
    end.
Proof.
  unfold extra_of. destruct format.
  - rewrite immediate_spec. unfold swrap. change (16 - 1) with 15. zcases; dlia.
  - by apply (Z.land_ones v 26).
  - by apply (bits_field v 6 5).
Qed.

(** The groups of operation codes. *)
Lemma opTable_groups c op f : opTable !! Z.to_nat c = Some (op, f) -> 0 <= c ->
  (op = SPECIAL <-> c = 0) /\ (op = BCOND <-> c = 1) /\
  f = if c =? 0 then RFMT else if (c =? 2) || (c =? 3) then JFMT else IFMT.
Proof.
  intros H Hc. pose proof (lookup_lt_Some _ _ _ H) as Hl. change (length opTable) with 64%nat in Hl.
  assert (Forall (fun i => forall op f, opTable !! Z.to_nat i = Some (op, f) ->
    (op = SPECIAL <-> i = 0) /\ (op = BCOND <-> i = 1) /\
    f = if i =? 0 then RFMT else if (i =? 2) || (i =? 3) then JFMT else IFMT) (seqZ 0 64)) as Hall.
  { apply list.Forall_forall. intros i Hi%elem_of_seqZ op' f' H'.
    assert (exists k, i = Z.of_nat k /\ (k < 64)%nat) as (k & -> & Hk) by (exists (Z.to_nat i); lia).
    do 64 (destruct k as [|k]; [injection H' as <- <-; split_and!; [split; done|split; done|done]|]). lia. }
  rewrite list.Forall_forall in Hall. apply (Hall c); [apply elem_of_seqZ; lia|done].
Qed.

Lemma bcond_field v : Z.land v 0x1f0000 = bits v 16 0x1f * 2 ^ 16.
Proof.
  rewrite <- Z.shiftl_mul_pow2 by lia. change 0x1f0000 with (Z.shiftl 0x1f 16). unfold bits.
  apply Z.bits_inj_iff'. intros n Hn. rewrite Z.land_spec. destruct (decide (n < 16)).
  - rewrite !Z.shiftl_spec_low by lia. apply andb_false_r.
  - rewrite !Z.shiftl_spec_high, Z.land_spec, Z.shiftr_spec by lia. by replace (n - 16 + 16) with n by lia.
Qed.

(** C37: every 32-bit word decodes.  The register numbers are its fields; the extra operand
    is the shift amount of operation code 0, the 26-bit target of 2 and 3 and the
    sign-extended immediate of all others; the operation is that of the table of the
    operation code, of the function field for code 0, and of the field of [rt] for code 1.
    The decoded instruction is one the simulator knows, and can be printed. *)
Theorem Decode_total v :
  exists i s, Decode v = Ok i /\ instr_ok i /\ value i = v /\ describe i = Ok s /\
    rs i = (v / 2 ^ 21) mod 2 ^ 5 /\ rt i = (v / 2 ^ 16) mod 2 ^ 5 /\ rd i = (v / 2 ^ 11) mod 2 ^ 5 /\
    let c := (v / 2 ^ 26) mod 2 ^ 6 in
    extra i =
      (if c =? 0 then (v / 2 ^ 6) mod 2 ^ 5
       else if (c =? 2) || (c =? 3) then v mod 2 ^ 26
       else if v mod 2 ^ 16 <? 2 ^ 15 then v mod 2 ^ 16 else v mod 2 ^ 16 - 2 ^ 16) /\
    if c =? 0 then specialTable !! Z.to_nat (v mod 2 ^ 6) = Some (opCode i)
    else if c =? 1 then
      opCode i = (if rt i =? 0 then OP_BLTZ else if rt i =? 1 then OP_BGEZ
                  else if rt i =? 16 then OP_BLTZAL else if rt i =? 17 then OP_BGEZAL else OP_UNIMP)
    else fst <$> opTable !! Z.to_nat c = Some (opCode i).
Proof.
  destruct (Decode_ok v) as (i & E & Hi & Hv). destruct (describe_ok i Hi) as [s Hs].
  exists i, s. do 4 (split; [done|]). revert E. unfold Decode.
  pose proof (bits_field v 26 6 ltac:(lia) ltac:(lia)) as Hc. change (Z.ones 6) with 0x3f in Hc.
  destruct (zget opTable _) as [[op f]| | | |] eqn:Eop; try done. cbn [bind].
  rewrite Hc in Eop. apply zget_Ok in Eop as [H0 Eop]. set (c := (v / 2 ^ 26) mod 2 ^ 6) in *.
  destruct (opTable_groups c op f Eop H0) as (H1 & H2 & Hf).
  change (match f with IFMT => _ | _ => _ end) with (extra_of f v). rewrite extra_of_field, Hf, Eop.
  destruct (if bool_decide (op = SPECIAL) then _ else _) as [op'| | | |] eqn:Eo; try done.
  cbn [bind]. intros [= <-]. cbn [rs rt rd extra opCode].
  split; [by apply (bits_field v 21 5)|]. split; [by apply (bits_field v 16 5)|].
  split; [by apply (bits_field v 11 5)|]. split; [by destruct (c =? 0), ((c =? 2) || (c =? 3))|].
  revert Eo. destruct (Z.eqb_spec c 0) as [->|].
  - rewrite bool_decide_true by (by apply H1). intros [_ Eo]%zget_Ok.
    change 0x3f with (Z.ones 6) in Eo. by rewrite Z.land_ones in Eo by lia.
  - rewrite bool_decide_false by (by rewrite H1). destruct (Z.eqb_spec c 1) as [->|].
    + rewrite bool_decide_true by (by apply H2). cbv zeta. rewrite bcond_field. intros [= <-].
      change 0x10000 with (1 * 2 ^ 16). change 0x100000 with (16 * 2 ^ 16). change 0x110000 with (17 * 2 ^ 16).
      zcases; congruence || lia.
    + rewrite bool_decide_false by (by rewrite H2). by intros [= <-].
Qed.

(** Two instructions differ from the MIPS architecture: OR copies its first
    operand (it never reads the second), and the logical right shifts keep the
    sign, so a negative word stays negative. *)
Theorem deviations i pcAfter m a b :
  reg (rs i) m = Ok a -> reg (rt i) m = Ok b ->
  (opCode i = OP_OR -> exec_MFHI_ORI i pcAfter m = put (rd i) a pcAfter m) /\
  (opCode i = OP_SRL -> 0 <= extra i ->
    exec_SRA_SUBU i pcAfter m = put (rd i) (b / 2 ^ extra i) pcAfter m) /\
  (opCode i = OP_SRLV ->
    exec_SRA_SUBU i pcAfter m = put (rd i) (b / 2 ^ (a mod 32)) pcAfter m).
Proof.
  intros Ea Eb. split; [|split]; intros Ho.
  - unfold exec_MFHI_ORI. rewrite Ho, Ea. cbn [bind].
    by rewrite Z.lor_diag.
  - intros He. unfold exec_SRA_SUBU. rewrite Ho, Eb. cbn [bind].
    by rewrite Z.shiftr_div_pow2.
  - unfold exec_SRA_SUBU. rewrite Ho, Eb. cbn [bind]. rewrite Ea. cbn [bind].
    change 0x1f with (Z.ones 5). rewrite Z.land_ones by done.
    rewrite Z.shiftr_div_pow2 by (by apply Z.mod_pos_bound). done.
Qed.

(** ** A process of two pages in user mode, for the witnesses *)
Definition user_world : World unit unit :=
  mkWorld (Some two_pages) Interrupt.new Stats.new tt.

(** A kernel that ignores exceptions. *)
Definition idle_kernel (_ : ExceptionType) (w : World unit unit) : res (World unit unit) := Ok w.

Lemma two_pages_regs : regs_ok two_pages.
Proof.
  split; [done|by apply Forall_replicate|done|]. by exists 0.
Qed.

Lemma user_world_ok : cpu_ok user_world.
Proof.
  exists two_pages. split; [done|]. split; [exact two_pages_regs|].
  split; [exact two_pages_mmu|apply zero_memory_ok].
Qed.

(** [i] with operands r8 and r9, and their values in a machine. *)
Definition operands (op : OpCode) : Instruction := mkInstr 0 op 8 9 10 0.
Definition with_regs (a b : Z) : Machine :=
  set_registers (<[8%nat := a]> (<[9%nat := b]> (registers two_pages))) two_pages.

Lemma with_regs_w a b : is_s32 a -> is_s32 b -> regs_w (with_regs a b).
Proof.
  intros Ha Hb. split; [done| |by exists 0].
  cbn [with_regs registers set_registers].
  apply Forall_insert; [|done]. apply Forall_insert; [|done]. by apply Forall_replicate.
Qed.

Lemma OneInstruction_safe_witness : safe (OneInstruction idle_kernel user_world).
Proof.
  apply (OneInstruction_safe idle_kernel user_world).
  - intros e w Hw. exact Hw.
  - exact user_world_ok.
  - intros m pc raw w1 i m1 Hm Hpc Hread Hdec Hm1.
    injection Hm as <-. vm_compute in Hpc. injection Hpc as <-.
    assert (ReadMem idle_kernel 0 4 user_world = Ok (Some raw, w1)) as E by exact Hread.
    vm_compute in E. injection E as <- _. vm_compute in Hdec. injection Hdec as <-. exact I.
Defined.

Lemma crash_instructions_witness :
  execute idle_kernel (operands OP_DIV) 0 (set_machine (with_regs (- 2 ^ 31) (-1)) user_world) = UB /\
  execute idle_kernel (operands OP_LWL) 0 (set_machine (with_regs 2 0) user_world) = Abort.
Proof.
  destruct (crash_instructions idle_kernel (operands OP_DIV) 0
    (set_machine (with_regs (- 2 ^ 31) (-1)) user_world) (with_regs (- 2 ^ 31) (-1)) (- 2 ^ 31))
    as [Hd _]; [done|done|].
  destruct (crash_instructions idle_kernel (operands OP_LWL) 0
    (set_machine (with_regs 2 0) user_world) (with_regs 2 0) 2) as [_ Hl]; [done|done|].
  split; [by apply Hd|apply Hl; [by left|done]].
Defined.

Lemma operands_ok op :
  op <> OP_RFE -> op <> SPECIAL -> op <> BCOND -> instr_ok (operands op).
Proof. by split. Qed.

Lemma overflow_correct_witness :
  exec_ADD_BNE (operands OP_ADD) 0 (with_regs (2 ^ 31 - 1) 1) = Ok (Trap OverflowException 0).
Proof.
  destruct (overflow_correct (operands OP_ADD) 0 (with_regs (2 ^ 31 - 1) 1) (2 ^ 31 - 1) 1)
    as [Hadd _]; [by apply operands_ok|done|done|done|done|].
  rewrite (Hadd eq_refl). reflexivity.
Defined.

Lemma multiply_correct_witness :
  exists m' hi lo, exec_MFHI_ORI (operands OP_MULT) 0 (with_regs (-3) 5) = Ok (Done m' 0) /\
    double (u32 hi) (u32 lo) = (-15) mod 2 ^ 64.
Proof.
  destruct (multiply_correct (operands OP_MULT) 0 (with_regs (-3) 5) (-3) 5)
    as (m' & hi & lo & E & _ & _ & Hd & _);
    [by apply operands_ok|by apply with_regs_w|done|done|by left|].
  exists m', hi, lo. split; [exact E|exact Hd].
Defined.

Lemma deviations_witness :
  exec_MFHI_ORI (operands OP_OR) 0 (with_regs 1 2) = put 10 1 0 (with_regs 1 2).
Proof.
  destruct (deviations (operands OP_OR) 0 (with_regs 1 2) 1 2) as [Hor _]; [done|done|].
  exact (Hor eq_refl).
Defined.

Lemma write_then_read_witness :
  exists w' w'', WriteMem idle_kernel 8 4 77 user_world = Ok (true, w') /\
    ReadMem idle_kernel 8 4 w' = Ok (Some 77, w'').
Proof.
  assert (exists w', WriteMem idle_kernel 8 4 77 user_world = Ok (true, w')) as [w' E].
  { eexists. vm_compute. reflexivity. }
  destruct (write_then_read idle_kernel 8 4 77 user_world w' two_pages) as [w'' E''];
    [done| |by right; right|exact E|].
  { apply machine_ok_w. split; [exact two_pages_regs|].
    split; [exact two_pages_mmu|apply zero_memory_ok]. }
  exists w', w''. split; [exact E|exact E''].
Defined.

Lemma finish_correct_witness :
  exists m', finish 3 42 8 two_pages = Ok m' /\ reg PCReg m' = Ok 0 /\ reg NextPCReg m' = Ok 8 /\
    reg 3 m' = Ok 0.
Proof.
  destruct (finish_correct 3 42 8 two_pages 0 0 0 0) as (m' & E & R);
    [|done|done|done|done|done|done|done|].
  { apply machine_ok_w. split; [exact two_pages_regs|].
    split; [exact two_pages_mmu|apply zero_memory_ok]. }
  exists m'. split; [exact E|]. by rewrite !R.
Defined.

End Mips.
