(* ===== verification/Disk.v ===== *)
(** machine/disk.h, disk.cc: the simulated disk.

    Module [Disk] keeps the UNIX file that holds the sectors as a list of
    bytes, with the head position of the latency computation; requests
    schedule their interrupt in the [World] of [Interrupt.v].  Class
    [SectorStore] is what the file system relies on: sectors that read back
    what was last written to them.  The disk, with each request followed by
    its completion interrupt, is an instance. *)

From S2P Require Import Prelude LinkedList MachineState Interrupt.

(** ** The interface of a disk for the file system *)
Definition SectorSize : Z := 128.
Definition SectorsPerTrack : Z := 32.
Definition NumTracks : Z := 32.
Definition NumSectors : Z := SectorsPerTrack * NumTracks.

(** A sector number the disk accepts. *)
Definition is_sector (n : Z) : Prop := 0 <= n < NumSectors.

(** The contents of a sector. *)
Definition is_block (bs : list Z) : Prop :=
  Z.of_nat (length bs) = SectorSize /\ Forall is_byte bs.

Class SectorStore (D : Type) := {
  ReadSector : Z -> D -> res (list Z * D);
  WriteSector : Z -> list Z -> D -> res D;
  (** the states reached by the device, and the contents of their sectors *)
  store_ok : D -> Prop;
  sector_of : D -> Z -> list Z;
  sector_block d n : store_ok d -> is_sector n -> is_block (sector_of d n);
  ReadSector_spec d n : store_ok d -> is_sector n ->
    exists d', ReadSector n d = Ok (sector_of d n, d') /\ store_ok d' /\
      forall k, sector_of d' k = sector_of d k;
  WriteSector_spec d n bs : store_ok d -> is_sector n -> is_block bs ->
    exists d', WriteSector n bs d = Ok d' /\ store_ok d' /\
      forall k, is_sector k -> sector_of d' k = if k =? n then bs else sector_of d k
}.

Module Disk.

Import Stats Interrupt.

(** ** State *)
Definition MagicNumber : Z := 0x456789ab.
Definition MagicSize : Z := 4.
Definition DiskSize : Z := MagicSize + NumSectors * SectorSize.

Record Disk := mkDisk {
  file : list Z;      (* the UNIX file behind [fileno], as bytes *)
  active : bool;      (* is a disk operation in progress? *)
  lastSector : Z;     (* the previous disk request *)
  bufferInit : Z      (* when the track buffer started being loaded *)
}.

Definition set_active (b : bool) (d : Disk) : Disk :=
  mkDisk (file d) b (lastSector d) (bufferInit d).
Definition set_file (f : list Z) (d : Disk) : Disk :=
  mkDisk f (active d) (lastSector d) (bufferInit d).

(** ** The UNIX file (machine/sysdep.cc) *)

(** [Lseek(fd, off, 0); Read(fd, buffer, nBytes)]: aborts on a short read. *)
Definition Read (off nBytes : Z) (f : list Z) : res (list Z) :=
  ASSERT (0 <=? off);;
  let buffer := zslice off nBytes f in
  ASSERT (Z.of_nat (length buffer) =? nBytes);;
  Ok buffer.

(** [Lseek(fd, off, 0); WriteFile(fd, buffer, nBytes)]: a write past the end
    leaves zeros before it. *)
Definition WriteFile (off : Z) (buffer : list Z) (f : list Z) : res (list Z) :=
  ASSERT (0 <=? off);;
  let f := f ++ replicate (Z.to_nat (off + Z.of_nat (length buffer)) - length f) 0 in
  Ok (zsplice off buffer f).

(** ** Operations *)

(** [Disk(name, callWhenDone, callArg)]; [existing] is the UNIX file of that
    name, if there is one. *)
Definition new (existing : option (list Z)) : res Disk :=
  f ← match existing with
      | Some f =>
          magic ← Read 0 MagicSize f;
          ASSERT (s32 (le_value magic) =? s32 MagicNumber);; Ok f
      | None =>
          f ← WriteFile 0 (le_bytes 4 MagicNumber) [];
          WriteFile (DiskSize - 4) (le_bytes 4 0) f
      end;
  Ok (mkDisk f false 0 0).

(** [PrintSector]: the words printed for a sector. *)
Definition PrintSector (data : list Z) : res (list Z) :=
  for_range (Z.to_nat (SectorSize / 4)) 0
    (fun i out =>
       ASSERT (Z.of_nat (length (zslice (4 * i) 4 data)) =? 4);;
       Ok (out ++ [le_value (zslice (4 * i) 4 data)])) [].

(** The seek time, and the time until the next sector boundary after it. *)
Definition TimeToSeek (newSector : Z) (totalTicks : Z) (d : Disk) : Z * Z :=
  let newTrack := Z.quot newSector SectorsPerTrack in
  let oldTrack := Z.quot (lastSector d) SectorsPerTrack in
  let seek := s32 (Z.abs (newTrack - oldTrack) * SeekTime) in
  let over := Z.rem (s32 (totalTicks + seek)) RotationTime in
  let rotation := if 0 <? over then RotationTime - over else 0 in
  (seek, rotation).

Definition ModuloDiff (to from : Z) : Z :=
  let toOffset := Z.rem to SectorsPerTrack in
  let fromOffset := Z.rem from SectorsPerTrack in
  Z.rem (toOffset - fromOffset + SectorsPerTrack) SectorsPerTrack.

Definition ComputeLatency (newSector : Z) (writing : bool) (totalTicks : Z) (d : Disk) : Z :=
  let '(seek, rotation) := TimeToSeek newSector totalTicks d in
  let timeAfter := s32 (totalTicks + seek + rotation) in
  if negb writing && (seek =? 0) &&
     (ModuloDiff newSector (Z.quot (bufferInit d) RotationTime) <?
        Z.quot (s32 (timeAfter - bufferInit d)) RotationTime)
  then RotationTime
  else
    let rotation :=
      s32 (rotation + ModuloDiff newSector (Z.quot timeAfter RotationTime) * RotationTime) in
    s32 (seek + rotation + RotationTime).

Definition UpdateLast (newSector : Z) (totalTicks : Z) (d : Disk) : Disk :=
  let '(seek, rotate) := TimeToSeek newSector totalTicks d in
  let bufferInit :=
    if negb (seek =? 0) then s32 (totalTicks + seek + rotate) else bufferInit d in
  mkDisk (file d) (active d) newSector bufferInit.

Section requests.
Context {K H : Type}.
(** [DiskDone] with this disk as its argument. *)
Context (DiskDone : H).
Implicit Types w : World K H.

Definition ReadRequest (sectorNumber : Z) (d : Disk) w : res (list Z * Disk * World K H) :=
  let ticks := ComputeLatency sectorNumber false (totalTicks (stats w)) d in
  ASSERT (negb (active d));;
  ASSERT ((0 <=? sectorNumber) && (sectorNumber <? NumSectors));;
  data ← Read (SectorSize * sectorNumber + MagicSize) SectorSize (file d);
  let d := set_active true d in
  let d := UpdateLast sectorNumber (totalTicks (stats w)) d in
  let w := set_stats (count_disk_read (stats w)) w in
  w ← Schedule DiskDone ticks DiskInt w;
  Ok (data, d, w).

Definition WriteRequest (sectorNumber : Z) (data : list Z) (d : Disk) w
    : res (Disk * World K H) :=
  let ticks := ComputeLatency sectorNumber true (totalTicks (stats w)) d in
  ASSERT (negb (active d));;
  ASSERT ((0 <=? sectorNumber) && (sectorNumber <? NumSectors));;
  bytes ← (if Z.of_nat (length data) <? SectorSize then UB
           else Ok (zslice 0 SectorSize data));
  f ← WriteFile (SectorSize * sectorNumber + MagicSize) bytes (file d);
  let d := set_file f d in
  let d := set_active true d in
  let d := UpdateLast sectorNumber (totalTicks (stats w)) d in
  let w := set_stats (count_disk_write (stats w)) w in
  w ← Schedule DiskDone ticks DiskInt w;
  Ok (d, w).

(** [HandleInterrupt]; [handler] is the function given to the constructor. *)
Definition HandleInterrupt (handler : World K H -> res (World K H)) (d : Disk) w
    : res (Disk * World K H) :=
  let d := set_active false d in
  w ← handler w;
  Ok (d, w).

End requests.

(** ** Latency *)

(** The fields that the head position depends on are machine integers. *)
Record wf (d : Disk) : Prop := {
  wf_file : Z.of_nat (length (file d)) = DiskSize;
  wf_bytes : Forall is_byte (file d);
  wf_last : is_sector (lastSector d);
  wf_buffer : is_s32 (bufferInit d)
}.

Lemma ModuloDiff_spec to from :
  0 <= to -> 0 <= ModuloDiff to from < 32 /\
  (0 <= from -> (from + ModuloDiff to from) mod 32 = to mod 32).
Proof.
  intros Ht. unfold ModuloDiff, SectorsPerTrack.
  pose proof (Z.rem_bound_pos to 32 ltac:(lia) ltac:(lia)). pose proof (Z.rem_bound_abs from 32 ltac:(lia)).
  rewrite !(Z.rem_mod_nonneg (_ + 32)) by lia.
  split; [apply Z.mod_pos_bound; lia|]. intros Hf.
  rewrite !Z.rem_mod_nonneg by lia. dlia.
Qed.

Lemma TimeToSeek_spec newSector total d :
  is_sector newSector -> is_sector (lastSector d) ->
  exists seek rotation, TimeToSeek newSector total d = (seek, rotation) /\
    0 <= seek <= 31 * SeekTime /\ 0 <= rotation < RotationTime /\
    seek = Z.abs (newSector / 32 - lastSector d / 32) * SeekTime /\
    (0 <= total -> total + 31 * SeekTime < 2 ^ 31 ->
     (total + seek + rotation) mod RotationTime = 0).
Proof.
  unfold is_sector, TimeToSeek, NumSectors, SectorsPerTrack, NumTracks, SeekTime, RotationTime.
  intros Hn Hl. rewrite !Z.quot_div_nonneg by lia.
  assert (0 <= Z.abs (newSector / 32 - lastSector d / 32) <= 31) as Ha by dlia.
  rewrite (s32_id (_ * 500)) by (unfold is_s32; lia).
  set (seek := _ * 500). assert (0 <= seek <= 15500) as Hs by lia.
  eexists _, _. split; [reflexivity|]. split; [done|].
  pose proof (Z.rem_bound_abs (s32 (total + seek)) 500 ltac:(lia)).
  split; [zcases; lia|]. split; [done|]. intros H0 H1.
  rewrite s32_id by (unfold is_s32; lia). rewrite Z.rem_mod_nonneg by lia.
  clearbody seek. zcases; dlia.
Qed.

(** Every request takes at least one sector time, and at most a full seek and
    two rotations: the interrupt is always in the future. *)
Lemma ComputeLatency_range newSector writing total d :
  is_sector newSector -> wf d -> is_s32 total ->
  0 < ComputeLatency newSector writing total d <= 64 * RotationTime.
Proof.
  intros Hn [_ _ Hl Hb] Ht. unfold ComputeLatency.
  destruct (TimeToSeek_spec newSector total d Hn Hl) as (seek & rot & -> & Hs & Hr & _).
  destruct (_ && _ && _); [unfold RotationTime; lia|].
  destruct (ModuloDiff_spec newSector
    (Z.quot (s32 (total + seek + rot)) RotationTime)) as [Hm _]; [apply Hn|].
  unfold RotationTime, SeekTime in *. set (md := ModuloDiff _ _) in *. clearbody md.
  rewrite (s32_id (rot + md * 500)), s32_id by (unfold is_s32; lia). lia.
Qed.

(** Without the track buffer, the transfer starts exactly when the requested
    sector begins to pass under the head. *)
Lemma ComputeLatency_exact newSector total d :
  is_sector newSector -> wf d -> 0 <= total -> total + 64 * RotationTime < 2 ^ 31 ->
  let start := total + ComputeLatency newSector true total d - RotationTime in
  start mod RotationTime = 0 /\
  (start / RotationTime) mod SectorsPerTrack = newSector mod SectorsPerTrack.
Proof.
  intros Hn [_ _ Hl Hb] H0 H1. unfold ComputeLatency.
  destruct (TimeToSeek_spec newSector total d Hn Hl) as (seek & rot & -> & Hs & Hr & _ & Hal).
  unfold SectorsPerTrack, RotationTime, SeekTime in *. cbn [negb andb].
  specialize (Hal H0 ltac:(lia)).
  rewrite (s32_id (total + seek + rot)) by (unfold is_s32; lia).
  rewrite (Z.quot_div_nonneg (total + seek + rot)) by lia.
  destruct (ModuloDiff_spec newSector ((total + seek + rot) / 500)) as [Hm Hmod]; [apply Hn|].
  specialize (Hmod ltac:(dlia)).
  set (md := ModuloDiff _ _) in *. clearbody md. cbv zeta.
  rewrite (s32_id (rot + md * 500)), s32_id by (unfold is_s32; lia).
  replace (total + (seek + (rot + md * 500) + 500) - 500)
    with (total + seek + rot + md * 500) by lia.
  rewrite Z_mod_plus_full, Z_div_plus_full by lia. done.
Qed.

(** A request for the current track whose sector is in the track buffer takes
    the transfer time only. *)
Lemma ComputeLatency_buffered newSector total d :
  is_sector newSector -> is_sector (lastSector d) -> newSector / 32 = lastSector d / 32 ->
  0 <= total -> total + 64 * RotationTime < 2 ^ 31 ->
  let now := total + (TimeToSeek newSector total d).2 in
  ModuloDiff newSector (Z.quot (bufferInit d) RotationTime) <
    Z.quot (s32 (now - bufferInit d)) RotationTime ->
  ComputeLatency newSector false total d = RotationTime.
Proof.
  intros Hn Hl Htr H0 H1 now Hbuf. unfold ComputeLatency.
  destruct (TimeToSeek_spec newSector total d Hn Hl) as (seek & rot & E & Hs & Hr & Hseek & _).
  unfold now in Hbuf. rewrite E in *. cbn [snd] in Hbuf.
  rewrite Htr, Z.sub_diag in Hseek. change (Z.abs 0 * SeekTime) with 0 in Hseek. subst seek.
  unfold RotationTime, SeekTime in *. cbv beta iota zeta.
  rewrite (s32_id (total + 0 + rot)) by (unfold is_s32; lia).
  rewrite Z.add_0_r. cbn [negb andb]. change (0 =? 0) with true. cbn [andb].
  by destruct (Z.ltb_spec (ModuloDiff newSector (Z.quot (bufferInit d) 500))
    (Z.quot (s32 (total + rot - bufferInit d)) 500)); [|lia].
Qed.

(** ** Requests *)

(** The bytes of a sector in the UNIX file. *)
Definition sector_bytes (n : Z) (d : Disk) : list Z :=
  zslice (SectorSize * n + MagicSize) SectorSize (file d).

Lemma sector_in_file n : is_sector n ->
  0 <= SectorSize * n + MagicSize /\ SectorSize * n + MagicSize + SectorSize <= DiskSize.
Proof.
  unfold is_sector, DiskSize, NumSectors, SectorsPerTrack, NumTracks, SectorSize, MagicSize. lia.
Qed.

Lemma sector_bytes_block n d : wf d -> is_sector n -> is_block (sector_bytes n d).
Proof.
  intros [Hf Hb _ _] Hn. destruct (sector_in_file n Hn). split.
  - apply length_zslice; rewrite ?Hf; done.
  - by apply zslice_Forall.
Qed.

Lemma UpdateLast_wf n total d : is_sector n -> wf d -> wf (UpdateLast n total d).
Proof.
  intros Hn [Hf Hb Hl Hi]. unfold UpdateLast.
  destruct (TimeToSeek n total d) as [seek rot]. split; simpl; try done.
  destruct (negb _); [apply s32_range|done].
Qed.

Lemma UpdateLast_file n total d :
  file (UpdateLast n total d) = file d /\ active (UpdateLast n total d) = active d.
Proof. unfold UpdateLast. by destruct (TimeToSeek n total d). Qed.

Lemma Read_sector n d : wf d -> is_sector n ->
  Read (SectorSize * n + MagicSize) SectorSize (file d) = Ok (sector_bytes n d).
Proof.
  intros Hd Hn. destruct (sector_in_file n Hn). unfold Read.
  destruct (Z.leb_spec 0 (SectorSize * n + MagicSize)); [|lia]. simpl bind at 1.
  rewrite ASSERT_true; [done|]. apply Z.eqb_eq. by apply sector_bytes_block.
Qed.

Lemma WriteFile_sector n bs d : wf d -> is_sector n -> is_block bs ->
  WriteFile (SectorSize * n + MagicSize) bs (file d) =
    Ok (zsplice (SectorSize * n + MagicSize) bs (file d)).
Proof.
  intros [Hf _ _ _] Hn [Hl _]. destruct (sector_in_file n Hn). unfold WriteFile.
  destruct (Z.leb_spec 0 (SectorSize * n + MagicSize)); [|lia]. cbn [ASSERT bind].
  replace (Z.to_nat _ - length (file d))%nat with 0%nat by lia.
  by rewrite app_nil_r.
Qed.

(** Writing a sector changes that sector and no other. *)
Lemma sector_bytes_write n k bs d d' :
  wf d -> is_sector n -> is_sector k -> is_block bs ->
  file d' = zsplice (SectorSize * n + MagicSize) bs (file d) ->
  sector_bytes k d' = if k =? n then bs else sector_bytes k d.
Proof.
  intros [Hf _ _ _] Hn Hk [Hl _] E. unfold sector_bytes. rewrite E.
  destruct (sector_in_file n Hn), (sector_in_file k Hk).
  destruct (Z.eqb_spec k n) as [->|Hne].
  - rewrite <- Hl. apply zslice_zsplice; lia.
  - apply zslice_zsplice_disjoint; try lia. unfold SectorSize in *. lia.
Qed.

Lemma file_write_wf n bs d : wf d -> is_sector n -> is_block bs ->
  wf (set_file (zsplice (SectorSize * n + MagicSize) bs (file d)) d).
Proof.
  intros [Hf Hb Hl Hi] Hn [Hlen Hbs]. destruct (sector_in_file n Hn).
  split; simpl; try done.
  - rewrite length_zsplice; [done|done|lia].
  - by apply zsplice_Forall.
Qed.

Section request_specs.
Context {K H : Type} (DiskDone : H).
Implicit Types w : World K H.

(** The pending interrupt of a request made at [total]. *)
Definition done_at (n : Z) (writing : bool) (d : Disk) w : Z :=
  s32 (totalTicks (stats w) + ComputeLatency n writing (totalTicks (stats w)) d).

Definition requested (n : Z) (writing : bool) (d : Disk) (s : Statistics) w : World K H :=
  set_pending
    (sorted_insert (mkPending DiskDone (done_at n writing d w) DiskInt)
       (done_at n writing d w) (pending (interrupt w)))
    (set_stats s w).

Lemma ReadRequest_spec n d w :
  wf d -> active d = false -> is_sector n -> is_s32 (totalTicks (stats w)) ->
  ReadRequest DiskDone n d w =
    Ok (sector_bytes n d, UpdateLast n (totalTicks (stats w)) (set_active true d),
        requested n false d (count_disk_read (stats w)) w).
Proof.
  intros Hd Ha Hn Ht. unfold ReadRequest. rewrite Ha.
  pose proof (ComputeLatency_range n false _ d Hn Hd Ht) as [Hl _].
  rewrite (ASSERT_true (_ && _))
    by (unfold is_sector in Hn; zcases; done || lia). cbn [negb ASSERT bind].
  rewrite Read_sector by done. cbn [bind].
  unfold Schedule. rewrite ASSERT_true by (by apply Z.ltb_lt). done.
Qed.

Lemma WriteRequest_spec n bs d w :
  wf d -> active d = false -> is_sector n -> is_block bs -> is_s32 (totalTicks (stats w)) ->
  WriteRequest DiskDone n bs d w =
    Ok (UpdateLast n (totalTicks (stats w))
          (set_active true (set_file (zsplice (SectorSize * n + MagicSize) bs (file d)) d)),
        requested n true d (count_disk_write (stats w)) w).
Proof.
  intros Hd Ha Hn Hbs Ht. unfold WriteRequest. rewrite Ha.
  pose proof (ComputeLatency_range n true _ d Hn Hd Ht) as [Hl _].
  rewrite (ASSERT_true (_ && _))
    by (unfold is_sector in Hn; zcases; done || lia). cbn [negb ASSERT bind].
  destruct (Z.ltb_spec (Z.of_nat (length bs)) SectorSize) as [Hlt|_];
    [destruct Hbs; lia|]. cbn [bind].
  assert (zslice 0 SectorSize bs = bs) as ->.
  { unfold zslice. simpl drop. apply take_ge. destruct Hbs. lia. }
  rewrite WriteFile_sector by done. cbn [bind].
  unfold Schedule. rewrite ASSERT_true by (by apply Z.ltb_lt). done.
Qed.

(** One request at a time, and only for sectors of the disk. *)
Lemma request_aborts n d w :
  active d = true \/ ~ is_sector n ->
  ReadRequest DiskDone n d w = Abort /\
  forall bs, WriteRequest DiskDone n bs d w = Abort.
Proof.
  intros Hbad. unfold ReadRequest, WriteRequest, is_sector in *.
  destruct (active d); [done|]. cbn [negb ASSERT bind].
  destruct Hbad as [?|Hn]; [done|].
  assert ((0 <=? n) && (n <? NumSectors) = false) as -> by (zcases; done || lia). done.
Qed.

End request_specs.

(** ** The disk as a store of sectors

    The thread that made a request is the only one: the machine idles until
    the interrupt of the disk, whose handler marks the disk inactive. *)
Module DiskWorld.

(** The kernel state is the disk; the only handler is [DiskDone]. *)
Definition DiskWorld : Type := World Disk unit.

Definition run_handler (h : unit) (w : DiskWorld) : res DiskWorld :=
  '(d, w) ← HandleInterrupt (fun w => Ok w) (kernel w) w;
  Ok (set_kernel d w).

Definition ReadSector (n : Z) (w : DiskWorld) : res (list Z * DiskWorld) :=
  '(data, d, w) ← ReadRequest tt n (kernel w) w;
  w ← Idle run_handler 1 (set_kernel d w);
  Ok (data, w).

Definition WriteSector (n : Z) (data : list Z) (w : DiskWorld) : res DiskWorld :=
  '(d, w) ← WriteRequest tt n data (kernel w) w;
  Idle run_handler 1 (set_kernel d w).

(** The states between two requests. *)
Record ok (w : DiskWorld) : Prop := {
  ok_disk : wf (kernel w);
  ok_active : active (kernel w) = false;
  ok_level : level (interrupt w) = IntOff;
  ok_pending : pending (interrupt w) = [];
  ok_machine : machine w = None;
  ok_time : is_s32 (totalTicks (stats w))
}.

(** Idling delivers the pending disk interrupt. *)
Lemma Idle_completes (w : DiskWorld) t :
  level (interrupt w) = IntOff -> machine w = None ->
  pending (interrupt w) = [(t, mkPending tt t DiskInt)] ->
  is_s32 t -> is_s32 (totalTicks (stats w)) -> wf (kernel w) ->
  exists w', Idle run_handler 1 w = Ok w' /\ ok w' /\
    kernel w' = set_active false (kernel w).
Proof.
  destruct w as [mc [lv pd ih yr st] sts k]. cbn.
  intros -> -> -> Ht Hs [? ? ? ?]. unfold Idle, CheckIfDue, getLevel, fire. cbn.
  destruct (totalTicks sts <? t); cbn;
    (eexists; split; [reflexivity|]); (split; [by split|done]).
Qed.

(** Making a request on a quiet world, and idling until it completes. *)
Lemma request_completes n writing d s w :
  ok w -> wf d -> is_s32 (totalTicks s) ->
  exists w', Idle run_handler 1 (set_kernel d (requested tt n writing (kernel w) s w)) = Ok w' /\
    ok w' /\ kernel w' = set_active false d.
Proof.
  intros [? ? Hl Hp Hm Ht] Hd Hs.
  apply (Idle_completes (set_kernel d (requested tt n writing (kernel w) s w))
           (done_at n writing (kernel w) w)); cbn; try done.
  - by rewrite Hp.
  - apply s32_range.
Qed.

Lemma wf_set_active b d : wf d -> wf (set_active b d).
Proof. by intros [? ? ? ?]. Qed.

Lemma ReadSector_ok n w :
  ok w -> is_sector n ->
  exists w', ReadSector n w = Ok (sector_bytes n (kernel w), w') /\ ok w' /\
    file (kernel w') = file (kernel w).
Proof.
  intros Hw Hn. pose proof Hw as [Hd Ha Hl Hp Hm Ht]. unfold ReadSector.
  rewrite ReadRequest_spec by done. cbn [bind].
  destruct (request_completes n false (UpdateLast n (totalTicks (stats w))
    (set_active true (kernel w))) (count_disk_read (stats w)) w) as (w' & -> & Hw' & Hk).
  { done. } { by apply UpdateLast_wf, wf_set_active. } { done. }
  exists w'. split; [done|]. split; [done|]. rewrite Hk.
  apply (proj1 (UpdateLast_file n (totalTicks (stats w)) (set_active true (kernel w)))).
Qed.

Lemma WriteSector_ok n bs w :
  ok w -> is_sector n -> is_block bs ->
  exists w', WriteSector n bs w = Ok w' /\ ok w' /\
    file (kernel w') = zsplice (SectorSize * n + MagicSize) bs (file (kernel w)).
Proof.
  intros Hw Hn Hbs. pose proof Hw as [Hd Ha Hl Hp Hm Ht]. unfold WriteSector.
  rewrite WriteRequest_spec by done. cbn [bind].
  set (d := set_active true _).
  destruct (request_completes n true (UpdateLast n (totalTicks (stats w)) d)
    (count_disk_write (stats w)) w) as (w' & -> & Hw' & Hk).
  { done. } { by apply UpdateLast_wf, wf_set_active, file_write_wf. } { done. }
  exists w'. split; [done|]. split; [done|]. rewrite Hk.
  apply (proj1 (UpdateLast_file n (totalTicks (stats w)) d)).
Qed.

Lemma sector_bytes_same n d d' : file d' = file d -> sector_bytes n d' = sector_bytes n d.
Proof. unfold sector_bytes. by intros ->. Qed.

#[export] Program Instance DiskWorld_store : SectorStore DiskWorld := {
  ReadSector := ReadSector;
  WriteSector := WriteSector;
  store_ok := ok;
  sector_of w n := sector_bytes n (kernel w)
}.
Next Obligation. intros w n [Hd _ _ _ _ _] Hn. by apply sector_bytes_block. Qed.
Next Obligation.
  intros w n Hw Hn. destruct (ReadSector_ok n w Hw Hn) as (w' & ? & ? & E).
  exists w'. split; [done|]. split; [done|]. intros k. by apply sector_bytes_same.
Qed.
Next Obligation.
  intros w n bs Hw Hn Hbs. destruct (WriteSector_ok n bs w Hw Hn Hbs) as (w' & ? & ? & E).
  exists w'. split; [done|]. split; [done|]. intros k Hk.
  apply sector_bytes_write; [apply Hw|done..].
Qed.

(** A disk whose UNIX file did not exist is created with every sector zero. *)
Definition boot (d : Disk) : DiskWorld := mkWorld None Interrupt.new Stats.new d.

Lemma boot_ok d : wf d -> active d = false -> ok (boot d).
Proof. intros Hd Ha. by split. Qed.

(** A disk of zero bytes. *)
Definition blank_disk : DiskWorld :=
  boot (mkDisk (replicate (Z.to_nat DiskSize) 0) false 0 0).

Lemma boot_disk_ok f :
  Z.of_nat (length f) = DiskSize -> Forall is_byte f -> ok (boot (mkDisk f false 0 0)).
Proof. intros Hl Hf. apply boot_ok; [|done]. by split. Qed.

Lemma blank_disk_ok : store_ok blank_disk.
Proof.
  unfold blank_disk. apply boot_disk_ok; [|by apply Forall_replicate].
  rewrite length_replicate. by apply Z2Nat.id.
Qed.

End DiskWorld.

(** ** The constructor *)

Lemma new_fresh_file :
  exists f, new None = Ok (mkDisk f false 0 0) /\ Z.of_nat (length f) = DiskSize /\
    Forall is_byte f /\ zslice 0 MagicSize f = le_bytes 4 MagicNumber.
Proof.
  unfold new, WriteFile. change (0 <=? 0) with true.
  change (0 <=? DiskSize - 4) with true. cbn [ASSERT bind].
  change (Z.of_nat (length (le_bytes 4 MagicNumber))) with 4.
  change (Z.of_nat (length (le_bytes 4 0))) with 4. cbn [app length Nat.sub].
  set (f1 := zsplice 0 _ _).
  assert (length f1 = 4%nat) as H1 by done.
  set (f2 := f1 ++ _).
  assert (Z.of_nat (length f2) = DiskSize) as H2.
  { unfold f2. rewrite length_app, length_replicate, H1.
    change (DiskSize - 4 + 4) with DiskSize. unfold DiskSize, MagicSize, NumSectors,
      SectorsPerTrack, NumTracks, SectorSize. lia. }
  assert (Z.of_nat (length (le_bytes 4 0)) = 4) as H3 by done.
  eexists. split; [reflexivity|]. split; [|split].
  - rewrite length_zsplice; [done|done|]. rewrite H2, H3. lia.
  - assert (forall n, Forall is_byte (replicate n 0)) as H4
      by (intros n; apply Forall_replicate; unfold is_byte; lia).
    apply zsplice_Forall; [apply le_bytes_byte|]. apply Forall_app_2; [|apply H4].
    apply zsplice_Forall; [apply le_bytes_byte|apply H4].
  - rewrite zslice_zsplice_disjoint.
    + reflexivity.
    + unfold DiskSize, MagicSize, NumSectors, SectorsPerTrack, NumTracks, SectorSize. lia.
    + lia.
    + rewrite H2, H3. lia.
    + left. unfold DiskSize, MagicSize, NumSectors, SectorsPerTrack, NumTracks, SectorSize. lia.
Qed.

(** ** Properties *)

(** The simulated latency of a request is positive and at most 64
    rotations; a write ends one sector time after the head is at the start of
    the sector asked for; a read of a sector that the track buffer already holds
    costs one sector time. *)
Theorem latency_correct n writing total d :
  is_sector n -> wf d -> 0 <= total -> total + 64 * RotationTime < 2 ^ 31 ->
  0 < ComputeLatency n writing total d <= 64 * RotationTime /\
  (let start := total + ComputeLatency n true total d - RotationTime in
   start mod RotationTime = 0 /\
   (start / RotationTime) mod SectorsPerTrack = n mod SectorsPerTrack) /\
  (n / SectorsPerTrack = lastSector d / SectorsPerTrack ->
   ModuloDiff n (Z.quot (bufferInit d) RotationTime) <
     Z.quot (s32 (total + (TimeToSeek n total d).2 - bufferInit d)) RotationTime ->
   ComputeLatency n false total d = RotationTime).
Proof.
  intros Hn Hd H0 Hmax. split; [apply ComputeLatency_range; [done|done|unfold is_s32, RotationTime in *; lia]|].
  split; [by apply ComputeLatency_exact|].
  intros Htr Hb. apply ComputeLatency_buffered; try done. apply Hd.
Qed.

(** Reads and writes through the interrupt-driven device behave as an array
    of sectors: each request, run until the disk interrupt it schedules has
    fired, returns; a read after a write of [bs] to sector [n] gives [bs] at [n]
    and the old bytes elsewhere; a request while one is in progress, or for a
    sector that does not exist, stops the simulator. *)
Theorem sectors_correct n k bs w :
  DiskWorld.ok w -> is_sector n -> is_sector k -> is_block bs ->
  (exists w' w'' old w3, DiskWorld.WriteSector n bs w = Ok w' /\
    DiskWorld.ReadSector k w = Ok (old, w3) /\
    DiskWorld.ReadSector k w' = Ok (if k =? n then bs else old, w'')) /\
  (forall d m, active d = true \/ ~ is_sector m ->
    ReadRequest tt m d w = Abort /\ WriteRequest tt m bs d w = Abort).
Proof.
  intros Hw Hn Hk Hbs. split.
  - destruct (DiskWorld.WriteSector_ok n bs w Hw Hn Hbs) as (w' & E & Hw' & Hf).
    destruct (DiskWorld.ReadSector_ok k w Hw Hk) as (w3 & E3 & _).
    destruct (DiskWorld.ReadSector_ok k w' Hw' Hk) as (w'' & E' & _).
    exists w', w'', (sector_bytes k (kernel w)), w3. split; [done|]. split; [done|].
    rewrite E'. f_equal. f_equal.
    apply (sector_bytes_write n k bs (kernel w)); [apply Hw|done..].
  - intros d m Hm. destruct (request_aborts tt m d w Hm) as [Hr Hwr]. by split.
Qed.

Lemma latency_correct_witness :
  let d := mkDisk (replicate (Z.to_nat DiskSize) 0) false 40 0 in
  0 < ComputeLatency 100 false 12345 d <= 32000 /\
  (12345 + ComputeLatency 100 true 12345 d - 500) mod 500 = 0.
Proof.
  intros d. assert (wf d) as Hd.
  { split; [|by apply Forall_replicate|done|done]. unfold d. cbn [file].
    rewrite length_replicate. by apply Z2Nat.id. }
  destruct (latency_correct 100 false 12345 d) as (Hr & [Hs _] & _); [done|done|done|done|].
  split; [exact Hr|exact Hs].
Defined.

Lemma sectors_correct_witness :
  exists w' w'', DiskWorld.WriteSector 3 (replicate 128 9) DiskWorld.blank_disk = Ok w' /\
    DiskWorld.ReadSector 3 w' = Ok (replicate 128 9, w'').
Proof.
  destruct (sectors_correct 3 3 (replicate 128 9) DiskWorld.blank_disk DiskWorld.blank_disk_ok)
    as [(w' & w'' & old & w3 & E & _ & E') _];
    [done|done|split; [done|by apply Forall_replicate]|].
  exists w', w''. split; [exact E|exact E'].
Defined.

End Disk.
