(* ===== verification/FileHdr.v ===== *)
(** filesys/filehdr.h, filehdr.cc: the file header (i-node), the table of the
    disk sectors of a file.

    Module [FileHeader] allocates and frees the sectors of a file in the free
    map, and reads and writes the header as one disk sector of any
    [SectorStore]. *)

From S2P Require Import Prelude BitMap LinkedList MachineState Interrupt Disk.

(** Set or clear a list of numbers of a bit set. *)
Definition set_all (v : bool) (ns : list Z) (l : list bool) : list bool :=
  foldl (fun l n => <[Z.to_nat n := v]> l) l ns.

Lemma length_set_all v ns l : length (set_all v ns l) = length l.
Proof.
  unfold set_all. revert l. induction ns as [|n ns IH]; intros l; simpl; [done|].
  by rewrite IH, length_insert.
Qed.

Lemma set_all_app v ns ns' l : set_all v (ns ++ ns') l = set_all v ns' (set_all v ns l).
Proof. apply foldl_app. Qed.

Lemma lookup_set_all v ns l (i : nat) :
  Forall (fun n => 0 <= n) ns ->
  set_all v ns l !! i =
    if decide (Z.of_nat i ∈ ns) then (if decide (i < length l)%nat then Some v else None)
    else l !! i.
Proof.
  intros Hns. revert l. induction Hns as [|n ns Hn Hns IH]; intros l; simpl.
  - done.
  - unfold set_all in *. rewrite IH, length_insert.
    destruct (decide (Z.of_nat i ∈ ns)) as [Hi|Hi], (decide (Z.of_nat i ∈ n :: ns)) as [Hj|Hj];
      rewrite elem_of_cons in Hj; try done; try tauto.
    + assert (n = Z.of_nat i) as -> by (by destruct Hj). rewrite Nat2Z.id. case_decide.
      * by apply list_lookup_insert_eq.
      * apply lookup_ge_None_2. rewrite length_insert. lia.
    + apply list_lookup_insert_ne. intros E. apply Hj. left. lia.
Qed.

(** Clearing what was set on clear numbers gives the old set back. *)
Lemma set_all_inverse ns l :
  Forall (fun n => 0 <= n /\ l !! Z.to_nat n = Some false) ns ->
  set_all false ns (set_all true ns l) = l.
Proof.
  intros Hns. assert (Forall (fun n => 0 <= n) ns) as Hpos
    by (eapply Forall_impl; [exact Hns|]; intros n [? _]; done).
  apply list_eq. intros i. rewrite !lookup_set_all, length_set_all by done.
  destruct (decide (Z.of_nat i ∈ ns)) as [Hi|]; [|done].
  rewrite Forall_forall in Hns. destruct (Hns _ Hi) as [_ Hl].
  rewrite Nat2Z.id in Hl. rewrite Hl.
  apply lookup_lt_Some in Hl. by rewrite decide_True.
Qed.

Module FileHeader.

(** ** State *)
Definition NumDirect : Z := (SectorSize - 2 * 4) / 4.
Definition MaxFileSize : Z := NumDirect * SectorSize.

Record FileHeader := mkHdr {
  numBytes : Z;            (* number of bytes in the file *)
  numSectors : Z;          (* number of data sectors in the file *)
  dataSectors : list Z     (* the sector of each data block: NumDirect ints *)
}.

(** The header as the bytes [(char * )this], and back. *)
Definition to_bytes (h : FileHeader) : list Z :=
  BitMap.to_bytes (numBytes h :: numSectors h :: dataSectors h).

Definition of_bytes (bs : list Z) : FileHeader :=
  match s32 <$> BitMap.of_bytes (Z.to_nat (NumDirect + 2)) bs with
  | nb :: ns :: ds => mkHdr nb ns ds
  | _ => mkHdr 0 0 []
  end.

(** ** Operations *)

(** [Allocate]; the header is [new FileHeader], whose fields start
    uninitialised. *)
Definition Allocate (freeMap : BitMap.BitMap) (fileSize : Z) (h : FileHeader)
    : res (bool * FileHeader * BitMap.BitMap) :=
  let h := mkHdr fileSize (divRoundUp fileSize SectorSize) (dataSectors h) in
  clear ← BitMap.NumClear freeMap;
  if clear <? numSectors h then Ok (false, h, freeMap)
  else
    '(ds, freeMap) ← for_range (Z.to_nat (numSectors h)) 0
      (fun i '(ds, freeMap) =>
         '(sector, freeMap) ← BitMap.Find freeMap;
         ds ← zset ds i sector;
         Ok (ds, freeMap))
      (dataSectors h, freeMap);
    Ok (true, mkHdr (numBytes h) (numSectors h) ds, freeMap).

Definition Deallocate (freeMap : BitMap.BitMap) (h : FileHeader) : res BitMap.BitMap :=
  for_range (Z.to_nat (numSectors h)) 0
    (fun i freeMap =>
       sector ← zget (dataSectors h) i;
       marked ← BitMap.Test sector freeMap;
       ASSERT marked;;
       BitMap.Clear sector freeMap)
    freeMap.

Definition ByteToSector (offset : Z) (h : FileHeader) : res Z :=
  zget (dataSectors h) (Z.quot offset SectorSize).

Definition FileLength (h : FileHeader) : Z := numBytes h.

Section store.
Context {D : Type} `{SectorStore D}.

Definition FetchFrom (sector : Z) (d : D) : res (FileHeader * D) :=
  '(bs, d) ← ReadSector sector d; Ok (of_bytes bs, d).

Definition WriteBack (sector : Z) (h : FileHeader) (d : D) : res D :=
  WriteSector sector (to_bytes h) d.

(** What [Print] writes for one byte of the file. *)
Inductive printed :=
  | Shown (c : Z)        (* printf("%c", c) *)
  | Escaped (c : Z).     (* printf("\\%x", c) *)

Definition print_byte (c : Z) : printed :=
  if (32 <=? s8 c) && (s8 c <=? 126) then Shown c else Escaped c.

(** [Print]: the size, the sector numbers and the bytes of each block. *)
Definition Print (h : FileHeader) (d : D) : res (Z * list Z * list (list printed) * D) :=
  blocks ← for_range (Z.to_nat (numSectors h)) 0
    (fun i out => n ← zget (dataSectors h) i; Ok (out ++ [n])) [];
  '(_, out, d) ← for_range (Z.to_nat (numSectors h)) 0
    (fun i '(k, out, d) =>
       n ← zget (dataSectors h) i;
       '(data, d) ← ReadSector n d;
       let m := Z.max 0 (Z.min SectorSize (numBytes h - k)) in
       Ok (k + m, out ++ [print_byte <$> zslice 0 m data], d))
    (0, [], d);
  Ok (numBytes h, blocks, out, d).

End store.

(** ** The header on disk *)

(** Every field of a header is a machine integer and the table is full. *)
Record wf (h : FileHeader) : Prop := {
  wf_table : Z.of_nat (length (dataSectors h)) = NumDirect;
  wf_numBytes : is_s32 (numBytes h);
  wf_numSectors : is_s32 (numSectors h);
  wf_sectors : Forall is_s32 (dataSectors h)
}.

Lemma to_bytes_block h : wf h -> is_block (to_bytes h).
Proof.
  intros [Hl _ _ _]. split; [|apply BitMap.to_bytes_byte].
  unfold to_bytes. rewrite BitMap.length_to_bytes. cbn [length].
  unfold NumDirect, SectorSize in *. dlia.
Qed.

Lemma of_to_bytes_s32 m :
  Forall is_s32 m -> s32 <$> BitMap.of_bytes (length m) (BitMap.to_bytes m) = m.
Proof.
  induction 1 as [|w m Hw _ IH]; [done|].
  cbn [BitMap.to_bytes BitMap.of_bytes length].
  rewrite take_app_length', drop_app_length' by by rewrite length_le_bytes.
  rewrite fmap_cons, IH. f_equal. by apply s32_of_bytes.
Qed.

(** A header read back from the bytes it was written as. *)
Lemma of_to_header h : wf h -> of_bytes (to_bytes h) = h.
Proof.
  intros [Hl Hb Hn Hs]. unfold of_bytes, to_bytes.
  replace (Z.to_nat (NumDirect + 2)) with
    (length (numBytes h :: numSectors h :: dataSectors h)) by (cbn [length]; lia).
  rewrite of_to_bytes_s32 by (by repeat apply Forall_cons_2). by destruct h.
Qed.

Lemma length_of_bytes n bs : length (BitMap.of_bytes n bs) = n.
Proof. revert bs. induction n; intros bs; simpl; [done|by rewrite IHn]. Qed.

Lemma of_bytes_wf bs : wf (of_bytes bs).
Proof.
  unfold of_bytes. change (Z.to_nat (NumDirect + 2)) with 32%nat.
  pose proof (length_of_bytes 32 bs) as Hl.
  destruct (BitMap.of_bytes 32 bs) as [|a [|b ds]]; try done.
  rewrite !fmap_cons. split; cbn [dataSectors numBytes numSectors]; auto with nachos.
  - rewrite length_fmap. cbn [length] in Hl. unfold NumDirect, SectorSize. dlia.
  - apply Forall_fmap, Forall_true. intros x. apply s32_range.
Qed.

Section store_specs.
Context {D : Type} `{SectorStore D}.

Lemma FetchFrom_spec sector (d : D) :
  store_ok d -> is_sector sector ->
  exists d', FetchFrom sector d = Ok (of_bytes (sector_of d sector), d') /\ store_ok d' /\
    forall k, sector_of d' k = sector_of d k.
Proof.
  intros Hd Hs. unfold FetchFrom.
  destruct (ReadSector_spec d sector Hd Hs) as (d' & -> & Hd' & Hsame). by exists d'.
Qed.

Lemma WriteBack_spec sector h (d : D) :
  store_ok d -> is_sector sector -> wf h ->
  exists d', WriteBack sector h d = Ok d' /\ store_ok d' /\
    forall k, is_sector k ->
      sector_of d' k = if k =? sector then to_bytes h else sector_of d k.
Proof.
  intros Hd Hs Hh. unfold WriteBack. by apply WriteSector_spec, to_bytes_block.
Qed.

End store_specs.

(** ** Allocation *)

(** The sectors the header says the file has. *)
Definition blocks (h : FileHeader) : list Z := take (Z.to_nat (numSectors h)) (dataSectors h).

(** Distinct sectors that are free in the map [l]. *)
Definition free_in (l : list bool) (ns : list Z) : Prop :=
  NoDup ns /\ Forall (fun n => 0 <= n /\ l !! Z.to_nat n = Some false) ns.

Lemma free_in_snoc l ns (n : nat) :
  free_in l ns -> set_all true ns l !! n = Some false -> free_in l (ns ++ [Z.of_nat n]).
Proof.
  intros [Hnd Hf] Hn.
  assert (Forall (fun n => 0 <= n) ns) as Hpos
    by (eapply Forall_impl; [exact Hf|]; intros k [? _]; done).
  rewrite lookup_set_all in Hn by done.
  destruct (decide (Z.of_nat n ∈ ns)) as [|Hni]; [by case_decide|].
  split.
  - apply NoDup_app. split; [done|]. split; [|apply NoDup_singleton].
    intros x Hx ->%list_elem_of_singleton. done.
  - apply Forall_app. split; [done|]. apply Forall_singleton.
    split; [lia|]. by rewrite Nat2Z.id.
Qed.

Lemma free_in_lookup l ns n : free_in l ns -> n ∈ ns -> 0 <= n < Z.of_nat (length l).
Proof.
  intros [_ Hf] Hn. rewrite Forall_forall in Hf. destruct (Hf n Hn) as [? Hl].
  apply lookup_lt_Some in Hl. lia.
Qed.

Lemma count_clear_set_all l ns :
  free_in l ns -> (count_clear (set_all true ns l) + length ns = count_clear l)%nat.
Proof.
  revert l. induction ns as [|n ns IH]; intros l [Hnd Hf]; [done|].
  apply NoDup_cons in Hnd as [Hn Hnd]. apply Forall_cons in Hf as [[H0 Hl] Hf].
  rewrite (count_clear_set l _ Hl). unfold set_all in *. cbn [foldl length].
  rewrite <- (IH (<[Z.to_nat n := true]> l)); [lia|]. split; [done|].
  rewrite Forall_forall in Hf |- *. intros k Hk. destruct (Hf k Hk) as [Hk0 Hkl].
  split; [done|]. rewrite list_lookup_insert_ne; [done|]. intros E.
  apply Hn. by replace n with k by lia.
Qed.

(** Two lists of numbers taken one after the other. *)
Lemma free_in_app l ns ns' :
  free_in l ns -> free_in (set_all true ns l) ns' -> free_in l (ns ++ ns').
Proof.
  intros [Hnd Hf] [Hnd' Hf']. assert (Forall (fun n => 0 <= n) ns) as Hpos
    by (eapply Forall_impl; [exact Hf|]; intros n [? _]; done).
  rewrite Forall_forall in Hf'.
  assert (forall k, k ∈ ns' -> (k ∉ ns) /\ 0 <= k /\ l !! Z.to_nat k = Some false) as Hk.
  { intros k Hk. destruct (Hf' k Hk) as [H0 Hl]. rewrite lookup_set_all in Hl by done.
    rewrite Z2Nat.id in Hl by done. destruct (decide (k ∈ ns)); [|done].
    case_decide; congruence. }
  split.
  - apply NoDup_app. split; [done|]. split; [|done]. intros k Hk1 Hk2.
    by destruct (Hk k Hk2) as [? _].
  - apply Forall_app. split; [done|]. apply Forall_forall. intros k Hk2. by apply Hk.
Qed.

(** The invariant of the loop of [Allocate] before its step [i]. *)
Definition allocated (b0 : BitMap.BitMap) (old : list Z) (i : Z)
    (s : list Z * BitMap.BitMap) : Prop :=
  exists ns, Z.of_nat (length ns) = i /\ s.1 = ns ++ drop (length ns) old /\
    free_in (BitMap.abs b0) ns /\ BitMap.wf s.2 /\
    BitMap.numBits s.2 = BitMap.numBits b0 /\
    BitMap.abs s.2 = set_all true ns (BitMap.abs b0) /\
    Z.of_nat (count_clear (BitMap.abs s.2)) = Z.of_nat (count_clear (BitMap.abs b0)) - i.

Lemma allocate_step b0 old i s :
  0 <= i < NumDirect -> Z.of_nat (length old) = NumDirect ->
  i < Z.of_nat (count_clear (BitMap.abs b0)) -> allocated b0 old i s ->
  exists s', (let '(ds, freeMap) := s in
     '(sector, freeMap) ← BitMap.Find freeMap;
     ds ← zset ds i sector;
     Ok (ds, freeMap)) = Ok s' /\ allocated b0 old (i + 1) s'.
Proof.
  intros Hi Hold Hcc. destruct s as [ds b].
  intros (ns & Hlen & Hds & Hfree & Hwf & Hnb & Habs & Hcnt). cbn [fst snd] in *.
  pose proof (BitMap.Find_spec b Hwf) as Hfind.
  destruct (first_clear_is_Some (BitMap.abs b)) as [n Hn]; [lia|]. rewrite Hn in Hfind.
  destruct Hfind as (b' & -> & Hwf' & Hnb' & Hlt & Habs').
  apply first_clear_Some in Hn as [Hn _]. cbn [bind].
  assert (Z.of_nat (length ds) = NumDirect) as Hdl
    by (rewrite Hds, length_app, length_drop; lia).
  rewrite zset_eq by lia. cbn [bind]. eexists. split; [reflexivity|].
  exists (ns ++ [Z.of_nat n]). cbn [fst snd]. rewrite length_app. cbn [length].
  split; [lia|]. split; [|split; [|split; [done|split; [congruence|split]]]].
  - rewrite Hds, <- Hlen, Nat2Z.id, insert_app_r_alt, Nat.sub_diag by lia.
    rewrite <- app_assoc. f_equal. rewrite Nat.add_1_r.
    destruct (drop (length ns) old) as [|x rest] eqn:E.
    { apply (f_equal length) in E. rewrite length_drop in E. simpl in E. lia. }
    cbn [insert list_insert app]. f_equal.
    by rewrite <- Nat.add_1_r, <- drop_drop, E.
  - apply free_in_snoc; [done|]. by rewrite <- Habs.
  - rewrite Habs', Habs, set_all_app. simpl. by rewrite Nat2Z.id.
  - rewrite Habs'. pose proof (count_clear_set _ _ Hn). lia.
Qed.

(** A file that fits: its blocks are distinct free sectors, which are marked. *)
Lemma Allocate_fits b size h :
  BitMap.wf b -> Z.of_nat (length (dataSectors h)) = NumDirect ->
  0 <= size -> divRoundUp size SectorSize <= NumDirect ->
  divRoundUp size SectorSize <= Z.of_nat (count_clear (BitMap.abs b)) ->
  exists h' b', Allocate b size h = Ok (true, h', b') /\
    numBytes h' = size /\ numSectors h' = divRoundUp size SectorSize /\
    Z.of_nat (length (dataSectors h')) = NumDirect /\
    free_in (BitMap.abs b) (blocks h') /\
    Z.of_nat (length (blocks h')) = numSectors h' /\
    dataSectors h' = blocks h' ++ drop (length (blocks h')) (dataSectors h) /\
    BitMap.wf b' /\ BitMap.numBits b' = BitMap.numBits b /\
    BitMap.abs b' = set_all true (blocks h') (BitMap.abs b).
Proof.
  intros Hb Hh Hs Hmax Hroom. pose proof (divRoundUp_nonneg size SectorSize Hs eq_refl) as Hn.
  unfold Allocate. rewrite BitMap.NumClear_spec by done. cbn [bind numSectors dataSectors numBytes].
  set (n := divRoundUp size SectorSize) in *.
  destruct (Z.ltb_spec (Z.of_nat (count_clear (BitMap.abs b))) n); [lia|].
  destruct (for_range_rule (allocated b (dataSectors h)) (Z.to_nat n) 0
    (fun i '(ds, freeMap) =>
         '(sector, freeMap) ← BitMap.Find freeMap;
         ds ← zset ds i sector;
         Ok (ds, freeMap)) (dataSectors h, b)) as ([ds b'] & -> & Hinv).
  - exists []. cbn [length fst snd]. rewrite drop_0. split_and!; try done; try lia.
    split; [apply NoDup_nil_2|apply Forall_nil_2].
  - intros i s Hi Hinv. apply (allocate_step b (dataSectors h) i s); [lia..|done].
  - destruct Hinv as (ns & Hlen & Hds & Hfree & Hwf & Hnb & Habs & _). cbn [fst snd bind] in *.
    exists (mkHdr size n ds), b'. split; [done|].
    assert (blocks (mkHdr size n ds) = ns) as Hbl.
    { unfold blocks. cbn [numSectors dataSectors]. rewrite Hds.
      rewrite take_app_length' by lia. done. }
    rewrite Hbl. cbn [numBytes numSectors dataSectors].
    split_and!; try done; try lia.
    rewrite Hds, length_app, length_drop. lia.
Qed.

(** Not enough free sectors: the map is not touched. *)
Lemma Allocate_full b size h :
  BitMap.wf b -> Z.of_nat (count_clear (BitMap.abs b)) < divRoundUp size SectorSize ->
  Allocate b size h =
    Ok (false, mkHdr size (divRoundUp size SectorSize) (dataSectors h), b).
Proof.
  intros Hb Hn. unfold Allocate. rewrite BitMap.NumClear_spec by done. cbn [bind numSectors dataSectors numBytes].
  by destruct (Z.ltb_spec (Z.of_nat (count_clear (BitMap.abs b)))
    (divRoundUp size SectorSize)); [|lia].
Qed.

(** A larger file than the table can describe is not refused: the loop stores
    past the end of [dataSectors]. *)
Lemma Allocate_overrun b size h :
  BitMap.wf b -> Z.of_nat (length (dataSectors h)) = NumDirect -> 0 <= size ->
  NumDirect < divRoundUp size SectorSize <= Z.of_nat (count_clear (BitMap.abs b)) ->
  Allocate b size h = UB.
Proof.
  intros Hb Hh Hs Hn. unfold Allocate. rewrite BitMap.NumClear_spec by done. cbn [bind numSectors dataSectors numBytes].
  set (n := divRoundUp size SectorSize) in *.
  destruct (Z.ltb_spec (Z.of_nat (count_clear (BitMap.abs b))) n); [lia|].
  replace (Z.to_nat n) with (Z.to_nat NumDirect + S (Z.to_nat (n - NumDirect - 1)))%nat
    by (unfold NumDirect, SectorSize in *; lia).
  rewrite for_range_app.
  destruct (for_range_rule (allocated b (dataSectors h)) (Z.to_nat NumDirect) 0
    (fun i '(ds, freeMap) =>
         '(sector, freeMap) ← BitMap.Find freeMap;
         ds ← zset ds i sector;
         Ok (ds, freeMap)) (dataSectors h, b)) as ([ds b'] & -> & Hinv).
  - exists []. cbn [length fst snd]. rewrite drop_0. split_and!; try done; try lia.
    split; [apply NoDup_nil_2|apply Forall_nil_2].
  - intros i s Hi Hinv. apply (allocate_step b (dataSectors h) i s); [lia..|done].
  - destruct Hinv as (ns & Hlen & Hds & Hfree & Hwf & Hnb & Habs & Hcnt). cbn [fst snd bind] in *.
    cbn [for_range]. pose proof (BitMap.Find_spec b' Hwf) as Hfind.
    destruct (first_clear_is_Some (BitMap.abs b')) as [k Hk]; [lia|]. rewrite Hk in Hfind.
    destruct Hfind as (b2 & -> & _). cbn [bind].
    rewrite zset_UB; [done|]. rewrite Hds, length_app, length_drop. lia.
Qed.

(** Freeing a file: its blocks must be marked, and end up clear. *)
Lemma Deallocate_spec b h :
  BitMap.wf b -> 0 <= numSectors h <= Z.of_nat (length (dataSectors h)) ->
  NoDup (blocks h) ->
  Forall (fun n => 0 <= n /\ BitMap.abs b !! Z.to_nat n = Some true) (blocks h) ->
  exists b', Deallocate b h = Ok b' /\ BitMap.wf b' /\
    BitMap.numBits b' = BitMap.numBits b /\
    BitMap.abs b' = set_all false (blocks h) (BitMap.abs b).
Proof.
  intros Hb Hn Hnd Hmarked. unfold Deallocate.
  destruct (for_range_rule
    (fun i b' => BitMap.wf b' /\ BitMap.numBits b' = BitMap.numBits b /\
       BitMap.abs b' = set_all false (take (Z.to_nat i) (dataSectors h)) (BitMap.abs b))
    (Z.to_nat (numSectors h)) 0
    (fun i freeMap =>
       sector ← zget (dataSectors h) i;
       marked ← BitMap.Test sector freeMap;
       ASSERT marked;;
       BitMap.Clear sector freeMap) b) as (b' & -> & Hwf' & Hnb' & Habs').
  - done.
  - intros i b1 Hi (Hwf & Hnb & Habs).
    destruct (zget_is_Ok (dataSectors h) i) as [n Hg]; [lia|]. rewrite Hg. cbn [bind].
    apply zget_Ok in Hg as [Hi0 Hg].
    assert (blocks h !! Z.to_nat i = Some n) as Hbl
      by (unfold blocks; rewrite lookup_take_lt by lia; done).
    pose proof (Forall_lookup_1 _ _ _ _ Hmarked Hbl) as [Hn0 Hl].
    assert (BitMap.abs b1 !! Z.to_nat n = Some true) as Hm.
    { assert (Forall (fun n => 0 <= n) (take (Z.to_nat i) (dataSectors h))) as Hpos.
      { replace (Z.to_nat i) with (Z.to_nat i `min` Z.to_nat (numSectors h))%nat by lia.
        rewrite <- take_take. apply Forall_take.
        eapply Forall_impl; [exact Hmarked|]. intros k [? _]. done. }
      rewrite Habs, lookup_set_all, Z2Nat.id by done.
      rewrite decide_False; [done|]. intros Hin.
      apply list_elem_of_lookup in Hin as [j Hj]. apply lookup_take_Some in Hj as [Hj Hj'].
      assert (blocks h !! j = Some n) as Hbj
        by (unfold blocks; rewrite lookup_take_lt by lia; done).
      pose proof (NoDup_lookup _ _ _ _ Hnd Hbl Hbj). lia. }
    apply BitMap.abs_lookup_inv in Hm as Hm'. rewrite Z2Nat.id in Hm' by done.
    destruct Hm' as [Hlt Hbit].
    rewrite BitMap.Test_spec by (done || lia). rewrite <- Hbit. cbn [ASSERT bind].
    destruct (BitMap.Clear_abs b1 n) as (b2 & -> & Hwf2 & Hnb2 & Habs2); [done|lia|].
    exists b2. split; [done|]. split; [done|]. split; [congruence|].
    replace (Z.to_nat (i + 1)) with (S (Z.to_nat i)) by lia.
    rewrite (take_S_r _ _ _ Hg), set_all_app, <- Habs. done.
  - exists b'. rewrite Z2Nat.id in Habs' by lia. rewrite Z.add_0_l in Habs'. done.
Qed.

(** Freeing a file just allocated restores the map. *)
Lemma Deallocate_Allocate b size h h' b' :
  BitMap.wf b -> Z.of_nat (length (dataSectors h)) = NumDirect -> 0 <= size ->
  divRoundUp size SectorSize <= NumDirect ->
  Allocate b size h = Ok (true, h', b') ->
  exists b'', Deallocate b' h' = Ok b'' /\ BitMap.wf b'' /\ BitMap.abs b'' = BitMap.abs b.
Proof.
  intros Hb Hh Hs Hmax Ha.
  destruct (Z_lt_le_dec (Z.of_nat (count_clear (BitMap.abs b))) (divRoundUp size SectorSize)).
  { rewrite Allocate_full in Ha by done. done. }
  destruct (Allocate_fits b size h) as (h1 & b1 & Ha1 & _ & Hns & Hlen & [Hnd Hf] & Hbl &
    _ & Hwf & Hnb & Habs); [done..|].
  rewrite Ha in Ha1. injection Ha1 as <- <-.
  assert (Forall (fun n => 0 <= n) (blocks h')) as Hpos
    by (eapply Forall_impl; [exact Hf|]; intros k [? _]; done).
  destruct (Deallocate_spec b' h') as (b2 & Hd & Hwf2 & _ & Habs2); [done| |done| |].
  - pose proof (divRoundUp_nonneg size SectorSize Hs eq_refl). lia.
  - apply Forall_forall. intros n Hn. rewrite Forall_forall in Hf, Hpos.
    split; [by apply Hpos|]. rewrite Habs, lookup_set_all by (by apply Forall_forall).
    destruct (Hf n Hn) as [? Hl]. rewrite Z2Nat.id by done.
    rewrite decide_True by done. apply lookup_lt_Some in Hl. by rewrite decide_True.
  - exists b2. split; [done|]. split; [done|]. rewrite Habs2, Habs. by apply set_all_inverse.
Qed.

(** ** Properties *)

(** [Allocate] on a well-formed map has three outcomes.  With fewer free
    sectors than the file needs it answers false and leaves the map alone; when
    the header's table is large enough it takes distinct free sectors, marks
    exactly them, and [Deallocate] of the header gives the old map back; a larger
    file is written past the end of the table (undefined behaviour). *)
Theorem Allocate_correct b size h :
  BitMap.wf b -> Z.of_nat (length (dataSectors h)) = NumDirect -> 0 <= size ->
  let needed := divRoundUp size SectorSize in
  let clear := Z.of_nat (count_clear (BitMap.abs b)) in
  (clear < needed -> exists h', Allocate b size h = Ok (false, h', b)) /\
  (needed <= clear -> needed <= NumDirect ->
    exists h' b' b'', Allocate b size h = Ok (true, h', b') /\
      numBytes h' = size /\ Z.of_nat (length (blocks h')) = needed /\
      free_in (BitMap.abs b) (blocks h') /\
      BitMap.abs b' = set_all true (blocks h') (BitMap.abs b) /\
      Deallocate b' h' = Ok b'' /\ BitMap.abs b'' = BitMap.abs b) /\
  (needed <= clear -> NumDirect < needed -> Allocate b size h = UB).
Proof.
  intros Hb Hh H0 needed clear. split; [|split]; intros Hc.
  - eexists. by apply Allocate_full.
  - intros Hmax. destruct (Allocate_fits b size h Hb Hh H0 Hmax Hc) as
      (h' & b' & E & Hby & Hns & _ & Hfree & Hbl & _ & _ & _ & Ha).
    destruct (Deallocate_Allocate b size h h' b' Hb Hh H0 Hmax E) as (b'' & Ed & _ & Hb'').
    exists h', b', b''. split_and!; try done. by rewrite Hbl, Hns.
  - intros Hmax. by apply Allocate_overrun.
Qed.

(** Every header that fits the machine integers survives the disk: written
    to any sector and fetched back, it is the same header, and no other sector
    changes. *)
Theorem header_roundtrip {D : Type} `{SectorStore D} sector h (d : D) :
  store_ok d -> is_sector sector -> wf h ->
  exists d' d'', WriteBack sector h d = Ok d' /\ FetchFrom sector d' = Ok (h, d'') /\
    forall k, is_sector k -> k <> sector -> sector_of d'' k = sector_of d k.
Proof.
  intros Hd Hs Hh. destruct (WriteBack_spec sector h d Hd Hs Hh) as (d' & E & Hd' & Hk).
  destruct (FetchFrom_spec sector d' Hd' Hs) as (d'' & E' & _ & Hk').
  exists d', d''. split; [done|]. rewrite E', Hk, Z.eqb_refl, of_to_header by done.
  split; [done|]. intros k Hks Hne. rewrite Hk', Hk by done.
  by destruct (Z.eqb_spec k sector).
Qed.

#[local] Existing Instance Disk.DiskWorld.DiskWorld_store.

Definition empty_header : FileHeader := mkHdr 0 0 (replicate 30 0).

Lemma Allocate_correct_witness :
  let b := BitMap.mkBitMap 8 1 [1] in
  (exists h b', Allocate b 200 empty_header = Ok (true, h, b')) /\
  exists h, Allocate b 2000 empty_header = Ok (false, h, b).
Proof.
  assert (BitMap.wf (BitMap.mkBitMap 8 1 [1])) as Hb
    by (split; [done|done|done|by apply Forall_singleton]).
  destruct (Allocate_correct _ 200 empty_header Hb eq_refl) as (_ & Hyes & _); [done|].
  destruct (Allocate_correct _ 2000 empty_header Hb eq_refl) as (Hno & _ & _); [done|].
  split.
  - destruct Hyes as (h & b' & _ & E & _); [by vm_compute|by vm_compute|]. by exists h, b'.
  - apply Hno. by vm_compute.
Defined.

Lemma header_roundtrip_witness :
  exists d' d'', WriteBack 5 empty_header Disk.DiskWorld.blank_disk = Ok d' /\
    FetchFrom 5 d' = Ok (empty_header, d'').
Proof.
  destruct (header_roundtrip 5 empty_header Disk.DiskWorld.blank_disk
    Disk.DiskWorld.blank_disk_ok) as (d' & d'' & E & E' & _);
    [done|split; [done|done|done|by apply Forall_replicate]|].
  exists d', d''. split; [exact E|exact E'].
Defined.

End FileHeader.
