(* ===== verification/OpenFile.v ===== *)
(** filesys/openfile.h, openfile.cc (the FILESYS implementation): an open
    file, read and written at byte offsets over whole sectors.

    [contents] is the byte string of a file as its header and the disk define
    it; the theorems state [ReadAt] and [WriteAt] as a slice and a splice of
    it.  Uninitialised buffers are the parameter [new_chars]. *)

From S2P Require Import Prelude BitMap LinkedList MachineState Interrupt Disk FileHdr.

Module OpenFile.

Import FileHeader.

Section openfile.
Context {D : Type} `{SectorStore D}.

(** What [new char[n]] holds before it is written. *)
Context (new_chars : D -> Z -> list Z).

Record OpenFile := mkOpenFile {
  hdr : FileHeader;      (* header for this file *)
  seekPosition : Z       (* current position within the file *)
}.

(** [OpenFile(sector)] *)
Definition new (sector : Z) (d : D) : res (OpenFile * D) :=
  '(h, d) ← FetchFrom sector d; Ok (mkOpenFile h 0, d).

Definition Seek (position : Z) (f : OpenFile) : OpenFile := mkOpenFile (hdr f) position.

Definition Length (f : OpenFile) : Z := FileLength (hdr f).

(** [ReadAt]: the bytes copied into the buffer; the code returns their
    number. *)
Definition ReadAt (numBytes position : Z) (f : OpenFile) (d : D) : res (list Z * D) :=
  let fileLength := FileLength (hdr f) in
  if (numBytes <=? 0) || (fileLength <=? position) then Ok ([], d)
  else
    let numBytes :=
      if fileLength <? s32 (position + numBytes) then fileLength - position else numBytes in
    let firstSector := divRoundDown position SectorSize in
    let lastSector := divRoundDown (position + numBytes - 1) SectorSize in
    let numSectors := 1 + lastSector - firstSector in
    let buf := new_chars d (numSectors * SectorSize) in
    '(buf, d) ← for_range (Z.to_nat (lastSector + 1 - firstSector)) firstSector
      (fun i '(buf, d) =>
         n ← ByteToSector (i * SectorSize) (hdr f);
         '(data, d) ← ReadSector n d;
         buf ← zcopy ((i - firstSector) * SectorSize) data buf;
         Ok (buf, d))
      (buf, d);
    into ← zread (position - firstSector * SectorSize) numBytes buf;
    Ok (into, d).

(** [WriteAt]: the number of bytes written. *)
Definition WriteAt (from : list Z) (numBytes position : Z) (f : OpenFile) (d : D)
    : res (Z * D) :=
  let fileLength := FileLength (hdr f) in
  if (numBytes <=? 0) || (fileLength <=? position) then Ok (0, d)
  else
    let numBytes :=
      if fileLength <? s32 (position + numBytes) then fileLength - position else numBytes in
    let firstSector := divRoundDown position SectorSize in
    let lastSector := divRoundDown (position + numBytes - 1) SectorSize in
    let numSectors := 1 + lastSector - firstSector in
    let buf := new_chars d (numSectors * SectorSize) in
    let firstAligned := position =? firstSector * SectorSize in
    let lastAligned := position + numBytes =? (lastSector + 1) * SectorSize in
    '(buf, d) ←
      (if negb firstAligned then
         '(data, d) ← ReadAt SectorSize (firstSector * SectorSize) f d;
         buf ← zcopy 0 data buf; Ok (buf, d)
       else Ok (buf, d));
    '(buf, d) ←
      (if negb lastAligned && (negb (firstSector =? lastSector) || firstAligned) then
         '(data, d) ← ReadAt SectorSize (lastSector * SectorSize) f d;
         buf ← zcopy ((lastSector - firstSector) * SectorSize) data buf; Ok (buf, d)
       else Ok (buf, d));
    bytes ← zread 0 numBytes from;
    buf ← zcopy (position - firstSector * SectorSize) bytes buf;
    d ← for_range (Z.to_nat (lastSector + 1 - firstSector)) firstSector
      (fun i d =>
         n ← ByteToSector (i * SectorSize) (hdr f);
         data ← zread ((i - firstSector) * SectorSize) SectorSize buf;
         WriteSector n data d)
      d;
    Ok (numBytes, d).

(** [Read] and [Write] at the seek position. *)
Definition Read (numBytes : Z) (f : OpenFile) (d : D) : res (list Z * OpenFile * D) :=
  '(into, d) ← ReadAt numBytes (seekPosition f) f d;
  Ok (into, Seek (s32 (seekPosition f + Z.of_nat (length into))) f, d).

Definition Write (from : list Z) (numBytes : Z) (f : OpenFile) (d : D)
    : res (Z * OpenFile * D) :=
  '(result, d) ← WriteAt from numBytes (seekPosition f) f d;
  Ok (result, Seek (s32 (seekPosition f + result)) f, d).

(** ** The contents of a file *)

Record file_ok (h : FileHeader) : Prop := {
  fo_wf : FileHeader.wf h;
  fo_size : 0 <= numBytes h;
  fo_sectors : numSectors h = divRoundUp (numBytes h) SectorSize;
  fo_max : numSectors h <= NumDirect;
  fo_nodup : NoDup (blocks h);
  fo_valid : Forall is_sector (blocks h)
}.

(** The bytes of all the blocks, and of the file. *)
Definition raw (h : FileHeader) (d : D) : list Z :=
  concat (sector_of d <$> blocks h).

Definition contents (h : FileHeader) (d : D) : list Z :=
  take (Z.to_nat (numBytes h)) (raw h d).

(** What the program assumes of [new char[n]]: [n] bytes of any value. *)
Definition chars_ok : Prop :=
  forall d n, 0 <= n -> Z.of_nat (length (new_chars d n)) = n /\ Forall is_byte (new_chars d n).

Lemma SectorSize_eq : SectorSize = 128.
Proof. done. Qed.

Lemma length_blocks h : file_ok h -> Z.of_nat (length (blocks h)) = numSectors h.
Proof.
  intros [[Hl _ _ _] H0 Hn Hm _ _]. unfold blocks. rewrite length_take.
  pose proof (divRoundUp_nonneg (numBytes h) SectorSize H0 eq_refl).
  unfold NumDirect, SectorSize in *. lia.
Qed.

Lemma concat_lookup (ls : list (list Z)) (i j : nat) l :
  Forall (fun l => length l = 128%nat) ls -> ls !! i = Some l -> (j < 128)%nat ->
  concat ls !! (128 * i + j)%nat = l !! j.
Proof.
  intros Hls. revert i. induction Hls as [|l0 ls Hl0 Hls IH]; intros [|i] Hi Hj;
    cbn [concat]; simplify_eq/=.
  - apply lookup_app_l. lia.
  - rewrite lookup_app_r by lia. rewrite <- (IH i Hi Hj). f_equal. lia.
Qed.

Lemma length_concat (ls : list (list Z)) :
  Forall (fun l => length l = 128%nat) ls -> length (concat ls) = (128 * length ls)%nat.
Proof.
  induction 1 as [|l ls Hl _ IH]; [done|]. cbn [concat length].
  rewrite length_app, Hl, IH. lia.
Qed.

Lemma sectors_128 h (d : D) : store_ok d -> file_ok h ->
  Forall (fun l => length l = 128%nat) (sector_of d <$> blocks h).
Proof.
  intros Hd [_ _ _ _ _ Hv]. apply Forall_fmap. eapply Forall_impl; [exact Hv|].
  intros n Hn. destruct (sector_block d n Hd Hn) as [Hl _]. cbn.
  rewrite SectorSize_eq in Hl. lia.
Qed.

Lemma length_raw h (d : D) : store_ok d -> file_ok h ->
  Z.of_nat (length (raw h d)) = 128 * numSectors h.
Proof.
  intros Hd Hh. unfold raw. rewrite length_concat by (by apply sectors_128).
  rewrite length_fmap, <- length_blocks by done. lia.
Qed.

Lemma raw_size h : file_ok h -> numBytes h <= 128 * numSectors h.
Proof.
  intros [_ H0 Hn _ _ _]. rewrite Hn.
  pose proof (divRoundUp_spec (numBytes h) SectorSize H0 eq_refl).
  rewrite SectorSize_eq in *. lia.
Qed.

Lemma length_contents h (d : D) : store_ok d -> file_ok h ->
  Z.of_nat (length (contents h d)) = numBytes h.
Proof.
  intros Hd Hh. unfold contents. rewrite length_take.
  pose proof (length_raw h d Hd Hh). pose proof (raw_size h Hh).
  pose proof (fo_size h Hh). lia.
Qed.

(** Block [i] of the file, and its sector. *)
Lemma block_lookup h i : file_ok h -> 0 <= i < numSectors h ->
  exists n, blocks h !! Z.to_nat i = Some n /\ is_sector n /\
    ByteToSector (i * SectorSize) h = Ok n.
Proof.
  intros Hh Hi. pose proof (length_blocks h Hh) as Hl.
  destruct (lookup_lt_is_Some_2 (blocks h) (Z.to_nat i)) as [n Hn]; [lia|].
  exists n. split; [done|]. split; [exact (Forall_lookup_1 _ _ _ _ (fo_valid h Hh) Hn)|].
  unfold ByteToSector. rewrite Z.quot_mul by done. apply zget_Ok. split; [lia|].
  unfold blocks in Hn. by apply lookup_take_Some in Hn as [? _].
Qed.

Lemma raw_lookup h (d : D) i n (j : nat) :
  store_ok d -> file_ok h -> 0 <= i -> blocks h !! Z.to_nat i = Some n -> (j < 128)%nat ->
  raw h d !! (Z.to_nat (128 * i) + j)%nat = sector_of d n !! j.
Proof.
  intros Hd Hh Hi Hn Hj. unfold raw.
  replace (Z.to_nat (128 * i) + j)%nat with (128 * Z.to_nat i + j)%nat by lia.
  apply concat_lookup; [by apply sectors_128| |done].
  by rewrite list_lookup_fmap, Hn.
Qed.

Lemma raw_same h (d d' : D) :
  file_ok h -> (forall n, is_sector n -> sector_of d' n = sector_of d n) ->
  raw h d' = raw h d.
Proof.
  intros [_ _ _ _ _ Hv] Hs. unfold raw. f_equal. apply list_fmap_ext.
  intros i n Hn. apply Hs. exact (Forall_lookup_1 _ _ _ _ Hv Hn).
Qed.

(** ** Reading *)
Context (Hchars : chars_ok).

Definition same_store (d d' : D) : Prop :=
  store_ok d' /\ forall k, sector_of d' k = sector_of d k.

Definition read_body (h : FileHeader) (first i : Z) (s : list Z * D) : res (list Z * D) :=
  let '(buf, d) := s in
  n ← ByteToSector (i * SectorSize) h;
  '(data, d) ← ReadSector n d;
  buf ← zcopy ((i - first) * SectorSize) data buf;
  Ok (buf, d).

(** The buffer holds the first [k] bytes from offset [off] of [l]. *)
Definition filled (buf l : list Z) (off k : Z) : Prop :=
  forall j : nat, Z.of_nat j < k -> buf !! j = l !! (Z.to_nat off + j)%nat.

Lemma read_step h first i buf (d0 d : D) N :
  file_ok h -> same_store d0 d -> store_ok d0 -> 0 <= first -> first <= i < first + N ->
  first + N <= numSectors h -> Z.of_nat (length buf) = 128 * N ->
  filled buf (raw h d0) (128 * first) (128 * (i - first)) ->
  exists buf' d', read_body h first i (buf, d) = Ok (buf', d') /\ same_store d0 d' /\
    Z.of_nat (length buf') = 128 * N /\
    filled buf' (raw h d0) (128 * first) (128 * (i + 1 - first)).
Proof.
  intros Hh [Hd Hsame] Hd0 Hf Hi HN Hlen Hfill. unfold read_body.
  destruct (block_lookup h i Hh) as (n & Hn & Hsec & ->); [lia|]. cbn [bind].
  destruct (ReadSector_spec d n Hd Hsec) as (d' & -> & Hd' & Hsame'). cbn [bind].
  destruct (sector_block d n Hd Hsec) as [Hl _]. rewrite SectorSize_eq in *.
  rewrite zcopy_Ok by lia. cbn [bind]. eexists _, d'. split; [reflexivity|].
  split; [split; [done|]; intros k; by rewrite Hsame', Hsame|].
  split; [rewrite length_zsplice; lia|].
  intros j Hj. rewrite lookup_zsplice by lia. rewrite Hl.
  destruct (decide ((i - first) * 128 <= Z.of_nat j < (i - first) * 128 + 128)).
  - rewrite Hsame, <- (raw_lookup h d0 i) by (done || lia). f_equal. lia.
  - apply Hfill. lia.
Qed.

Lemma read_loop h first N buf (d : D) :
  file_ok h -> store_ok d -> 0 <= first -> 0 <= N -> first + N <= numSectors h ->
  Z.of_nat (length buf) = 128 * N ->
  exists buf' d', for_range (Z.to_nat N) first (read_body h first) (buf, d) = Ok (buf', d') /\
    same_store d d' /\ Z.of_nat (length buf') = 128 * N /\
    filled buf' (raw h d) (128 * first) (128 * N).
Proof.
  intros Hh Hd Hf HN Hle Hlen.
  destruct (for_range_rule
    (fun i s => same_store d s.2 /\ Z.of_nat (length s.1) = 128 * N /\
       filled s.1 (raw h d) (128 * first) (128 * (i - first)))
    (Z.to_nat N) first (read_body h first) (buf, d)) as ([buf' d'] & Hr & Hs & Hl & Hfill).
  - split; [done|]. split; [done|]. intros j Hj. lia.
  - intros i [b d1] Hi (Hs & Hl & Hfill). cbn [fst snd] in *.
    destruct (read_step h first i b d d1 N) as (b' & d' & E & ? & ? & ?);
      [done|done|done|done|lia|done|done|done|].
    exists (b', d'). done.
  - exists buf', d'. cbn [fst snd] in *. split; [done|]. split; [done|]. split; [done|].
    intros j Hj. apply Hfill. lia.
Qed.

(** The request that is carried out: the part inside the file. *)
Definition clip (numBytes position : Z) (h : FileHeader) : Z :=
  Z.max 0 (Z.min numBytes (FileLength h - position)).

Lemma clip_eq numBytes position h :
  0 <= position -> 0 < numBytes -> position < FileLength h ->
  position + numBytes < 2 ^ 31 ->
  (if FileLength h <? s32 (position + numBytes) then FileLength h - position else numBytes)
    = clip numBytes position h /\
  0 < clip numBytes position h /\ position + clip numBytes position h <= FileLength h.
Proof.
  intros H0 H1 H2 H3. rewrite s32_id by (unfold is_s32; lia). unfold clip. zcases; lia.
Qed.

(** The blocks of a range of bytes of the file. *)
Lemma block_range position n h :
  file_ok h -> 0 <= position -> 0 < n -> position + n <= FileLength h ->
  let first := position / 128 in
  let last := (position + n - 1) / 128 in
  divRoundDown position SectorSize = first /\
  divRoundDown (position + n - 1) SectorSize = last /\
  0 <= first <= last /\ last < numSectors h /\
  128 * first <= position < 128 * first + 128 /\
  128 * last < position + n <= 128 * last + 128.
Proof.
  intros Hh H0 H1 H2. cbv zeta. rewrite !divRoundDown_div by (rewrite ?SectorSize_eq; lia).
  pose proof (raw_size h Hh). unfold FileLength in *. rewrite SectorSize_eq. dlia.
Qed.

Lemma lookup_contents h (d : D) j :
  Z.of_nat j < numBytes h -> contents h d !! j = raw h d !! j.
Proof. intros. unfold contents. by rewrite lookup_take_lt by lia. Qed.

(** [ReadAt] returns the slice of the file, cut at its end. *)
Lemma ReadAt_slice numBytes position f (d : D) :
  file_ok (hdr f) -> store_ok d -> 0 <= position -> position + numBytes < 2 ^ 31 ->
  exists d', ReadAt numBytes position f d =
      Ok (zslice position (clip numBytes position (hdr f)) (contents (hdr f) d), d') /\
    same_store d d'.
Proof.
  intros Hh Hd H0 H3. unfold ReadAt. set (h := hdr f) in *.
  destruct (Z.leb_spec numBytes 0), (Z.leb_spec (FileLength h) position); cbn [orb].
  1-3: exists d; split; [|done]; do 2 f_equal; unfold clip, zslice;
    (replace (Z.to_nat _) with 0%nat by lia); done.
  destruct (clip_eq numBytes position h) as (-> & Hc0 & Hc1); [lia..|].
  set (n := clip numBytes position h) in *.
  destruct (block_range position n h Hh H0 Hc0 Hc1) as (-> & -> & Hfl & Hlast & Hf & Hl).
  set (first := position / 128) in *. set (last := (position + n - 1) / 128) in *.
  destruct (Hchars d ((1 + last - first) * SectorSize)) as [Hbl _];
    [rewrite SectorSize_eq; lia|].
  destruct (read_loop h first (last + 1 - first)
    (new_chars d ((1 + last - first) * SectorSize)) d) as (buf & d' & E & Hs & Hlen & Hfill);
    [done|done|lia|lia|lia|rewrite Hbl, SectorSize_eq; lia|].
  change (for_range _ first _ _) with
    (for_range (Z.to_nat (last + 1 - first)) first (read_body h first)
       (new_chars d ((1 + last - first) * SectorSize), d)).
  rewrite E. cbn [bind]. rewrite SectorSize_eq.
  rewrite zread_Ok by lia. cbn [bind]. exists d'. split; [|done]. do 2 f_equal.
  apply list_eq. intros j. pose proof (length_contents h d Hd Hh) as Hlc.
  unfold FileLength in *.
  destruct (decide (Z.of_nat j < n)).
  - rewrite !lookup_zslice by lia. rewrite Hfill, lookup_contents by lia. f_equal. lia.
  - rewrite !lookup_ge_None_2; [done| |]; unfold zslice; rewrite length_take; lia.
Qed.

(** ** Writing *)

Definition write_body (h : FileHeader) (first : Z) (buf : list Z) (i : Z) (d : D) : res D :=
  n ← ByteToSector (i * SectorSize) h;
  data ← zread ((i - first) * SectorSize) SectorSize buf;
  WriteSector n data d.

(** Blocks [first] to [i - 1] hold the bytes of the buffer. *)
Record written (h : FileHeader) (first : Z) (buf : list Z) (i : Z) (d d' : D) : Prop := {
  wr_store : store_ok d';
  wr_blocks j n : blocks h !! j = Some n ->
    sector_of d' n =
      if decide (first <= Z.of_nat j < i)
      then zslice (128 * (Z.of_nat j - first)) 128 buf else sector_of d n;
  wr_others k : is_sector k -> k ∉ blocks h -> sector_of d' k = sector_of d k
}.

Lemma write_step h first buf N i (d0 d : D) :
  file_ok h -> 0 <= first -> first <= i < first + N -> first + N <= numSectors h ->
  Z.of_nat (length buf) = 128 * N -> Forall is_byte buf -> written h first buf i d0 d ->
  exists d', write_body h first buf i d = Ok d' /\ written h first buf (i + 1) d0 d'.
Proof.
  intros Hh Hf Hi HN Hlen Hb [Hd Hblk Hoth]. unfold write_body.
  destruct (block_lookup h i Hh) as (n & Hn & Hsec & ->); [lia|]. cbn [bind].
  rewrite SectorSize_eq, zread_Ok by lia. cbn [bind].
  destruct (WriteSector_spec d n (zslice ((i - first) * 128) 128 buf) Hd Hsec)
    as (d' & -> & Hd' & Hs).
  { split; [rewrite SectorSize_eq; apply length_zslice; lia|by apply zslice_Forall]. }
  exists d'. split; [done|]. split; [done| |].
  - intros j m Hm. pose proof (Forall_lookup_1 _ _ _ _ (fo_valid h Hh) Hm) as Hms.
    rewrite Hs by done. destruct (Z.eqb_spec m n) as [->|Hne].
    + pose proof (NoDup_lookup _ _ _ _ (fo_nodup h Hh) Hm Hn) as ->.
      rewrite Z2Nat.id, decide_True by lia. f_equal. lia.
    + assert (Z.of_nat j <> i) as Hj.
      { intros <-. rewrite Nat2Z.id in Hn. congruence. }
      rewrite (Hblk j m Hm). by repeat case_decide; try lia.
  - intros k Hk Hnk. rewrite Hs by done. destruct (Z.eqb_spec k n) as [->|]; [|by apply Hoth].
    exfalso. apply Hnk. by eapply list_elem_of_lookup_2.
Qed.

Lemma write_loop h first N buf (d : D) :
  file_ok h -> store_ok d -> 0 <= first -> 0 <= N -> first + N <= numSectors h ->
  Z.of_nat (length buf) = 128 * N -> Forall is_byte buf ->
  exists d', for_range (Z.to_nat N) first (write_body h first buf) d = Ok d' /\
    written h first buf (first + N) d d'.
Proof.
  intros Hh Hd Hf HN Hle Hlen Hb.
  destruct (for_range_rule (fun i d' => written h first buf i d d')
    (Z.to_nat N) first (write_body h first buf) d) as (d' & Hr & Hw).
  - split; [done| |done]. intros j n _. rewrite decide_False; [done|lia].
  - intros i d1 Hi Hw. apply (write_step h first buf N); try done; lia.
  - exists d'. split; [done|]. by rewrite Z2Nat.id in Hw by lia.
Qed.

(** The bytes of the file after the loop. *)
Lemma written_raw h first N buf (d d' : D) (x : nat) :
  file_ok h -> store_ok d -> 0 <= first -> 0 <= N -> first + N <= numSectors h ->
  Z.of_nat (length buf) = 128 * N -> written h first buf (first + N) d d' ->
  Z.of_nat x < 128 * numSectors h ->
  raw h d' !! x =
    if decide (128 * first <= Z.of_nat x < 128 * (first + N))
    then buf !! (x - Z.to_nat (128 * first))%nat else raw h d !! x.
Proof.
  intros Hh Hd Hf HN Hle Hlen [Hd' Hblk _] Hx.
  set (i := Z.of_nat x / 128). assert (0 <= i < numSectors h) as Hi by (unfold i; dlia).
  destruct (block_lookup h i Hh Hi) as (n & Hn & Hsec & _).
  set (t := (x - Z.to_nat (128 * i))%nat).
  assert (128 * i <= Z.of_nat x < 128 * i + 128) as Hxi by (unfold i; dlia).
  assert (forall d1, store_ok d1 -> raw h d1 !! x = sector_of d1 n !! t) as Hr.
  { intros d1 Hd1. rewrite <- (raw_lookup h d1 i n t) by (done || lia). f_equal. lia. }
  clearbody i. rewrite !Hr by done.
  rewrite (Hblk _ _ Hn), Z2Nat.id by lia.
  destruct (decide (first <= i < first + N)), (decide (128 * first <= Z.of_nat x < _));
    try done; try lia.
  rewrite lookup_zslice by lia. f_equal. lia.
Qed.

(** A partial block is loaded up to the end of the file. *)
Lemma ReadAt_block i f (d : D) :
  file_ok (hdr f) -> store_ok d -> 0 <= i -> 128 * i < FileLength (hdr f) ->
  exists data d', ReadAt SectorSize (i * SectorSize) f d = Ok (data, d') /\
    same_store d d' /\ Forall is_byte data /\
    Z.of_nat (length data) = Z.min 128 (FileLength (hdr f) - 128 * i) /\
    filled data (raw (hdr f) d) (128 * i) (Z.of_nat (length data)).
Proof.
  intros Hh Hd Hi Hlt. set (h := hdr f) in *.
  pose proof (raw_size h Hh) as Hrs. pose proof (fo_max h Hh) as Hmax.
  unfold FileLength in *. change NumDirect with 30 in Hmax.
  destruct (ReadAt_slice SectorSize (i * SectorSize) f d) as (d' & -> & Hs);
    [done|done|rewrite SectorSize_eq; lia|rewrite SectorSize_eq; lia|].
  fold h. pose proof (length_contents h d Hd Hh) as Hlc. rewrite SectorSize_eq.
  assert (clip 128 (i * 128) h = Z.min 128 (numBytes h - 128 * i)) as Ec
    by (unfold clip, FileLength; lia).
  rewrite Ec. set (m := Z.min _ _) in *.
  eexists _, d'. split; [reflexivity|]. split; [done|].
  assert (Z.of_nat (length (zslice (i * 128) m (contents h d))) = m) as Hlen
    by (apply length_zslice; lia).
  split; [|split; [done|]].
  - apply zslice_Forall, Forall_take. unfold raw. apply Forall_concat, Forall_fmap.
    eapply Forall_impl; [exact (fo_valid h Hh)|]. intros n Hn. by apply sector_block.
  - rewrite Hlen. intros j Hj. rewrite lookup_zslice by lia.
    rewrite lookup_contents by lia. f_equal. lia.
Qed.

(** Loading a block of the file into the buffer at the place it has there. *)
Lemma load_block f first last i buf (d d0 : D) :
  file_ok (hdr f) -> store_ok d0 -> same_store d0 d -> 0 <= first <= i -> i <= last ->
  128 * last < FileLength (hdr f) ->
  Z.of_nat (length buf) = 128 * (last + 1 - first) -> Forall is_byte buf ->
  exists buf' d',
    ('(data, d) ← ReadAt SectorSize (i * SectorSize) f d;
     buf ← zcopy ((i - first) * SectorSize) data buf; Ok (buf, d)) = Ok (buf', d') /\
    same_store d0 d' /\ length buf' = length buf /\ Forall is_byte buf' /\
    forall x : nat,
      buf' !! x =
        if decide (128 * i <= 128 * first + Z.of_nat x < 128 * i + 128 /\
                   128 * first + Z.of_nat x < FileLength (hdr f))
        then raw (hdr f) d0 !! (Z.to_nat (128 * first) + x)%nat else buf !! x.
Proof.
  intros Hh Hd0 [Hd Hsame] Hf Hi Hl Hlen Hb.
  destruct (ReadAt_block i f d Hh Hd) as (data & d' & -> & [Hd' Hsame'] & Hdb & Hdl & Hfill);
    [lia|lia|]. cbn [bind].
  rewrite SectorSize_eq. rewrite zcopy_Ok by lia. cbn [bind].
  eexists _, d'. split; [reflexivity|].
  split; [split; [done|]; intros k; by rewrite Hsame', Hsame|].
  split; [apply length_zsplice; lia|]. split; [by apply zsplice_Forall|].
  intros x. rewrite lookup_zsplice by lia.
  destruct (decide ((i - first) * 128 <= Z.of_nat x < _)) as [Hx|Hx], (decide (_ /\ _)) as [Hy|Hy];
    try done; try lia.
  rewrite Hfill by lia. rewrite (raw_same (hdr f) d0 d) by (done || intros; apply Hsame).
  f_equal. lia.
Qed.

(** The buffer before the new bytes are copied in: everything of the file in
    its blocks that the request leaves alone is there. *)
Definition prepared (f : OpenFile) (d0 : D) (first position n : Z) (buf : list Z) : Prop :=
  forall x : nat, Z.of_nat x < Z.of_nat (length buf) ->
    128 * first + Z.of_nat x < FileLength (hdr f) ->
    (128 * first + Z.of_nat x < position \/ position + n <= 128 * first + Z.of_nat x) ->
    buf !! x = raw (hdr f) d0 !! (Z.to_nat (128 * first) + x)%nat.

Definition prepare (first last position n : Z) (f : OpenFile) (s : list Z * D)
    : res (list Z * D) :=
  let '(buf, d) := s in
  let firstAligned := position =? first * SectorSize in
  let lastAligned := position + n =? (last + 1) * SectorSize in
  '(buf, d) ←
    (if negb firstAligned then
       '(data, d) ← ReadAt SectorSize (first * SectorSize) f d;
       buf ← zcopy 0 data buf; Ok (buf, d)
     else Ok (buf, d));
  if negb lastAligned && (negb (first =? last) || firstAligned) then
    '(data, d) ← ReadAt SectorSize (last * SectorSize) f d;
    buf ← zcopy ((last - first) * SectorSize) data buf; Ok (buf, d)
  else Ok (buf, d).

Lemma prepare_ok first last position n f buf (d : D) :
  file_ok (hdr f) -> store_ok d -> 0 <= first <= last ->
  128 * first <= position < 128 * first + 128 ->
  128 * last < position + n <= 128 * last + 128 -> 0 < n ->
  position + n <= FileLength (hdr f) ->
  Z.of_nat (length buf) = 128 * (last + 1 - first) -> Forall is_byte buf ->
  exists buf' d', prepare first last position n f (buf, d) = Ok (buf', d') /\
    same_store d d' /\ length buf' = length buf /\ Forall is_byte buf' /\
    prepared f d first position n buf'.
Proof.
  intros Hh Hd Hfl Hf Hl Hn Hend Hlen Hb. unfold prepare. rewrite SectorSize_eq.
  assert (exists buf1 d1,
    (if negb (position =? first * 128) then
       '(data, d) ← ReadAt SectorSize (first * SectorSize) f d;
       buf ← zcopy 0 data buf; Ok (buf, d)
     else Ok (buf, d)) = Ok (buf1, d1) /\ same_store d d1 /\ length buf1 = length buf /\
    Forall is_byte buf1 /\
    (position <> first * 128 -> forall x : nat, Z.of_nat x < 128 ->
       128 * first + Z.of_nat x < FileLength (hdr f) ->
       buf1 !! x = raw (hdr f) d !! (Z.to_nat (128 * first) + x)%nat))
    as (buf1 & d1 & E1 & Hs1 & Hl1 & Hb1 & Hfirst).
  { destruct (Z.eqb_spec position (first * 128)); cbn [negb]; [by exists buf, d|].
    destruct (load_block f first last first buf d d)
      as (buf1 & d1 & E & Hs & Hl' & Hb' & Hx); [done|done|done|lia..|done|].
    replace ((first - first) * SectorSize) with 0 in E by lia.
    exists buf1, d1. split_and!; try done. intros _ x Hx1 Hx2. rewrite Hx.
    by rewrite decide_True by lia. }
  rewrite SectorSize_eq in E1. rewrite E1. cbn [bind].
  destruct (Z.eqb_spec (position + n) ((last + 1) * 128)) as [Hla|Hla]; cbn [negb andb].
  { exists buf1, d1. split_and!; try done. intros x Hx1 Hx2 Hx3.
    destruct (decide (position = first * 128)); [lia|]. apply Hfirst; [done|lia|lia]. }
  destruct (negb (first =? last) || (position =? first * 128)) eqn:Ec.
  - destruct (load_block f first last last buf1 d1 d)
      as (buf2 & d2 & E & Hs & Hl' & Hb' & Hx); [done|done|done|lia..|done|].
    rewrite SectorSize_eq in E. exists buf2, d2. split_and!; try done; [congruence|].
    intros x Hx1 Hx2 Hx3. rewrite Hx.
    destruct (decide (_ /\ _)) as [|Hno]; [done|].
    destruct (decide (position = first * 128)); [lia|]. apply Hfirst; [done|lia|lia].
  - apply orb_false_elim in Ec as [Ec1 Ec2].
    apply negb_false_iff, Z.eqb_eq in Ec1. apply Z.eqb_neq in Ec2.
    exists buf1, d1. split_and!; try done. intros x Hx1 Hx2 Hx3. apply Hfirst; lia.
Qed.

(** [WriteAt] splices the bytes into the file, cut at its end; the other
    sectors of the disk keep their contents. *)
Lemma WriteAt_splice from numBytes position f (d : D) :
  file_ok (hdr f) -> store_ok d -> 0 <= position -> position + numBytes < 2 ^ 31 ->
  numBytes <= Z.of_nat (length from) -> Forall is_byte from ->
  exists d', WriteAt from numBytes position f d = Ok (clip numBytes position (hdr f), d') /\
    store_ok d' /\
    contents (hdr f) d' =
      zsplice position (zslice 0 (clip numBytes position (hdr f)) from) (contents (hdr f) d) /\
    forall k, is_sector k -> k ∉ blocks (hdr f) -> sector_of d' k = sector_of d k.
Proof.
  intros Hh Hd H0 H3 Hfrom Hfb. unfold WriteAt. set (h := hdr f) in *.
  destruct (Z.leb_spec numBytes 0), (Z.leb_spec (FileLength h) position); cbn [orb].
  1-3: assert (clip numBytes position h = 0) as -> by (unfold clip; lia);
    exists d; split; [done|]; split; [done|]; split; [|done];
    by rewrite zslice_0, zsplice_nil.
  destruct (clip_eq numBytes position h) as (-> & Hc0 & Hc1); [lia..|].
  assert (clip numBytes position h <= numBytes) as Hcn by (unfold clip; lia).
  set (n := clip numBytes position h) in *.
  destruct (block_range position n h Hh H0 Hc0 Hc1) as (-> & -> & Hfl & Hlast & Hf & Hl).
  set (first := position / 128) in *. set (last := (position + n - 1) / 128) in *.
  clearbody first last.
  destruct (Hchars d ((1 + last - first) * SectorSize)) as [Hbl Hbb];
    [rewrite SectorSize_eq; lia|].
  set (buf0 := new_chars d ((1 + last - first) * SectorSize)) in *.
  destruct (prepare_ok first last position n f buf0 d) as (buf & d1 & E & [Hd1 Hs1] & Hlen & Hb & Hprep);
    [done|done|lia|lia|lia|lia|exact Hc1|rewrite Hbl, SectorSize_eq; lia|done|].
  rewrite SectorSize_eq in Hbl.
  unfold prepare in E. apply bind_Ok in E as ([buf1 d1'] & E1 & E2).
  rewrite E1. cbn [bind]. rewrite E2. cbn [bind].
  rewrite zread_Ok by lia. cbn [bind].
  set (bytes := zslice 0 n from).
  assert (Z.of_nat (length bytes) = n) as Hbn by (apply length_zslice; lia).
  rewrite zcopy_Ok by (rewrite ?SectorSize_eq; lia). cbn [bind].
  set (buf2 := zsplice _ bytes buf).
  assert (Z.of_nat (length buf2) = 128 * (last + 1 - first)) as Hl2.
  { unfold buf2. rewrite length_zsplice; rewrite ?SectorSize_eq; lia. }
  destruct (write_loop h first (last + 1 - first) buf2 d1) as (d' & Er & Hw);
    [done|done|lia|lia|lia|done|apply zsplice_Forall; [by apply zslice_Forall|done]|].
  change (for_range _ first _ d1) with
    (for_range (Z.to_nat (last + 1 - first)) first (write_body h first buf2) d1).
  rewrite Er. cbn [bind]. exists d'. split; [done|]. split; [apply Hw|]. split.
  - pose proof (length_contents h d Hd Hh) as Hlc. unfold FileLength in *.
    apply list_eq. intros x. rewrite lookup_zsplice by lia.
    destruct (decide (Z.of_nat x < FileHeader.numBytes h)) as [Hx|Hx].
    + pose proof (raw_size h Hh) as Hrs.
      rewrite lookup_contents, (written_raw h first (last + 1 - first) buf2 d1 d') by (done || lia).
      rewrite (raw_same h d d1) by (done || intros; apply Hs1).
      destruct (decide (128 * first <= Z.of_nat x < _)) as [Hin|Hout].
      * unfold buf2. rewrite SectorSize_eq, lookup_zsplice by lia.
        destruct (decide (position - first * 128 <= _ < _)) as [Hy|Hy],
          (decide (position <= Z.of_nat x < _)) as [Hz|Hz]; try lia.
        -- f_equal. lia.
        -- rewrite Hprep by (unfold FileLength; fold h; lia). rewrite lookup_contents by lia.
           fold h. f_equal. lia.
      * rewrite decide_False by lia. by rewrite lookup_contents by lia.
    + rewrite decide_False by lia. rewrite !lookup_ge_None_2; [done| |]; try lia.
      pose proof (length_contents h d' (wr_store _ _ _ _ _ _ Hw) Hh). lia.
  - intros k Hk Hnk. rewrite (wr_others _ _ _ _ _ _ Hw k Hk Hnk). apply Hs1.
Qed.

(** ** Properties *)

(** [ReadAt] copies the bytes of the file from the position on, as many as
    asked for and as the file has, and none before a negative or after the
    last; the disk keeps its contents. *)
Theorem ReadAt_correct numBytes position f (d : D) :
  file_ok (hdr f) -> store_ok d -> 0 <= position -> position + numBytes < 2 ^ 31 ->
  exists bytes d', ReadAt numBytes position f d = Ok (bytes, d') /\ same_store d d' /\
    Z.of_nat (length bytes) = Z.max 0 (Z.min numBytes (Length f - position)) /\
    forall i, (i < length bytes)%nat ->
      bytes !! i = contents (hdr f) d !! (Z.to_nat position + i)%nat.
Proof.
  intros Hf Hd H0 H3. destruct (ReadAt_slice numBytes position f d Hf Hd H0 H3) as (d' & E & Hs).
  eexists _, d'. split; [exact E|]. split; [done|].
  pose proof (length_contents (hdr f) d Hd Hf) as Hl. unfold Length, FileLength in *.
  set (n := clip numBytes position (hdr f)).
  assert (n = Z.max 0 (Z.min numBytes (FileHeader.numBytes (hdr f) - position))) as Hn by done.
  destruct (decide (n = 0)) as [->|Hn0].
  { rewrite zslice_0. split; [cbn [length]; lia|]. cbn. lia. }
  assert (Z.of_nat (length (zslice position n (contents (hdr f) d))) = n) as Hln
    by (rewrite length_zslice; lia).
  split; [lia|]. intros i Hi. apply lookup_zslice; lia.
Qed.

(** The bytes [Write] stored at the seek position are the bytes a [Read]
    from the old position gives back, and both move the seek position by the
    number of bytes transferred. *)
Theorem Write_then_Read from numBytes f (d : D) :
  file_ok (hdr f) -> store_ok d ->
  0 <= seekPosition f -> 0 <= numBytes -> seekPosition f + numBytes < 2 ^ 31 ->
  numBytes <= Z.of_nat (length from) -> Forall is_byte from ->
  exists n f' d' d'', Write from numBytes f d = Ok (n, f', d') /\
    n = Z.max 0 (Z.min numBytes (Length f - seekPosition f)) /\
    hdr f' = hdr f /\ seekPosition f' = seekPosition f + n /\
    Read numBytes (Seek (seekPosition f) f') d' = Ok (zslice 0 n from, f', d'').
Proof.
  intros Hf Hd H0 Hn0 H3 Hlen Hb. unfold Write, Read.
  destruct (WriteAt_splice from numBytes (seekPosition f) f d) as (d' & -> & Hd' & Hc & _);
    [done..|]. cbn [bind].
  set (n := clip numBytes (seekPosition f) (hdr f)) in *.
  assert (0 <= n <= numBytes) as Hn by (unfold n, clip; lia).
  set (f' := Seek (s32 (seekPosition f + n)) f).
  destruct (ReadAt_slice numBytes (seekPosition f) (Seek (seekPosition f) f') d')
    as (d'' & E & _); [done..|].
  exists n, f', d', d''. split; [done|]. split; [done|]. split; [done|].
  assert (s32 (seekPosition f + n) = seekPosition f + n) as Hs32
    by (apply s32_id; unfold is_s32; lia).
  split; [done|]. cbn [seekPosition Seek] in *. rewrite E. cbn [bind hdr f' Seek].
  fold n. rewrite Hc.
  pose proof (length_contents (hdr f) d Hd Hf) as Hl.
  assert (zslice (seekPosition f) n (zsplice (seekPosition f) (zslice 0 n from)
    (contents (hdr f) d)) = zslice 0 n from) as Hrw.
  { assert (Z.of_nat (length (zslice 0 n from)) = n) as Hln by (rewrite length_zslice; lia).
    rewrite <- Hln at 1. destruct (decide (n = 0)) as [Hz|Hz].
    - rewrite Hln, Hz. done.
    - apply zslice_zsplice; [done|]. rewrite Hln, Hl. unfold n, clip, FileLength in *. lia. }
  rewrite Hrw. rewrite length_zslice by lia. done.
Qed.

End openfile.

(** ** A file of two blocks on a blank disk, for the witnesses *)
Section witnesses.

#[local] Existing Instance Disk.DiskWorld.DiskWorld_store.

Definition two_blocks : OpenFile := mkOpenFile (mkHdr 200 2 (2 :: 3 :: replicate 28 0)) 100.
Definition zero_chars (_ : Disk.DiskWorld.DiskWorld) (n : Z) : list Z := replicate (Z.to_nat n) 0.

Lemma two_blocks_ok : file_ok (hdr two_blocks).
Proof.
  split; try done.
  - split; try done. repeat constructor; done.
  - cbn. apply NoDup_cons. split; [|apply NoDup_singleton]. by intros ?%list_elem_of_singleton.
  - repeat constructor; done.
Qed.

Lemma zero_chars_ok : chars_ok zero_chars.
Proof.
  intros d n Hn. unfold zero_chars. rewrite length_replicate. split; [lia|].
  by apply Forall_replicate.
Qed.

Lemma ReadAt_correct_witness :
  exists bytes d', ReadAt zero_chars 150 100 two_blocks Disk.DiskWorld.blank_disk = Ok (bytes, d') /\
    length bytes = 100%nat.
Proof.
  destruct (ReadAt_correct zero_chars zero_chars_ok 150 100 two_blocks Disk.DiskWorld.blank_disk
    two_blocks_ok Disk.DiskWorld.blank_disk_ok) as (bytes & d' & E & _ & Hl & _); [done|done|].
  exists bytes, d'. split; [exact E|]. change (Z.max 0 _) with 100 in Hl. lia.
Defined.

Lemma Write_then_Read_witness :
  exists f' d' d'',
    Write zero_chars (replicate 150 7) 150 two_blocks Disk.DiskWorld.blank_disk = Ok (100, f', d') /\
    Read zero_chars 150 (Seek 100 f') d' = Ok (replicate 100 7, f', d'').
Proof.
  destruct (Write_then_Read zero_chars zero_chars_ok (replicate 150 7) 150 two_blocks
    Disk.DiskWorld.blank_disk two_blocks_ok Disk.DiskWorld.blank_disk_ok)
    as (n & f' & d' & d'' & Ew & Hn & _ & _ & Er);
    [done|done|done|done|by apply Forall_replicate|].
  change (Z.max 0 _) with 100 in Hn. subst n. exists f', d', d''. split; [exact Ew|exact Er].
Defined.

End witnesses.
End OpenFile.
