(* ===== verification/AddrSpace.v ===== *)
(** userprog/addrspace.h, addrspace.cc (without VM): the address space of a
    user program.

    Module [AddrSpace] loads an executable into free physical pages
    ([new]), shares its code and data with a forked thread ([copy]), frees it
    ([destroy]), and prepares the machine to run it ([InitRegisters],
    [RestoreState]).  [vmem] reads the memory a page table maps as one list of
    bytes; loading is stated as a list.  Class [Executable] is what the loader
    needs of the file it reads; an open file of the file system is an instance.
    The layout of the object file is that of noff.h, which is not part of the
    repository: [read_header], [sizeof_header] and [NOFFMAGIC] are parameters. *)

From S2P Require Import Prelude BitMap MachineState Disk FileHdr OpenFile.

(** ** Files that can be loaded *)
Class Executable (E D : Type) := {
  exe_ReadAt : Z -> Z -> E -> D -> res (list Z * D);
  exe_ok : E -> D -> Prop;
  exe_bytes : E -> D -> list Z;
  exe_law n position f d :
    exe_ok f d -> 0 <= position -> position + n < 2 ^ 31 ->
    exists d', exe_ReadAt n position f d =
        Ok (zslice position
              (Z.max 0 (Z.min n (Z.of_nat (length (exe_bytes f d)) - position)))
              (exe_bytes f d), d') /\
      exe_ok f d' /\ exe_bytes f d' = exe_bytes f d;
  exe_byte f d : exe_ok f d -> Forall is_byte (exe_bytes f d)
}.

(** An open file of the file system can be loaded. *)
Section open_file.
Context {D : Type} `{SectorStore D} (new_chars : D -> Z -> list Z).
Context (Hchars : OpenFile.chars_ok new_chars).

Lemma same_store_contents h (d d' : D) :
  OpenFile.same_store d d' -> OpenFile.contents h d' = OpenFile.contents h d.
Proof.
  intros [_ Hs]. unfold OpenFile.contents, OpenFile.raw. f_equal. f_equal.
  apply list_fmap_ext. intros _ n _. apply Hs.
Qed.

#[refine] Definition OpenFile_Executable : Executable OpenFile.OpenFile D := {|
  exe_ReadAt := OpenFile.ReadAt new_chars;
  exe_ok f d := OpenFile.file_ok (OpenFile.hdr f) /\ store_ok d;
  exe_bytes f d := OpenFile.contents (OpenFile.hdr f) d
|}.
Proof.
  - intros n position f d [Hf Hd] H0 H1.
    destruct (OpenFile.ReadAt_slice new_chars Hchars n position f d Hf Hd H0 H1) as (d' & E & Hs).
    exists d'. rewrite E, OpenFile.length_contents by done. split_and!; [done|done|apply Hs|].
    by apply same_store_contents.
  - intros f d [Hf Hd]. unfold OpenFile.contents, OpenFile.raw.
    apply Forall_take, Forall_concat, Forall_fmap.
    eapply Forall_impl; [exact (OpenFile.fo_valid _ Hf)|]. intros n Hn.
    by apply (sector_block d n).
Defined.

End open_file.

Module AddrSpace.

Import Machine.

Definition UserStackSize : Z := 1024.

(** [NoffHeader]: the segments of the object file. *)
Record Segment := mkSegment { virtualAddr : Z; inFileAddr : Z; size : Z }.
Record NoffHeader := mkNoff {
  noffMagic : Z;
  code : Segment;
  initData : Segment;
  uninitData : Segment
}.

Section addrspace.
Context {E D : Type} `{!Executable E D}.
Context (read_header : list Z -> NoffHeader) (sizeof_header NOFFMAGIC : Z).

(** The globals the address space works on. *)
Record World := mkWorld {
  machine : Machine;
  physicalPageMap : BitMap.BitMap;
  numDiskReads : Z;
  disk : D
}.

Definition set_machine (m : Machine) (w : World) : World :=
  mkWorld m (physicalPageMap w) (numDiskReads w) (disk w).
Definition set_map (b : BitMap.BitMap) (w : World) : World :=
  mkWorld (machine w) b (numDiskReads w) (disk w).

Record AddrSpace := mkSpace {
  pageTable : table_loc;
  numPages : Z;
  usage : Z
}.

(** [bzero(machine->mainMemory + page * PageSize, PageSize)] *)
Definition bzero_page (page : Z) (w : World) : res World :=
  mem ← zcopy (page * PageSize) (replicate (Z.to_nat PageSize) 0) (mainMemory (machine w));
  Ok (set_machine (set_memory mem (machine w)) w).

(** [stats->numDiskReads += executable->ReadAt(&machine->mainMemory[place], numBytes,
    position)] *)
Definition load_into (executable : E) (place numBytes position : Z) (w : World) : res World :=
  '(bs, d) ← exe_ReadAt numBytes position executable (disk w);
  mem ← zcopy place bs (mainMemory (machine w));
  Ok (mkWorld (set_memory mem (machine w)) (physicalPageMap w)
        (s32 (numDiskReads w + Z.of_nat (length bs))) d).

(** One entry of the page table of a new space. *)
Definition new_page (i : Z) (s : list TranslationEntry * World)
    : res (list TranslationEntry * World) :=
  let '(table, w) := s in
  '(page, map) ← BitMap.Find (physicalPageMap w);
  w ← bzero_page page (set_map map w);
  Ok (table ++ [mkEntry i page true false false false], w).

(** The state of the two loading loops: [pageCount], [byteCount],
    [dataMerge]. *)
Definition load_code_page (executable : E) (hd : NoffHeader) (table : list TranslationEntry)
    (i : Z) (s : Z * Z * bool * World) : res (Z * Z * bool * World) :=
  let '(pageCount, byteCount, dataMerge, w) := s in
  e ← zget table pageCount;
  let place := physicalPage e * PageSize in
  let position := inFileAddr (code hd) + byteCount in
  let byteCount := byteCount + PageSize in
  let '(numBytes, dataMerge) :=
    if size (code hd) <? byteCount then (Z.rem (size (code hd)) PageSize, true)
    else (PageSize, dataMerge) in
  w ← load_into executable place numBytes position w;
  Ok (pageCount + 1, byteCount, dataMerge, w).

Definition load_data_page (executable : E) (hd : NoffHeader) (table : list TranslationEntry)
    (i : Z) (s : Z * Z * World) : res (Z * Z * World) :=
  let '(pageCount, byteCount, w) := s in
  e ← zget table pageCount;
  let place := physicalPage e * PageSize in
  let position := inFileAddr (initData hd) + byteCount in
  let byteCount := byteCount + PageSize in
  let numBytes :=
    if size (initData hd) <? byteCount then size (initData hd) - (byteCount - PageSize)
    else PageSize in
  w ← load_into executable place numBytes position w;
  Ok (pageCount + 1, byteCount, w).

(** The data that share the last page of the code. *)
Definition merge_data (executable : E) (hd : NoffHeader) (table : list TranslationEntry)
    (pageCount : Z) (w : World) : res (Z * World) :=
  let rest := Z.rem (size (code hd)) PageSize in
  let numBytes := PageSize - rest in
  let numBytes := if size (initData hd) <? numBytes then size (initData hd) else numBytes in
  e ← zget table (pageCount - 1);
  w ← load_into executable (physicalPage e * PageSize + rest) numBytes
        (inFileAddr (initData hd)) w;
  Ok (numBytes, w).

Definition load_segments (executable : E) (hd : NoffHeader) (table : list TranslationEntry)
    (w : World) : res World :=
  '(pageCount, _, dataMerge, w) ←
    for_range (Z.to_nat (divRoundUp (size (code hd)) PageSize)) 0
      (load_code_page executable hd table) (0, 0, false, w);
  let pageNum := size (initData hd) in
  let pageNum :=
    if dataMerge then pageNum - (PageSize - Z.rem (size (code hd)) PageSize) else pageNum in
  let pageNum := if pageNum <? 0 then 0 else pageNum in
  let pageNum := divRoundUp pageNum PageSize in
  '(byteCount, w) ←
    (if dataMerge && negb (size (initData hd) =? 0) then
       merge_data executable hd table pageCount w
     else Ok (0, w));
  '(_, _, w) ←
    for_range (Z.to_nat pageNum) 0 (load_data_page executable hd table)
      (pageCount, byteCount, w);
  Ok w.

(** [AddrSpace(executable)].  The bytes are already in the order of the host, so
    [SwapHeader] is never needed.  The unsigned size becomes the [int] of [divRoundUp]. *)
Definition new (executable : E) (w : World) : res (AddrSpace * World) :=
  '(bs, d) ← exe_ReadAt sizeof_header 0 executable (disk w);
  let hd := read_header bs in
  let w := mkWorld (machine w) (physicalPageMap w)
             (s32 (numDiskReads w + Z.of_nat (length bs))) d in
  ASSERT (noffMagic hd =? NOFFMAGIC);;
  let sz := u32 (size (code hd) + size (initData hd) + size (uninitData hd) + UserStackSize) in
  let numPages := u32 (divRoundUp (s32 sz) PageSize) in
  ASSERT (numPages <=? NumPhysPages);;
  clear ← BitMap.NumClear (physicalPageMap w);
  ASSERT (s32 numPages <=? clear);;
  '(table, w) ← for_range (Z.to_nat numPages) 0 new_page ([], w);
  w ← load_segments executable hd table w;
  let a := fresh (dom (tables (machine w))) in
  Ok (mkSpace a numPages 1, set_machine (set_table a table (machine w)) w).

(** One entry of the page table of a copy: the pages of the stack are new, the
    others are those of the father. *)
Definition copy_page (father : list TranslationEntry) (stackPagesInit i : Z)
    (s : list TranslationEntry * World) : res (list TranslationEntry * World) :=
  let '(table, w) := s in
  '(page, w) ←
    (if stackPagesInit <=? i then
       '(page, map) ← BitMap.Find (physicalPageMap w);
       w ← bzero_page page (set_map map w);
       Ok (page, w)
     else (e ← zget father i; Ok (physicalPage e, w)));
  e ← zget father i;
  Ok (table ++ [mkEntry (virtualPage e) page (valid e) (readOnly e) (use e) (dirty e)], w).

(** [AddrSpace(father)]: [usage] is incremented in the new space. *)
Definition copy (father : AddrSpace) (w : World) : res (AddrSpace * World) :=
  match tables (machine w) !! pageTable father with
  | None => UB
  | Some ft =>
      let stackPagesInit := numPages father - divRoundUp UserStackSize PageSize in
      clear ← BitMap.NumClear (physicalPageMap w);
      ASSERT (divRoundUp UserStackSize PageSize <=? clear);;
      '(table, w) ← for_range (Z.to_nat (numPages father)) 0 (copy_page ft stackPagesInit) ([], w);
      let a := fresh (dom (tables (machine w))) in
      Ok (mkSpace a (numPages father) (1 + 1), set_machine (set_table a table (machine w)) w)
  end.

(** Freeing one page: [physicalPageMap->Clear(page)] and [bzero]. *)
Definition free_page (table : list TranslationEntry) (i : Z) (w : World) : res World :=
  e ← zget table i;
  map ← BitMap.Clear (physicalPage e) (physicalPageMap w);
  bzero_page (physicalPage e) (set_map map w).

(** [delete pageTable] *)
Definition delete_table (a : table_loc) (m : Machine) : Machine :=
  mkMachine (mainMemory m) (registers m) (tlb m) (Machine.pageTable m) (pageTableSize m)
    (delete a (tables m)) (singleStep m) (runUntilTime m).

(** [~AddrSpace()] *)
Definition destroy (s : AddrSpace) (w : World) : res World :=
  match tables (machine w) !! pageTable s with
  | None => UB
  | Some table =>
      let globalPage := numPages s - divRoundUp UserStackSize PageSize in
      w ← (if usage s - 1 =? 0 then for_range (Z.to_nat globalPage) 0 (free_page table) w
           else Ok w);
      w ← for_range (Z.to_nat (numPages s - globalPage)) globalPage (free_page table) w;
      Ok (set_machine (delete_table (pageTable s) (machine w)) w)
  end.

End addrspace.

(** ** The machine runs the space *)
Definition InitRegisters (s : AddrSpace) (m : Machine) : res Machine :=
  m ← for_range (Z.to_nat NumTotalRegs) 0 (fun i m => WriteRegister i 0 m) m;
  m ← WriteRegister PCReg 0 m;
  m ← WriteRegister NextPCReg 4 m;
  WriteRegister StackReg (s32 (numPages s * PageSize - 16)) m.

(** [SaveState] does nothing. *)
Definition SaveState (s : AddrSpace) (m : Machine) : Machine := m.

Definition RestoreState (s : AddrSpace) (m : Machine) : Machine :=
  mkMachine (mainMemory m) (registers m) (tlb m) (Some (pageTable s)) (numPages s)
    (tables m) (singleStep m) (runUntilTime m).

(** ** Memory seen through pages *)

Definition frame_ok (p : Z) : Prop := 0 <= p < NumPhysPages.

Definition page_bytes (mem : list Z) (p : Z) : list Z := zslice (p * PageSize) PageSize mem.

(** The bytes of the physical pages [ps], in order. *)
Definition vpages (ps : list Z) (mem : list Z) : list Z := concat (page_bytes mem <$> ps).

Definition frames (table : list TranslationEntry) : list Z := physicalPage <$> table.

(** The memory a page table maps. *)
Definition vmem (table : list TranslationEntry) (m : Machine) : list Z :=
  vpages (frames table) (mainMemory m).

Lemma sizes : PageSize = 128 /\ NumPhysPages = 32 /\ MemorySize = 4096.
Proof. done. Qed.

Ltac pages := destruct sizes as (HP & HN & HM); unfold frame_ok in *; rewrite ?HP, ?HN, ?HM in *.

Lemma length_page mem p :
  Z.of_nat (length mem) = MemorySize -> frame_ok p -> length (page_bytes mem p) = 128%nat.
Proof.
  intros Hm Hp. unfold page_bytes. pages.
  pose proof (length_zslice (p * 128) 128 mem ltac:(lia) ltac:(lia) ltac:(lia)). lia.
Qed.

Lemma page_zsplice mem p p' off bs :
  Z.of_nat (length mem) = MemorySize -> frame_ok p -> frame_ok p' -> 0 <= off ->
  off + Z.of_nat (length bs) <= PageSize ->
  page_bytes (zsplice (p * PageSize + off) bs mem) p' =
    if decide (p' = p) then zsplice off bs (page_bytes mem p) else page_bytes mem p'.
Proof.
  intros Hm Hp Hp' Ho Hl. pose proof (length_page mem p Hm Hp) as Hlp. unfold page_bytes in *.
  pages. destruct (decide (p' = p)) as [->|Hne].
  - apply list_eq. intros i. destruct (decide (i < 128)%nat) as [Hi|Hi].
    + rewrite lookup_zslice, !lookup_zsplice, lookup_zslice by lia.
      destruct (decide (off <= Z.of_nat i < off + Z.of_nat (length bs))).
      * rewrite decide_True by lia. f_equal. lia.
      * by rewrite decide_False by lia.
    + rewrite !lookup_ge_None_2; [done|rewrite length_zsplice by lia; lia|].
      unfold zslice. rewrite length_take. lia.
  - rewrite zslice_zsplice_disjoint by lia. done.
Qed.

Lemma concat_insert (ls : list (list Z)) (k : nat) l off bs :
  Forall (fun l => length l = 128%nat) ls -> ls !! k = Some l -> 0 <= off ->
  off + Z.of_nat (length bs) <= 128 ->
  concat (<[k := zsplice off bs l]> ls) = zsplice (128 * Z.of_nat k + off) bs (concat ls).
Proof.
  intros Hls. revert k. induction Hls as [|l0 ls Hl0 Hls IH]; intros [|k] Hk Ho Hb;
    cbn [concat]; simplify_eq/=.
  - unfold zsplice. rewrite take_app_le, drop_app_le by lia.
    rewrite <- !app_assoc. done.
  - rewrite IH by done. unfold zsplice.
    replace (Z.to_nat (128 * Z.of_nat (S k) + off)) with (length l0 + Z.to_nat (128 * Z.of_nat k + off))%nat by lia.
    rewrite take_app_add, <- Nat.add_assoc, drop_app_add, <- app_assoc. done.
Qed.

Lemma pages_128 mem ps :
  Z.of_nat (length mem) = MemorySize -> Forall frame_ok ps ->
  Forall (fun l => length l = 128%nat) (page_bytes mem <$> ps).
Proof. intros Hm Hps. apply Forall_fmap. eapply Forall_impl; [done|]. intros p. by apply length_page. Qed.

Lemma length_vpages mem ps :
  Z.of_nat (length mem) = MemorySize -> Forall frame_ok ps ->
  length (vpages ps mem) = (128 * length ps)%nat.
Proof.
  intros Hm Hps. unfold vpages. rewrite (OpenFile.length_concat _ (pages_128 _ _ Hm Hps)).
  by rewrite length_fmap.
Qed.

Lemma vpages_zsplice mem ps (k : nat) p off bs :
  Z.of_nat (length mem) = MemorySize -> Forall frame_ok ps -> NoDup ps -> ps !! k = Some p ->
  0 <= off -> off + Z.of_nat (length bs) <= PageSize ->
  vpages ps (zsplice (p * PageSize + off) bs mem) =
    zsplice (Z.of_nat k * PageSize + off) bs (vpages ps mem).
Proof.
  intros Hm Hps Hnd Hk Ho Hb. pose proof (Forall_lookup_1 _ _ _ _ Hps Hk) as Hp.
  unfold vpages. pages. rewrite (Z.mul_comm (Z.of_nat k)), <- (concat_insert _ k (page_bytes mem p));
    [|by apply pages_128|by rewrite list_lookup_fmap, Hk|done|done].
  f_equal. apply list_eq. intros i. rewrite list_lookup_fmap.
  destruct (ps !! i) as [p'|] eqn:Hi; cbn [fmap option_fmap option_map].
  - pose proof (Forall_lookup_1 _ _ _ _ Hps Hi) as Hp'.
    change 128 with PageSize. rewrite page_zsplice by done.
    destruct (decide (p' = p)) as [->|Hne].
    + assert (i = k) as -> by (by eapply NoDup_lookup).
      rewrite list_lookup_insert_eq; [done|]. rewrite length_fmap. by eapply lookup_lt_Some.
    + rewrite list_lookup_insert_ne by congruence. by rewrite list_lookup_fmap, Hi.
  - symmetry. apply lookup_ge_None_2. rewrite length_insert, length_fmap. by apply lookup_ge_None_1.
Qed.

Lemma vpages_other mem ps p off bs :
  Z.of_nat (length mem) = MemorySize -> Forall frame_ok ps -> frame_ok p -> p ∉ ps ->
  0 <= off -> off + Z.of_nat (length bs) <= PageSize ->
  vpages ps (zsplice (p * PageSize + off) bs mem) = vpages ps mem.
Proof.
  intros Hm Hps Hp Hn Ho Hb. unfold vpages. f_equal. apply list_fmap_ext. intros i p' Hi.
  pose proof (Forall_lookup_1 _ _ _ _ Hps Hi). rewrite page_zsplice by done.
  rewrite decide_False; [done|]. intros ->. apply Hn. by eapply list_elem_of_lookup_2.
Qed.

Lemma vpages_snoc ps p mem : vpages (ps ++ [p]) mem = vpages ps mem ++ page_bytes mem p.
Proof. unfold vpages. rewrite fmap_app, concat_app. cbn. by rewrite app_nil_r. Qed.

(** Filling the zeros after a prefix. *)
Lemma zsplice_zeros (l bs : list Z) n :
  (length bs <= n)%nat ->
  zsplice (Z.of_nat (length l)) bs (l ++ replicate n 0) = (l ++ bs) ++ replicate (n - length bs) 0.
Proof.
  intros Hn. unfold zsplice. rewrite Nat2Z.id, take_app_length, drop_app_add.
  rewrite drop_replicate, <- app_assoc. done.
Qed.

(** ** The machine and the page map *)

Section specs.
Context {E D : Type} `{!Executable E D}.

#[local] Abbreviation World := (World (D := D)).
#[local] Abbreviation mem w := (mainMemory (machine w)).
#[local] Abbreviation bits w := (BitMap.abs (physicalPageMap w)).

Definition zeros : list Z := replicate (Z.to_nat PageSize) 0.

Record world_ok (w : World) : Prop := {
  wo_mem : mem_ok (machine w);
  wo_map : BitMap.wf (physicalPageMap w);
  wo_bits : BitMap.numBits (physicalPageMap w) = NumPhysPages
}.

(** From [w0] to [w] the pages [ns], which were free, were taken, and the rest
    of the memory did not change. *)
Record taken (ns : list Z) (w0 w : World) : Prop := {
  tk_ok : world_ok w;
  tk_free : FileHeader.free_in (bits w0) ns;
  tk_bits : bits w = set_all true ns (bits w0);
  tk_frames : Forall frame_ok ns;
  tk_machine : machine w = set_memory (mem w) (machine w0);
  tk_mem p : frame_ok p -> p ∉ ns -> page_bytes (mem w) p = page_bytes (mem w0) p
}.

Lemma taken_refl w : world_ok w -> taken [] w w.
Proof. intros Hw. split; try done; [by split; [constructor|]|by destruct w as [[]]]. Qed.

Lemma zcopy_page w p off bs :
  world_ok w -> frame_ok p -> 0 <= off -> off + Z.of_nat (length bs) <= PageSize ->
  zcopy (p * PageSize + off) bs (mem w) = Ok (zsplice (p * PageSize + off) bs (mem w)) /\
  Z.of_nat (length (zsplice (p * PageSize + off) bs (mem w))) = MemorySize.
Proof.
  intros [[Hm _] _ _] Hp Ho Hb. pages. unfold zcopy.
  destruct (Z.leb_spec 0 (p * 128 + off)), (Z.leb_spec (p * 128 + off + Z.of_nat (length bs)) (Z.of_nat (length (mem w))));
    try lia. cbn [andb]. split; [done|]. rewrite length_zsplice; lia.
Qed.

(** Copying bytes into a page that was taken. *)
Lemma taken_copy ns w0 w p off bs d r :
  taken ns w0 w -> p ∈ ns -> 0 <= off -> off + Z.of_nat (length bs) <= PageSize ->
  Forall is_byte bs ->
  taken ns w0 (mkWorld (set_memory (zsplice (p * PageSize + off) bs (mem w)) (machine w))
    (physicalPageMap w) r d).
Proof.
  intros [Hok Hf Hb Hfr Hma Hm] Hp Ho Hl Hby. pose proof Hok as [[Hml Hmb] Hmap Hbits].
  assert (frame_ok p) as Hpf by (rewrite Forall_forall in Hfr; auto).
  destruct (zcopy_page w p off bs Hok Hpf Ho Hl) as [_ Hlen].
  split; cbn [machine physicalPageMap set_memory mainMemory]; try done.
  - split; cbn [machine physicalPageMap]; [split|done|done]; cbn; [done|].
    by apply zsplice_Forall.
  - by rewrite Hma.
  - intros p' Hp' Hn. rewrite page_zsplice by done. rewrite decide_False by (intros ->; done). auto.
Qed.

(** [physicalPageMap->Find()] and [bzero]. *)
Lemma take_page ns w0 w :
  taken ns w0 w -> (length ns < count_clear (bits w0))%nat ->
  exists p map w', BitMap.Find (physicalPageMap w) = Ok (p, map) /\
    bzero_page p (set_map map w) = Ok w' /\ (p ∉ ns) /\ taken (ns ++ [p]) w0 w' /\
    page_bytes (mem w') p = zeros /\ vpages ns (mem w') = vpages ns (mem w) /\
    numDiskReads w' = numDiskReads w /\ disk w' = disk w.
Proof.
  intros Ht Hc. pose proof Ht as [Hok Hf Hb Hfr Hma Hm]. pose proof Hok as [Hmem Hmap Hbits].
  pose proof (BitMap.Find_spec _ Hmap) as HF.
  pose proof (FileHeader.count_clear_set_all _ _ Hf) as Hcc. rewrite <- Hb in Hcc.
  destruct (first_clear_is_Some (bits w)) as [n Hn]; [lia|]. rewrite Hn in HF.
  destruct HF as (b' & HF & Hwf' & Hnb' & Hlt & Habs'). apply first_clear_Some in Hn as [Hn _].
  set (p := Z.of_nat n) in *.
  assert (frame_ok p) as Hp by (unfold frame_ok; lia).
  assert (FileHeader.free_in (bits w0) (ns ++ [p])) as Hf' by (apply FileHeader.free_in_snoc; [done|by rewrite <- Hb]).
  assert (p ∉ ns) as Hpn.
  { destruct Hf' as [Hnd _]. apply NoDup_app in Hnd as (_ & Hd & _). intros Hin.
    by apply (Hd p Hin), list_elem_of_singleton. }
  destruct (zcopy_page w p 0 zeros Hok Hp) as [Hz _]; [lia|by vm_compute|].
  rewrite Z.add_0_r in Hz.
  assert (taken (ns ++ [p]) w0 (set_map b' w)) as Ht'.
  { split; cbn [machine physicalPageMap set_map]; try done.
    - split; cbn; [done|done|lia].
    - rewrite Habs', Hb, set_all_app. cbn. unfold p. by rewrite Nat2Z.id.
    - apply Forall_app. by split; [|constructor].
    - intros p' Hp' Hn'. apply Hm; [done|]. intros Hin. apply Hn'. set_solver. }
  eexists p, b', _. split; [exact HF|]. unfold bzero_page. cbn [machine set_map].
  change (replicate (Z.to_nat PageSize) 0) with zeros. rewrite Hz. cbn [bind].
  split; [done|]. split; [done|]. split.
  - pose proof (taken_copy _ _ _ p 0 zeros (disk w) (numDiskReads w) Ht' ltac:(set_solver)
      ltac:(lia) ltac:(by vm_compute)) as H1.
    rewrite Z.add_0_r in H1. apply H1. unfold zeros. apply Forall_replicate. split; lia.
  - cbn [machine set_map set_machine set_memory mainMemory numDiskReads disk].
    destruct Hmem as [Hml Hmb]. rewrite <- (Z.add_0_r (p * PageSize)).
    split_and!; [| |done..].
    + rewrite page_zsplice by (done || by vm_compute). rewrite decide_True by done.
      unfold zsplice. cbn [Z.to_nat take app].
      rewrite (drop_ge (page_bytes _ _)); [apply app_nil_r|].
      rewrite length_page by done. by vm_compute.
    + by apply vpages_other; [..|vm_compute].
Qed.

(** The page table of a new space. *)
Lemma new_pages_ok n w0 :
  world_ok w0 -> Z.of_nat n <= Z.of_nat (count_clear (bits w0)) ->
  exists table w, for_range n 0 new_page ([], w0) = Ok (table, w) /\
    taken (frames table) w0 w /\ length table = n /\
    vmem table (machine w) = replicate (128 * n) 0 /\
    (forall i e, table !! i = Some e ->
       e = mkEntry (Z.of_nat i) (physicalPage e) true false false false) /\
    numDiskReads w = numDiskReads w0 /\ disk w = disk w0.
Proof.
  intros Hw Hn.
  destruct (for_range_rule (fun i '(table, w) =>
    taken (frames table) w0 w /\ Z.of_nat (length table) = i /\
    vmem table (machine w) = replicate (128 * length table) 0 /\
    (forall i e, table !! i = Some e ->
       e = mkEntry (Z.of_nat i) (physicalPage e) true false false false) /\
    numDiskReads w = numDiskReads w0 /\ disk w = disk w0) n 0 new_page ([], w0))
    as ([table w] & Hrun & Ht & Hl & Hv & He & Hr & Hd).
  - split_and!; try done. by apply taken_refl.
  - intros i [table w] Hi (Ht & Hl & Hv & He & Hr & Hd).
    destruct (take_page _ _ _ Ht) as (p & map & w' & HF & HB & _ & Ht' & Hz & Hv' & Hr' & Hd').
    { unfold frames. rewrite length_fmap. lia. }
    eexists (table ++ [mkEntry i p true false false false], w').
    unfold new_page. rewrite HF. cbn [bind]. rewrite HB. cbn [bind]. split; [done|].
    assert (frames (table ++ [mkEntry i p true false false false]) = frames table ++ [p]) as Hfr
      by (unfold frames; by rewrite fmap_app).
    unfold vmem in *. rewrite Hfr, vpages_snoc, Hv', Hv, Hz. split_and!; try congruence.
    + rewrite length_app. cbn. lia.
    + unfold zeros. change (Z.to_nat PageSize) with 128%nat. rewrite <- replicate_add. f_equal. rewrite length_app. cbn. lia.
    + intros j e Hj. apply lookup_app_Some in Hj as [Hj|[Hj Hj']]; [by apply He|].
      apply list_lookup_singleton_Some in Hj' as [Hj0 <-]. cbn. f_equal. lia.
  - exists table, w. rewrite Hrun. split_and!; try done; [lia|]. rewrite Hv. f_equal. lia.
Qed.

(** ** Loading *)

(** The pages of [table] hold [l] and then zeros. *)
Definition loaded (table : list TranslationEntry) (l : list Z) (w : World) : Prop :=
  (length l <= 128 * length table)%nat /\
  vmem table (machine w) = l ++ replicate (128 * length table - length l) 0.

Lemma zslice_extend (file : list Z) pos c a n :
  0 <= pos -> 0 <= a -> 0 <= n -> a + n <= c ->
  take (Z.to_nat a) (zslice pos c file) ++ zslice (pos + a) n file =
    take (Z.to_nat (a + n)) (zslice pos c file).
Proof.
  intros Hp Ha Hn Hc. unfold zslice. rewrite !take_take, !Nat.min_l by lia.
  replace (Z.to_nat (pos + a)) with (Z.to_nat pos + Z.to_nat a)%nat by lia.
  replace (Z.to_nat (a + n)) with (Z.to_nat a + Z.to_nat n)%nat by lia.
  rewrite <- drop_drop, <- take_take_drop. done.
Qed.

Lemma load_step f file table l w0 w (k : nat) e off n position :
  exe_ok f (disk w) -> exe_bytes f (disk w) = file ->
  taken (frames table) w0 w -> loaded table l w -> table !! k = Some e ->
  Z.of_nat (length l) = Z.of_nat k * PageSize + off -> 0 <= off -> 0 <= n ->
  off + n <= PageSize -> 0 <= position -> position + n <= Z.of_nat (length file) ->
  Z.of_nat (length file) < 2 ^ 31 ->
  exists w', load_into f (physicalPage e * PageSize + off) n position w = Ok w' /\
    taken (frames table) w0 w' /\ loaded table (l ++ zslice position n file) w' /\
    exe_ok f (disk w') /\ exe_bytes f (disk w') = file.
Proof.
  intros Hf Hfile Ht [Hll Hl] Hk Hlen Ho Hn Hon Hp Hpn Hsz.
  assert (frames table !! k = Some (physicalPage e)) as Hfk by (unfold frames; by rewrite list_lookup_fmap, Hk).
  assert (physicalPage e ∈ frames table) as Hin by (by eapply list_elem_of_lookup_2).
  pose proof (tk_ok _ _ _ Ht) as Hok. pose proof (tk_frames _ _ _ Ht) as Hfr.
  assert (frame_ok (physicalPage e)) as Hpf by (by eapply Forall_lookup_1).
  destruct (exe_law n position f (disk w) Hf Hp) as (d' & Hread & Hf' & Hb'); [lia|].
  rewrite Hfile in Hread, Hb'. rewrite Z.max_r, Z.min_l in Hread by lia.
  pose proof (length_zslice position n file Hp Hn Hpn) as Hbs.
  set (bs := zslice position n file) in *.
  destruct (zcopy_page w (physicalPage e) off bs Hok Hpf Ho) as [Hz _]; [lia|].
  unfold load_into. rewrite Hread. cbn [bind]. rewrite Hz. cbn [bind].
  eexists. split; [done|]. cbn [disk].
  assert (Forall is_byte bs) as Hby.
  { apply zslice_Forall. rewrite <- Hfile. by apply exe_byte. }
  split; [apply taken_copy; [done..|lia|done]|]. split; [|done].
  assert (k < length table)%nat as Hkl by (by eapply lookup_lt_Some).
  assert (length bs <= 128 * length table - length l)%nat as Hfit.
  { pages. assert (Z.of_nat (length l) + Z.of_nat (length bs) <= 128 * Z.of_nat (length table)); lia. }
  split; [rewrite length_app; lia|]. unfold vmem. cbn [machine set_memory mainMemory].
  pose proof Hok as [[Hml _] _ _]. destruct (tk_free _ _ _ Ht) as [Hnd _].
  rewrite (vpages_zsplice _ _ k) by (done || lia).
  change (vpages (frames table) (mem w)) with (vmem table (machine w)). rewrite Hl, <- Hlen.
  rewrite zsplice_zeros by done. f_equal. f_equal. rewrite length_app. lia.
Qed.

(** What the loader assumes of the object file. *)
Definition seg_ok (g : Segment) (file : list Z) : Prop :=
  0 <= size g /\ 0 <= inFileAddr g /\ inFileAddr g + size g <= Z.of_nat (length file).

Definition seg_bytes (g : Segment) (file : list Z) : list Z := zslice (inFileAddr g) (size g) file.

Lemma length_seg g file : seg_ok g file -> Z.of_nat (length (seg_bytes g file)) = size g.
Proof. intros (? & ? & ?). by apply length_zslice. Qed.

Lemma seg_extend g file a n :
  seg_ok g file -> 0 <= a -> 0 <= n -> a + n <= size g ->
  take (Z.to_nat a) (seg_bytes g file) ++ zslice (inFileAddr g + a) n file =
    take (Z.to_nat (a + n)) (seg_bytes g file).
Proof. intros (? & ? & ?) ???. by apply zslice_extend. Qed.

Section loading.
Context (f : E) (file : list Z) (hd : NoffHeader) (table : list TranslationEntry) (w0 : World).
Context (Hcode : seg_ok (code hd) file) (Hdata : seg_ok (initData hd) file).
Context (Hsz : Z.of_nat (length file) < 2 ^ 31).
Context (Hroom : size (code hd) + size (initData hd) <= 128 * Z.of_nat (length table)).

#[local] Abbreviation cbytes := (seg_bytes (code hd) file).
#[local] Abbreviation dbytes := (seg_bytes (initData hd) file).
#[local] Abbreviation c := (size (code hd)).
#[local] Abbreviation d := (size (initData hd)).

(** The memory holds the prefix [l] of the image. *)
Definition holds (l : list Z) (w : World) : Prop :=
  exe_ok f (disk w) /\ exe_bytes f (disk w) = file /\ taken (frames table) w0 w /\
  loaded table l w.

Lemma load_holds l w (k : nat) off n position :
  holds l w -> Z.of_nat k < Z.of_nat (length table) ->
  Z.of_nat (length l) = Z.of_nat k * 128 + off -> 0 <= off -> 0 <= n ->
  off + n <= 128 -> 0 <= position -> position + n <= Z.of_nat (length file) ->
  exists e w', table !! k = Some e /\
    load_into f (physicalPage e * PageSize + off) n position w = Ok w' /\
    holds (l ++ zslice position n file) w'.
Proof.
  intros (Hf & Hb & Ht & Hl) Hk Hlen Ho Hn Hon Hp Hpn.
  destruct (lookup_lt_is_Some_2 table k) as [e He]; [lia|].
  destruct (load_step f file table l w0 w k e off n position) as (w' & Hw & Ht' & Hl' & Hf' & Hb');
    try done.
  exists e, w'. split_and!; try done.
Qed.

(** The same at the start of a page, as the loops compute it. *)
Lemma load_page_holds l w pc n position :
  holds l w -> 0 <= pc < Z.of_nat (length table) -> Z.of_nat (length l) = pc * 128 ->
  0 <= n <= 128 -> 0 <= position -> position + n <= Z.of_nat (length file) ->
  exists e w', zget table pc = Ok e /\
    load_into f (physicalPage e * PageSize) n position w = Ok w' /\
    holds (l ++ zslice position n file) w'.
Proof.
  intros Hh Hpc Hlen Hn Hp Hpn.
  destruct (load_holds l w (Z.to_nat pc) 0 n position) as (e & w' & He & Hw & Hh');
    try done; try lia.
  exists e, w'. rewrite Z.add_0_r in Hw. split_and!; [by apply zget_Ok; split; [lia|]|done..].
Qed.

Lemma code_loop w :
  holds [] w ->
  exists w', for_range (Z.to_nat (divRoundUp c PageSize)) 0 (load_code_page f hd table)
      (0, 0, false, w) =
    Ok (divRoundUp c PageSize, 128 * divRoundUp c PageSize,
        bool_decide (c < 128 * divRoundUp c PageSize), w') /\ holds cbytes w'.
Proof.
  intros Hw. pose proof Hcode as (Hc0 & Hcp & Hcf). pose proof Hdata as (Hd0 & _ & _).
  pose proof (length_seg _ _ Hcode) as Hlc.
  pose proof (divRoundUp_spec c PageSize Hc0 ltac:(done)) as HP.
  pose proof (divRoundUp_nonneg c PageSize Hc0 ltac:(done)) as HP0.
  set (P := divRoundUp c PageSize) in *. change PageSize with 128 in HP.
  destruct (for_range_rule (fun i '(pc, bc, dm, w) =>
    pc = i /\ bc = 128 * i /\ dm = bool_decide (c < 128 * i) /\
    holds (take (Z.to_nat (128 * i)) cbytes) w)
    (Z.to_nat P) 0 (load_code_page f hd table) (0, 0, false, w))
    as ([[[pc bc] dm] w'] & Hrun & -> & -> & -> & Hh).
  - split_and!; try done. by rewrite bool_decide_false by lia.
  - intros i [[[pc bc] dm] w1] Hi (-> & -> & -> & Hh).
    assert (Z.of_nat (length (take (Z.to_nat (128 * i)) cbytes)) = i * 128) as Hlen
      by (rewrite length_take; lia).
    set (n := if c <? 128 * i + PageSize then Z.rem c PageSize else PageSize).
    assert (0 <= n <= 128 /\ 128 * i + n <= c /\
      take (Z.to_nat (128 * i + n)) cbytes = take (Z.to_nat (128 * (i + 1))) cbytes) as (Hn & Hnc & Htk).
    { unfold n. change PageSize with 128. rewrite Z.rem_mod_nonneg by lia.
      destruct (Z.ltb_spec c (128 * i + 128)).
      - assert (c mod 128 = c - 128 * i) as -> by (symmetry; apply (Z.mod_unique_pos _ _ i); lia).
        split_and!; [lia..|]. rewrite !take_ge by lia. done.
      - split_and!; [lia..|]. f_equal. lia. }
    destruct (load_page_holds _ _ i n (inFileAddr (code hd) + 128 * i) Hh)
      as (e & w2 & He & Hw2 & Hh2); [lia|done|done|lia|lia|].
    rewrite seg_extend, Htk in Hh2 by (done || lia).
    eexists (i + 1, 128 * i + PageSize, bool_decide (c < 128 * (i + 1)), w2).
    split; [|split_and!; [done|change PageSize with 128; lia|done|done]].
    unfold load_code_page. rewrite He. cbn [bind]. unfold n in Hw2.
    destruct (Z.ltb_spec c (128 * i + PageSize)) as [Hlt|Hge]; rewrite Hw2; cbn [bind];
      change PageSize with 128 in *.
    + rewrite bool_decide_true by lia. done.
    + rewrite !bool_decide_false by lia. done.
  - rewrite Z.add_0_l, Z2Nat.id in * by done. exists w'. split; [done|].
    rewrite take_ge in Hh by lia. done.
Qed.

Lemma merge_ok w :
  holds cbytes w -> c < 128 * divRoundUp c PageSize -> d <> 0 ->
  let n := Z.min (128 - c mod 128) d in
  exists w', merge_data f hd table (divRoundUp c PageSize) w = Ok (n, w') /\
    holds (cbytes ++ take (Z.to_nat n) dbytes) w'.
Proof.
  intros Hw Hlt Hd n. pose proof Hcode as (Hc0 & Hcp & Hcf). pose proof Hdata as (Hd0 & Hdp & Hdf).
  pose proof (length_seg _ _ Hcode) as Hlc.
  pose proof (divRoundUp_spec c PageSize Hc0 ltac:(done)) as HP.
  set (P := divRoundUp c PageSize) in *. change PageSize with 128 in HP.
  assert (c mod 128 = c - 128 * (P - 1)) as Hr
    by (symmetry; apply (Z.mod_unique_pos _ _ (P - 1)); lia).
  assert (0 < P) by lia.
  destruct (load_holds cbytes w (Z.to_nat (P - 1)) (c mod 128) n (inFileAddr (initData hd)) Hw)
    as (e & w' & He & Hw' & Hh); try lia.
  exists w'. unfold merge_data. change PageSize with 128 in *. rewrite Z.rem_mod_nonneg by lia.
  assert ((if d <? 128 - c mod 128 then d else 128 - c mod 128) = n) as ->
    by (unfold n; zcases; lia).
  assert (zget table (P - 1) = Ok e) as -> by (apply zget_Ok; split; [lia|done]).
  cbn [bind]. rewrite Hw'. split; [done|].
  pose proof (seg_extend (initData hd) file 0 n Hdata ltac:(lia) ltac:(lia) ltac:(lia)) as He'.
  rewrite Z.add_0_r, Z.add_0_l in He'. change (take (Z.to_nat 0) dbytes) with (@nil Z) in He'.
  rewrite app_nil_l in He'. by rewrite He' in Hh.
Qed.

Lemma data_loop w P n0 m :
  holds (cbytes ++ take (Z.to_nat n0) dbytes) w -> 0 <= n0 -> 0 <= m -> 0 <= P ->
  (0 < m -> c + n0 = 128 * P /\ n0 + 128 * (m - 1) < d) -> n0 <= d -> d <= n0 + 128 * m ->
  exists r w', for_range (Z.to_nat m) 0 (load_data_page f hd table) (P, n0, w) = Ok (r, w') /\
    holds (cbytes ++ dbytes) w'.
Proof.
  intros Hw Hn0 Hm HP Hlast Hn0d Hend.
  pose proof Hcode as (Hc0 & Hcp & Hcf). pose proof Hdata as (Hd0 & Hdp & Hdf).
  pose proof (length_seg _ _ Hcode) as Hlc. pose proof (length_seg _ _ Hdata) as Hld.
  destruct (for_range_rule (fun i '(pc, bc, w) =>
    pc = P + i /\ bc = n0 + 128 * i /\ holds (cbytes ++ take (Z.to_nat (n0 + 128 * i)) dbytes) w)
    (Z.to_nat m) 0 (load_data_page f hd table) (P, n0, w))
    as ([[pc bc] w'] & Hrun & -> & -> & Hh).
  - split_and!; [lia|lia|]. by rewrite Z.mul_0_r, Z.add_0_r.
  - intros i [[pc bc] w1] Hi (-> & -> & Hh). destruct Hlast as [Hal Hlt]; [lia|].
    assert (n0 + 128 * i < d) as Hid by lia.
    assert (Z.of_nat (length (cbytes ++ take (Z.to_nat (n0 + 128 * i)) dbytes)) = (P + i) * 128) as Hlen
      by (rewrite length_app, length_take; lia).
    set (n := if d <? n0 + 128 * i + PageSize then d - (n0 + 128 * i + PageSize - PageSize) else PageSize).
    assert (0 <= n <= 128 /\ n0 + 128 * i + n <= d /\
      take (Z.to_nat (n0 + 128 * i + n)) dbytes = take (Z.to_nat (n0 + 128 * (i + 1))) dbytes)
      as (Hn & Hnd & Htk).
    { unfold n. change PageSize with 128. destruct (Z.ltb_spec d (n0 + 128 * i + 128)).
      - split_and!; [lia..|]. rewrite !take_ge by lia. done.
      - split_and!; [lia..|]. f_equal. lia. }
    destruct (load_page_holds _ _ (P + i) n (inFileAddr (initData hd) + (n0 + 128 * i)) Hh)
      as (e & w2 & He & Hw2 & Hh2); [lia|done|done|lia|lia|].
    rewrite <- app_assoc, seg_extend, Htk in Hh2 by (done || lia).
    eexists (P + i + 1, n0 + 128 * i + PageSize, w2).
    split; [|split_and!; [lia|change PageSize with 128; lia|done]].
    unfold load_data_page. rewrite He. cbn [bind]. fold n. by rewrite Hw2.
  - exists (P + (0 + Z.of_nat (Z.to_nat m)), n0 + 128 * (0 + Z.of_nat (Z.to_nat m))), w'.
    split; [done|]. rewrite (take_ge dbytes) in Hh by lia. done.
Qed.

Lemma load_segments_ok w :
  holds [] w -> exists w', load_segments f hd table w = Ok w' /\ holds (cbytes ++ dbytes) w'.
Proof.
  intros Hw. pose proof Hcode as (Hc0 & _ & _). pose proof Hdata as (Hd0 & _ & _).
  pose proof (length_seg _ _ Hdata) as Hld.
  destruct (code_loop w Hw) as (w1 & H1 & Hh1). unfold load_segments. rewrite H1. cbn [bind].
  pose proof (divRoundUp_spec c PageSize Hc0 ltac:(done)) as HP.
  pose proof (divRoundUp_nonneg c PageSize Hc0 ltac:(done)) as HP0.
  set (P := divRoundUp c PageSize) in *. change PageSize with 128 in *.
  rewrite Z.rem_mod_nonneg by lia.
  case_bool_decide as Hm; cbn [andb].
  - assert (c mod 128 = c - 128 * (P - 1)) as Hr
      by (symmetry; apply (Z.mod_unique_pos _ _ (P - 1)); lia).
    set (rest := d - (128 - c mod 128)). set (m := divRoundUp (if rest <? 0 then 0 else rest) 128).
    pose proof (divRoundUp_spec (if rest <? 0 then 0 else rest) 128 ltac:(zcases; lia) ltac:(lia)) as Hm1.
    pose proof (divRoundUp_nonneg (if rest <? 0 then 0 else rest) 128 ltac:(zcases; lia) ltac:(lia)) as Hm0.
    fold m in Hm1, Hm0. destruct (Z.eqb_spec d 0) as [Hd|Hd]; cbn [negb].
    + cbn [bind]. destruct (data_loop w1 P 0 m) as (r & w' & Hr' & Hh'); try lia;
        [cbn; by rewrite app_nil_r|intros; revert Hm1; zcases; lia|].
      rewrite Hr'. cbn [bind]. destruct r. by exists w'.
    + destruct (merge_ok w1 Hh1 Hm Hd) as (w2 & H2 & Hh2).
      change (divRoundUp c PageSize) with P in H2. rewrite H2. cbn [bind].
      destruct (data_loop w2 P (Z.min (128 - c mod 128) d) m Hh2) as (r & w' & Hr' & Hh'); try lia;
        try (intros; revert Hm1; zcases; lia); try (revert Hm1; zcases; lia).
      rewrite Hr'. cbn [bind]. destruct r. by exists w'.
  - cbn [bind]. assert (c = 128 * P) as Hc by lia.
    assert ((if d <? 0 then 0 else d) = d) as -> by (zcases; lia).
    pose proof (divRoundUp_spec d 128 Hd0 ltac:(lia)). pose proof (divRoundUp_nonneg d 128 Hd0 ltac:(lia)).
    destruct (data_loop w1 P 0 (divRoundUp d 128)) as (r & w' & Hr' & Hh'); try lia;
      [cbn; by rewrite app_nil_r|].
    rewrite Hr'. cbn [bind]. destruct r. by exists w'.
Qed.

End loading.

(** The image of a program: code, data, and zeros for the rest and the stack. *)
Definition image (hd : NoffHeader) (file : list Z) (pages : Z) : list Z :=
  let l := seg_bytes (code hd) file ++ seg_bytes (initData hd) file in
  l ++ replicate (Z.to_nat (128 * pages) - length l) 0.

(** What the executable must be for [new] to load it. *)
Record program_ok (hd : NoffHeader) (file : list Z) : Prop := {
  po_size : Z.of_nat (length file) < 2 ^ 31;
  po_code : seg_ok (code hd) file;
  po_data : seg_ok (initData hd) file;
  po_bss : 0 <= size (uninitData hd) < 2 ^ 31;
  po_total : size (code hd) + size (initData hd) + size (uninitData hd) + UserStackSize < 2 ^ 32
}.

Definition space_size (hd : NoffHeader) : Z :=
  size (code hd) + size (initData hd) + size (uninitData hd) + UserStackSize.

Definition space_pages (hd : NoffHeader) : Z := divRoundUp (space_size hd) PageSize.

(** [s] is a space of the machine of [w'] with the page table [table]; the
    machine is that of [w] but for this table and the memory. *)
Definition owns (s : AddrSpace) (table : list TranslationEntry) (w w' : World) : Prop :=
  Z.of_nat (length table) = numPages s /\
  tables (machine w) !! pageTable s = None /\
  machine w' = set_table (pageTable s) table (set_memory (mem w') (machine w)).

Lemma table_of_owns s table w w' :
  owns s table w w' -> tables (machine w') !! pageTable s = Some table.
Proof. intros (_ & _ & ->). cbn. by rewrite lookup_insert_eq. Qed.

(** Publishing the page table. *)
Lemma world_ok_table w a table :
  world_ok w -> world_ok (set_machine (set_table a table (machine w)) w).
Proof. intros [[? ?] ? ?]. by split. Qed.

Lemma fresh_table (m : Machine) : tables m !! fresh (dom (tables m)) = None.
Proof. apply not_elem_of_dom, is_fresh. Qed.

Lemma loaded_nil table w :
  vmem table (machine w) = replicate (128 * length table) 0 -> loaded table [] w.
Proof. intros H. split; [cbn; lia|]. cbn [length app]. by rewrite Nat.sub_0_r. Qed.

(** A read at the start of a file gives a prefix. *)
Lemma zslice_head n (l : list Z) :
  zslice 0 (Z.max 0 (Z.min n (Z.of_nat (length l) - 0))) l = take (Z.to_nat n) l.
Proof.
  unfold zslice. rewrite drop_0. destruct (Z.le_gt_cases n (Z.of_nat (length l))).
  - f_equal. lia.
  - by rewrite !take_ge by lia.
Qed.

(** The number of pages that [new] computes. *)
Lemma new_numPages T :
  0 <= T < 2 ^ 32 ->
  u32 (divRoundUp (s32 (u32 T)) PageSize) =
    (if T <? 2 ^ 31 then divRoundUp T PageSize
     else if 2 ^ 32 - 128 <? T then 0 else 2 ^ 32 - (2 ^ 32 - T) / 128).
Proof.
  intros HT. rewrite (u32_small T) by lia. destruct (Z.ltb_spec T (2 ^ 31)).
  - rewrite s32_id by (unfold is_s32; lia).
    pose proof (divRoundUp_nonneg T PageSize ltac:(lia) ltac:(done)).
    pose proof (divRoundUp_spec T PageSize ltac:(lia) ltac:(done)) as HD. change PageSize with 128 in *.
    apply u32_small; lia.
  - assert (s32 T = - (2 ^ 32 - T)) as -> by (unfold s32, swrap; change (32 - 1) with 31; dlia).
    unfold divRoundUp. change PageSize with 128. rewrite Z.quot_opp_l, Z.rem_opp_l by done.
    rewrite Z.quot_div_nonneg, Z.rem_mod_nonneg by lia. pose proof (Z.mod_pos_bound (2 ^ 32 - T) 128 ltac:(lia)).
    rewrite (proj2 (Z.ltb_ge 0 _)) by lia. unfold u32, wrap. destruct (Z.ltb_spec (2 ^ 32 - 128) T); dlia.
Qed.

(** Loading into a space without pages. *)
Lemma load_segments_no_table (f : E) (hd : NoffHeader) (w : World) :
  0 <= size (code hd) -> 0 <= size (initData hd) -> 0 < size (code hd) + size (initData hd) ->
  load_segments f hd [] w = UB.
Proof.
  intros Hc Hd Hcd. unfold load_segments.
  pose proof (divRoundUp_spec (size (code hd)) PageSize Hc ltac:(done)) as HP.
  pose proof (divRoundUp_nonneg (size (code hd)) PageSize Hc ltac:(done)) as HP0. change PageSize with 128 in *.
  destruct (Z.to_nat (divRoundUp (size (code hd)) 128)) as [|k] eqn:Ek; [|done]. cbn [for_range bind andb].
  rewrite (proj2 (Z.ltb_ge _ 0)) by lia.
  pose proof (divRoundUp_spec (size (initData hd)) 128 Hd ltac:(done)) as HQ.
  destruct (Z.to_nat (divRoundUp (size (initData hd)) 128)) as [|k] eqn:Ek'; [lia|done].
Qed.

(** C15: an executable is loaded when its header has the magic number and its
    segments and a stack fit both in the machine and in the free pages; otherwise the
    kernel aborts, but for a total size within a page of 2^32, which becomes 0 pages: then
    the kernel writes through an entry of an empty page table.  The new space then maps the code, the data behind it,
    also when they share a page, and zeros up to the end of the stack, in distinct
    pages that were free and are marked now; every entry is valid and writable, and
    no other page of memory, page table or register changes. *)
Theorem new_correct read_header sizeof_header NOFFMAGIC (f : E) (w : World) file hd :
  world_ok w -> exe_ok f (disk w) -> exe_bytes f (disk w) = file ->
  0 <= sizeof_header < 2 ^ 31 ->
  read_header (take (Z.to_nat sizeof_header) file) = hd -> program_ok hd file ->
  let n := space_pages hd in
  if (noffMagic hd =? NOFFMAGIC) && (n <=? NumPhysPages)
     && (n <=? Z.of_nat (count_clear (bits w)))
  then
    exists s table w', new read_header sizeof_header NOFFMAGIC f w = Ok (s, w') /\
      world_ok w' /\ numPages s = n /\ usage s = 1 /\ owns s table w w' /\
      FileHeader.free_in (bits w) (frames table) /\
      bits w' = set_all true (frames table) (bits w) /\
      (forall i e, table !! i = Some e ->
         e = mkEntry (Z.of_nat i) (physicalPage e) true false false false) /\
      vmem table (machine w') = image hd file n /\
      (forall p, frame_ok p -> ~ (p ∈ frames table) ->
         page_bytes (mem w') p = page_bytes (mem w) p)
  else new read_header sizeof_header NOFFMAGIC f w =
    if (noffMagic hd =? NOFFMAGIC) && (2 ^ 32 - 128 <? space_size hd) then UB else Abort.
Proof.
  intros Hw Hf Hb Hsh Hhd [Hsz Hc Hd Hbss Htot] n.
  destruct (exe_law sizeof_header 0 f (disk w) Hf ltac:(lia) ltac:(lia)) as (d' & Hread & Hf' & Hb').
  rewrite Hb in Hread, Hb'. rewrite zslice_head in Hread. unfold new. rewrite Hread. cbn [bind].
  rewrite Hhd. pose proof Hc as (Hc0 & _ & _). pose proof Hd as (Hd0 & _ & _).
  fold (space_size hd) in *. assert (1024 <= space_size hd) as HT
    by (unfold space_size; change UserStackSize with 1024; lia).
  rewrite new_numPages by lia. set (T := space_size hd) in *.
  pose proof (divRoundUp_nonneg T PageSize ltac:(lia) ltac:(done)) as Hn0.
  pose proof (divRoundUp_spec T PageSize ltac:(lia) ltac:(done)) as Hroom.
  change (divRoundUp T PageSize) with n in *. change PageSize with 128 in Hroom. change NumPhysPages with 32.
  destruct (noffMagic hd =? NOFFMAGIC); cbn [andb]; [|done].
  rewrite ASSERT_true by done. cbn [bind].
  destruct (Z.ltb_spec T (2 ^ 31)) as [HT31|HT31].
  2: { rewrite (proj2 (Z.leb_gt n 32)) by lia. cbn [andb]. destruct (Z.ltb_spec (2 ^ 32 - 128) T).
    - rewrite ASSERT_true by done. cbn [bind machine physicalPageMap].
      rewrite BitMap.NumClear_spec by apply Hw. cbn [bind]. change (s32 0) with 0. rewrite ASSERT_true by (apply Z.leb_le; lia).
      cbn [bind]. change (Z.to_nat 0) with 0%nat. cbn [bind for_range]. rewrite load_segments_no_table; [done|lia..|].
      unfold T, space_size in *. change UserStackSize with 1024 in *. lia.
    - rewrite (proj2 (Z.leb_gt _ 32)) by dlia. done. }
  rewrite (proj2 (Z.ltb_ge (2 ^ 32 - 128) T)) by lia.
  destruct (Z.leb_spec n 32) as [Hn|Hn]; cbn [andb]; [|done].
  rewrite ASSERT_true by done. cbn [bind machine physicalPageMap].
  rewrite BitMap.NumClear_spec by apply Hw. cbn [bind]. rewrite s32_id by (unfold is_s32; lia).
  destruct (Z.leb_spec n (Z.of_nat (count_clear (bits w)))) as [Hfree|Hfree]; [|done].
  rewrite ASSERT_true by done. cbn [bind].
  destruct Hroom as [_ Hroom]. unfold T, space_size in Hroom. change UserStackSize with 1024 in *.
  set (w1 := mkWorld (machine w) (physicalPageMap w) _ d').
  assert (world_ok w1) as Hw1 by (destruct Hw; by split).
  destruct (new_pages_ok (Z.to_nat n) w1 Hw1) as (table & w2 & -> & Ht & Hl & Hv & He & _ & Hdk);
    [cbn; lia|]. cbn [bind].
  destruct (load_segments_ok f file hd table w1 Hc Hd Hsz ltac:(lia) w2) as (w3 & -> & Hh).
  { split; [by rewrite Hdk|]. split; [by rewrite Hdk|]. split; [done|].
    apply loaded_nil. by rewrite Hv, Hl. }
  cbn [bind]. destruct Hh as (_ & _ & Ht3 & [_ Hl3]). destruct Ht3 as [Hok Hfi Hbi Hfr Hma Hme].
  set (a := fresh (dom (tables (machine w3)))).
  eexists (mkSpace a n 1), table, _. split; [reflexivity|]. split; [by apply world_ok_table|].
  do 2 (split; [done|]). cbn [pageTable numPages usage].
  assert (tables (machine w3) = tables (machine w)) as Htb by (by rewrite Hma).
  split_and!; try done.
  - split; [cbn; lia|]. split; [rewrite <- Htb; apply fresh_table|].
    cbn. rewrite Hma. done.
  - unfold vmem in *. cbn. rewrite Hl3. unfold image. do 3 f_equal. lia.
Qed.

(** ** Sharing and freeing *)

(** [table] is the page table of [s], and its pages are marked as used. *)
Record space_ok (s : AddrSpace) (table : list TranslationEntry) (w : World) : Prop := {
  so_table : tables (machine w) !! pageTable s = Some table;
  so_length : Z.of_nat (length table) = numPages s;
  so_stack : 8 <= numPages s;
  so_frames : Forall frame_ok (frames table);
  so_used : Forall (fun p => bits w !! Z.to_nat p = Some true) (frames table)
}.

(** The pages of [s] below its stack. *)
Definition global_pages (s : AddrSpace) : nat := Z.to_nat (numPages s - 8).

Lemma stack_pages : divRoundUp UserStackSize PageSize = 8.
Proof. done. Qed.

Lemma vpages_ext ps mem mem' :
  (forall p, p ∈ ps -> page_bytes mem p = page_bytes mem' p) -> vpages ps mem = vpages ps mem'.
Proof.
  intros H. unfold vpages. f_equal. apply list_fmap_ext. intros i p Hi.
  apply H. by eapply list_elem_of_lookup_2.
Qed.

Lemma vpages_app ps ps' mem : vpages (ps ++ ps') mem = vpages ps mem ++ vpages ps' mem.
Proof. unfold vpages. by rewrite fmap_app, concat_app. Qed.

Lemma vpages_take ps mem k :
  Z.of_nat (length mem) = MemorySize -> Forall frame_ok ps -> (k <= length ps)%nat ->
  vpages (take k ps) mem = take (128 * k) (vpages ps mem).
Proof.
  intros Hm Hps Hk. rewrite <- (take_drop k ps) at 2. rewrite vpages_app, take_app_length'; [done|].
  rewrite length_vpages, length_take; [lia|done|by apply Forall_take].
Qed.

Lemma vpages_zeros ps mem :
  (forall p, p ∈ ps -> page_bytes mem p = zeros) -> vpages ps mem = replicate (128 * length ps) 0.
Proof.
  induction ps as [|p ps IH]; intros H; [done|]. unfold vpages in *. cbn [fmap list_fmap concat length].
  rewrite IH, H by set_solver. unfold zeros. rewrite <- replicate_add. f_equal.
  change (Z.to_nat PageSize) with 128%nat. lia.
Qed.

(** A page that is marked is not one that was free. *)
Lemma free_in_used l ns p : FileHeader.free_in l ns -> l !! Z.to_nat p = Some true -> p ∉ ns.
Proof.
  intros [_ Hf] Hp Hin. rewrite Forall_forall in Hf. destruct (Hf p Hin) as [_ H]. congruence.
Qed.

(** The loop of the copy. *)
Lemma copy_pages_ok father ft w0 :
  world_ok w0 -> space_ok father ft w0 -> (8 <= count_clear (bits w0))%nat ->
  exists table w, for_range (Z.to_nat (numPages father)) 0
      (copy_page ft (numPages father - 8)) ([], w0) = Ok (table, w) /\
    length table = length ft /\
    take (global_pages father) (frames table) = take (global_pages father) (frames ft) /\
    taken (drop (global_pages father) (frames table)) w0 w /\
    vpages (drop (global_pages father) (frames table)) (mem w) =
      replicate (128 * length (drop (global_pages father) (frames table))) 0 /\
    (forall i e, table !! i = Some e -> exists fe, ft !! i = Some fe /\
       e = mkEntry (virtualPage fe) (physicalPage e) (valid fe) (readOnly fe) (use fe) (dirty fe)).
Proof.
  intros Hw [Htb Hlen Hst Hfr Hus] Hc. set (g := global_pages father).
  assert (Z.of_nat g = numPages father - 8) as Hg by (unfold g, global_pages; lia).
  destruct (for_range_rule (fun i '(table, w) =>
    Z.of_nat (length table) = i /\
    (forall j, (j < g)%nat -> (j < length table)%nat -> frames table !! j = frames ft !! j) /\
    taken (drop g (frames table)) w0 w /\
    vpages (drop g (frames table)) (mem w) = replicate (128 * length (drop g (frames table))) 0 /\
    (forall i e, table !! i = Some e -> exists fe, ft !! i = Some fe /\
       e = mkEntry (virtualPage fe) (physicalPage e) (valid fe) (readOnly fe) (use fe) (dirty fe)))
    (Z.to_nat (numPages father)) 0 (copy_page ft (numPages father - 8)) ([], w0))
    as ([table w] & Hrun & Hl & Htk & Ht & Hz & He).
  - cbn [frames fmap list_fmap]. rewrite drop_nil. split_and!; try done; [cbn; lia|].
    by apply taken_refl.
  - intros i [table w] Hi (Hl & Htk & Ht & Hz & He).
    destruct (lookup_lt_is_Some_2 ft (Z.to_nat i)) as [fe Hfe]; [lia|].
    assert (zget ft i = Ok fe) as Hget by (apply zget_Ok; split; [lia|done]).
    set (en p := mkEntry (virtualPage fe) p (valid fe) (readOnly fe) (use fe) (dirty fe)).
    assert (forall p, frames (table ++ [en p]) = frames table ++ [p]) as Hfs
      by (intros p; unfold frames; by rewrite fmap_app).
    assert (length (frames table) = Z.to_nat i) as Hlf by (unfold frames; rewrite length_fmap; lia).
    assert (forall p j e, (table ++ [en p]) !! j = Some e -> exists fe, ft !! j = Some fe /\
       e = mkEntry (virtualPage fe) (physicalPage e) (valid fe) (readOnly fe) (use fe) (dirty fe)) as He'.
    { intros p j e [Hj|[Hj Hj']]%lookup_app_Some; [by apply He|].
      apply list_lookup_singleton_Some in Hj' as [Hj0 <-]. exists fe. split; [|done].
      replace j with (Z.to_nat i) by lia. done. }
    assert (frames ft !! Z.to_nat i = Some (physicalPage fe)) as Hff
      by (unfold frames; by rewrite list_lookup_fmap, Hfe).
    unfold copy_page. destruct (Z.leb_spec (numPages father - 8) i) as [Hge|Hlt].
    + destruct (take_page _ _ _ Ht) as (p & map & w' & HF & HB & _ & Ht' & Hzp & Hv' & _ & _);
        [rewrite length_drop; lia|].
      rewrite HF. cbn [bind]. rewrite HB. cbn [bind]. rewrite Hget. cbn [bind].
      exists (table ++ [en p], w'). split; [done|]. rewrite length_app, Hfs, drop_app_le by lia.
      split_and!; [cbn; lia| |done| |apply He'].
      * intros j Hjg Hj. rewrite lookup_app_l by lia. apply Htk; lia.
      * rewrite vpages_snoc, Hv', Hz, Hzp. unfold zeros. rewrite <- replicate_add, length_app.
        f_equal. change (Z.to_nat PageSize) with 128%nat. cbn. lia.
    + rewrite Hget. cbn [bind].
      exists (table ++ [en (physicalPage fe)], w). split; [done|]. rewrite length_app, Hfs.
      rewrite !drop_ge in * by (rewrite ?length_app; cbn; lia).
      split_and!; [cbn; lia| |done|done|apply He'].
      intros j Hjg Hj. destruct (decide (j = Z.to_nat i)) as [->|Hne].
      * rewrite lookup_app_r, Hlf, Nat.sub_diag by lia. by rewrite Hff.
      * cbn in Hj. rewrite lookup_app_l by lia. apply Htk; lia.
  - exists table, w. rewrite Hrun. split_and!; try done; [lia|]. apply list_eq. intros j.
    destruct (decide (j < g)%nat).
    + rewrite !lookup_take_lt by done. apply Htk; lia.
    + rewrite !lookup_take_ge by lia. done.
Qed.

(** A copy with enough free pages. *)
Lemma copy_spec father ft (w : World) :
  world_ok w -> space_ok father ft w -> 8 <= Z.of_nat (count_clear (bits w)) ->
  exists s table w', copy father w = Ok (s, w') /\ world_ok w' /\
    numPages s = numPages father /\ usage s = 2 /\ owns s table w w' /\
    take (global_pages father) (frames table) = take (global_pages father) (frames ft) /\
    FileHeader.free_in (bits w) (drop (global_pages father) (frames table)) /\
    bits w' = set_all true (drop (global_pages father) (frames table)) (bits w) /\
    (forall i e, table !! i = Some e -> exists fe, ft !! i = Some fe /\
       e = mkEntry (virtualPage fe) (physicalPage e) (valid fe) (readOnly fe) (use fe) (dirty fe)) /\
    vmem table (machine w') =
      take (128 * global_pages father) (vmem ft (machine w)) ++ replicate 1024 0 /\
    vmem ft (machine w') = vmem ft (machine w).
Proof.
  intros Hw Hso Hc. pose proof Hso as [Htb Hlen Hst Hfr Hus]. unfold copy. rewrite Htb, stack_pages.
  rewrite BitMap.NumClear_spec by apply Hw. cbn [bind].
  destruct (Z.leb_spec 8 (Z.of_nat (count_clear (bits w)))) as [_|]; [|lia].
  rewrite ASSERT_true by done. cbn [bind].
  destruct (copy_pages_ok father ft w Hw Hso) as (table & w1 & -> & Hl & Htk & Ht & Hz & He); [lia|].
  cbn [bind]. pose proof Ht as [Hok Hfi Hbi Hff Hma Hme]. set (g := global_pages father) in *.
  assert (Z.of_nat g = numPages father - 8) as Hg by (unfold g, global_pages; lia).
  eexists _, table, _. split; [reflexivity|]. split; [by apply world_ok_table|].
  do 2 (split; [done|]). cbn [pageTable numPages].
  assert (tables (machine w1) = tables (machine w)) as Hta by (by rewrite Hma).
  assert (forall p, p ∈ frames ft -> page_bytes (mem w1) p = page_bytes (mem w) p) as Hsame.
  { intros p Hp. rewrite Forall_forall in Hfr, Hus. apply Hme; [by apply Hfr|].
    eapply free_in_used; [done|]. by apply Hus. }
  assert (vpages (frames ft) (mem w1) = vpages (frames ft) (mem w)) as Hv by (by apply vpages_ext).
  split_and!; try done.
  - split; [cbn; lia|]. split; [rewrite <- Hta; apply fresh_table|]. cbn. by rewrite Hma.
  - unfold vmem. cbn [machine set_machine set_table mainMemory].
    rewrite <- (take_drop g (frames table)), vpages_app, Hz, Htk, vpages_take, Hv; try done.
    + f_equal. f_equal. rewrite length_drop. unfold frames. rewrite length_fmap. lia.
    + apply Hok.
    + unfold frames. rewrite length_fmap. lia.
Qed.

(** C18: forking a space needs eight free pages.  The copy maps the code and the
    data of the father through the same pages, with the same flags, and a stack of
    zeros in new pages, which are marked; the memory of the father, and every page
    but the new ones, stay as they were. *)
Theorem copy_correct father ft (w : World) :
  world_ok w -> space_ok father ft w ->
  if 8 <=? Z.of_nat (count_clear (bits w)) then
    exists s table w', copy father w = Ok (s, w') /\ world_ok w' /\
      numPages s = numPages father /\ usage s = 2 /\ owns s table w w' /\
      take (global_pages father) (frames table) = take (global_pages father) (frames ft) /\
      FileHeader.free_in (bits w) (drop (global_pages father) (frames table)) /\
      bits w' = set_all true (drop (global_pages father) (frames table)) (bits w) /\
      (forall i e, table !! i = Some e -> exists fe, ft !! i = Some fe /\
         e = mkEntry (virtualPage fe) (physicalPage e) (valid fe) (readOnly fe) (use fe) (dirty fe)) /\
      vmem table (machine w') =
        take (128 * global_pages father) (vmem ft (machine w)) ++ replicate 1024 0 /\
      vmem ft (machine w') = vmem ft (machine w)
  else copy father w = Abort.
Proof.
  intros Hw Hso. destruct (Z.leb_spec 8 (Z.of_nat (count_clear (bits w)))) as [Hc|Hc];
    [by apply copy_spec|]. unfold copy. rewrite (so_table _ _ _ Hso), stack_pages.
  rewrite BitMap.NumClear_spec by apply Hw. cbn [bind].
  destruct (Z.leb_spec 8 (Z.of_nat (count_clear (bits w)))); [lia|done].
Qed.
(** Freeing the pages [a .. a + n - 1] of a table. *)
Lemma free_pages_ok table (a : Z) n (w : World) :
  world_ok w -> 0 <= a -> a + Z.of_nat n <= Z.of_nat (length table) ->
  Forall frame_ok (frames table) ->
  let freed := take n (drop (Z.to_nat a) (frames table)) in
  exists w', for_range n a (free_page table) w = Ok w' /\ world_ok w' /\
    bits w' = set_all false freed (bits w) /\
    machine w' = set_memory (mem w') (machine w) /\
    (forall p, frame_ok p ->
       page_bytes (mem w') p = if decide (p ∈ freed) then zeros else page_bytes (mem w) p).
Proof.
  intros Hw Ha Hn Hfr freed.
  destruct (for_range_rule (fun i w' => let fr := take (Z.to_nat (i - a)) (drop (Z.to_nat a) (frames table)) in
    world_ok w' /\ bits w' = set_all false fr (bits w) /\
    machine w' = set_memory (mem w') (machine w) /\
    (forall p, frame_ok p ->
       page_bytes (mem w') p = if decide (p ∈ fr) then zeros else page_bytes (mem w) p))
    n a (free_page table) w) as (w' & -> & H).
  - rewrite Z.sub_diag. split_and!; try done. by destruct w as [[]].
  - intros i w1 Hi (Hw1 & Hb & Hma & Hme).
    destruct (lookup_lt_is_Some_2 table (Z.to_nat i)) as [e He]; [lia|].
    assert (frames table !! Z.to_nat i = Some (physicalPage e)) as Hf
      by (unfold frames; by rewrite list_lookup_fmap, He).
    assert (frame_ok (physicalPage e)) as Hp by (by eapply Forall_lookup_1).
    unfold free_page. assert (zget table i = Ok e) as -> by (apply zget_Ok; split; [lia|done]).
    cbn [bind]. pose proof Hw1 as [[Hml Hmb] Hmap Hbits].
    destruct (BitMap.Clear_abs (physicalPageMap w1) (physicalPage e) Hmap) as (b' & -> & Hb' & Hn' & Hab);
      [unfold frame_ok in Hp; lia|]. cbn [bind].
    destruct (zcopy_page w1 (physicalPage e) 0 zeros Hw1 Hp) as [Hz Hlz]; [lia|by vm_compute|].
    rewrite Z.add_0_r in Hz, Hlz. unfold bzero_page. cbn [machine set_map].
    change (replicate (Z.to_nat PageSize) 0) with zeros. rewrite Hz. cbn [bind].
    eexists. split; [reflexivity|].
    assert (take (Z.to_nat (i + 1 - a)) (drop (Z.to_nat a) (frames table)) =
      take (Z.to_nat (i - a)) (drop (Z.to_nat a) (frames table)) ++ [physicalPage e]) as ->.
    { replace (Z.to_nat (i + 1 - a)) with (S (Z.to_nat (i - a))) by lia. apply take_S_r.
      rewrite lookup_drop. rewrite <- Hf. f_equal. lia. }
    cbn [machine set_map set_machine set_memory mainMemory physicalPageMap]. split_and!.
    + split; cbn; [split; [done|]|done|lia]. cbn. apply zsplice_Forall; [|done].
      apply Forall_replicate. split; lia.
    + rewrite set_all_app, <- Hb, Hab. done.
    + by rewrite Hma.
    + intros p Hpf. rewrite <- (Z.add_0_r (physicalPage e * PageSize)).
      rewrite page_zsplice by (done || by vm_compute). case_decide as Hd.
      * subst p. rewrite decide_True by set_solver. unfold zsplice. cbn [Z.to_nat take app].
        rewrite (drop_ge (page_bytes _ _)); [apply app_nil_r|].
        rewrite length_page by done. by vm_compute.
      * rewrite Hme by done. apply decide_ext. set_solver.
  - exists w'. split; [done|]. replace (Z.to_nat (a + Z.of_nat n - a)) with n in H by lia. exact H.
Qed.

(** The pages [~AddrSpace] frees: only those of the stack unless [usage] is 1. *)
Definition freed (s : AddrSpace) (table : list TranslationEntry) : list Z :=
  if usage s =? 1 then frames table else drop (global_pages s) (frames table).

(** Deleting a space. *)
Lemma destroy_spec s table (w : World) :
  world_ok w -> space_ok s table w ->
  exists w', destroy s w = Ok w' /\ world_ok w' /\
    bits w' = set_all false (freed s table) (bits w) /\
    machine w' = delete_table (pageTable s) (set_memory (mem w') (machine w)) /\
    (forall p, frame_ok p ->
       page_bytes (mem w') p = if decide (p ∈ freed s table) then zeros else page_bytes (mem w) p).
Proof.
  intros Hw [Htb Hlen Hst Hfr Hus]. unfold destroy. rewrite Htb, stack_pages.
  set (g := global_pages s). assert (Z.of_nat g = numPages s - 8) as Hg
    by (unfold g, global_pages; lia).
  assert (length (frames table) = length table) as Hlf by (unfold frames; by rewrite length_fmap).
  assert (exists w1, (if usage s - 1 =? 0 then for_range (Z.to_nat (numPages s - 8)) 0 (free_page table) w
      else Ok w) = Ok w1 /\ world_ok w1 /\
    bits w1 = set_all false (if usage s =? 1 then take g (frames table) else []) (bits w) /\
    machine w1 = set_memory (mem w1) (machine w) /\
    (forall p, frame_ok p -> page_bytes (mem w1) p =
       if decide (p ∈ (if usage s =? 1 then take g (frames table) else [])) then zeros
       else page_bytes (mem w) p)) as (w1 & -> & Hw1 & Hb1 & Hm1 & Hp1).
  { destruct (Z.eqb_spec (usage s - 1) 0), (Z.eqb_spec (usage s) 1); try lia.
    - destruct (free_pages_ok table 0 g w Hw) as (w1 & Hr & H); [lia|lia|done|].
      exists w1. rewrite <- Hg, Nat2Z.id. split; [exact Hr|]. rewrite drop_0 in H. exact H.
    - exists w. split_and!; try done. by destruct w as [[]]. }
  cbn [bind].
  destruct (free_pages_ok table (numPages s - 8) (Z.to_nat (numPages s - (numPages s - 8))) w1 Hw1)
    as (w2 & -> & Hw2 & Hb2 & Hm2 & Hp2); [lia|lia|done|]. cbn [bind].
  rewrite <- Hg, Nat2Z.id, take_ge in Hb2, Hp2 by (rewrite length_drop; lia).
  eexists. split; [reflexivity|].
  cbn [machine set_machine delete_table mainMemory physicalPageMap].
  assert (forall p, p ∈ freed s table <->
    p ∈ drop g (frames table) \/ p ∈ (if usage s =? 1 then take g (frames table) else [])) as Hin.
  { intros p. unfold freed. fold g. case_match; [|set_solver].
    rewrite <- (take_drop g (frames table)) at 1. set_solver. }
  split_and!.
  - destruct Hw2 as [[? ?] ? ?]. by split.
  - rewrite Hb2, Hb1, <- set_all_app. unfold freed. fold g. case_match; [by rewrite take_drop|done].
  - by rewrite Hm2, Hm1.
  - intros p Hp. rewrite Hp2, Hp1 by done. specialize (Hin p).
    repeat case_decide; try done; tauto.
Qed.

(** Deleting a space clears the bits of its pages, fills them with zeros and
    deletes its page table, and nothing else changes; a space whose [usage] is not
    one keeps its code and data. *)
Theorem destroy_correct s table (w : World) :
  world_ok w -> space_ok s table w ->
  exists w', destroy s w = Ok w' /\ world_ok w' /\
    bits w' = set_all false (freed s table) (bits w) /\
    machine w' = delete_table (pageTable s) (set_memory (mem w') (machine w)) /\
    (forall p, frame_ok p ->
       page_bytes (mem w') p = if decide (p ∈ freed s table) then zeros else page_bytes (mem w) p).
Proof. apply destroy_spec. Qed.

(** What deleting leaves of another space. *)
Lemma destroy_other s table (w w' : World) ps :
  (forall p, frame_ok p ->
     page_bytes (mem w') p = if decide (p ∈ freed s table) then zeros else page_bytes (mem w) p) ->
  Forall frame_ok ps -> (forall p, p ∈ ps -> p ∉ freed s table) ->
  vpages ps (mem w') = vpages ps (mem w).
Proof.
  intros H Hps Hd. apply vpages_ext. intros p Hp. rewrite Forall_forall in Hps.
  rewrite H by auto. rewrite decide_False; [done|]. auto.
Qed.

Lemma set_all_used ns (l : list bool) :
  FileHeader.free_in l ns -> Forall (fun p => set_all true ns l !! Z.to_nat p = Some true) ns.
Proof.
  intros [Hnd Hf]. assert (Forall (fun n => 0 <= n) ns) as Hpos
    by (eapply Forall_impl; [exact Hf|]; intros n [? _]; done).
  rewrite Forall_forall in Hf |- *. intros p Hp. destruct (Hf p Hp) as [H0 Hl].
  rewrite lookup_set_all by done. rewrite Z2Nat.id by done. rewrite decide_True by done.
  rewrite decide_True; [done|]. by eapply lookup_lt_Some.
Qed.

Lemma free_in_frames (w : World) ns : world_ok w -> FileHeader.free_in (bits w) ns -> Forall frame_ok ns.
Proof.
  intros [_ Hm Hb] Hf. rewrite Forall_forall. intros p Hp.
  pose proof (FileHeader.free_in_lookup _ _ _ Hf Hp) as H.
  rewrite BitMap.length_abs in H. unfold frame_ok. lia.
Qed.


End specs.

(** ** Running a space *)

Lemma vpages_zslice ps mem (k : nat) p off n :
  Z.of_nat (length mem) = MemorySize -> Forall frame_ok ps -> ps !! k = Some p ->
  0 <= off -> 0 <= n -> off + n <= 128 ->
  zslice (128 * Z.of_nat k + off) n (vpages ps mem) = zslice (p * 128 + off) n mem.
Proof.
  intros Hm Hps Hk Ho Hn Hon. pose proof (Forall_lookup_1 _ _ _ _ Hps Hk) as Hp.
  pose proof (length_page mem p Hm Hp) as Hlp. pose proof (lookup_lt_Some _ _ _ Hk) as Hkl.
  rewrite <- (take_drop_middle _ _ _ Hk). unfold vpages. rewrite fmap_app, concat_app. cbn [fmap list_fmap concat].
  assert (length (vpages (take k ps) mem) = 128 * k)%nat as Hlt
    by (rewrite length_vpages; [rewrite length_take; lia|done|by apply Forall_take]).
  unfold vpages in Hlt. apply list_eq. intros i. destruct (decide (Z.of_nat i < n)) as [Hi|Hi].
  - unfold frame_ok in Hp. rewrite !lookup_zslice by lia. rewrite lookup_app_r, lookup_app_l by lia.
    rewrite Hlt. unfold page_bytes, zslice. pages. rewrite lookup_take_lt, lookup_drop by lia. f_equal. lia.
  - unfold zslice. rewrite !lookup_take_ge by lia. done.
Qed.

Lemma WriteRegister_ok i v m :
  length (registers m) = Z.to_nat NumTotalRegs -> 0 <= i < NumTotalRegs ->
  exists m', WriteRegister i v m = Ok m' /\ m' = set_registers (registers m') m /\
    length (registers m') = Z.to_nat NumTotalRegs /\
    forall j, 0 <= j -> reg j m' = if j =? i then Ok v else reg j m.
Proof.
  intros Hl Hi. unfold WriteRegister. rewrite ASSERT_true by (zcases; lia || done). cbn [bind].
  rewrite set_reg_eq by done. eexists. split; [done|]. cbn [registers set_registers].
  split; [done|]. split; [by rewrite length_insert|]. intros j Hj. by rewrite reg_set_registers.
Qed.

Lemma InitRegisters_ok s m :
  length (registers m) = Z.to_nat NumTotalRegs ->
  exists m', InitRegisters s m = Ok m' /\ m' = set_registers (registers m') m /\
    length (registers m') = Z.to_nat NumTotalRegs /\
    forall i, 0 <= i < NumTotalRegs -> reg i m' =
      Ok (if i =? NextPCReg then 4
          else if i =? StackReg then s32 (numPages s * PageSize - 16) else 0).
Proof.
  intros Hl. unfold InitRegisters.
  destruct (for_range_rule (fun i m' => m' = set_registers (registers m') m /\
      length (registers m') = Z.to_nat NumTotalRegs /\
      forall j, 0 <= j < i -> reg j m' = Ok 0)
    (Z.to_nat NumTotalRegs) 0 (fun i m => WriteRegister i 0 m) m) as (m1 & -> & Hm1 & Hl1 & Hr1).
  - split_and!; [by destruct m|done|lia].
  - intros i m1 Hi (Hm1 & Hl1 & Hr1).
    destruct (WriteRegister_ok i 0 m1) as (m2 & HW & Hm2 & Hl2 & Hr2); [done|lia|].
    exists m2. split_and!; [done|by rewrite Hm2, Hm1|done|].
    intros j Hj. rewrite Hr2 by lia. destruct (Z.eqb_spec j i); [done|]. apply Hr1. lia.
  - cbn [bind]. destruct (WriteRegister_ok PCReg 0 m1) as (m2 & -> & Hm2 & Hl2 & Hr2); [done|done|].
    cbn [bind]. destruct (WriteRegister_ok NextPCReg 4 m2) as (m3 & -> & Hm3 & Hl3 & Hr3); [done|done|].
    cbn [bind]. destruct (WriteRegister_ok StackReg (s32 (numPages s * PageSize - 16)) m3)
      as (m4 & -> & Hm4 & Hl4 & Hr4); [done|done|].
    exists m4. split_and!; [done|by rewrite Hm4, Hm3, Hm2, Hm1|done|].
    intros i Hi. rewrite Hr4, Hr3, Hr2, Hr1 by lia.
    change StackReg with 29. change NextPCReg with 35. change PCReg with 34. zcases; done || lia.
Qed.

(** C20: after [InitRegisters] and [RestoreState] the program starts at address 0
    with its stack pointer sixteen bytes below the end of the space and zeros in the
    other registers; each aligned access of 1, 2 or 4 bytes inside the space is
    translated to the bytes that the page table maps there, and each one outside is
    an address error. *)
Theorem run_correct s table m :
  length (registers m) = Z.to_nat NumTotalRegs -> mem_ok m -> tlb m = None ->
  tables m !! pageTable s = Some table -> Z.of_nat (length table) = numPages s ->
  Forall frame_ok (frames table) -> numPages s <= NumPhysPages ->
  Forall (fun e => valid e = true /\ readOnly e = false) table ->
  exists m', InitRegisters s m = Ok m' /\
    (forall i, 0 <= i < NumTotalRegs -> reg i (RestoreState s m') =
       Ok (if i =? NextPCReg then 4
           else if i =? StackReg then numPages s * PageSize - 16 else 0)) /\
    forall v size writing, access_size size ->
      if misaligned v size || (128 * numPages s <=? u32 v)
      then Translate v size writing (RestoreState s m') = Ok (inl AddressErrorException)
      else exists physAddr m2,
        Translate v size writing (RestoreState s m') = Ok (inr (physAddr, m2)) /\
        in_memory physAddr size /\
        zslice physAddr size (mainMemory m2) = zslice (u32 v) size (vmem table m).
Proof.
  intros Hl Hmem Htlb Htb Hlen Hfr Hmax Hval.
  destruct (InitRegisters_ok s m Hl) as (m' & HI & Hm' & Hl' & Hr').
  exists m'. split; [done|]. change NumPhysPages with 32 in Hmax.
  split.
  { intros i Hi. unfold reg in *. cbn [registers RestoreState]. rewrite Hr' by done.
    rewrite s32_id; [done|]. change PageSize with 128. unfold is_s32. lia. }
  intros v size writing Hsz. set (m1 := RestoreState s m').
  assert (tlb m1 = None) as Ht1 by (unfold m1, RestoreState; cbn; by rewrite Hm').
  assert (tables m1 = tables m) as Hta1 by (unfold m1, RestoreState; cbn; by rewrite Hm').
  assert (mainMemory m1 = mainMemory m) as Hme1 by (unfold m1, RestoreState; cbn; by rewrite Hm').
  assert (mmu_ok m1) as Hmmu.
  { unfold mmu_ok. rewrite Ht1. exists (pageTable s), table. rewrite Hta1.
    split_and!; [done|done|cbn; lia]. }
  destruct (misaligned v size) eqn:Hmis; cbn [orb].
  { unfold Translate. unfold misaligned in Hmis. by rewrite Hmis. }
  assert (0 <= u32 v) as Hu0 by (pose proof (u32_range v) as [? _]; done).
  assert (u32 v / PageSize = u32 v / 128) as Hdiv by done.
  destruct (Z.leb_spec (128 * numPages s) (u32 v)) as [Hout|Hin].
  - unfold Translate. unfold misaligned in Hmis. rewrite Hmis. rewrite Ht1. cbn [isNull orb negb].
    rewrite ASSERT_true by done. cbn [bind]. rewrite ASSERT_true by done. cbn [bind].
    unfold lookup_entry. rewrite Ht1, Hdiv.
    destruct (Z.leb_spec (pageTableSize m1) (u32 v / 128)) as [_|Hlt]; [done|].
    change (pageTableSize m1) with (numPages s) in Hlt.
    pose proof (Z.div_le_lower_bound (u32 v) 128 (numPages s)). lia.
  - destruct (lookup_lt_is_Some_2 table (Z.to_nat (u32 v / 128))) as [e He].
    { pose proof (Z.div_lt_upper_bound (u32 v) 128 (numPages s)). pose proof (Z.div_pos (u32 v) 128). lia. }
    assert (frames table !! Z.to_nat (u32 v / 128) = Some (physicalPage e)) as Hf
      by (unfold frames; by rewrite list_lookup_fmap, He).
    pose proof (Forall_lookup_1 _ _ _ _ Hfr Hf) as Hp. unfold frame_ok in Hp.
    destruct (Forall_lookup_1 _ _ _ _ Hval He) as [Hv Hro].
    pose proof (Z.div_pos (u32 v) 128 Hu0 ltac:(lia)) as Hk0.
    assert (lookup_entry (u32 v / PageSize) m1 = Ok (inr (InTable (pageTable s) (u32 v / 128), e))) as HE.
    { unfold lookup_entry. rewrite Ht1, Hdiv.
      destruct (Z.leb_spec (pageTableSize m1) (u32 v / 128)) as [Hge|_].
      { change (pageTableSize m1) with (numPages s) in Hge.
        pose proof (Z.div_lt_upper_bound (u32 v) 128 (numPages s)). lia. }
      change (Machine.pageTable m1) with (Some (pageTable s)). cbn [bind]. rewrite Hta1, Htb.
      assert (zget table (u32 v / 128) = Ok e) as -> by (apply zget_Ok; split; [lia|done]).
      cbn. by rewrite Hv. }
    assert (u32 (physicalPage e) = physicalPage e) as Hup
      by (apply u32_small; change NumPhysPages with 32 in Hp; lia).
    destruct (Translate_entry v size writing m1 _ _ Hmmu Hsz Hmis HE) as (m2 & HT & _ & _ & Hm2 & _);
      [by rewrite Hro|lia|].
    destruct (aligned_offset v size Hsz Hmis) as (_ & Ho0 & Ho1). change PageSize with 128 in *.
    eexists _, m2. split; [exact HT|]. rewrite Hup in *.
    assert (0 <= size) by (destruct Hsz as [-> | [-> | ->]]; lia).
    split.
    + unfold in_memory. change MemorySize with 4096. change NumPhysPages with 32 in Hp. lia.
    + rewrite Hm2, Hme1. unfold vmem. destruct Hmem as [Hml _].
      rewrite <- (vpages_zslice (frames table) (mainMemory m) (Z.to_nat (u32 v / 128))) by (done || lia).
      f_equal. pose proof (Z.div_mod (u32 v) 128). lia.
Qed.

(** ** A program of 200 bytes of code and 100 of data, for the witnesses *)
Section witnesses.

(** A file whose bytes are in memory. *)
#[refine] #[local] Instance list_Executable : Executable (list Z) unit := {|
  exe_ReadAt n position f d :=
    Ok (zslice position (Z.max 0 (Z.min n (Z.of_nat (length f) - position))) f, d);
  exe_ok f _ := Forall is_byte f;
  exe_bytes f _ := f
|}.
Proof.
  - intros n position f d Hf _ _. by exists d.
  - done.
Defined.

(** The header is ten little-endian words: the magic number and three segments. *)
Definition word_at (i : Z) (bs : list Z) : Z := s32 (le_value (zslice (4 * i) 4 bs)).
Definition segment_at (i : Z) (bs : list Z) : Segment :=
  mkSegment (word_at i bs) (word_at (i + 1) bs) (word_at (i + 2) bs).
Definition noff (bs : list Z) : NoffHeader :=
  mkNoff (word_at 0 bs) (segment_at 1 bs) (segment_at 4 bs) (segment_at 7 bs).

Definition magic : Z := 11902655.
Definition program : list Z :=
  concat (le_bytes 4 <$> [magic; 0; 40; 200; 256; 240; 100; 0; 0; 0]) ++
  replicate 200 7 ++ replicate 100 9.

Definition machine0 : Machine :=
  mkMachine (replicate (Z.to_nat MemorySize) 0) (replicate (Z.to_nat NumTotalRegs) 0)
    None None 0 ∅ false 0.
Definition world0 : World := mkWorld machine0 (BitMap.mkBitMap 32 1 [0]) 0 tt.

Lemma machine0_ok : mem_ok machine0.
Proof. split; [done|]. apply Forall_replicate. split; lia. Qed.

Lemma world0_ok : world_ok world0.
Proof.
  split; [apply machine0_ok| |done]. split; try done. repeat constructor; done.
Qed.

Lemma program_is_ok : program_ok (noff (take 40 program)) program.
Proof. split; repeat split; vm_compute; done. Qed.

Lemma new_correct_witness :
  exists s table w', new noff 40 magic program world0 = Ok (s, w') /\ numPages s = 11 /\
    vmem table (machine w') = replicate 200 7 ++ replicate 100 9 ++ replicate 1108 0.
Proof.
  assert (Forall is_byte program) as Hp
    by (apply (bool_decide_unpack _); vm_compute; exact I).
  pose proof (new_correct noff 40 magic program world0 program (noff (take 40 program))
    world0_ok Hp eq_refl ltac:(lia) eq_refl program_is_ok) as H.
  change (space_pages _) with 11 in H.
  change (Z.of_nat (count_clear _)) with 32 in H. cbv beta zeta in H.
  change ((noffMagic _ =? magic) && _ && _) with true in H. cbv iota in H.
  destruct H as (s & table & w' & E & _ & Hn & _ & _ & _ & _ & _ & Hv & _).
  exists s, table, w'. split; [exact E|]. split; [exact Hn|]. rewrite Hv. by vm_compute.
Defined.

(** A space of nine pages, the first eight of which hold code. *)
Definition space1 : AddrSpace := mkSpace 1%positive 9 1.
Definition table1 : list TranslationEntry :=
  (fun i => mkEntry i (8 - i) true false false false) <$> seqZ 0 9.
Definition world1 : World :=
  mkWorld (set_table 1%positive table1 machine0) (BitMap.mkBitMap 32 1 [511]) 0 tt.

Lemma world1_ok : world_ok world1.
Proof.
  split; [destruct machine0_ok; by split| |done]. split; try done. repeat constructor; done.
Qed.

Lemma frames1_ok : Forall frame_ok (frames table1).
Proof. vm_compute. repeat constructor; done. Qed.

Lemma space1_ok : space_ok space1 table1 world1.
Proof. split; [done|done|done|exact frames1_ok|]. vm_compute. repeat constructor. Qed.

Lemma copy_correct_witness :
  exists s table w', copy space1 world1 = Ok (s, w') /\ usage s = 2 /\
    take 1 (frames table) = [8].
Proof.
  pose proof (copy_correct space1 table1 world1 world1_ok space1_ok) as H.
  change (8 <=? _) with true in H. cbv iota in H.
  destruct H as (s & table & w' & E & _ & _ & Hu & _ & Ht & _).
  exists s, table, w'. split; [exact E|]. split; [exact Hu|]. exact Ht.
Defined.

Lemma destroy_correct_witness :
  exists w', destroy space1 world1 = Ok w' /\
    BitMap.abs (physicalPageMap w') = replicate 32 false.
Proof.
  destruct (destroy_correct space1 table1 world1 world1_ok space1_ok) as (w' & E & _ & Hb & _).
  exists w'. split; [exact E|]. rewrite Hb. by vm_compute.
Defined.


Lemma run_correct_witness :
  exists m' physAddr m2, InitRegisters space1 (machine world1) = Ok m' /\
    Translate 130 2 true (RestoreState space1 m') = Ok (inr (physAddr, m2)) /\
    in_memory physAddr 2.
Proof.
  destruct (run_correct space1 table1 (machine world1)) as (m' & HI & _ & H);
    [done|exact (wo_mem _ world1_ok)|done|done|done|exact frames1_ok|done|vm_compute; by repeat constructor|].
  destruct (H 130 2 true ltac:(right; by left)) as (pa & m2 & HT & Hin & _).
  exists m', pa, m2. split; [exact HI|]. split; [exact HT|exact Hin].
Defined.

End witnesses.

End AddrSpace.
