(* ===== verification/Directory.v ===== *)
(** filesys/directory.h, directory.cc: the directory, a table of file names
    and of the sectors of their headers.

    Names are C strings: lists of bytes without the final NUL.  The table
    compares and stores at most [FileNameMaxLen] characters ([strncmp],
    [strncpy]); [lookup] is the abstract map from such names to sectors that
    the operations implement. *)

From S2P Require Import Prelude BitMap LinkedList MachineState Interrupt Disk FileHdr OpenFile.

(** ** C strings *)

(** [!strncmp(a, b, n)]; past the end of a list is its NUL. *)
Fixpoint strncmp_eq (n : nat) (a b : list Z) : bool :=
  match n with
  | O => true
  | S n =>
      let x := default 0 (head a) in
      let y := default 0 (head b) in
      if x =? y then (x =? 0) || strncmp_eq n (tail a) (tail b) else false
  end.

(** [strncpy(dst, src, n)]: copy at most [n] characters and fill with NUL. *)
Definition strncpy (n : nat) (src dst : list Z) : list Z :=
  take n (src ++ replicate n 0) ++ drop n dst.

(** The string an array holds: its characters before the first NUL. *)
Fixpoint until_nul (l : list Z) : list Z :=
  match l with
  | [] => []
  | c :: l => if c =? 0 then [] else c :: until_nul l
  end.

Definition c_string (s : list Z) : Prop := Forall (fun c => 0 < c < 256) s.

Lemma until_nul_id s : c_string s -> until_nul s = s.
Proof.
  induction 1 as [|c s Hc _ IH]; simpl; [done|].
  destruct (Z.eqb_spec c 0); [lia|]. by rewrite IH.
Qed.

Lemma until_nul_app s l : c_string s -> until_nul (s ++ 0 :: l) = s.
Proof.
  induction 1 as [|c s Hc _ IH]; simpl; [done|].
  destruct (Z.eqb_spec c 0); [lia|]. by rewrite IH.
Qed.

(** [strncmp] compares the strings cut to [n] characters. *)
Lemma strncmp_until n a b :
  strncmp_eq n a b = bool_decide (until_nul (take n a) = until_nul (take n b)).
Proof.
  revert a b. induction n as [|n IH]; intros a b; cbn [strncmp_eq]; cbv zeta.
  - done.
  - rewrite IH.
    destruct a as [|x a], b as [|y b]; cbn [head default from_option tail take until_nul]; unfold id.
    + done.
    + rewrite (Z.eqb_sym 0 y). by destruct (Z.eqb_spec y 0).
    + by destruct (Z.eqb_spec x 0).
    + destruct (Z.eqb_spec x y) as [->|Hne].
      * destruct (Z.eqb_spec y 0); cbn [orb]; [done|].
        apply bool_decide_ext. split; congruence.
      * symmetry. apply bool_decide_eq_false_2.
        destruct (Z.eqb_spec x 0), (Z.eqb_spec y 0); congruence.
Qed.

Lemma c_string_take n s : c_string s -> c_string (take n s).
Proof. apply Forall_take. Qed.

(** What [strncpy] stored is the string cut to [n] characters. *)
Lemma until_nul_strncpy n s dst :
  c_string s -> until_nul (take n (strncpy n s dst)) = take n s.
Proof.
  intros Hs. unfold strncpy.
  rewrite take_app_length'
    by (rewrite length_take, length_app, length_replicate; lia).
  destruct (decide (length s < n)%nat).
  - rewrite take_app_ge by lia. rewrite (take_ge s) by lia.
    rewrite take_replicate. destruct (_ `min` _)%nat eqn:E; [lia|].
    simpl. by apply until_nul_app.
  - rewrite take_app_le by lia. by apply until_nul_id, c_string_take.
Qed.

Module Directory.

Import FileHeader OpenFile.

(** ** State *)
Definition FileNameMaxLen : Z := 9.

Record DirectoryEntry := mkDirEntry {
  inUse : bool;        (* is this directory entry in use? *)
  pad1 : list Z;       (* 3 bytes of padding *)
  sector : Z;          (* location on disk of the file header *)
  name : list Z;       (* char[FileNameMaxLen + 1] *)
  pad2 : list Z        (* 2 bytes of padding *)
}.

Definition sizeof_DirectoryEntry : Z := 20.

Record Directory := mkDirectory {
  tableSize : Z;
  table : list DirectoryEntry
}.

(** An entry as its bytes in memory, and back. *)
Definition entry_bytes (e : DirectoryEntry) : list Z :=
  of_bool (inUse e) :: pad1 e ++ le_bytes 4 (sector e) ++ name e ++ pad2 e.

Definition entry_of_bytes (bs : list Z) : DirectoryEntry :=
  mkDirEntry (negb (default 0 (head bs) =? 0)) (zslice 1 3 bs)
    (s32 (le_value (zslice 4 4 bs))) (zslice 8 10 bs) (zslice 18 2 bs).

Definition to_bytes (dir : Directory) : list Z := concat (entry_bytes <$> table dir).

Fixpoint entries_of_bytes (n : nat) (bs : list Z) : list DirectoryEntry :=
  match n with
  | O => []
  | S n => entry_of_bytes (take 20 bs) :: entries_of_bytes n (drop 20 bs)
  end.

(** ** Operations *)

(** [Directory(size)]; [entries] is what [new DirectoryEntry[size]] holds. *)
Definition new (size : Z) (entries : list DirectoryEntry) : Directory :=
  mkDirectory size
    ((fun e => mkDirEntry false (pad1 e) (sector e) (name e) (pad2 e)) <$> entries).

Definition FindIndex (nm : list Z) (dir : Directory) : res Z :=
  o ← for_find (Z.to_nat (tableSize dir)) 0
        (fun i _ =>
           e ← zget (table dir) i;
           if inUse e && strncmp_eq (Z.to_nat FileNameMaxLen) (name e) nm
           then Ok (inr i) else Ok (inl tt))
        tt;
  Ok (match o with inr i => i | inl _ => -1 end).

Definition Find (nm : list Z) (dir : Directory) : res Z :=
  i ← FindIndex nm dir;
  if negb (i =? -1) then
    e ← zget (table dir) i; Ok (sector e)
  else Ok (-1).

Definition Add (nm : list Z) (newSector : Z) (dir : Directory) : res (bool * Directory) :=
  i ← FindIndex nm dir;
  if negb (i =? -1) then Ok (false, dir)
  else
    o ← for_find (Z.to_nat (tableSize dir)) 0
          (fun i _ =>
             e ← zget (table dir) i;
             if negb (inUse e) then
               let e := mkDirEntry true (pad1 e) newSector
                          (strncpy (Z.to_nat FileNameMaxLen) nm (name e)) (pad2 e) in
               t ← zset (table dir) i e;
               Ok (inr t)
             else Ok (inl tt))
          tt;
    Ok (match o with
        | inr t => (true, mkDirectory (tableSize dir) t)
        | inl _ => (false, dir)
        end).

Definition Remove (nm : list Z) (dir : Directory) : res (bool * Directory) :=
  i ← FindIndex nm dir;
  if i =? -1 then Ok (false, dir)
  else
    e ← zget (table dir) i;
    t ← zset (table dir) i (mkDirEntry false (pad1 e) (sector e) (name e) (pad2 e));
    Ok (true, mkDirectory (tableSize dir) t).

(** The name [printf("%s")] writes; without a NUL in the array it reads on
    past its end. *)
Definition printed_name (e : DirectoryEntry) : res (list Z) :=
  if bool_decide (0 ∈ name e) then Ok (until_nul (name e)) else UB.

(** [List]: the names printed. *)
Definition List (dir : Directory) : res (list (list Z)) :=
  for_range (Z.to_nat (tableSize dir)) 0
    (fun i out =>
       e ← zget (table dir) i;
       if inUse e then (n ← printed_name e; Ok (out ++ [n])) else Ok out) [].

Section store.
Context {D : Type} `{SectorStore D} (new_chars : D -> Z -> list Z).

(** [ReadAt] over the memory of the table: the bytes past those read stay. *)
Definition FetchFrom (file : OpenFile) (dir : Directory) (d : D) : res (Directory * D) :=
  '(bs, d) ← ReadAt new_chars (tableSize dir * sizeof_DirectoryEntry) 0 file d;
  memory ← zcopy 0 bs (to_bytes dir);
  Ok (mkDirectory (tableSize dir) (entries_of_bytes (length (table dir)) memory), d).

Definition WriteBack (file : OpenFile) (dir : Directory) (d : D) : res (Z * D) :=
  WriteAt new_chars (to_bytes dir) (tableSize dir * sizeof_DirectoryEntry) 0 file d.

(** [Print]: for each entry in use, its name, its sector, and what the
    header of the file prints. *)
Definition Print (dir : Directory) (d : D)
    : res (list (list Z * Z * (Z * list Z * list (list printed))) * D) :=
  for_range (Z.to_nat (tableSize dir)) 0
    (fun i '(out, d) =>
       e ← zget (table dir) i;
       if inUse e then
         n ← printed_name e;
         '(h, d) ← FileHeader.FetchFrom (sector e) d;
         '(p, d) ← FileHeader.Print h d;
         Ok (out ++ [(n, sector e, p)], d)
       else Ok (out, d))
    ([], d).

End store.

(** ** The abstract directory *)

(** The name a file is known by. *)
Definition key (nm : list Z) : list Z := take (Z.to_nat FileNameMaxLen) nm.
Definition entry_key (e : DirectoryEntry) : list Z :=
  until_nul (take (Z.to_nat FileNameMaxLen) (name e)).

(** The entry in use for a name, and its index. *)
Definition named (nm : list Z) (e : DirectoryEntry) : bool :=
  inUse e && bool_decide (entry_key e = key nm).
Definition find_entry (nm : list Z) (l : list DirectoryEntry) : option (nat * DirectoryEntry) :=
  list_find (fun e => named nm e = true) l.

(** The sector bound to a name. *)
Definition lookup (nm : list Z) (dir : Directory) : option Z :=
  (fun p => sector p.2) <$> find_entry nm (table dir).

Record entry_ok (e : DirectoryEntry) : Prop := {
  eo_pad1 : length (pad1 e) = 3%nat;
  eo_pad1_bytes : Forall is_byte (pad1 e);
  eo_sector : is_s32 (sector e);
  eo_name : length (name e) = 10%nat;
  eo_name_bytes : Forall is_byte (name e);
  eo_pad2 : length (pad2 e) = 2%nat;
  eo_pad2_bytes : Forall is_byte (pad2 e)
}.

(** The table has the size it says, and no name is in use twice. *)
Record wf (dir : Directory) : Prop := {
  wf_size : Z.of_nat (length (table dir)) = tableSize dir;
  wf_entries : Forall entry_ok (table dir);
  wf_names i j e e' : table dir !! i = Some e -> table dir !! j = Some e' ->
    inUse e = true -> inUse e' = true -> entry_key e = entry_key e' -> i = j
}.

(** ** Searching *)

(** A loop over the table that stops at the first entry satisfying [P]. *)
Lemma for_find_list {A R} (P : A -> bool) (g : Z -> A -> res R) (l : list A) n k :
  (k + n = length l)%nat ->
  for_find n (Z.of_nat k)
    (fun i (_ : unit) => e ← zget l i;
       if P e then (r ← g i e; Ok (inr r)) else Ok (inl tt)) tt =
  match list_find (fun e => P e = true) (drop k l) with
  | Some (i, e) => r ← g (Z.of_nat (k + i)) e; Ok (inr r)
  | None => Ok (inl tt)
  end.
Proof.
  revert k. induction n as [|n IH]; intros k Hk; cbn [for_find].
  - by rewrite drop_ge by lia.
  - destruct (lookup_lt_is_Some_2 l k) as [e He]; [lia|].
    assert (zget l (Z.of_nat k) = Ok e) as -> by (apply zget_Ok; rewrite Nat2Z.id; split; [lia|done]).
    cbn [bind]. rewrite (drop_S l e k He). cbn [list_find].
    destruct (P e) eqn:EP.
    + rewrite decide_True by done. rewrite Nat.add_0_r.
      by destruct (g (Z.of_nat k) e).
    + rewrite decide_False by done. cbn [bind].
      replace (Z.of_nat k + 1) with (Z.of_nat (S k)) by lia. rewrite IH by lia.
      destruct (list_find _ (drop (S k) l)) as [[i e']|]; [|done].
      cbn. do 2 f_equal. lia.
Qed.

Lemma named_strncmp nm e :
  c_string nm ->
  inUse e && strncmp_eq (Z.to_nat FileNameMaxLen) (name e) nm = named nm e.
Proof.
  intros Hs. unfold named, entry_key, key. f_equal. rewrite strncmp_until.
  by rewrite (until_nul_id (take _ nm)) by (by apply c_string_take).
Qed.

(** A search over the whole table. *)
Lemma for_find_table {R} (P : DirectoryEntry -> bool) (g : Z -> DirectoryEntry -> res R) dir :
  wf dir ->
  for_find (Z.to_nat (tableSize dir)) 0
    (fun i (_ : unit) => e ← zget (table dir) i;
       if P e then (r ← g i e; Ok (inr r)) else Ok (inl tt)) tt =
  match list_find (fun e => P e = true) (table dir) with
  | Some (i, e) => r ← g (Z.of_nat i) e; Ok (inr r)
  | None => Ok (inl tt)
  end.
Proof.
  intros [Hs _ _]. rewrite <- Hs, Nat2Z.id.
  rewrite (for_find_list P g (table dir) _ 0) by lia. by rewrite drop_0.
Qed.

Lemma FindIndex_spec nm dir :
  wf dir -> c_string nm ->
  FindIndex nm dir =
    Ok (match find_entry nm (table dir) with Some (i, _) => Z.of_nat i | None => -1 end).
Proof.
  intros Hd Hs. unfold FindIndex.
  pose proof (for_find_table
    (fun e => inUse e && strncmp_eq (Z.to_nat FileNameMaxLen) (name e) nm)
    (fun i _ => Ok i) dir Hd) as E.
  cbn [bind] in E. rewrite E. unfold find_entry.
  rewrite (list_find_ext _ (fun e => named nm e = true))
    by (intros e; by rewrite named_strncmp).
  by destruct (list_find (fun e => named nm e = true) (table dir)) as [[i e]|].
Qed.

Lemma find_entry_Some nm l i e :
  find_entry nm l = Some (i, e) ->
  l !! i = Some e /\ inUse e = true /\ entry_key e = key nm.
Proof.
  unfold find_entry. intros (Hl & Hn & _)%list_find_Some.
  split; [done|]. unfold named in Hn. apply andb_prop in Hn as [? Hk].
  by apply bool_decide_eq_true in Hk.
Qed.

(** With distinct names, an entry in use is found by its name. *)
Lemma find_entry_lookup nm dir i e :
  wf dir -> table dir !! i = Some e -> inUse e = true -> entry_key e = key nm ->
  find_entry nm (table dir) = Some (i, e).
Proof.
  intros Hd Hi Hu Hk.
  assert (is_Some (find_entry nm (table dir))) as [[j e'] Hf].
  { unfold find_entry. apply (list_find_elem_of (fun e => named nm e = true) _ e).
    - by eapply list_elem_of_lookup_2.
    - unfold named. by rewrite Hu, bool_decide_eq_true_2. }
  rewrite Hf. destruct (find_entry_Some _ _ _ _ Hf) as (Hj & Hu' & Hk').
  assert (i = j) as <- by (eapply (wf_names dir Hd); [done..|congruence]). congruence.
Qed.

Lemma lookup_Some nm dir s :
  wf dir -> lookup nm dir = Some s <->
    exists i e, table dir !! i = Some e /\ inUse e = true /\ entry_key e = key nm /\ sector e = s.
Proof.
  intros Hd. unfold lookup. split.
  - destruct (find_entry nm (table dir)) as [[i e]|] eqn:Hf; [|done]. cbn. intros [= <-].
    destruct (find_entry_Some _ _ _ _ Hf) as (? & ? & ?). by exists i, e.
  - intros (i & e & Hi & Hu & Hk & <-). by rewrite (find_entry_lookup nm dir i e).
Qed.

Lemma lookup_None nm dir :
  wf dir -> lookup nm dir = None <->
    forall i e, table dir !! i = Some e -> inUse e = true -> entry_key e <> key nm.
Proof.
  intros Hd. split.
  - intros Hn i e Hi Hu Hk.
    assert (lookup nm dir = Some (sector e)) as Hs by (apply lookup_Some; [done|by exists i, e]).
    congruence.
  - intros Hall. destruct (lookup nm dir) as [s|] eqn:E; [|done].
    apply lookup_Some in E as (i & e & Hi & Hu & Hk & _); [|done]. by destruct (Hall i e).
Qed.

Lemma Find_lookup nm dir :
  wf dir -> c_string nm -> Find nm dir = Ok (default (-1) (lookup nm dir)).
Proof.
  intros Hd Hs. unfold Find, lookup. rewrite FindIndex_spec by done. cbn [bind].
  destruct (find_entry nm (table dir)) as [[i e]|] eqn:Hf; [|done].
  destruct (Z.eqb_spec (Z.of_nat i) (-1)); [lia|]. cbn [negb].
  destruct (find_entry_Some _ _ _ _ Hf) as (Hi & _).
  assert (zget (table dir) (Z.of_nat i) = Ok e) as ->; [|done].
  apply zget_Ok. rewrite Nat2Z.id. split; [lia|done].
Qed.

(** Replacing one entry. *)
Lemma update_wf dir i e e' :
  wf dir -> table dir !! i = Some e -> entry_ok e' ->
  (inUse e' = true -> forall j e2, table dir !! j = Some e2 -> j <> i ->
     inUse e2 = true -> entry_key e2 <> entry_key e') ->
  wf (mkDirectory (tableSize dir) (<[i := e']> (table dir))).
Proof.
  intros [Hs He Hn] Hi He' Hdist. split; cbn [table tableSize].
  - by rewrite length_insert.
  - by apply Forall_insert.
  - apply lookup_lt_Some in Hi as Hlt.
    intros j k e1 e2 Hj Hk Hu1 Hu2 Hkey.
    destruct (decide (j = i)) as [->|Hji], (decide (k = i)) as [->|Hki]; [done| | |].
    + rewrite list_lookup_insert_eq in Hj by done. rewrite list_lookup_insert_ne in Hk by done.
      simplify_eq. by destruct (Hdist Hu1 k e2).
    + rewrite list_lookup_insert_eq in Hk by done. rewrite list_lookup_insert_ne in Hj by done.
      simplify_eq. by destruct (Hdist Hu2 j e1).
    + rewrite list_lookup_insert_ne in Hj, Hk by done. by eapply Hn.
Qed.

Lemma strncpy_key nm (nm0 : list Z) :
  c_string nm -> until_nul (take (Z.to_nat FileNameMaxLen)
    (strncpy (Z.to_nat FileNameMaxLen) nm nm0)) = key nm.
Proof. apply until_nul_strncpy. Qed.

Lemma strncpy_ok nm nm0 :
  c_string nm -> length nm0 = 10%nat -> Forall is_byte nm0 ->
  length (strncpy (Z.to_nat FileNameMaxLen) nm nm0) = 10%nat /\
  Forall is_byte (strncpy (Z.to_nat FileNameMaxLen) nm nm0).
Proof.
  intros Hs Hl Hb. unfold strncpy. change (Z.to_nat FileNameMaxLen) with 9%nat. split.
  - rewrite length_app, length_take, length_app, length_replicate, length_drop. lia.
  - apply Forall_app_2; [|by apply Forall_drop]. apply Forall_take, Forall_app_2.
    + eapply Forall_impl; [exact Hs|]. intros c Hc. unfold is_byte. simpl in Hc. lia.
    + apply Forall_replicate. unfold is_byte. lia.
Qed.

(** No entry is free. *)
Definition full (dir : Directory) : Prop :=
  forall i e, table dir !! i = Some e -> inUse e = true.

(** [Add] binds a new name, unless it is bound or the table is full. *)
Lemma Add_lookup nm s dir :
  wf dir -> c_string nm -> is_s32 s ->
  exists ok dir', Add nm s dir = Ok (ok, dir') /\ wf dir' /\ tableSize dir' = tableSize dir /\
    (ok = true <-> lookup nm dir = None /\ ~ full dir) /\
    (ok = false -> dir' = dir) /\
    (ok = true -> forall nm', lookup nm' dir' =
       if decide (key nm' = key nm) then Some s else lookup nm' dir).
Proof.
  intros Hd Hs Hs32. unfold Add. rewrite FindIndex_spec by done. cbn [bind].
  destruct (find_entry nm (table dir)) as [[i e]|] eqn:Hf.
  { destruct (Z.eqb_spec (Z.of_nat i) (-1)); [lia|]. cbn [negb].
    exists false, dir. split_and!; try done.
    split; [done|]. intros [Hn _]. unfold lookup in Hn. by rewrite Hf in Hn. }
  assert (lookup nm dir = None) as Hnone by (unfold lookup; by rewrite Hf).
  change (negb (-1 =? -1)) with false. cbv iota.
  rewrite (for_find_table (fun e => negb (inUse e))
    (fun i e => zset (table dir) i
       (mkDirEntry true (pad1 e) s (strncpy (Z.to_nat FileNameMaxLen) nm (name e)) (pad2 e))))
    by done.
  destruct (list_find (fun e => negb (inUse e) = true) (table dir)) as [[i e]|] eqn:Hfree;
    cbn [bind].
  - apply list_find_Some in Hfree as (Hi & Hu & _). apply negb_true_iff in Hu.
    pose proof (lookup_lt_Some _ _ _ Hi) as Hlt.
    rewrite zset_eq by lia. cbn [bind]. rewrite Nat2Z.id.
    pose proof (Forall_lookup_1 _ _ _ _ (wf_entries _ Hd) Hi) as [? ? ? ? ? ? ?].
    destruct (strncpy_ok nm (name e)) as [Hl10 Hb10]; [done..|].
    set (e' := mkDirEntry _ _ _ _ _).
    assert (entry_key e' = key nm) as Hke by (by apply strncpy_key).
    assert (wf (mkDirectory (tableSize dir) (<[i:=e']> (table dir)))) as Hd'.
    { apply (update_wf dir i e); [done|done|by split|].
      intros _ j e2 Hj _ Hu2. rewrite Hke.
      by apply (proj1 (lookup_None nm dir Hd) Hnone j e2). }
    exists true. eexists. split; [reflexivity|]. split; [done|]. split; [done|].
    split; [|split; [done|]].
    + split; [|done]. intros _. split; [done|]. intros Hfull. specialize (Hfull i e Hi). congruence.
    + intros _ nm'. case_decide as Hk.
      * apply lookup_Some; [done|]. exists i, e'. cbn [table].
        rewrite list_lookup_insert_eq by done. by rewrite Hke.
      * destruct (lookup nm' dir) as [s'|] eqn:El.
        -- apply lookup_Some in El as (j & e2 & Hj & Hu2 & Hk2 & Hs2); [|done].
           apply lookup_Some; [done|]. exists j, e2. cbn [table].
           rewrite list_lookup_insert_ne by (intros <-; congruence). done.
        -- apply lookup_None; [done|]. intros j e2 Hj Hu2. cbn [table] in Hj.
           destruct (decide (j = i)) as [->|Hji].
           ++ rewrite list_lookup_insert_eq in Hj by done. simplify_eq. congruence.
           ++ rewrite list_lookup_insert_ne in Hj by done.
              by apply (proj1 (lookup_None nm' dir Hd) El j e2).
  - apply list_find_None in Hfree. exists false, dir. split_and!; try done.
    split; [done|]. intros [_ Hnf]. exfalso. apply Hnf. intros i e Hi.
    pose proof (Forall_lookup_1 _ _ _ _ Hfree Hi) as Hu. simpl in Hu. by destruct (inUse e).
Qed.

(** [Remove] unbinds a bound name. *)
Lemma Remove_lookup nm dir :
  wf dir -> c_string nm ->
  exists dir', Remove nm dir = Ok (bool_decide (is_Some (lookup nm dir)), dir') /\ wf dir' /\
    tableSize dir' = tableSize dir /\
    forall nm', lookup nm' dir' = if decide (key nm' = key nm) then None else lookup nm' dir.
Proof.
  intros Hd Hs. unfold Remove. rewrite FindIndex_spec by done. cbn [bind].
  destruct (find_entry nm (table dir)) as [[i e]|] eqn:Hf.
  - assert (lookup nm dir = Some (sector e)) as Hl by (unfold lookup; by rewrite Hf).
    rewrite Hl, bool_decide_eq_true_2 by done.
    destruct (Z.eqb_spec (Z.of_nat i) (-1)); [lia|].
    destruct (find_entry_Some _ _ _ _ Hf) as (Hi & Hu & Hk).
    pose proof (lookup_lt_Some _ _ _ Hi) as Hlt.
    assert (zget (table dir) (Z.of_nat i) = Ok e) as ->
      by (apply zget_Ok; rewrite Nat2Z.id; split; [lia|done]).
    cbn [bind]. rewrite zset_eq by lia. cbn [bind]. rewrite Nat2Z.id.
    set (e' := mkDirEntry _ _ _ _ _).
    assert (wf (mkDirectory (tableSize dir) (<[i:=e']> (table dir)))) as Hd'.
    { apply (update_wf dir i e); [done|done| |done].
      pose proof (Forall_lookup_1 _ _ _ _ (wf_entries _ Hd) Hi) as [? ? ? ? ? ? ?]. by split. }
    eexists. split; [reflexivity|]. split; [done|]. split; [done|]. intros nm'.
    case_decide as Hk'.
    + apply lookup_None; [done|]. intros j e2 Hj Hu2 Hk2. cbn [table] in Hj.
      destruct (decide (j = i)) as [->|Hji].
      * rewrite list_lookup_insert_eq in Hj by done. by simplify_eq.
      * rewrite list_lookup_insert_ne in Hj by done.
        apply Hji. eapply (wf_names dir Hd); [done..|congruence].
    + destruct (lookup nm' dir) as [s'|] eqn:El.
      * apply lookup_Some in El as (j & e2 & Hj & Hu2 & Hk2 & Hs2); [|done].
        apply lookup_Some; [done|]. exists j, e2. cbn [table].
        rewrite list_lookup_insert_ne by (intros <-; congruence). done.
      * apply lookup_None; [done|]. intros j e2 Hj Hu2. cbn [table] in Hj.
        destruct (decide (j = i)) as [->|Hji].
        -- rewrite list_lookup_insert_eq in Hj by done. by simplify_eq.
        -- rewrite list_lookup_insert_ne in Hj by done.
           by apply (proj1 (lookup_None nm' dir Hd) El j e2).
  - assert (lookup nm dir = None) as Hl by (unfold lookup; by rewrite Hf).
    rewrite Hl, bool_decide_eq_false_2 by (by intros [? ?]).
    exists dir. split; [done|]. split; [done|]. split; [done|]. intros nm'.
    case_decide as Hk; [|done]. unfold lookup, find_entry, named in *. by rewrite Hk.
Qed.

(** The entry that a successful [Add] fills. *)
Lemma Add_shape nm s dir dir' :
  wf dir -> c_string nm -> Add nm s dir = Ok (true, dir') ->
  exists i e, table dir !! i = Some e /\ inUse e = false /\
    dir' = mkDirectory (tableSize dir) (<[i := mkDirEntry true (pad1 e) s
      (strncpy (Z.to_nat FileNameMaxLen) nm (name e)) (pad2 e)]> (table dir)).
Proof.
  intros Hd Hs. unfold Add. rewrite FindIndex_spec by done. cbn [bind].
  destruct (negb _) eqn:Hneg; [by intros [= ]|].
  rewrite (for_find_table (fun e => negb (inUse e))
    (fun i e => zset (table dir) i
       (mkDirEntry true (pad1 e) s (strncpy (Z.to_nat FileNameMaxLen) nm (name e)) (pad2 e))))
    by done.
  destruct (list_find (fun e => negb (inUse e) = true) (table dir)) as [[i e]|] eqn:Hfree;
    cbn [bind]; [|by intros [= ]].
  apply list_find_Some in Hfree as (Hi & Hu & _). apply negb_true_iff in Hu.
  pose proof (lookup_lt_Some _ _ _ Hi) as Hlt.
  rewrite zset_eq by lia. cbn [bind]. rewrite Nat2Z.id. intros [= <-]. by exists i, e.
Qed.

(** The entry that a successful [Remove] frees. *)
Lemma Remove_shape nm dir dir' s :
  wf dir -> c_string nm -> lookup nm dir = Some s -> Remove nm dir = Ok (true, dir') ->
  exists i e, table dir !! i = Some e /\ inUse e = true /\ sector e = s /\
    entry_key e = key nm /\
    dir' = mkDirectory (tableSize dir)
      (<[i := mkDirEntry false (pad1 e) (sector e) (name e) (pad2 e)]> (table dir)).
Proof.
  intros Hd Hs Hl. unfold Remove. rewrite FindIndex_spec by done. cbn [bind].
  apply lookup_Some in Hl as (i & e & Hi & Hu & Hk & Hsec); [|done].
  rewrite (find_entry_lookup nm dir i e) by done.
  destruct (Z.eqb_spec (Z.of_nat i) (-1)); [lia|].
  assert (zget (table dir) (Z.of_nat i) = Ok e) as ->
    by (apply zget_Ok; rewrite Nat2Z.id; split; [lia|done]).
  pose proof (lookup_lt_Some _ _ _ Hi) as Hlt.
  cbn [bind]. rewrite zset_eq by lia. cbn [bind]. rewrite Nat2Z.id.
  intros [= <-]. by exists i, e.
Qed.

(** ** The directory on disk *)

Lemma length_entry_bytes e : entry_ok e -> length (entry_bytes e) = 20%nat.
Proof.
  intros [H1 _ _ H2 _ H3 _]. unfold entry_bytes. cbn [length].
  rewrite !length_app, length_le_bytes. lia.
Qed.

Lemma entry_bytes_byte e : entry_ok e -> Forall is_byte (entry_bytes e).
Proof.
  intros [_ H1 _ _ H2 _ H3]. unfold entry_bytes. constructor.
  - destruct (inUse e); unfold is_byte; simpl; lia.
  - apply Forall_app_2; [done|]. apply Forall_app_2; [apply le_bytes_byte|].
    by apply Forall_app_2.
Qed.

(** Reading an entry back from its bytes. *)
Lemma entry_of_entry_bytes e : entry_ok e -> entry_of_bytes (entry_bytes e) = e.
Proof.
  intros [H1 _ Hs H2 _ H3 _].
  assert (length (le_bytes 4 (sector e)) = 4%nat) as H4 by apply length_le_bytes.
  unfold entry_of_bytes, entry_bytes.
  set (sb := le_bytes 4 (sector e)) in *.
  set (ib := of_bool (inUse e)).
  assert (zslice 1 3 (ib :: pad1 e ++ sb ++ name e ++ pad2 e) = pad1 e) as ->
    by (apply (zslice_app 1 3 [ib] (pad1 e) (sb ++ name e ++ pad2 e)); simpl; lia).
  assert (zslice 4 4 (ib :: pad1 e ++ sb ++ name e ++ pad2 e) = sb) as ->
    by (apply (zslice_app 4 4 (ib :: pad1 e) sb (name e ++ pad2 e)); simpl; lia).
  assert (zslice 8 10 (ib :: pad1 e ++ sb ++ name e ++ pad2 e) = name e) as ->.
  { rewrite (app_assoc (pad1 e)).
    apply (zslice_app 8 10 (ib :: pad1 e ++ sb) (name e) (pad2 e));
      simpl; rewrite ?length_app; lia. }
  assert (zslice 18 2 (ib :: pad1 e ++ sb ++ name e ++ pad2 e) = pad2 e) as ->.
  { pose proof (zslice_app 18 2 (ib :: pad1 e ++ sb ++ name e) (pad2 e) []) as E.
    rewrite app_nil_r in E. cbn [app] in E. rewrite <- !app_assoc in E.
    apply E; cbn [length]; rewrite ?length_app; lia. }
  unfold sb. rewrite s32_of_bytes by done. destruct e as [[] ? ? ? ?]; done.
Qed.

Lemma length_dir_bytes dir :
  wf dir -> Z.of_nat (length (to_bytes dir)) = tableSize dir * sizeof_DirectoryEntry.
Proof.
  intros [Hs He _]. rewrite <- Hs. unfold to_bytes, sizeof_DirectoryEntry. clear Hs.
  induction He as [|e l He _ IH]; [done|]. rewrite fmap_cons. cbn [concat length].
  rewrite length_app, length_entry_bytes by done. lia.
Qed.

Lemma dir_bytes_byte dir : wf dir -> Forall is_byte (to_bytes dir).
Proof.
  intros [_ He _]. unfold to_bytes. apply Forall_concat, Forall_fmap.
  eapply Forall_impl; [exact He|]. intros e. apply entry_bytes_byte.
Qed.

Lemma entries_of_to_bytes l :
  Forall entry_ok l -> entries_of_bytes (length l) (concat (entry_bytes <$> l)) = l.
Proof.
  induction 1 as [|e l He _ IH]; [done|]. rewrite fmap_cons. cbn [concat length entries_of_bytes].
  rewrite take_app_length', drop_app_length' by (by rewrite length_entry_bytes).
  by rewrite IH, entry_of_entry_bytes.
Qed.

Section store_specs.
Context {D : Type} `{SectorStore D} (new_chars : D -> Z -> list Z).
Context (Hchars : chars_ok new_chars).

(** The file holds this directory. *)
Definition stored (file : OpenFile) (dir : Directory) (d : D) : Prop :=
  zslice 0 (tableSize dir * sizeof_DirectoryEntry) (contents (hdr file) d) = to_bytes dir.

(** A file with room for the table. *)
Definition room (file : OpenFile) (size : Z) : Prop :=
  0 <= size /\ size * sizeof_DirectoryEntry <= FileLength (hdr file) /\
  FileLength (hdr file) < 2 ^ 31.

Lemma clip_room file size :
  room file size ->
  clip (size * sizeof_DirectoryEntry) 0 (hdr file) = size * sizeof_DirectoryEntry.
Proof. intros (H0 & H1 & _). unfold clip, sizeof_DirectoryEntry in *. lia. Qed.

Lemma WriteBack_stored file dir (d : D) :
  file_ok (hdr file) -> store_ok d -> wf dir -> room file (tableSize dir) ->
  exists d', WriteBack new_chars file dir d = Ok (tableSize dir * sizeof_DirectoryEntry, d') /\
    store_ok d' /\ stored file dir d' /\
    forall k, is_sector k -> k ∉ blocks (hdr file) -> sector_of d' k = sector_of d k.
Proof.
  intros Hf Hd Hw Hroom. unfold WriteBack.
  pose proof (clip_room file _ Hroom) as Hclip. destruct Hroom as (H0 & H1 & H2).
  pose proof (length_dir_bytes dir Hw) as Hl.
  destruct (WriteAt_splice new_chars Hchars (to_bytes dir) (tableSize dir * sizeof_DirectoryEntry) 0
    file d) as (d' & -> & Hd' & Hc & Hk); [done|done|lia|lia|lia|by apply dir_bytes_byte|].
  rewrite Hclip in *. exists d'. split; [done|]. split; [done|]. split; [|done].
  unfold stored. rewrite Hc, <- Hl.
  assert (zslice 0 (Z.of_nat (length (to_bytes dir))) (to_bytes dir) = to_bytes dir) as ->
    by (unfold zslice; change (Z.to_nat 0) with 0%nat; rewrite drop_0; apply take_ge; lia).
  apply zslice_zsplice; [lia|]. rewrite length_contents by done. unfold FileLength in *. lia.
Qed.

(** Reading the directory of a file into a table of the same size. *)
Lemma FetchFrom_stored file dir0 dir (d : D) :
  file_ok (hdr file) -> store_ok d -> wf dir -> wf dir0 -> tableSize dir0 = tableSize dir ->
  room file (tableSize dir) -> stored file dir d ->
  exists d', FetchFrom new_chars file dir0 d = Ok (dir, d') /\ same_store d d'.
Proof.
  intros Hf Hd Hw Hw0 Hsz Hroom Hst. unfold FetchFrom. rewrite Hsz.
  pose proof (clip_room file _ Hroom) as Hclip. destruct Hroom as (H0 & H1 & H2).
  destruct (ReadAt_slice new_chars Hchars (tableSize dir * sizeof_DirectoryEntry) 0 file d)
    as (d' & -> & Hs); [done|done|lia|lia|]. cbn [bind].
  rewrite Hclip, Hst.
  pose proof (length_dir_bytes dir Hw) as Hl. pose proof (length_dir_bytes dir0 Hw0) as Hl0.
  rewrite Hsz in Hl0. rewrite zcopy_Ok by lia. cbn [bind].
  assert (zsplice 0 (to_bytes dir) (to_bytes dir0) = to_bytes dir) as ->.
  { unfold zsplice. cbn [take app Z.to_nat]. rewrite drop_ge by lia. by rewrite app_nil_r. }
  exists d'. split; [|done]. do 2 f_equal.
  replace (length (table dir0)) with (length (table dir))
    by (pose proof (wf_size _ Hw); pose proof (wf_size _ Hw0); lia).
  unfold to_bytes. rewrite entries_of_to_bytes by apply Hw. by destruct dir.
Qed.

Lemma stored_same file dir (d d' : D) :
  file_ok (hdr file) ->
  (forall k, k ∈ blocks (hdr file) -> sector_of d' k = sector_of d k) ->
  stored file dir d -> stored file dir d'.
Proof.
  intros Hf Hsame Hst. unfold stored, contents, raw in *.
  rewrite <- Hst. do 3 f_equal. apply list_fmap_ext. intros i k Hk. apply Hsame.
  by eapply list_elem_of_lookup_2.
Qed.

End store_specs.

(** ** Properties *)

(** C36: the table is a finite map from names (cut to nine characters) to
    sectors: [Find] looks a name up (-1 when it is not bound), [Add] binds a new
    name exactly when it is not bound and an entry is free, and [Remove] unbinds
    one exactly when it is bound; nothing else in the map changes, and the table
    stays well formed (no name twice). *)
Theorem directory_is_map nm s dir :
  wf dir -> c_string nm -> is_s32 s ->
  Find nm dir = Ok (default (-1) (lookup nm dir)) /\
  (exists ok dir', Add nm s dir = Ok (ok, dir') /\ wf dir' /\
    (ok = true <-> lookup nm dir = None /\ ~ full dir) /\
    (ok = false -> dir' = dir) /\
    (ok = true -> forall nm', lookup nm' dir' =
       if decide (key nm' = key nm) then Some s else lookup nm' dir)) /\
  (exists dir', Remove nm dir = Ok (bool_decide (is_Some (lookup nm dir)), dir') /\ wf dir' /\
    forall nm', lookup nm' dir' = if decide (key nm' = key nm) then None else lookup nm' dir).
Proof.
  intros Hd Hnm Hs. split; [by apply Find_lookup|]. split.
  - destruct (Add_lookup nm s dir Hd Hnm Hs) as (ok & dir' & E & Hw & _ & Hrest).
    by exists ok, dir'.
  - destruct (Remove_lookup nm dir Hd Hnm) as (dir' & E & Hw & _ & Hl). by exists dir'.
Qed.

(** A directory written to its file and fetched into any other table of
    the same size is the directory that was written, padding included, when the
    file has room for the table. *)
Theorem directory_roundtrip {D : Type} `{SectorStore D} new_chars file dir0 dir (d : D) :
  chars_ok new_chars -> file_ok (hdr file) -> store_ok d -> wf dir -> wf dir0 ->
  tableSize dir0 = tableSize dir -> room file (tableSize dir) ->
  exists n d' d'', WriteBack new_chars file dir d = Ok (n, d') /\
    FetchFrom new_chars file dir0 d' = Ok (dir, d'').
Proof.
  intros Hc Hf Hd Hw Hw0 Hsz Hroom.
  destruct (WriteBack_stored new_chars Hc file dir d Hf Hd Hw Hroom)
    as (d' & E & Hd' & Hst & _).
  destruct (FetchFrom_stored new_chars Hc file dir0 dir d' Hf Hd' Hw Hw0 Hsz Hroom Hst)
    as (d'' & E' & _).
  eexists _, d', d''. split; [exact E|exact E'].
Qed.

#[local] Existing Instance Disk.DiskWorld.DiskWorld_store.

(** A directory of one entry, and its file, for the witnesses. *)
Definition one_entry : Directory :=
  mkDirectory 1 [mkDirEntry true [1; 2; 3] 7 [97; 0; 0; 0; 0; 0; 0; 0; 0; 0] [4; 5]].

Lemma one_entry_ok : wf one_entry.
Proof.
  split; [done| |].
  - repeat constructor; done.
  - intros [|i] [|j] e e' Hi Hj _ _ _; done.
Qed.

Lemma directory_is_map_witness :
  Find [98] one_entry = Ok (-1) /\ Find [97] one_entry = Ok 7 /\
  exists dir', Add [98] 9 one_entry = Ok (false, dir').
Proof.
  destruct (directory_is_map [98] 9 one_entry one_entry_ok) as (Hf & (ok & dir' & Ha & _ & Hok & _) & _);
    [by apply Forall_singleton|done|].
  split; [exact Hf|]. split; [by vm_compute|]. exists dir'. destruct ok; [|exact Ha].
  exfalso. destruct (proj1 Hok eq_refl) as [_ Hnf]. apply Hnf.
  intros [|i] e Hi; [by injection Hi as <-|done].
Defined.

Lemma directory_roundtrip_witness :
  exists n d' d'', WriteBack (D := Disk.DiskWorld.DiskWorld) zero_chars two_blocks one_entry
      Disk.DiskWorld.blank_disk = Ok (n, d') /\
    FetchFrom zero_chars two_blocks one_entry d' = Ok (one_entry, d'').
Proof.
  apply (directory_roundtrip zero_chars two_blocks one_entry one_entry Disk.DiskWorld.blank_disk
    zero_chars_ok two_blocks_ok Disk.DiskWorld.blank_disk_ok one_entry_ok one_entry_ok eq_refl).
  done.
Defined.

End Directory.
