(* ===== verification/FileSys.v ===== *)
(** filesys/filesys.h, filesys.cc (the FILESYS implementation), and the
    FetchFrom and WriteBack of userprog/bitmap.cc: the Nachos file system.

    Module [FileSystem] formats a disk, creates, opens and removes files.
    [fs_ok] is its invariant: the free map and the directory are on the disk,
    every file has a well-formed header, no sector belongs to two owners, and
    exactly the owned sectors are marked.  The theorems show that formatting
    establishes it, that every operation keeps it, and what each does to the
    abstract map from names to files. *)

From S2P Require Import Prelude BitMap LinkedList MachineState Interrupt Disk.
From S2P Require Import FileHdr OpenFile Directory.

Module FileSystem.

Import FileHeader OpenFile Directory.

Definition FreeMapSector : Z := 0.
Definition DirectorySector : Z := 1.
Definition FreeMapFileSize : Z := NumSectors / BitMap.BitsInByte.
Definition NumDirEntries : Z := 10.
Definition DirectoryFileSize : Z := sizeof_DirectoryEntry * NumDirEntries.

Record FileSystem := mkFileSystem {
  freeMapFile : OpenFile;    (* bit map of free disk blocks, as a file *)
  directoryFile : OpenFile   (* root directory, as a file *)
}.

Section filesys.
Context {D : Type} `{SectorStore D}.

(** What [new] leaves in the objects it allocates: buffers, the words of a
    bit map, the entries of a directory and the fields of a header. *)
Context (new_chars : D -> Z -> list Z).
Context (new_words : D -> list Z).
Context (new_entries : D -> list DirectoryEntry).
Context (new_header : D -> FileHeader).

(** ** bitmap.cc: the free map in a file *)
Definition FetchFrom (file : OpenFile) (b : BitMap.BitMap) (d : D)
    : res (BitMap.BitMap * D) :=
  '(bs, d) ← ReadAt new_chars (BitMap.numWords b * 4) 0 file d;
  memory ← zcopy 0 bs (BitMap.to_bytes (BitMap.map b));
  Ok (BitMap.set_map (BitMap.of_bytes (length (BitMap.map b)) memory) b, d).

Definition WriteBack (file : OpenFile) (b : BitMap.BitMap) (d : D) : res (Z * D) :=
  WriteAt new_chars (BitMap.to_bytes (BitMap.map b)) (BitMap.numWords b * 4) 0 file d.

(** ** Operations *)

(** [FileSystem(format)] *)
Definition new (format : bool) (d : D) : res (FileSystem * D) :=
  if format then
    freeMap ← BitMap.new NumSectors (new_words d);
    let directory := Directory.new NumDirEntries (new_entries d) in
    freeMap ← BitMap.Mark FreeMapSector freeMap;
    freeMap ← BitMap.Mark DirectorySector freeMap;
    '(ok, mapHdr, freeMap) ← Allocate freeMap FreeMapFileSize (new_header d);
    ASSERT ok;;
    '(ok, dirHdr, freeMap) ← Allocate freeMap DirectoryFileSize (new_header d);
    ASSERT ok;;
    d ← FileHeader.WriteBack FreeMapSector mapHdr d;
    d ← FileHeader.WriteBack DirectorySector dirHdr d;
    '(mapFile, d) ← OpenFile.new FreeMapSector d;
    '(dirFile, d) ← OpenFile.new DirectorySector d;
    '(_, d) ← WriteBack mapFile freeMap d;
    '(_, d) ← Directory.WriteBack new_chars dirFile directory d;
    Ok (mkFileSystem mapFile dirFile, d)
  else
    '(mapFile, d) ← OpenFile.new FreeMapSector d;
    '(dirFile, d) ← OpenFile.new DirectorySector d;
    Ok (mkFileSystem mapFile dirFile, d).

Definition Create (nm : list Z) (initialSize : Z) (fs : FileSystem) (d : D)
    : res (bool * D) :=
  let directory := Directory.new NumDirEntries (new_entries d) in
  '(directory, d) ← Directory.FetchFrom new_chars (directoryFile fs) directory d;
  found ← Directory.Find nm directory;
  if negb (found =? -1) then Ok (false, d)
  else
    freeMap ← BitMap.new NumSectors (new_words d);
    '(freeMap, d) ← FetchFrom (freeMapFile fs) freeMap d;
    '(sector, freeMap) ← BitMap.Find freeMap;
    if sector =? -1 then Ok (false, d)
    else
      '(added, directory) ← Directory.Add nm sector directory;
      if negb added then Ok (false, d)
      else
        '(ok, h, freeMap) ← Allocate freeMap initialSize (new_header d);
        if negb ok then Ok (false, d)
        else
          d ← FileHeader.WriteBack sector h d;
          '(_, d) ← Directory.WriteBack new_chars (directoryFile fs) directory d;
          '(_, d) ← WriteBack (freeMapFile fs) freeMap d;
          Ok (true, d).

(** [Open]: [None] is NULL. *)
Definition Open (nm : list Z) (fs : FileSystem) (d : D) : res (option OpenFile * D) :=
  let directory := Directory.new NumDirEntries (new_entries d) in
  '(directory, d) ← Directory.FetchFrom new_chars (directoryFile fs) directory d;
  sector ← Directory.Find nm directory;
  if 0 <=? sector then
    '(f, d) ← OpenFile.new sector d; Ok (Some f, d)
  else Ok (None, d).

Definition Remove (nm : list Z) (fs : FileSystem) (d : D) : res (bool * D) :=
  let directory := Directory.new NumDirEntries (new_entries d) in
  '(directory, d) ← Directory.FetchFrom new_chars (directoryFile fs) directory d;
  sector ← Directory.Find nm directory;
  if sector =? -1 then Ok (false, d)
  else
    '(fileHdr, d) ← FileHeader.FetchFrom sector d;
    freeMap ← BitMap.new NumSectors (new_words d);
    '(freeMap, d) ← FetchFrom (freeMapFile fs) freeMap d;
    freeMap ← Deallocate freeMap fileHdr;
    freeMap ← BitMap.Clear sector freeMap;
    '(_, directory) ← Directory.Remove nm directory;
    '(_, d) ← WriteBack (freeMapFile fs) freeMap d;
    '(_, d) ← Directory.WriteBack new_chars (directoryFile fs) directory d;
    Ok (true, d).

(** [List]: the names printed. *)
Definition List (fs : FileSystem) (d : D) : res (list (list Z) * D) :=
  let directory := Directory.new NumDirEntries (new_entries d) in
  '(directory, d) ← Directory.FetchFrom new_chars (directoryFile fs) directory d;
  names ← Directory.List directory;
  Ok (names, d).

(** [Print]: the two headers, the free map and the directory. *)
Definition Print (fs : FileSystem) (d : D) :=
  '(bitHdr, d) ← FileHeader.FetchFrom FreeMapSector d;
  '(p1, d) ← FileHeader.Print bitHdr d;
  '(dirHdr, d) ← FileHeader.FetchFrom DirectorySector d;
  '(p2, d) ← FileHeader.Print dirHdr d;
  freeMap ← BitMap.new NumSectors (new_words d);
  '(freeMap, d) ← FetchFrom (freeMapFile fs) freeMap d;
  bits ← BitMap.Print freeMap;
  let directory := Directory.new NumDirEntries (new_entries d) in
  '(directory, d) ← Directory.FetchFrom new_chars (directoryFile fs) directory d;
  '(entries, d) ← Directory.Print directory d;
  Ok (p1, p2, bits, entries, d).

(** ** Assumptions on fresh memory: of the right size, with any contents *)
Definition fresh_ok : Prop :=
  chars_ok new_chars /\
  (forall d, Z.of_nat (length (new_words d)) = 32 /\ Forall is_u32 (new_words d)) /\
  (forall d, Z.of_nat (length (new_entries d)) = NumDirEntries /\
             Forall entry_ok (new_entries d)) /\
  (forall d, FileHeader.wf (new_header d)).

Context (Hfresh : fresh_ok).

Let Hchars : chars_ok new_chars := proj1 Hfresh.

(** ** The free map in its file *)
Definition map_stored (file : OpenFile) (b : BitMap.BitMap) (d : D) : Prop :=
  zslice 0 128 (contents (hdr file) d) = BitMap.to_bytes (BitMap.map b).

(** The free map of the disk. *)
Definition map_ok (b : BitMap.BitMap) : Prop :=
  BitMap.wf b /\ BitMap.numBits b = NumSectors.

Lemma map_words b : map_ok b ->
  BitMap.numWords b = 32 /\ length (BitMap.map b) = 32%nat /\
  length (BitMap.to_bytes (BitMap.map b)) = 128%nat.
Proof.
  intros [[_ Hn Hw _] Hb]. rewrite Hb in Hn.
  change (divRoundUp NumSectors BitMap.BitsInWord) with 32 in Hn.
  rewrite BitMap.length_to_bytes. lia.
Qed.

Lemma fresh_map d :
  exists b, BitMap.new NumSectors (new_words d) = Ok b /\ map_ok b /\
    BitMap.abs b = replicate (Z.to_nat NumSectors) false.
Proof.
  pose proof Hfresh as (_ & Hw & _). destruct (Hw d) as [Hl Hu].
  destruct (BitMap.new_spec NumSectors (new_words d)) as (b & Hb & Hwf & Hn & Ha);
    [done|by rewrite Hl|done|].
  by exists b.
Qed.

(** A file of 128 bytes, the size of the map. *)
Definition map_file (file : OpenFile) : Prop :=
  file_ok (hdr file) /\ FileLength (hdr file) = FreeMapFileSize.

Lemma map_clip file : map_file file -> clip 128 0 (hdr file) = 128.
Proof. intros [_ Hl]. unfold clip. rewrite Hl. done. Qed.

Lemma WriteBack_map file b (d : D) :
  map_file file -> store_ok d -> map_ok b ->
  exists n d', WriteBack file b d = Ok (n, d') /\ store_ok d' /\ map_stored file b d' /\
    forall k, is_sector k -> k ∉ blocks (hdr file) -> sector_of d' k = sector_of d k.
Proof.
  intros Hf Hd Hb. destruct (map_words b Hb) as (Hw & _ & Hl). unfold WriteBack.
  rewrite Hw. change (32 * 4) with 128.
  pose proof (map_clip file Hf) as Hclip. destruct Hf as [Hf Hlen].
  destruct (WriteAt_splice new_chars Hchars (BitMap.to_bytes (BitMap.map b)) 128 0 file d)
    as (d' & -> & Hd' & Hc & Hk); [done|done|lia|lia|lia|apply BitMap.to_bytes_byte|].
  rewrite Hclip in *. eexists _, d'. split; [done|]. split; [done|]. split; [|done].
  unfold map_stored. rewrite Hc.
  assert (zslice 0 128 (BitMap.to_bytes (BitMap.map b)) = BitMap.to_bytes (BitMap.map b)) as ->
    by (unfold zslice; change (Z.to_nat 0) with 0%nat; rewrite drop_0; apply take_ge; lia).
  replace 128 with (Z.of_nat (length (BitMap.to_bytes (BitMap.map b)))) by lia.
  apply zslice_zsplice; [lia|]. rewrite length_contents by done.
  unfold FileLength in Hlen. rewrite Hlen, Hl. done.
Qed.

Lemma FetchFrom_map file b0 b (d : D) :
  map_file file -> store_ok d -> map_ok b0 -> map_ok b -> map_stored file b d ->
  exists d', FetchFrom file b0 d = Ok (b, d') /\ same_store d d'.
Proof.
  intros Hf Hd Hb0 Hb Hst.
  destruct (map_words b Hb) as (Hw & Hlm & Hl), (map_words b0 Hb0) as (Hw0 & Hlm0 & Hl0).
  unfold FetchFrom. rewrite Hw0. change (32 * 4) with 128.
  pose proof (map_clip file Hf) as Hclip. destruct Hf as [Hf Hlen].
  destruct (ReadAt_slice new_chars Hchars 128 0 file d) as (d' & -> & Hs); [done|done|lia|lia|].
  cbn [bind]. rewrite Hclip, Hst, zcopy_Ok by lia. cbn [bind].
  assert (zsplice 0 (BitMap.to_bytes (BitMap.map b)) (BitMap.to_bytes (BitMap.map b0)) =
          BitMap.to_bytes (BitMap.map b)) as ->.
  { unfold zsplice. change (Z.to_nat 0) with 0%nat. cbn [take app].
    rewrite drop_ge by lia. by rewrite app_nil_r. }
  exists d'. split; [|done]. do 2 f_equal. rewrite Hlm0, <- Hlm.
  rewrite BitMap.of_to_bytes by apply Hb.
  destruct Hb as [_ Hn], Hb0 as [_ Hn0]. destruct b, b0. unfold BitMap.set_map.
  cbn [BitMap.numBits BitMap.numWords BitMap.map] in *. congruence.
Qed.

(** ** The invariant *)

(** The header stored in a sector. *)
Definition file_of (d : D) (sector : Z) : FileHeader := FileHeader.of_bytes (sector_of d sector).

(** The sectors of an entry: its header and its blocks. *)
Definition owned (d : D) (e : DirectoryEntry) : list Z :=
  if inUse e then sector e :: blocks (file_of d (sector e)) else [].

(** The sectors of the file system itself, and all the sectors in use. *)
Definition system_sectors (fs : FileSystem) : list Z :=
  FreeMapSector :: DirectorySector ::
    blocks (hdr (freeMapFile fs)) ++ blocks (hdr (directoryFile fs)).

Definition used (fs : FileSystem) (dir : Directory) (d : D) : list Z :=
  system_sectors fs ++ concat (owned d <$> table dir).

Record fs_ok (fs : FileSystem) (dir : Directory) (b : BitMap.BitMap) (d : D) : Prop := {
  ok_store : store_ok d;
  ok_mapfile : map_file (freeMapFile fs);
  ok_dirfile : file_ok (hdr (directoryFile fs)) /\
    FileLength (hdr (directoryFile fs)) = DirectoryFileSize;
  ok_maphdr : file_of d FreeMapSector = hdr (freeMapFile fs);
  ok_dirhdr : file_of d DirectorySector = hdr (directoryFile fs);
  ok_dir : Directory.wf dir /\ tableSize dir = NumDirEntries;
  ok_dirstored : stored (directoryFile fs) dir d;
  ok_map : map_ok b;
  ok_mapstored : map_stored (freeMapFile fs) b d;
  ok_files i e : table dir !! i = Some e -> inUse e = true -> file_ok (file_of d (sector e));
  ok_nodup : NoDup (used fs dir d);
  ok_sectors : Forall is_sector (used fs dir d);
  ok_marked k : is_sector k -> (BitMap.abs b !! Z.to_nat k = Some true <-> k ∈ used fs dir d)
}.

Lemma dir_room fs : FileLength (hdr (directoryFile fs)) = DirectoryFileSize ->
  room (directoryFile fs) NumDirEntries.
Proof. intros Hl. unfold room. rewrite Hl. done. Qed.

(** Everything in the invariant is read from the sectors. *)
Lemma fs_ok_same fs dir b (d d' : D) : same_store d d' -> fs_ok fs dir b d -> fs_ok fs dir b d'.
Proof.
  intros [Hd' Hsame] [Hst Hmf Hdf Hmh Hdh Hdir Hds Hm Hms Hfiles Hnd Hsec Hmk].
  assert (forall s, file_of d' s = file_of d s) as Hfo
    by (intros s; unfold file_of; by rewrite Hsame).
  assert (used fs dir d' = used fs dir d) as Hu.
  { unfold used. f_equal. f_equal. apply list_fmap_ext. intros i e _.
    unfold owned. by rewrite Hfo. }
  split; rewrite ?Hu, ?Hfo; try done.
  - apply (stored_same _ _ d); [apply Hdf|auto|done].
  - unfold map_stored, contents. rewrite (raw_same _ d d'); [done|apply Hmf|auto].
  - intros i e. rewrite Hfo. apply Hfiles.
Qed.

(** ** Loading the directory and the map *)
Lemma fresh_directory d :
  Directory.wf (Directory.new NumDirEntries (new_entries d)) /\
  tableSize (Directory.new NumDirEntries (new_entries d)) = NumDirEntries /\
  forall i e, table (Directory.new NumDirEntries (new_entries d)) !! i = Some e -> inUse e = false.
Proof.
  pose proof Hfresh as (_ & _ & He & _). destruct (He d) as [Hl Hok].
  assert (forall i e, table (Directory.new NumDirEntries (new_entries d)) !! i = Some e ->
    inUse e = false) as Hnot.
  { intros i e. unfold Directory.new. cbn [table]. rewrite list_lookup_fmap.
    destruct (new_entries d !! i); [|done]. cbn. by intros [= <-]. }
  split; [|done]. split; cbn [table tableSize Directory.new].
  - by rewrite length_fmap.
  - apply Forall_fmap. eapply Forall_impl; [exact Hok|]. intros e [? ? ? ? ? ? ?]. by split.
  - intros i j e e' Hi Hj Hu. by rewrite (Hnot i e Hi) in Hu.
Qed.

Lemma load_directory fs dir b (d d0 : D) :
  fs_ok fs dir b d ->
  exists d', Directory.FetchFrom new_chars (directoryFile fs)
      (Directory.new NumDirEntries (new_entries d0)) d = Ok (dir, d') /\ same_store d d'.
Proof.
  intros [Hst Hmf [Hdf Hlen] Hmh Hdh [Hdir Hsz] Hds _ _ _ _ _ _].
  destruct (fresh_directory d0) as (Hw0 & Hsz0 & _).
  apply FetchFrom_stored; try done. rewrite Hsz. by apply dir_room.
Qed.

Lemma load_map fs dir b (d d0 : D) :
  fs_ok fs dir b d ->
  exists b0 d', BitMap.new NumSectors (new_words d0) = Ok b0 /\
    FetchFrom (freeMapFile fs) b0 d = Ok (b, d') /\ same_store d d'.
Proof.
  intros Hok. destruct (fresh_map d0) as (b0 & Hb0 & Hm0 & _).
  destruct (FetchFrom_map (freeMapFile fs) b0 b d) as (d' & Hf & Hs);
    [apply Hok..|done|apply Hok|apply Hok|].
  by exists b0, d'.
Qed.

(** ** Separation: what writes to the system files leave alone *)

Lemma concat_update {A B} (f : A -> list B) l i x y :
  l !! i = Some x -> concat (f <$> <[i := y]> l) ++ f x ≡ₚ f y ++ concat (f <$> l).
Proof.
  revert i. induction l as [|z l IH]; intros [|i] Hi; simplify_eq/=.
  - rewrite <- app_assoc. apply Permutation_app_head, Permutation_app_comm.
  - rewrite <- app_assoc, (IH i Hi), !app_assoc.
    apply Permutation_app_tail, Permutation_app_comm.
Qed.

Lemma owned_used dir (d : D) i e k :
  table dir !! i = Some e -> k ∈ owned d e -> k ∈ concat (owned d <$> table dir).
Proof.
  intros Hi Hk. apply list_elem_of_In, in_concat. exists (owned d e).
  split; [|by apply list_elem_of_In]. apply list_elem_of_In, list_elem_of_fmap.
  exists e. split; [done|]. by eapply list_elem_of_lookup_2.
Qed.

Lemma owned_not_system fs dir b (d : D) i e k :
  fs_ok fs dir b d -> table dir !! i = Some e -> k ∈ owned d e -> k ∉ system_sectors fs.
Proof.
  intros Hok Hi Hk Hs. pose proof (ok_nodup _ _ _ _ Hok) as Hnd. unfold used in Hnd.
  apply NoDup_app in Hnd as (_ & Hdisj & _).
  apply (Hdisj k Hs). by eapply owned_used.
Qed.

Lemma owned_in_used fs dir (d : D) i e k :
  table dir !! i = Some e -> k ∈ owned d e -> k ∈ used fs dir d.
Proof. intros Hi Hk. unfold used. apply elem_of_app. right. by eapply owned_used. Qed.

Lemma system_in_used fs dir (d : D) k : k ∈ system_sectors fs -> k ∈ used fs dir d.
Proof. intros Hk. unfold used. apply elem_of_app. by left. Qed.

(** The blocks of the system files. *)
Definition system_blocks (fs : FileSystem) : list Z :=
  blocks (hdr (freeMapFile fs)) ++ blocks (hdr (directoryFile fs)).

Lemma system_blocks_in fs k : k ∈ system_blocks fs -> k ∈ system_sectors fs.
Proof. intros Hk. unfold system_sectors. by do 2 right. Qed.

Lemma system_sep fs dir b (d : D) :
  fs_ok fs dir b d ->
  (FreeMapSector ∉ system_blocks fs) /\ (DirectorySector ∉ system_blocks fs) /\
  (forall k, k ∈ blocks (hdr (freeMapFile fs)) -> k ∉ blocks (hdr (directoryFile fs))) /\
  is_sector FreeMapSector /\ is_sector DirectorySector.
Proof.
  intros Hok. pose proof (ok_nodup _ _ _ _ Hok) as Hnd. unfold used, system_sectors in Hnd.
  apply NoDup_app in Hnd as (Hnd & _ & _).
  apply NoDup_cons in Hnd as [H0 Hnd]. apply NoDup_cons in Hnd as [H1 Hnd].
  apply NoDup_app in Hnd as (_ & Hdisj & _).
  split_and!; try done. intros Hk. apply H0. by right.
Qed.

(** Sectors outside [extra] and the system files did not change. *)
Definition frame (fs : FileSystem) (extra : list Z) (d d' : D) : Prop :=
  forall k, is_sector k -> k ∉ extra -> k ∉ system_blocks fs -> sector_of d' k = sector_of d k.

Section framed.
Context (fs : FileSystem) (dir : Directory) (b : BitMap.BitMap) (d d' : D) (extra : list Z).
Context (Hok : fs_ok fs dir b d) (Hextra : forall k, k ∈ extra -> k ∉ used fs dir d).
Context (Hframe : frame fs extra d d').

Lemma used_sector k : k ∈ used fs dir d -> is_sector k.
Proof. intros Hk. pose proof (ok_sectors _ _ _ _ Hok) as Hs. rewrite Forall_forall in Hs. auto. Qed.

Lemma frame_owned_sector i e k :
  table dir !! i = Some e -> k ∈ owned d e -> sector_of d' k = sector_of d k.
Proof.
  intros Hi Hk. pose proof (owned_in_used fs dir d i e k Hi Hk) as Hu.
  apply Hframe; [by apply used_sector|intros Hx; by apply (Hextra k)|].
  intros Hx. by apply (owned_not_system fs dir b d i e k Hok Hi Hk), system_blocks_in.
Qed.

Lemma frame_file i e :
  table dir !! i = Some e -> inUse e = true ->
  file_of d' (sector e) = file_of d (sector e) /\
  contents (file_of d (sector e)) d' = contents (file_of d (sector e)) d.
Proof.
  intros Hi Hu. assert (forall k, k ∈ owned d e -> sector_of d' k = sector_of d k) as Hs
    by (intros k; by eapply frame_owned_sector).
  unfold owned in Hs. rewrite Hu in Hs. split.
  - unfold file_of. rewrite Hs by left. done.
  - unfold contents, raw. do 2 f_equal. apply list_fmap_ext. intros j k Hk.
    apply Hs. right. by eapply list_elem_of_lookup_2.
Qed.

Lemma frame_owned i e : table dir !! i = Some e -> owned d' e = owned d e.
Proof.
  intros Hi. unfold owned. destruct (inUse e) eqn:Hu; [|done].
  by destruct (frame_file i e Hi Hu) as [-> _].
Qed.

Lemma frame_headers :
  file_of d' FreeMapSector = hdr (freeMapFile fs) /\
  file_of d' DirectorySector = hdr (directoryFile fs).
Proof.
  destruct (system_sep fs dir b d Hok) as (H0 & H1 & _ & Hs0 & Hs1).
  assert (forall k, is_sector k -> k ∈ system_sectors fs -> k ∉ system_blocks fs ->
    file_of d' k = file_of d k) as Hk.
  { intros k Hk Hks Hkb. unfold file_of. f_equal. apply Hframe; [done| |done].
    intros Hx. by apply (Hextra k Hx), system_in_used. }
  rewrite !Hk by (done || (unfold system_sectors; by left) ||
                  (unfold system_sectors; right; by left)).
  split; [apply Hok|apply Hok].
Qed.

(** The sectors in use after one entry [x] of the table became [y]. *)
Lemma used_update i x y :
  table dir !! i = Some x ->
  used fs (mkDirectory (tableSize dir) (<[i := y]> (table dir))) d' ++ owned d x
    ≡ₚ owned d' y ++ used fs dir d.
Proof.
  intros Hi. unfold used. cbn [table].
  assert (owned d' <$> <[i:=y]> (table dir) = <[i := owned d' y]> (owned d <$> table dir)) as ->.
  { rewrite list_fmap_insert. f_equal. apply list_fmap_ext.
    intros j e Hj. by eapply frame_owned. }
  rewrite <- app_assoc.
  assert (concat (<[i := owned d' y]> (owned d <$> table dir)) ++ owned d x
    ≡ₚ owned d' y ++ concat (owned d <$> table dir)) as ->.
  { pose proof (concat_update (fun l : list Z => l) (owned d <$> table dir) i (owned d x)
      (owned d' y)) as Hc.
    rewrite !list_fmap_id in Hc. apply Hc. by rewrite list_lookup_fmap, Hi. }
  rewrite !app_assoc. by rewrite (Permutation_app_comm (system_sectors fs)).
Qed.

End framed.

(** ** Creating a file *)

(** The last steps of [Create], [Remove] and formatting: the map and the
    directory are written over the blocks of the system files. *)
Lemma write_system fs dir' b' (d d' : D) :
  map_file (freeMapFile fs) ->
  file_ok (hdr (directoryFile fs)) -> FileLength (hdr (directoryFile fs)) = DirectoryFileSize ->
  (forall k, k ∈ blocks (hdr (freeMapFile fs)) -> k ∉ blocks (hdr (directoryFile fs))) ->
  Directory.wf dir' -> tableSize dir' = NumDirEntries -> map_ok b' -> store_ok d ->
  exists n d1, Directory.WriteBack new_chars (directoryFile fs) dir' d = Ok (n, d1) /\
  exists m d2, WriteBack (freeMapFile fs) b' d1 = Ok (m, d2) /\
    store_ok d2 /\ stored (directoryFile fs) dir' d2 /\ map_stored (freeMapFile fs) b' d2 /\
    frame fs [] d d2.
Proof.
  intros Hmf Hdf Hdl Hdisj Hdir Hsz Hb Hd.
  destruct (WriteBack_stored new_chars Hchars (directoryFile fs) dir' d)
    as (d1 & E1 & Hd1 & Hs1 & Hf1); [done|done|done|rewrite Hsz; by apply dir_room|].
  destruct (WriteBack_map (freeMapFile fs) b' d1) as (m & d2 & E2 & Hd2 & Hs2 & Hf2); [done..|].
  eexists _, d1. split; [exact E1|]. exists m, d2. split; [done|]. split; [done|].
  split; [|split; [done|]].
  - apply (stored_same _ _ d1); [done| |done]. intros k Hk. apply Hf2.
    + pose proof (fo_valid _ Hdf) as Hv. rewrite Forall_forall in Hv. auto.
    + intros Hx. by apply (Hdisj k).
  - intros k Hk _ Hnk. unfold system_blocks in Hnk. rewrite elem_of_app in Hnk.
    rewrite Hf2, Hf1 by tauto. done.
Qed.

(** The same in the other order. *)
Lemma write_system' fs dir' b' (d : D) :
  map_file (freeMapFile fs) ->
  file_ok (hdr (directoryFile fs)) -> FileLength (hdr (directoryFile fs)) = DirectoryFileSize ->
  (forall k, k ∈ blocks (hdr (freeMapFile fs)) -> k ∉ blocks (hdr (directoryFile fs))) ->
  Directory.wf dir' -> tableSize dir' = NumDirEntries -> map_ok b' -> store_ok d ->
  exists m d1, WriteBack (freeMapFile fs) b' d = Ok (m, d1) /\
  exists n d2, Directory.WriteBack new_chars (directoryFile fs) dir' d1 = Ok (n, d2) /\
    store_ok d2 /\ stored (directoryFile fs) dir' d2 /\ map_stored (freeMapFile fs) b' d2 /\
    frame fs [] d d2.
Proof.
  intros Hmf Hdf Hdl Hdisj Hdir Hsz Hb Hd.
  destruct (WriteBack_map (freeMapFile fs) b' d) as (m & d1 & E1 & Hd1 & Hs1 & Hf1); [done..|].
  destruct (WriteBack_stored new_chars Hchars (directoryFile fs) dir' d1)
    as (d2 & E2 & Hd2 & Hs2 & Hf2); [done|done|done|rewrite Hsz; by apply dir_room|].
  exists m, d1. split; [done|]. eexists _, d2. split; [exact E2|]. split; [done|].
  split; [done|]. split.
  - unfold map_stored, contents in *. rewrite <- Hs1. do 2 f_equal.
    unfold raw. f_equal. apply list_fmap_ext. intros i k Hk.
    apply list_elem_of_lookup_2 in Hk. apply Hf2.
    + destruct Hmf as [Hmf _]. pose proof (fo_valid _ Hmf) as Hv.
      rewrite Forall_forall in Hv. auto.
    + intros Hx. by apply (Hdisj k).
  - intros k Hk _ Hnk. unfold system_blocks in Hnk. rewrite elem_of_app in Hnk.
    rewrite Hf2, Hf1 by tauto. done.
Qed.

(** A clear bit is a sector no one uses. *)
Lemma free_not_used fs dir b (d : D) k :
  fs_ok fs dir b d -> 0 <= k -> BitMap.abs b !! Z.to_nat k = Some false ->
  is_sector k /\ k ∉ used fs dir d.
Proof.
  intros Hok H0 Hb. assert (is_sector k) as Hk.
  { apply lookup_lt_Some in Hb. rewrite BitMap.length_abs in Hb.
    destruct (ok_map _ _ _ _ Hok) as [_ Hn]. rewrite Hn in Hb. unfold is_sector. lia. }
  split; [done|]. intros Hu. apply (ok_marked _ _ _ _ Hok k Hk) in Hu. congruence.
Qed.

(** A file that was allocated: its header describes it. *)
Lemma allocated_file_ok size h :
  0 <= size -> divRoundUp size SectorSize <= NumDirect -> size < 2 ^ 31 ->
  numBytes h = size -> numSectors h = divRoundUp size SectorSize ->
  Z.of_nat (length (dataSectors h)) = NumDirect -> NoDup (blocks h) ->
  Forall is_sector (blocks h) -> Forall is_s32 (dataSectors h) -> file_ok h.
Proof.
  intros H0 Hmax Hlt Hb Hn Hl Hnd Hv Hs.
  pose proof (divRoundUp_nonneg size SectorSize H0 eq_refl).
  change NumDirect with 30 in Hmax.
  split; try done; try congruence; [|change NumDirect with 30; lia].
  split; try done; unfold is_s32; lia.
Qed.

Lemma sectors_s32 l : Forall is_sector l -> Forall is_s32 l.
Proof.
  intros Hl. eapply Forall_impl; [exact Hl|]. intros k Hk.
  unfold is_sector, NumSectors, SectorsPerTrack, NumTracks in Hk. unfold is_s32. lia.
Qed.

(** The invariant after one entry of the table became [y], the sectors of [y]
    were written, and the system files updated. *)
Lemma fs_ok_update fs dir b (d d' : D) extra i x y b' :
  fs_ok fs dir b d -> (forall k, k ∈ extra -> k ∉ used fs dir d) -> frame fs extra d d' ->
  table dir !! i = Some x ->
  store_ok d' -> stored (directoryFile fs) (mkDirectory (tableSize dir) (<[i := y]> (table dir))) d' ->
  map_stored (freeMapFile fs) b' d' -> map_ok b' ->
  Directory.wf (mkDirectory (tableSize dir) (<[i := y]> (table dir))) ->
  (inUse y = true -> file_ok (file_of d' (sector y))) ->
  let dir' := mkDirectory (tableSize dir) (<[i := y]> (table dir)) in
  NoDup (used fs dir' d') -> Forall is_sector (used fs dir' d') ->
  (forall k, is_sector k -> (BitMap.abs b' !! Z.to_nat k = Some true <-> k ∈ used fs dir' d')) ->
  fs_ok fs dir' b' d'.
Proof.
  intros Hok Hextra Hfr Hi Hd' Hst Hms Hb' Hw Hy dir' Hnd Hsec Hmk.
  destruct (frame_headers fs dir b d d' extra Hok Hextra Hfr) as [Hh0 Hh1].
  pose proof Hok as [Hs Hmf Hdf Hmh Hdh [Hdir Hsz] Hds Hm Hmst Hfiles Hnd0 Hsec0 Hmk0].
  split; try done.
  intros j e Hj Hu. cbn [table dir'] in Hj.
  destruct (decide (j = i)) as [->|Hne].
  - rewrite list_lookup_insert_eq in Hj by (by eapply lookup_lt_Some).
    simplify_eq. by apply Hy.
  - rewrite list_lookup_insert_ne in Hj by done.
    destruct (frame_file fs dir b d d' extra Hok Hextra Hfr j e Hj Hu) as [-> _].
    by apply (Hfiles j e).
Qed.

(** When [Create] succeeds. *)
Definition can_create (nm : list Z) (size : Z) (dir : Directory) (b : BitMap.BitMap) : Prop :=
  lookup nm dir = None /\ ~ full dir /\
  1 + divRoundUp size SectorSize <= Z.of_nat (count_clear (BitMap.abs b)).

(** Files other than those of [extra] keep header and contents. *)
Definition files_kept (dir : Directory) (d d' : D) (nm : list Z) : Prop :=
  forall nm' s, key nm' <> key nm -> lookup nm' dir = Some s ->
    file_of d' s = file_of d s /\ contents (file_of d s) d' = contents (file_of d s) d.

Lemma frame_kept fs dir b (d d' : D) extra nm :
  fs_ok fs dir b d -> (forall k, k ∈ extra -> k ∉ used fs dir d) -> frame fs extra d d' ->
  files_kept dir d d' nm.
Proof.
  intros Hok Hextra Hfr nm' s _ Hl.
  apply lookup_Some in Hl as (i & e & Hi & Hu & _ & <-); [|apply Hok].
  exact (frame_file fs dir b d d' extra Hok Hextra Hfr i e Hi Hu).
Qed.

Lemma bound_sector fs dir b (d : D) nm s :
  fs_ok fs dir b d -> lookup nm dir = Some s -> is_sector s.
Proof.
  intros Hok Hl. apply lookup_Some in Hl as (i & e & Hi & Hu & _ & <-); [|apply Hok].
  apply (used_sector fs dir b d Hok). apply (owned_in_used fs dir d i e); [done|].
  unfold owned. rewrite Hu. by left.
Qed.

Lemma same_store_refl (d : D) : store_ok d -> same_store d d.
Proof. by split. Qed.

Lemma same_store_trans (d1 d2 d3 : D) : same_store d1 d2 -> same_store d2 d3 -> same_store d1 d3.
Proof. intros [_ H1] [Hd H2]. split; [done|]. intros k. by rewrite H2, H1. Qed.

(** The steps of [Create] up to the search for a sector. *)
Lemma Create_prefix nm size fs dir b (d : D) :
  fs_ok fs dir b d -> c_string nm ->
  exists d2, same_store d d2 /\
    Create nm size fs d =
      match lookup nm dir with
      | Some _ => Ok (false, d2)
      | None =>
          '(sector, freeMap) ← BitMap.Find b;
          if sector =? -1 then Ok (false, d2)
          else
            '(added, directory) ← Directory.Add nm sector dir;
            if negb added then Ok (false, d2)
            else
              '(ok, h, freeMap) ← Allocate freeMap size (new_header d2);
              if negb ok then Ok (false, d2)
              else
                d ← FileHeader.WriteBack sector h d2;
                '(_, d) ← Directory.WriteBack new_chars (directoryFile fs) directory d;
                '(_, d) ← WriteBack (freeMapFile fs) freeMap d;
                Ok (true, d)
      end.
Proof.
  intros Hok Hnm. unfold Create.
  destruct (load_directory fs dir b d d Hok) as (d1 & -> & Hs1). cbn [bind].
  pose proof (fs_ok_same _ _ _ _ _ Hs1 Hok) as Hok1.
  rewrite Find_lookup by (done || apply Hok). cbn [bind].
  destruct (lookup nm dir) as [s|] eqn:El.
  - exists d1. split; [done|]. pose proof (bound_sector _ _ _ _ _ _ Hok El) as [H0 _].
    cbn [default from_option]. unfold id. destruct (Z.eqb_spec s (-1)); [lia|done].
  - change (negb (default (-1) None =? -1)) with false. cbv iota.
    destruct (load_map fs dir b d1 d1 Hok1) as (b0 & d2 & -> & Hf & Hs2). cbn [bind].
    rewrite Hf. cbn [bind]. exists d2. split; [by eapply same_store_trans|done].
Qed.

(** [Create] refuses, and changes nothing, unless the name is new, an entry
    is free, and there is room for the header and the data. *)
Lemma Create_refused nm size fs dir b (d : D) :
  fs_ok fs dir b d -> c_string nm -> 0 <= size -> ~ can_create nm size dir b ->
  exists d', Create nm size fs d = Ok (false, d') /\ same_store d d'.
Proof.
  intros Hok Hnm Hsize Hno.
  destruct (Create_prefix nm size fs dir b d Hok Hnm) as (d2 & Hs2 & ->).
  destruct (lookup nm dir) as [s|] eqn:El; [by exists d2|].
  destruct (ok_map _ _ _ _ Hok) as [Hb Hnb].
  pose proof (BitMap.Find_spec b Hb) as Hfind.
  pose proof (divRoundUp_nonneg size SectorSize Hsize eq_refl).
  destruct (first_clear (BitMap.abs b)) as [n|] eqn:Ef.
  2: { rewrite Hfind. cbn [bind]. by exists d2. }
  destruct Hfind as (b1 & -> & Hb1 & Hn1 & Hlt & Ha1). cbn [bind].
  apply first_clear_Some in Ef as [Ef _]. pose proof (count_clear_set _ _ Ef) as Hcc.
  rewrite <- Ha1 in Hcc.
  destruct (Z.eqb_spec (Z.of_nat n) (-1)); [lia|].
  destruct (Add_lookup nm (Z.of_nat n) dir) as (ok & dir' & -> & _ & _ & Hiff & _);
    [apply Hok|done| |].
  { rewrite Hnb in Hlt. unfold NumSectors, SectorsPerTrack, NumTracks in Hlt.
    unfold is_s32. lia. }
  cbn [bind]. destruct ok; cbn [negb]; [|by exists d2].
  destruct (proj1 Hiff eq_refl) as [_ Hnf].
  rewrite Allocate_full.
  - cbn [bind negb]. by exists d2.
  - done.
  - destruct (Z_lt_le_dec (Z.of_nat (count_clear (BitMap.abs b1))) (divRoundUp size SectorSize));
      [done|]. exfalso. apply Hno. split; [done|]. split; [done|]. lia.
Qed.

(** The data of a successful creation: the sector of the header, the header,
    and the map with both marked. *)
Lemma Create_allocates size fs dir b (d d2 : D) :
  fs_ok fs dir b d -> 0 <= size -> divRoundUp size SectorSize <= NumDirect ->
  1 + divRoundUp size SectorSize <= Z.of_nat (count_clear (BitMap.abs b)) ->
  exists s b1 h b2, BitMap.Find b = Ok (s, b1) /\
    Allocate b1 size (new_header d2) = Ok (true, h, b2) /\
    file_ok h /\ numBytes h = size /\ map_ok b2 /\
    (forall k, k ∈ s :: blocks h -> is_sector k /\ k ∉ used fs dir d) /\
    NoDup (s :: blocks h) /\
    (forall k, is_sector k -> (BitMap.abs b2 !! Z.to_nat k = Some true <->
       k ∈ s :: blocks h \/ BitMap.abs b !! Z.to_nat k = Some true)).
Proof.
  intros Hok H0 Hmax Hroom. destruct (ok_map _ _ _ _ Hok) as [Hb Hnb].
  pose proof (divRoundUp_nonneg size SectorSize H0 eq_refl) as Hn0.
  pose proof (BitMap.Find_spec b Hb) as Hfind.
  destruct (first_clear_is_Some (BitMap.abs b)) as [n Ef]; [lia|]. rewrite Ef in Hfind.
  destruct Hfind as (b1 & Ef1 & Hb1 & Hn1 & Hlt & Ha1).
  apply first_clear_Some in Ef as [Ef _]. pose proof (count_clear_set _ _ Ef) as Hcc.
  rewrite <- Ha1 in Hcc.
  pose proof Hfresh as (_ & _ & _ & Hh). specialize (Hh d2).
  destruct (Allocate_fits b1 size (new_header d2)) as (h & b2 & Ea & Hbytes & Hsecs & Hlen &
    [Hnd Hf] & Hbl & Hds & Hb2 & Hn2 & Ha2); [done|apply Hh|done|done|lia|].
  rewrite Forall_forall in Hf.
  assert (forall k, k ∈ blocks h -> 0 <= k /\ k <> Z.of_nat n /\
    BitMap.abs b !! Z.to_nat k = Some false) as Hfree.
  { intros k Hk. destruct (Hf k Hk) as [Hk0 Hkb]. split; [done|].
    rewrite Ha1 in Hkb. destruct (decide (Z.to_nat k = n)) as [Heq|Hne].
    - exfalso. rewrite Heq, list_lookup_insert_eq in Hkb by (by eapply lookup_lt_Some). done.
    - rewrite list_lookup_insert_ne in Hkb by done. split; [lia|done]. }
  assert (forall k, k ∈ Z.of_nat n :: blocks h -> is_sector k /\ k ∉ used fs dir d) as Hnew.
  { intros k Hk. apply elem_of_cons in Hk as [->|Hk].
    - apply (free_not_used fs dir b d); [done|lia|by rewrite Nat2Z.id].
    - destruct (Hfree k Hk) as (? & _ & ?). by apply (free_not_used fs dir b d). }
  assert (Forall is_sector (blocks h)) as Hval
    by (apply Forall_forall; intros k Hk; apply Hnew; by right).
  exists (Z.of_nat n), b1, h, b2. split; [done|]. split; [done|]. split.
  { apply (allocated_file_ok size); try done.
    - change NumDirect with 30 in Hmax. pose proof (divRoundUp_spec size SectorSize H0 eq_refl).
      unfold SectorSize in *. lia.
    - rewrite Hds. apply Forall_app_2; [by apply sectors_s32|]. apply Forall_drop, Hh. }
  split; [done|]. split; [split; [done|congruence]|]. split; [done|]. split.
  - apply NoDup_cons. split; [|done]. intros Hk. by destruct (Hfree _ Hk) as (_ & ? & _).
  - intros k Hk. rewrite Ha2, lookup_set_all by (apply Forall_forall; intros; by apply Hfree).
    assert (Z.to_nat k < length (BitMap.abs b))%nat as Hkl.
    { rewrite BitMap.length_abs, Hnb. unfold is_sector in Hk. lia. }
    rewrite Ha1, length_insert, Z2Nat.id by apply Hk.
    rewrite elem_of_cons. destruct (decide (k ∈ blocks h)) as [Hin|Hout].
    + rewrite decide_True by done. tauto.
    + destruct (decide (Z.to_nat k = n)) as [Heq|Hne].
      * rewrite Heq, list_lookup_insert_eq by (by rewrite <- Heq).
        split; [|done]. intros _. left. left. unfold is_sector in Hk. lia.
      * rewrite list_lookup_insert_ne by done. split; [tauto|].
        intros [[->|?]|?]; [|done..]. by rewrite Nat2Z.id in Hne.
Qed.

(** [Create] makes a file of the requested size under the new name; the other
    files keep their names, headers and contents. *)
Lemma Create_succeeds nm size fs dir b (d : D) :
  fs_ok fs dir b d -> c_string nm -> 0 <= size -> divRoundUp size SectorSize <= NumDirect ->
  can_create nm size dir b ->
  exists d' dir' b' s, Create nm size fs d = Ok (true, d') /\ fs_ok fs dir' b' d' /\
    (forall nm', lookup nm' dir' = if decide (key nm' = key nm) then Some s else lookup nm' dir) /\
    numBytes (file_of d' s) = size /\ files_kept dir d d' nm.
Proof.
  intros Hok Hnm H0 Hmax (Hnone & Hnf & Hroom).
  destruct (Create_prefix nm size fs dir b d Hok Hnm) as (d2 & Hs2 & ->). rewrite Hnone.
  pose proof (fs_ok_same _ _ _ _ _ Hs2 Hok) as Hok2.
  destruct (Create_allocates size fs dir b d2 d2 Hok2 H0 Hmax Hroom)
    as (s & b1 & h & b2 & -> & Ea & Hh & Hbytes & Hb2 & Hnew & Hnd & Hmk). cbn [bind].
  assert (is_sector s) as Hss by (apply Hnew; by left).
  assert (s ∉ used fs dir d2) as Hsu by (apply Hnew; by left).
  destruct (Z.eqb_spec s (-1)) as [->|]; [by destruct Hss|].
  assert (is_s32 s) as Hs32.
  { unfold is_sector, NumSectors, SectorsPerTrack, NumTracks in Hss. unfold is_s32. lia. }
  destruct (Add_lookup nm s dir) as (ok & dir' & Eadd & Hw' & Hsz' & Hiff & _ & Hl');
    [apply Hok|done..|].
  assert (ok = true) as -> by (by apply Hiff). specialize (Hl' eq_refl).
  rewrite Eadd. cbn [bind negb]. rewrite Ea. cbn [bind negb].
  destruct (Add_shape nm s dir dir') as (i & e & Hi & Hu & ->); [apply Hok|done..|].
  set (y := mkDirEntry _ _ _ _ _) in *.
  destruct (FileHeader.WriteBack_spec s h d2) as (d3 & -> & Hd3 & Hf3);
    [apply Hok2|done|apply Hh|]. cbn [bind].
  destruct (system_sep fs dir b d2 Hok2) as (Hsep0 & Hsep1 & Hdisj & Hsec0 & Hsec1).
  destruct (write_system fs (mkDirectory (tableSize dir) (<[i:=y]> (table dir))) b2 d3 d3)
    as (n4 & d4 & -> & m & d5 & E5 & Hd5 & Hst5 & Hms5 & Hfr5);
    [apply Hok2|apply Hok2|apply Hok2|done|done|apply Hok|done|done|].
  cbn [bind]. rewrite E5. cbn [bind].
  assert (frame fs [s] d2 d5) as Hfr.
  { intros k Hk Hks Hkb. rewrite Hfr5 by (done || apply not_elem_of_nil).
    rewrite Hf3 by done. destruct (Z.eqb_spec k s) as [->|]; [|done].
    exfalso. apply Hks. by left. }
  assert (forall k, k ∈ [s] -> k ∉ used fs dir d2) as Hextra.
  { intros k Hk. apply list_elem_of_singleton in Hk as ->. done. }
  assert (file_of d5 s = h) as Hfs.
  { unfold file_of. rewrite Hfr5; [|done|apply not_elem_of_nil|].
    - rewrite Hf3, Z.eqb_refl by done. apply of_to_header, Hh.
    - intros Hx. apply Hsu, system_in_used. by apply system_blocks_in. }
  assert (owned d2 e = []) as Hoe by (unfold owned; by rewrite Hu).
  assert (owned d5 y = s :: blocks h) as Hoy.
  { unfold owned. cbn [inUse sector y]. by rewrite Hfs. }
  pose proof (used_update fs dir b d2 d5 [s] Hok2 Hextra Hfr i e y Hi) as Hperm.
  rewrite Hoe, Hoy, app_nil_r in Hperm.
  exists d5, (mkDirectory (tableSize dir) (<[i:=y]> (table dir))), b2, s.
  split; [done|]. split; [|split; [done|split; [by rewrite Hfs|]]].
  - apply (fs_ok_update fs dir b d2 d5 [s] i e y b2); try done.
    + intros _. change (sector y) with s. by rewrite Hfs.
    + rewrite Hperm. apply NoDup_app. split; [done|]. split.
      * intros k Hk. by apply Hnew.
      * apply Hok2.
    + rewrite Hperm. apply Forall_app_2; [|apply Hok2].
      apply Forall_forall. intros k Hk. by apply Hnew.
    + intros k Hk. rewrite Hperm, elem_of_app, Hmk by done.
      by rewrite (ok_marked _ _ _ _ Hok2 k Hk).
  - intros nm' s' Hk Hl. destruct (frame_kept fs dir b d2 d5 [s] nm Hok2 Hextra Hfr nm' s' Hk Hl)
      as [E1 E2]. destruct Hs2 as [_ Hsame].
    assert (file_of d2 s' = file_of d s') as Ef by (unfold file_of; by rewrite Hsame).
    rewrite Ef in *. split; [done|]. rewrite E2. unfold contents, raw. do 2 f_equal.
    apply list_fmap_ext. intros j k _. apply Hsame.
Qed.

(** A size that no header can describe is not refused: with a new name,
    a free entry and enough free sectors, [Create] of more than 3,840 bytes
    stores past the end of the header's table, which is undefined behaviour. *)
Theorem Create_oversized nm size fs dir b (d : D) :
  fs_ok fs dir b d -> c_string nm -> MaxFileSize < size -> can_create nm size dir b ->
  Create nm size fs d = UB.
Proof.
  intros Hok Hnm Hsize (Hnone & Hnf & Hroom).
  assert (0 <= size) as H0 by (unfold MaxFileSize, NumDirect, SectorSize in Hsize; dlia).
  destruct (Create_prefix nm size fs dir b d Hok Hnm) as (d2 & Hs2 & ->). rewrite Hnone.
  destruct (ok_map _ _ _ _ Hok) as [Hb Hnb].
  pose proof (divRoundUp_spec size SectorSize H0 eq_refl) as Hdiv.
  pose proof (BitMap.Find_spec b Hb) as Hfind.
  destruct (first_clear_is_Some (BitMap.abs b)) as [n Ef].
  { pose proof (divRoundUp_nonneg size SectorSize H0 eq_refl). lia. }
  rewrite Ef in Hfind.
  destruct Hfind as (b1 & -> & Hb1 & Hn1 & Hlt & Ha1). cbn [bind].
  apply first_clear_Some in Ef as [Ef _]. pose proof (count_clear_set _ _ Ef) as Hcc.
  rewrite <- Ha1 in Hcc.
  destruct (Z.eqb_spec (Z.of_nat n) (-1)); [lia|].
  destruct (Add_lookup nm (Z.of_nat n) dir) as (ok & dir' & -> & _ & _ & Hiff & _);
    [apply Hok|done| |].
  { rewrite Hnb in Hlt. unfold NumSectors, SectorsPerTrack, NumTracks in Hlt.
    unfold is_s32. lia. }
  assert (ok = true) as -> by (by apply Hiff). cbn [bind negb].
  pose proof Hfresh as (_ & _ & _ & Hh).
  rewrite Allocate_overrun; [done|done|apply Hh|done|].
  unfold MaxFileSize in Hsize. change SectorSize with 128 in *.
  change NumDirect with 30 in *. lia.
Qed.

(** ** Opening and removing files *)

(** [Open] gives the header of the file bound to the name, and NULL for a
    name that is not bound; it changes nothing. *)
Lemma Open_lookup nm fs dir b (d : D) :
  fs_ok fs dir b d -> c_string nm ->
  exists d', Open nm fs d =
    Ok ((fun s => mkOpenFile (file_of d s) 0) <$> lookup nm dir, d') /\ same_store d d'.
Proof.
  intros Hok Hnm. unfold Open.
  destruct (load_directory fs dir b d d Hok) as (d1 & -> & Hs1). cbn [bind].
  rewrite Find_lookup by (done || apply Hok). cbn [bind].
  destruct (lookup nm dir) as [s|] eqn:El; cbn [default from_option]; unfold id.
  - pose proof (bound_sector _ _ _ _ _ _ Hok El) as Hsec.
    destruct (Z.leb_spec 0 s) as [_|Hlt]; [|destruct Hsec; lia].
    unfold OpenFile.new.
    destruct (FileHeader.FetchFrom_spec s d1) as (d2 & -> & Hd2 & Hs2); [apply Hs1|done|].
    cbn [bind]. exists d2. split.
    + cbn. unfold file_of. by rewrite (proj2 Hs1).
    + eapply same_store_trans; [exact Hs1|]. by split.
  - change (0 <=? -1) with false. by exists d1.
Qed.

Lemma Remove_unbound nm fs dir b (d : D) :
  fs_ok fs dir b d -> c_string nm -> lookup nm dir = None ->
  exists d', Remove nm fs d = Ok (false, d') /\ same_store d d'.
Proof.
  intros Hok Hnm El. unfold Remove.
  destruct (load_directory fs dir b d d Hok) as (d1 & -> & Hs1). cbn [bind].
  rewrite Find_lookup by (done || apply Hok). cbn [bind]. rewrite El.
  by exists d1.
Qed.

(** The map after the sectors of a file were freed. *)
Lemma free_file fs dir b (d : D) i e :
  fs_ok fs dir b d -> table dir !! i = Some e -> inUse e = true ->
  exists b1 b2, Deallocate b (file_of d (sector e)) = Ok b1 /\
    BitMap.Clear (sector e) b1 = Ok b2 /\ map_ok b2 /\
    (forall k, is_sector k -> (BitMap.abs b2 !! Z.to_nat k = Some true <->
       (k ∉ owned d e) /\ BitMap.abs b !! Z.to_nat k = Some true)).
Proof.
  intros Hok Hi Hu. set (h := file_of d (sector e)).
  pose proof (ok_files _ _ _ _ Hok i e Hi Hu) as Hh. fold h in Hh.
  destruct (ok_map _ _ _ _ Hok) as [Hb Hnb].
  assert (owned d e = sector e :: blocks h) as Ho by (unfold owned; by rewrite Hu).
  assert (forall k, k ∈ sector e :: blocks h -> is_sector k /\
    BitMap.abs b !! Z.to_nat k = Some true) as Hmarked.
  { intros k Hk. assert (k ∈ used fs dir d) as Hku
      by (apply (owned_in_used fs dir d i e); [done|by rewrite Ho]).
    pose proof (used_sector fs dir b d Hok k Hku) as Hks. split; [done|].
    by apply (ok_marked _ _ _ _ Hok). }
  assert (Forall (fun n => 0 <= n) (blocks h)) as Hpos.
  { apply Forall_forall. intros k Hk. apply (Hmarked k). by right. }
  destruct (Deallocate_spec b h) as (b1 & Ed & Hb1 & Hn1 & Ha1); [done| |apply Hh| |].
  { pose proof (length_blocks h Hh) as Hl. unfold blocks in Hl. rewrite length_take in Hl. lia. }
  { apply Forall_forall. intros k Hk. destruct (Hmarked k) as [[? _] ?]; [by right|done]. }
  destruct (Hmarked (sector e)) as [Hse _]; [by left|].
  destruct (BitMap.Clear_abs b1 (sector e)) as (b2 & Ec & Hb2 & Hn2 & Ha2);
    [done|rewrite Hn1, Hnb; apply Hse|].
  exists b1, b2. split; [done|]. split; [done|]. split; [split; [done|congruence]|].
  intros k Hk. rewrite Ha2, Ho, elem_of_cons.
  assert (Z.to_nat k < length (BitMap.abs b))%nat as Hkl.
  { rewrite BitMap.length_abs, Hnb. unfold is_sector in Hk. lia. }
  destruct (decide (k = sector e)) as [->|Hne].
  - rewrite list_lookup_insert_eq by (by rewrite Ha1, length_set_all). split; [done|tauto].
  - rewrite list_lookup_insert_ne by (unfold is_sector in *; lia).
    rewrite Ha1, lookup_set_all, Z2Nat.id by (done || apply Hk).
    destruct (decide (k ∈ blocks h)).
    + rewrite decide_True by done. split; [done|tauto].
    + tauto.
Qed.

(** [Remove] unbinds the name and frees its sectors; the other files keep
    their names, headers and contents. *)
Lemma Remove_bound nm s fs dir b (d : D) :
  fs_ok fs dir b d -> c_string nm -> lookup nm dir = Some s ->
  exists d' dir' b', Remove nm fs d = Ok (true, d') /\ fs_ok fs dir' b' d' /\
    (forall nm', lookup nm' dir' = if decide (key nm' = key nm) then None else lookup nm' dir) /\
    (forall k, k ∈ used fs dir d <-> k ∈ used fs dir' d' \/ k ∈ s :: blocks (file_of d s)) /\
    files_kept dir d d' nm.
Proof.
  intros Hok Hnm El. unfold Remove.
  destruct (load_directory fs dir b d d Hok) as (d1 & -> & Hs1). cbn [bind].
  rewrite Find_lookup by (done || apply Hok). cbn [bind]. rewrite El.
  cbn [default from_option]. unfold id.
  pose proof (bound_sector _ _ _ _ _ _ Hok El) as Hsec.
  destruct (Z.eqb_spec s (-1)) as [->|_]; [by destruct Hsec|].
  destruct (FileHeader.FetchFrom_spec s d1) as (d2 & -> & Hd2 & Hs2); [apply Hs1|done|].
  cbn [bind].
  assert (same_store d d2) as Hs12 by (eapply same_store_trans; [exact Hs1|by split]).
  pose proof (fs_ok_same _ _ _ _ _ Hs12 Hok) as Hok2.
  destruct (load_map fs dir b d2 d2 Hok2) as (b0 & d3 & -> & Hf3 & Hs3). cbn [bind].
  rewrite Hf3. cbn [bind].
  assert (same_store d d3) as Hs13 by (by eapply same_store_trans).
  pose proof (fs_ok_same _ _ _ _ _ Hs13 Hok) as Hok3.
  destruct (Remove_lookup nm dir) as (dir' & Er & Hw' & Hsz' & Hl'); [apply Hok|done|].
  rewrite El, bool_decide_eq_true_2 in Er by done.
  destruct (Remove_shape nm dir dir' s) as (i & e & Hi & Hu & <- & Hk & ->); [apply Hok|done..|].
  assert (FileHeader.of_bytes (sector_of d1 (sector e)) = file_of d3 (sector e)) as ->.
  { unfold file_of. by rewrite (proj2 Hs1), (proj2 Hs13). }
  destruct (free_file fs dir b d3 i e Hok3 Hi Hu) as (b1 & b2 & -> & Hcl & Hb2 & Hmk).
  cbn [bind]. rewrite Hcl. cbn [bind]. rewrite Er. cbn [bind].
  set (y := mkDirEntry _ _ _ _ _) in *.
  destruct (system_sep fs dir b d3 Hok3) as (_ & _ & Hdisj & _ & _).
  destruct (write_system' fs (mkDirectory (tableSize dir) (<[i:=y]> (table dir))) b2 d3)
    as (m & d4 & -> & n & d5 & E5 & Hd5 & Hst5 & Hms5 & Hfr5);
    [apply Hok3|apply Hok3|apply Hok3|done|done|apply Hok|done|apply Hok3|].
  cbn [bind]. rewrite E5. cbn [bind].
  assert (forall k, k ∈ @nil Z -> k ∉ used fs dir d3) as Hextra
    by (intros k Hk'; by apply elem_of_nil in Hk').
  pose proof (used_update fs dir b d3 d5 [] Hok3 Hextra Hfr5 i e y Hi) as Hperm.
  assert (owned d5 y = []) as Hoy by done. rewrite Hoy in Hperm. cbn [app] in Hperm.
  set (dir' := mkDirectory (tableSize dir) (<[i:=y]> (table dir))) in *.
  assert (used fs dir d3 = used fs dir d) as Hud.
  { unfold used. do 2 f_equal. apply list_fmap_ext. intros j e' _. unfold owned, file_of.
    by rewrite (proj2 Hs13). }
  assert (owned d3 e = sector e :: blocks (file_of d (sector e))) as Hoe.
  { unfold owned, file_of. by rewrite Hu, (proj2 Hs13). }
  pose proof (ok_nodup _ _ _ _ Hok3) as Hnd. rewrite <- Hperm in Hnd.
  apply NoDup_app in Hnd as (Hnd1 & Hdis & _).
  pose proof (ok_sectors _ _ _ _ Hok3) as Hsecs. rewrite <- Hperm in Hsecs.
  apply Forall_app in Hsecs as [Hsecs _].
  exists d5, dir', b2. split; [done|]. split; [|split; [done|split]].
  - apply (fs_ok_update fs dir b d3 d5 [] i e y b2); try done.
    intros k Hks. rewrite Hmk by done. rewrite (ok_marked _ _ _ _ Hok3 k Hks).
    rewrite <- Hperm, elem_of_app. specialize (Hdis k). tauto.
  - intros k. rewrite <- Hud, <- Hperm, elem_of_app, Hoe. done.
  - intros nm' s' Hk' Hl. destruct (frame_kept fs dir b d3 d5 [] nm Hok3 Hextra Hfr5 nm' s' Hk' Hl)
      as [E1 E2].
    assert (file_of d3 s' = file_of d s') as Ef by (unfold file_of; by rewrite (proj2 Hs13)).
    rewrite Ef in *. split; [done|]. rewrite E2. unfold contents, raw. do 2 f_equal.
    apply list_fmap_ext. intros j k _. apply (proj2 Hs13).
Qed.

(** ** Formatting *)

(** A file of [size] bytes allocated in a map with room for it. *)
Lemma allocate_file b size (d : D) :
  map_ok b -> 0 <= size -> divRoundUp size SectorSize <= NumDirect ->
  divRoundUp size SectorSize <= Z.of_nat (count_clear (BitMap.abs b)) ->
  exists h b', Allocate b size (new_header d) = Ok (true, h, b') /\
    file_ok h /\ numBytes h = size /\ map_ok b' /\ free_in (BitMap.abs b) (blocks h) /\
    BitMap.abs b' = set_all true (blocks h) (BitMap.abs b) /\
    Z.of_nat (count_clear (BitMap.abs b')) =
      Z.of_nat (count_clear (BitMap.abs b)) - divRoundUp size SectorSize.
Proof.
  intros [Hb Hnb] H0 Hmax Hroom. pose proof Hfresh as (_ & _ & _ & Hh). specialize (Hh d).
  destruct (Allocate_fits b size (new_header d)) as (h & b' & Ea & Hbytes & Hsecs & Hlen &
    Hfree & Hbl & Hds & Hb' & Hn' & Ha'); [done|apply Hh|done|done|done|].
  exists h, b'. split; [done|]. split.
  - pose proof (divRoundUp_spec size SectorSize H0 eq_refl) as Hdr.
    assert (Forall is_sector (blocks h)) as Hval.
    { apply Forall_forall. intros k Hk. pose proof (free_in_lookup _ _ _ Hfree Hk) as Hkl.
      rewrite BitMap.length_abs, Hnb in Hkl. unfold is_sector. lia. }
    apply (allocated_file_ok size); try done.
    + change NumDirect with 30 in Hmax. unfold SectorSize in *. lia.
    + apply Hfree.
    + rewrite Hds. apply Forall_app_2; [by apply sectors_s32|]. apply Forall_drop, Hh.
  - split; [done|]. split; [split; [done|congruence]|]. split; [done|]. split; [done|].
    rewrite Ha'. pose proof (count_clear_set_all _ _ Hfree). rewrite Hsecs in Hbl. lia.
Qed.

(** The map of a new file system before its two files are allocated. *)
Lemma format_map (d : D) :
  exists b0 b1 b2, BitMap.new NumSectors (new_words d) = Ok b0 /\
    BitMap.Mark FreeMapSector b0 = Ok b1 /\ BitMap.Mark DirectorySector b1 = Ok b2 /\
    map_ok b2 /\ free_in (replicate (Z.to_nat NumSectors) false) [FreeMapSector; DirectorySector] /\
    BitMap.abs b2 =
      set_all true [FreeMapSector; DirectorySector] (replicate (Z.to_nat NumSectors) false).
Proof.
  destruct (fresh_map d) as (b0 & E0 & [Hb0 Hn0] & Ha0).
  destruct (BitMap.Mark_abs b0 FreeMapSector Hb0) as (b1 & E1 & Hb1 & Hn1 & Ha1);
    [by rewrite Hn0|].
  destruct (BitMap.Mark_abs b1 DirectorySector Hb1) as (b2 & E2 & Hb2 & Hn2 & Ha2);
    [by rewrite Hn1, Hn0|].
  exists b0, b1, b2. do 3 (split; [done|]). split; [split; [done|congruence]|]. split.
  - split.
    + apply NoDup_cons. split; [|apply NoDup_singleton]. by intros ?%list_elem_of_singleton.
    + repeat apply Forall_cons_2; [..|apply Forall_nil_2]; (split; [done|]);
        apply lookup_replicate_2; unfold FreeMapSector, DirectorySector, NumSectors,
          SectorsPerTrack, NumTracks; lia.
  - by rewrite Ha2, Ha1, Ha0.
Qed.

(** Both files allocated: their blocks and the two header sectors are distinct
    free sectors of the empty map, and exactly they are marked. *)
Lemma format_files (d : D) :
  exists b0 b1 b2 h1 b3 h2 b4, BitMap.new NumSectors (new_words d) = Ok b0 /\
    BitMap.Mark FreeMapSector b0 = Ok b1 /\ BitMap.Mark DirectorySector b1 = Ok b2 /\
    Allocate b2 FreeMapFileSize (new_header d) = Ok (true, h1, b3) /\
    Allocate b3 DirectoryFileSize (new_header d) = Ok (true, h2, b4) /\
    (file_ok h1 /\ numBytes h1 = FreeMapFileSize) /\
    (file_ok h2 /\ numBytes h2 = DirectoryFileSize) /\ map_ok b4 /\
    Z.of_nat (count_clear (BitMap.abs b4)) = NumSectors - 5 /\
    let ns := FreeMapSector :: DirectorySector :: blocks h1 ++ blocks h2 in
    free_in (replicate (Z.to_nat NumSectors) false) ns /\
    BitMap.abs b4 = set_all true ns (replicate (Z.to_nat NumSectors) false).
Proof.
  destruct (format_map d) as (b0 & b1 & b2 & E0 & E1 & E2 & Hm2 & Hf2 & Ha2).
  pose proof (count_clear_set_all _ _ Hf2) as Hc2. rewrite <- Ha2 in Hc2.
  assert (count_clear (replicate (Z.to_nat NumSectors) false) = 1024%nat) as Hc
    by (vm_compute; reflexivity).
  rewrite Hc in Hc2. cbn [length] in Hc2.
  destruct (allocate_file b2 FreeMapFileSize d Hm2) as
    (h1 & b3 & E3 & Hh1 & Hs1 & Hm3 & Hf3 & Ha3 & Hc3); [done|done| |].
  { change (divRoundUp FreeMapFileSize SectorSize) with 1. lia. }
  change (divRoundUp FreeMapFileSize SectorSize) with 1 in Hc3.
  destruct (allocate_file b3 DirectoryFileSize d Hm3) as
    (h2 & b4 & E4 & Hh2 & Hs2 & Hm4 & Hf4 & Ha4 & Hc4); [done|done| |].
  { change (divRoundUp DirectoryFileSize SectorSize) with 2. lia. }
  exists b0, b1, b2, h1, b3, h2, b4. do 5 (split; [done|]).
  change (divRoundUp DirectoryFileSize SectorSize) with 2 in Hc4.
  split; [done|]. split; [done|]. split; [done|].
  split; [unfold NumSectors, SectorsPerTrack, NumTracks; lia|]. cbn zeta.
  change (FreeMapSector :: DirectorySector :: blocks h1 ++ blocks h2)
    with ([FreeMapSector; DirectorySector] ++ blocks h1 ++ blocks h2).
  rewrite Ha2 in Hf3. rewrite Ha3, Ha2 in Hf4. split.
  - apply free_in_app; [done|]. by apply free_in_app.
  - by rewrite Ha4, Ha3, Ha2, !set_all_app.
Qed.

(** Writing two headers and opening the files they describe. *)
Lemma open_headers s1 s2 h1 h2 (d : D) :
  store_ok d -> is_sector s1 -> is_sector s2 -> s1 <> s2 -> FileHeader.wf h1 -> FileHeader.wf h2 ->
  exists d1 d2 d3 d4, FileHeader.WriteBack s1 h1 d = Ok d1 /\
    FileHeader.WriteBack s2 h2 d1 = Ok d2 /\
    OpenFile.new s1 d2 = Ok (mkOpenFile h1 0, d3) /\
    OpenFile.new s2 d3 = Ok (mkOpenFile h2 0, d4) /\
    store_ok d4 /\ file_of d4 s1 = h1 /\ file_of d4 s2 = h2.
Proof.
  intros Hd Hs1 Hs2 Hne Hh1 Hh2.
  destruct (FileHeader.WriteBack_spec s1 h1 d) as (d1 & E1 & Hd1 & Hk1); [done..|].
  destruct (FileHeader.WriteBack_spec s2 h2 d1) as (d2 & E2 & Hd2 & Hk2); [done..|].
  assert (file_of d2 s1 = h1) as F1.
  { unfold file_of. rewrite Hk2, Hk1, Z.eqb_refl by done.
    destruct (Z.eqb_spec s1 s2); [done|]. by apply of_to_header. }
  assert (file_of d2 s2 = h2) as F2.
  { unfold file_of. rewrite Hk2, Z.eqb_refl by done. by apply of_to_header. }
  destruct (FileHeader.FetchFrom_spec s1 d2) as (d3 & E3 & Hd3 & Hk3); [done..|].
  destruct (FileHeader.FetchFrom_spec s2 d3) as (d4 & E4 & Hd4 & Hk4); [done..|].
  exists d1, d2, d3, d4. unfold OpenFile.new. rewrite E3. cbn [bind]. rewrite E4. cbn [bind].
  unfold file_of in *. rewrite !Hk4, !Hk3, F1, F2. done.
Qed.

(** [FileSystem(true)] on any disk: an empty directory, whose only sectors in
    use are those of the file system itself. *)
Lemma new_formats (d : D) :
  store_ok d ->
  exists fs d' b, new true d = Ok (fs, d') /\
    fs_ok fs (Directory.new NumDirEntries (new_entries d)) b d' /\
    (forall nm, lookup nm (Directory.new NumDirEntries (new_entries d)) = None) /\
    used fs (Directory.new NumDirEntries (new_entries d)) d' = system_sectors fs /\
    Z.of_nat (count_clear (BitMap.abs b)) = NumSectors - 5 /\
    seekPosition (freeMapFile fs) = 0 /\ seekPosition (directoryFile fs) = 0.
Proof.
  intros Hd. destruct (format_files d) as (b0 & b1 & b2 & h1 & b3 & h2 & b4 & E0 & E1 & E2 &
    E3 & E4 & [Hh1 Hs1] & [Hh2 Hs2] & Hb4 & Hc4 & Hfree & Ha4).
  set (dir := Directory.new NumDirEntries (new_entries d)).
  destruct (fresh_directory d) as (Hdir & Hsz & Hno). fold dir in Hdir, Hsz, Hno.
  destruct (open_headers FreeMapSector DirectorySector h1 h2 d) as (d1 & d2 & d3 & d4 &
    W1 & W2 & O1 & O2 & Hd4 & F1 & F2); [done..|apply Hh1|apply Hh2|].
  set (fs := mkFileSystem (mkOpenFile h1 0) (mkOpenFile h2 0)).
  assert (FreeMapSector :: DirectorySector :: blocks h1 ++ blocks h2 = system_sectors fs)
    as Hsys by done.
  rewrite Hsys in Hfree, Ha4. pose proof Hfree as [Hnd Hf].
  unfold system_sectors in Hnd. cbn [fs freeMapFile directoryFile hdr] in Hnd.
  apply NoDup_cons in Hnd as [N0 Hnd]. apply NoDup_cons in Hnd as [N1 Hnd].
  apply NoDup_app in Hnd as (_ & Hdisj & _).
  destruct (write_system' fs dir b4 d4) as (m & d5 & W3 & n & d6 & W4 & Hd6 & St & Ms & Hfr);
    [by split|done|done|exact Hdisj|done|done|done|done|].
  assert (concat (owned d6 <$> table dir) = []) as Hconc.
  { assert (forall e, e ∈ table dir -> owned d6 e = []) as He.
    { intros e (i & Hi)%list_elem_of_lookup. unfold owned. by rewrite (Hno i e Hi). }
    revert He. clear. induction (table dir) as [|e l IH]; intros He; [done|].
    rewrite fmap_cons. cbn [concat]. rewrite (He e) by left. apply IH. intros e' He'.
    apply He. by right. }
  assert (used fs dir d6 = system_sectors fs) as Hused
    by (unfold used; rewrite Hconc; apply app_nil_r).
  assert (Forall (fun n => 0 <= n) (system_sectors fs)) as Hpos
    by (eapply Forall_impl; [exact Hf|]; intros k [? _]; done).
  assert (forall k, is_sector k -> k ∉ system_blocks fs -> file_of d6 k = file_of d4 k) as Hhd.
  { intros k Hk Hkb. unfold file_of. f_equal. apply Hfr; [done|by apply not_elem_of_nil|done]. }
  exists fs, d6, b4. split.
  { unfold new. rewrite E0. cbn [bind]. rewrite E1. cbn [bind]. rewrite E2. cbn [bind].
    rewrite E3. cbn [bind]. rewrite ASSERT_true by done. cbn [bind]. rewrite E4. cbn [bind].
    rewrite ASSERT_true by done. cbn [bind]. rewrite W1. cbn [bind]. rewrite W2. cbn [bind].
    rewrite O1. cbn [bind]. rewrite O2. cbn [bind]. fold dir.
    change (mkOpenFile h1 0) with (freeMapFile fs). change (mkOpenFile h2 0) with (directoryFile fs).
    rewrite W3. cbn [bind]. rewrite W4. done. }
  split; [|split; [|by split_and!]].
  - split; rewrite ?Hused; try done.
    + rewrite Hhd; [exact F1|done|]. intros Hx. apply N0. by right.
    + rewrite Hhd; [exact F2|done|exact N1].
    + intros i e Hi Hu. by rewrite (Hno i e Hi) in Hu.
    + apply Hfree.
    + apply Forall_forall. intros k Hk. pose proof (free_in_lookup _ _ _ Hfree Hk) as Hkl.
      rewrite length_replicate in Hkl. unfold is_sector. lia.
    + intros k Hk. rewrite Ha4, lookup_set_all by done.
      rewrite length_replicate, Z2Nat.id by apply Hk.
      destruct (decide (k ∈ system_sectors fs)).
      * rewrite decide_True; [done|]. destruct Hk. lia.
      * split; [|done]. intros [[=] _]%lookup_replicate.
  - intros nm. destruct (lookup nm dir) as [s|] eqn:El; [|done].
    apply lookup_Some in El as (i & e & Hi & Hu & _); [|done]. by rewrite (Hno i e Hi) in Hu.
Qed.

(** [FileSystem(false)] opens the two files of a formatted disk again. *)
Lemma new_reopens fs dir b (d : D) :
  fs_ok fs dir b d -> seekPosition (freeMapFile fs) = 0 -> seekPosition (directoryFile fs) = 0 ->
  exists d', new false d = Ok (fs, d') /\ same_store d d'.
Proof.
  intros Hok P1 P2. destruct (system_sep fs dir b d Hok) as (_ & _ & _ & Hs0 & Hs1).
  unfold new, OpenFile.new.
  destruct (FileHeader.FetchFrom_spec FreeMapSector d) as (d1 & -> & Hd1 & Hk1);
    [apply Hok|done|]. cbn [bind].
  destruct (FileHeader.FetchFrom_spec DirectorySector d1) as (d2 & -> & Hd2 & Hk2);
    [done|done|]. cbn [bind].
  exists d2. split; [|split; [done|intros k; by rewrite Hk2, Hk1]].
  rewrite Hk1. pose proof (ok_maphdr _ _ _ _ Hok) as Hm. pose proof (ok_dirhdr _ _ _ _ Hok) as Hdh.
  unfold file_of in Hm, Hdh. rewrite Hm, Hdh.
  destruct fs as [[h1 p1] [h2 p2]]. cbn [freeMapFile directoryFile hdr seekPosition] in *.
  by rewrite P1, P2.
Qed.

(** ** Writing to a file of the file system *)

Lemma NoDup_concat (ls : list (list Z)) i a :
  NoDup (concat ls) -> ls !! i = Some a ->
  NoDup a /\ forall j b x, ls !! j = Some b -> i <> j -> x ∈ a -> x ∉ b.
Proof.
  revert i. induction ls as [|l ls IH]; intros i Hnd Hi; [done|].
  cbn [concat] in Hnd. apply NoDup_app in Hnd as (Hl & Hdis & Hnd).
  assert (forall j b x, ls !! j = Some b -> x ∈ b -> x ∈ concat ls) as Hin.
  { intros j b x Hj Hx. apply list_elem_of_In, in_concat. exists b.
    split; apply list_elem_of_In; [by eapply list_elem_of_lookup_2|done]. }
  destruct i as [|i]; cbn in Hi.
  - simplify_eq. split; [done|]. intros [|j] b x Hj Hne Hx Hxb; [done|].
    apply (Hdis x Hx). by eapply Hin.
  - destruct (IH i Hnd Hi) as [Ha Hb]. split; [done|].
    intros [|j] b x Hj Hne Hx Hxb; cbn in Hj.
    + simplify_eq. apply (Hdis x Hxb). by eapply Hin.
    + apply (Hb j b x); [done|lia|done..].
Qed.

(** The blocks of one file are apart from everything else in use. *)
Lemma blocks_sep fs dir b (d : D) i e k :
  fs_ok fs dir b d -> table dir !! i = Some e -> inUse e = true ->
  k ∈ blocks (file_of d (sector e)) ->
  (k ∉ system_sectors fs) /\ k <> sector e /\
  forall j e', table dir !! j = Some e' -> j <> i -> k ∉ owned d e'.
Proof.
  intros Hok Hi Hu Hk. assert (k ∈ owned d e) as Hko by (unfold owned; rewrite Hu; by right).
  split; [by eapply owned_not_system|].
  pose proof (ok_nodup _ _ _ _ Hok) as Hnd. apply NoDup_app in Hnd as (_ & _ & Hnd).
  destruct (NoDup_concat _ i (owned d e) Hnd) as [Ho Hsep];
    [by rewrite list_lookup_fmap, Hi|].
  split.
  - intros ->. unfold owned in Ho. rewrite Hu in Ho. by apply NoDup_cons in Ho as [Hn _].
  - intros j e' Hj Hne. apply (Hsep j); [by rewrite list_lookup_fmap, Hj|done|done].
Qed.

(** A disk that changed in the blocks of one file only. *)
Lemma fs_ok_write fs dir b (d d' : D) i e :
  fs_ok fs dir b d -> table dir !! i = Some e -> inUse e = true -> store_ok d' ->
  (forall k, is_sector k -> k ∉ blocks (file_of d (sector e)) -> sector_of d' k = sector_of d k) ->
  fs_ok fs dir b d' /\
  forall j e', table dir !! j = Some e' -> inUse e' = true ->
    file_of d' (sector e') = file_of d (sector e') /\
    (j <> i -> contents (file_of d (sector e')) d' = contents (file_of d (sector e')) d).
Proof.
  intros Hok Hi Hu Hd' Hfr.
  pose proof (fun k => blocks_sep fs dir b d i e k Hok Hi Hu) as Hsep.
  assert (forall k, k ∈ system_sectors fs -> sector_of d' k = sector_of d k) as Hsys.
  { intros k Hk. apply Hfr; [by apply (used_sector fs dir b d Hok), system_in_used|].
    intros Hx. by destruct (Hsep k Hx) as [? _]. }
  assert (forall j e' k, table dir !! j = Some e' -> k ∈ owned d e' ->
    j <> i \/ k = sector e' -> sector_of d' k = sector_of d k) as Hown.
  { intros j e' k Hj Hk Hcase. apply Hfr;
      [by apply (used_sector fs dir b d Hok), (owned_in_used fs dir d j e')|].
    intros Hx. destruct (Hsep k Hx) as (_ & Hne & Hoth).
    destruct (decide (j = i)) as [->|Hji]; [|by apply (Hoth j e')].
    destruct Hcase as [Hji | ->]; [done|]. by simplify_eq. }
  assert (forall j e', table dir !! j = Some e' -> inUse e' = true ->
    file_of d' (sector e') = file_of d (sector e')) as Hfile.
  { intros j e' Hj Hu'. unfold file_of. f_equal. apply (Hown j e'); [done| |by right].
    unfold owned. rewrite Hu'. by left. }
  assert (used fs dir d' = used fs dir d) as Hused.
  { unfold used. do 2 f_equal. apply list_fmap_ext. intros j e' Hj. unfold owned.
    destruct (inUse e') eqn:Hu'; [|done]. by rewrite (Hfile j e'). }
  split; [|intros j e' Hj Hu'; split; [by apply (Hfile j)|]].
  - destruct Hok as [Hst Hmf Hdf Hmh Hdh Hdir Hds Hm Hms Hfiles Hnd Hsec Hmk].
    assert (FreeMapSector ∈ system_sectors fs) as S0 by (unfold system_sectors; by left).
    assert (DirectorySector ∈ system_sectors fs) as S1
      by (unfold system_sectors; right; by left).
    split; rewrite ?Hused; try done.
    + unfold file_of. by rewrite Hsys.
    + unfold file_of. by rewrite Hsys.
    + apply (stored_same _ _ d); [apply Hdf| |done]. intros k Hk.
      apply Hsys, system_blocks_in. unfold system_blocks. apply elem_of_app. by right.
    + unfold map_stored, contents in *. rewrite <- Hms. unfold raw. do 3 f_equal.
      apply list_fmap_ext. intros j k Hk. apply list_elem_of_lookup_2 in Hk.
      apply Hsys, system_blocks_in. unfold system_blocks. apply elem_of_app. by left.
    + intros j e' Hj Hu'. rewrite (Hfile j e') by done. by apply (Hfiles j).
  - intros Hne. unfold contents, raw. do 2 f_equal. apply list_fmap_ext. intros m k Hk.
    apply (Hown j e'); [done| |by left]. unfold owned. rewrite Hu'. right.
    by eapply list_elem_of_lookup_2.
Qed.

(** ** The file system as a map from names to contents *)
Definition view (dir : Directory) (d : D) (nm : list Z) : option (list Z) :=
  (fun s => contents (file_of d s) d) <$> lookup nm dir.

Lemma view_same dir (d d' : D) nm : same_store d d' -> view dir d' nm = view dir d nm.
Proof.
  intros [_ Hs]. unfold view. destruct (lookup nm dir) as [s|]; [|done]. cbn. f_equal.
  unfold file_of. rewrite Hs. unfold contents, raw. do 2 f_equal.
  apply list_fmap_ext. intros i k _. apply Hs.
Qed.

(** A directory that differs for one key, on a disk that keeps the other files. *)
Lemma view_update dir dir' (d d' : D) nm (o : option Z) :
  (forall nm', lookup nm' dir' = if decide (key nm' = key nm) then o else lookup nm' dir) ->
  files_kept dir d d' nm ->
  forall nm', view dir' d' nm' =
    if decide (key nm' = key nm) then (fun s => contents (file_of d' s) d') <$> o
    else view dir d nm'.
Proof.
  intros Hl Hk nm'. unfold view. rewrite Hl.
  destruct (decide (key nm' = key nm)) as [|Hne]; [done|].
  destruct (lookup nm' dir) as [s|] eqn:El; [|done]. cbn.
  destruct (Hk nm' s Hne El) as [-> ->]. done.
Qed.

Lemma bound_file fs dir b (d : D) nm s :
  fs_ok fs dir b d -> lookup nm dir = Some s -> file_ok (file_of d s).
Proof.
  intros Hok Hl. apply lookup_Some in Hl as (i & e & Hi & Hu & _ & <-); [|apply Hok].
  by apply (ok_files _ _ _ _ Hok i).
Qed.

(** ** Properties *)

(** C6: formatting any disk succeeds: it leaves an empty file system that
    satisfies the invariant (in which only the five sectors of the free map and
    of the directory are marked in use), and opening the disk again without
    formatting gives the same file system. *)
Theorem format_correct (d : D) :
  store_ok d ->
  exists fs d' b dir, new true d = Ok (fs, d') /\ fs_ok fs dir b d' /\
    (forall nm, view dir d' nm = None) /\
    used fs dir d' = system_sectors fs /\
    Z.of_nat (count_clear (BitMap.abs b)) = NumSectors - 5 /\
    exists d'', new false d' = Ok (fs, d'') /\ same_store d' d''.
Proof.
  intros Hd. destruct (new_formats d Hd) as (fs & d' & b & E & Hok & Hno & Hu & Hc & P1 & P2).
  exists fs, d', b, (Directory.new NumDirEntries (new_entries d)). split; [done|].
  split; [done|]. split; [intros nm; unfold view; by rewrite Hno|]. split; [done|].
  split; [done|]. by eapply new_reopens.
Qed.

(** C1: [Create] adds the name with a contents of the given size, keeps every other file and
    the invariant, when the name is new, a directory entry is free, enough sectors are free and
    a header can describe the file; a larger file that passes the other tests is written past
    the end of the table of the header; in every other case [Create] answers false and every
    sector of the disk is as before. *)
Theorem Create_correct nm size fs dir b (d : D) :
  fs_ok fs dir b d -> c_string nm -> 0 <= size ->
  (can_create nm size dir b -> size <= MaxFileSize ->
    exists d' dir' b' bytes, Create nm size fs d = Ok (true, d') /\ fs_ok fs dir' b' d' /\
      Z.of_nat (length bytes) = size /\
      forall nm', view dir' d' nm' =
        if decide (key nm' = key nm) then Some bytes else view dir d nm') /\
  (can_create nm size dir b -> MaxFileSize < size -> Create nm size fs d = UB) /\
  (~ can_create nm size dir b ->
    exists d', Create nm size fs d = Ok (false, d') /\ fs_ok fs dir b d' /\ same_store d d').
Proof.
  intros Hok Hnm H0. split_and!; [intros Hcan Hsize|intros; by apply (Create_oversized nm size fs dir b)|intros Hcan].
  - assert (divRoundUp size SectorSize <= NumDirect) as Hmax.
    { apply divRoundUp_le; [done|done|done|]. unfold MaxFileSize in Hsize. lia. }
    destruct (Create_succeeds nm size fs dir b d Hok Hnm H0 Hmax Hcan)
      as (d' & dir' & b' & s & E & Hok' & Hl & Hb & Hk).
    exists d', dir', b', (contents (file_of d' s) d'). split; [done|]. split; [done|]. split.
    + assert (file_ok (file_of d' s)) as Hf.
      { apply (bound_file fs dir' b' d' nm); [done|]. rewrite Hl. by rewrite decide_True. }
      rewrite length_contents; [done|apply Hok'|done].
    + intros nm'. by rewrite (view_update dir dir' d d' nm (Some s) Hl Hk).
  - destruct (Create_refused nm size fs dir b d Hok Hnm H0 Hcan) as (d' & E & Hs).
    exists d'. split; [done|]. split; [by eapply fs_ok_same|done].
Qed.

(** C2: [Remove] of a name that is not bound answers false and changes nothing;
    of a bound name it answers true, unbinds exactly that name, frees exactly
    the sectors of the file, and keeps every other file and the invariant. *)
Theorem Remove_correct nm fs dir b (d : D) :
  fs_ok fs dir b d -> c_string nm ->
  match lookup nm dir with
  | None => exists d', Remove nm fs d = Ok (false, d') /\ fs_ok fs dir b d' /\
      forall nm', view dir d' nm' = view dir d nm'
  | Some s => exists d' dir' b', Remove nm fs d = Ok (true, d') /\ fs_ok fs dir' b' d' /\
      (forall nm', view dir' d' nm' =
        if decide (key nm' = key nm) then None else view dir d nm') /\
      forall k, k ∈ used fs dir d <-> k ∈ used fs dir' d' \/ k ∈ s :: blocks (file_of d s)
  end.
Proof.
  intros Hok Hnm. destruct (lookup nm dir) as [s|] eqn:El.
  - destruct (Remove_bound nm s fs dir b d Hok Hnm El) as (d' & dir' & b' & E & Hok' & Hl & Hu & Hk).
    exists d', dir', b'. split; [done|]. split; [done|]. split; [|done].
    intros nm'. by rewrite (view_update dir dir' d d' nm None Hl Hk).
  - destruct (Remove_unbound nm fs dir b d Hok Hnm El) as (d' & E & Hs).
    exists d'. split; [done|]. split; [by eapply fs_ok_same|]. intros nm'. by apply view_same.
Qed.

(** [Open] gives an open file at position 0 whose contents are those bound
    to the name, and NULL exactly when the name is not bound; the disk keeps
    its contents. *)
Theorem Open_correct nm fs dir b (d : D) :
  fs_ok fs dir b d -> c_string nm ->
  exists o d', Open nm fs d = Ok (o, d') /\ fs_ok fs dir b d' /\
    (forall nm', view dir d' nm' = view dir d nm') /\
    match o with
    | Some f => seekPosition f = 0 /\ file_ok (hdr f) /\
        view dir d nm = Some (contents (hdr f) d')
    | None => view dir d nm = None
    end.
Proof.
  intros Hok Hnm. destruct (Open_lookup nm fs dir b d Hok Hnm) as (d' & E & Hs).
  eexists _, d'. split; [exact E|]. split; [by eapply fs_ok_same|].
  split; [intros nm'; by apply view_same|].
  destruct (lookup nm dir) as [s|] eqn:El; cbn.
  - split; [done|]. split; [by eapply bound_file|]. rewrite <- (view_same _ _ _ _ Hs).
    unfold view. rewrite El. cbn. unfold file_of. by rewrite (proj2 Hs).
  - unfold view. by rewrite El.
Qed.

(** C4: [WriteAt] on an open file of the file system writes the bytes that fit
    before the end of the file, over the old contents of that file only: the
    invariant, the directory, the free map and every other file are kept. *)
Theorem WriteAt_correct from numBytes position nm s f fs dir b (d : D) :
  fs_ok fs dir b d -> lookup nm dir = Some s -> hdr f = file_of d s ->
  0 <= position -> position + numBytes < 2 ^ 31 ->
  numBytes <= Z.of_nat (length from) -> Forall is_byte from ->
  exists d' n, WriteAt new_chars from numBytes position f d = Ok (n, d') /\
    n = Z.max 0 (Z.min numBytes (Length f - position)) /\ fs_ok fs dir b d' /\
    forall nm', view dir d' nm' =
      if decide (key nm' = key nm)
      then zsplice position (zslice 0 n from) <$> view dir d nm
      else view dir d nm'.
Proof.
  intros Hok Hl Hh H0 H3 Hlen Hbytes.
  destruct (lookup_Some nm dir s) as [Hls _]; [apply Hok|].
  destruct (Hls Hl) as (i & e & Hi & Hu & Hke & He).
  assert (file_ok (hdr f)) as Hf by (rewrite Hh; by eapply bound_file).
  destruct (WriteAt_splice new_chars Hchars from numBytes position f d)
    as (d' & E & Hd' & Hc & Hfr); [done|apply Hok|done..|].
  rewrite Hh in Hc, Hfr. rewrite <- He in Hc, Hfr.
  destruct (fs_ok_write fs dir b d d' i e Hok Hi Hu Hd' Hfr) as [Hok' Hfiles].
  eexists d', _. split; [exact E|]. split; [done|]. split; [done|].
  intros nm'. unfold view. destruct (decide (key nm' = key nm)) as [Hk|Hk].
  - assert (lookup nm' dir = Some s) as ->.
    { apply lookup_Some; [apply Hok|]. exists i, e. rewrite Hk. by split_and!. }
    rewrite Hl. cbn. rewrite <- He. destruct (Hfiles i e Hi Hu) as [-> _].
    by rewrite Hc, Hh, He.
  - destruct (lookup nm' dir) as [s'|] eqn:El'; [|done]. cbn.
    apply lookup_Some in El' as (j & e' & Hj & Hu' & Hk' & <-); [|apply Hok].
    destruct (Hfiles j e' Hj Hu') as [-> Hcont]. f_equal. apply Hcont.
    intros ->. simplify_eq. apply Hk. by rewrite <- Hk', <- Hke.
Qed.

End filesys.

(** ** A formatted disk, for the witnesses *)
Section witnesses.

#[local] Existing Instance Disk.DiskWorld.DiskWorld_store.
#[local] Abbreviation DW := Disk.DiskWorld.DiskWorld.

Definition blank_chars (_ : DW) (n : Z) : list Z := replicate (Z.to_nat n) 0.
Definition blank_words (_ : DW) : list Z := replicate 32 0.
Definition blank_entries (_ : DW) : list DirectoryEntry :=
  replicate 10 (mkDirEntry false [0; 0; 0] 0 (replicate 10 0) [0; 0]).
Definition blank_header (_ : DW) : FileHeader := mkHdr 0 0 (replicate 30 0).

Lemma blank_fresh : fresh_ok blank_chars blank_words blank_entries blank_header.
Proof.
  split; [|split; [|split]].
  - intros d n Hn. unfold blank_chars. rewrite length_replicate. split; [lia|].
    by apply Forall_replicate.
  - intros d. split; [done|]. by apply Forall_replicate.
  - intros d. split; [done|]. apply Forall_replicate. split; try done; repeat constructor; done.
  - intros d. split; [done|done|done|]. by apply Forall_replicate.
Qed.

(** The name "a". *)
Definition name_a : list Z := [97].

Lemma name_a_ok : c_string name_a.
Proof. by apply Forall_singleton. Qed.

Lemma formatted :
  exists fs dir b (d : DW), fs_ok fs dir b d /\ lookup name_a dir = None /\ ~ full dir /\
    Z.of_nat (count_clear (BitMap.abs b)) = NumSectors - 5.
Proof.
  destruct (new_formats _ _ _ _ blank_fresh Disk.DiskWorld.blank_disk Disk.DiskWorld.blank_disk_ok)
    as (fs & d & b & _ & Hok & Hno & _ & Hc & _).
  eexists fs, _, b, d. split; [exact Hok|]. split; [apply Hno|]. split; [|done].
  intros Hf. specialize (Hf 0%nat _ eq_refl). done.
Qed.

Lemma formatted_create size :
  0 <= size -> divRoundUp size SectorSize <= NumSectors - 6 ->
  exists fs dir b (d : DW), fs_ok fs dir b d /\ can_create name_a size dir b.
Proof.
  intros _ Hs. destruct formatted as (fs & dir & b & d & Hok & Hl & Hf & Hc).
  exists fs, dir, b, d. split; [done|]. split; [done|]. split; [done|]. lia.
Qed.

(** A file system with a file of 200 bytes. *)
Lemma formatted_file :
  exists fs dir b (d : DW) s, fs_ok fs dir b d /\ lookup name_a dir = Some s /\
    numBytes (file_of d s) = 200.
Proof.
  destruct (formatted_create 200) as (fs & dir & b & d & Hok & Hcan); [done|done|].
  destruct (Create_succeeds _ _ _ _ blank_fresh name_a 200 fs dir b d Hok name_a_ok)
    as (d' & dir' & b' & s & _ & Hok' & Hl & Hb & _); [done|done|done|].
  exists fs, dir', b', d', s. split; [done|]. split; [|done]. rewrite Hl. by rewrite decide_True.
Qed.

Lemma format_correct_witness :
  exists fs (d' : DW), new blank_chars blank_words blank_entries blank_header true
    Disk.DiskWorld.blank_disk
    = Ok (fs, d').
Proof.
  destruct (format_correct _ _ _ _ blank_fresh Disk.DiskWorld.blank_disk Disk.DiskWorld.blank_disk_ok)
    as (fs & d' & b & dir & E & _).
  exists fs, d'. exact E.
Defined.

Lemma Create_correct_witness :
  exists fs (d d' : DW), Create blank_chars blank_words blank_entries blank_header
      name_a 200 fs d = Ok (true, d') /\
    Create blank_chars blank_words blank_entries blank_header name_a 3841 fs d = UB.
Proof.
  destruct (formatted_create 3841) as (fs & dir & b & d & Hok & Hcan); [done|done|].
  assert (can_create name_a 200 dir b) as Hcan'.
  { destruct Hcan as (H1 & H2 & H3). split; [done|]. split; [done|]. change (divRoundUp 3841 SectorSize) with 31 in H3.
    change (divRoundUp 200 SectorSize) with 2. lia. }
  destruct (Create_correct _ _ _ _ blank_fresh name_a 200 fs dir b d Hok name_a_ok) as [Hyes _]; [done|].
  destruct (Create_correct _ _ _ _ blank_fresh name_a 3841 fs dir b d Hok name_a_ok) as (_ & Hbig & _); [done|].
  destruct (Hyes Hcan' ltac:(done)) as (d' & dir' & b' & bytes & E & _). exists fs, d, d'.
  split; [exact E|]. by apply Hbig.
Defined.

Lemma Remove_correct_witness :
  exists fs (d d' : DW), Remove blank_chars blank_words blank_entries name_a fs d = Ok (true, d').
Proof.
  destruct formatted_file as (fs & dir & b & d & s & Hok & Hl & _).
  pose proof (Remove_correct _ _ _ _ blank_fresh name_a fs dir b d Hok name_a_ok) as Hr.
  rewrite Hl in Hr. destruct Hr as (d' & dir' & b' & E & _). exists fs, d, d'. exact E.
Defined.

Lemma Open_correct_witness :
  exists fs (d d' : DW) o, Open blank_chars blank_entries name_a fs d = Ok (o, d').
Proof.
  destruct formatted_file as (fs & dir & b & d & s & Hok & Hl & _).
  destruct (Open_correct _ _ _ _ blank_fresh name_a fs dir b d Hok name_a_ok)
    as (o & d' & E & _).
  exists fs, d, d', o. exact E.
Defined.

Lemma WriteAt_correct_witness :
  exists f (d d' : DW), WriteAt blank_chars (replicate 150 7) 150 100 f d = Ok (100, d').
Proof.
  destruct formatted_file as (fs & dir & b & d & s & Hok & Hl & Hb).
  destruct (WriteAt_correct _ _ _ _ blank_fresh (replicate 150 7) 150 100 name_a s
    (mkOpenFile (file_of d s) 0) fs dir b d Hok Hl) as (d' & n & E & Hn & _);
    [done|done|done|done|by apply Forall_replicate|].
  exists (mkOpenFile (file_of d s) 0), d, d'. rewrite E. unfold Length, FileLength in Hn.
  cbn [hdr] in Hn. rewrite Hb in Hn. by subst n.
Defined.

Lemma Create_oversized_witness :
  exists fs (d : DW), Create blank_chars blank_words blank_entries blank_header
    name_a 3841 fs d = UB.
Proof.
  destruct (formatted_create 3841) as (fs & dir & b & d & Hok & Hcan); [done|done|].
  exists fs, d. exact (Create_oversized _ _ _ _ blank_fresh name_a 3841 fs dir b d Hok
    name_a_ok eq_refl Hcan).
Defined.

End witnesses.
End FileSystem.
