(* ===== verification/Synch.v ===== *)
(** threads/thread.h, thread.cc, scheduler.h, scheduler.cc, synch.h, synch.cc:
    kernel threads, the scheduler, and the synchronization objects built on it.

    Module [Threads] models the kernel as a small-step machine.  A thread that
    gives up the processor in the middle of an operation (inside [Sleep] or
    [Yield]) is described by the rest of its code, a list of [op]s: the calls
    still to be made and the points inside calls where it goes on when it is
    scheduled again.  [step] runs the current thread from one such point to the
    next; [sys_step] adds what the hardware may do in between when interrupts
    are on: a time slice that makes the thread yield, and a device interrupt
    whose handler does a [V].  The state of the clients (what their code does
    between synchronization calls) is the parameter [K], their code the
    parameter [call].

    The lists of waiting and ready threads are the sequences that LinkedList.v
    refines.  Objects and threads are named by numbers.  [New] starts an object
    with an empty queue; [delete] of an object that a thread waits for, is inside a call of,
    or is about to call is undefined.  That no later call uses it is not checked. *)

From S2P Require Import Prelude LinkedList Interrupt MachineState.

Module Threads.

Import Interrupt.

(** ** Data *)
Inductive ThreadStatus := JUST_CREATED | RUNNING | READY | BLOCKED.

#[export] Instance ThreadStatus_eq_dec : EqDecision ThreadStatus.
Proof. solve_decision. Defined.

(** The objects, each with its queue of threads. *)
Inductive qid :=
  | QSem (s : nat) | QLock (l : nat) | QCond (c : nat) | QMutex (m : nat) | QBarrier (b : nat).

#[export] Instance qid_eq_dec : EqDecision qid.
Proof. solve_decision. Defined.

(** A call of the synchronization objects or of [Thread], or a piece of the
    client's own code. *)
#[local] Set Warnings "-register-all".

Inductive ucall (L : Type) :=
  | P (s : nat) | V (s : nat) | Destroy (s : nat)
  | Acquire (l : nat) | Release (l : nat)
  | Wait (c l : nat) | Signal (c l : nat) | Broadcast (c l : nat)
  | MLock (m : nat) | MUnlock (m : nat)
  | BWait (b : nat)
  | Yield | Finish | Enable
  | Fork (t : nat) (body : list (ucall L))  (* of the new thread [t] *)
  | Join (t s : nat)              (* [s] names a semaphore that does not exist yet *)
  | New (q : qid) (v : Z)         (* a new object *)
  | Delete (q : qid)
  | Call (c : L).

Arguments P {L}. Arguments V {L}. Arguments Destroy {L}.
Arguments Acquire {L}. Arguments Release {L}.
Arguments Wait {L}. Arguments Signal {L}. Arguments Broadcast {L}.
Arguments MLock {L}. Arguments MUnlock {L}. Arguments BWait {L}.
Arguments Yield {L}. Arguments Finish {L}. Arguments Enable {L}.
Arguments Fork {L}. Arguments Join {L}. Arguments New {L}. Arguments Delete {L}.
Arguments Call {L}.

(** The code of a thread: calls, and points inside calls ([old] is the
    [oldLevel] of the call). *)
Inductive op (L : Type) :=
  | Do (u : ucall L)
  | P_loop (s : nat) (old : IntStatus)
  | Acquire_loop (l : nat) (old : IntStatus)
  | Wait_loop (c l : nat) (old : IntStatus)
  | Broadcast_loop (c l : nat)
  | MLock_loop (m : nat) (old : IntStatus)
  | BWait_end (b : nat) (old : IntStatus)
  | Finish_loop
  | Sleep_loop                    (* looking for a thread to run *)
  | Run_end                       (* after SWITCH *)
  | Restore (old : IntStatus).    (* SetLevel(oldLevel) *)

Arguments Do {L}. Arguments P_loop {L}. Arguments Acquire_loop {L}.
Arguments Wait_loop {L}. Arguments Broadcast_loop {L}. Arguments MLock_loop {L}.
Arguments BWait_end {L}. Arguments Finish_loop {L}.
Arguments Sleep_loop {L}. Arguments Run_end {L}. Arguments Restore {L}.

Record Semaphore := mkSem { value : Z }.
Record Lock := mkLock { available : bool; owner : option nat }.
Record Condition := mkCond { isBusy : bool }.
Record Mutex := mkMutex { mvalue : bool }.
Record Barrier := mkBarrier { size : Z; count : Z }.

Definition new_Semaphore (initialValue : Z) : Semaphore := mkSem initialValue.
Definition new_Lock : Lock := mkLock true None.
Definition new_Condition : Condition := mkCond true.
Definition new_Mutex : Mutex := mkMutex true.
Definition new_Barrier (size_p : Z) : Barrier := mkBarrier (wrap 64 size_p) 0.

Section kernel.
Context {K L : Type}.

Record Thread := mkThread {
  status : ThreadStatus;
  code : list (op L);
  semaphore : option nat        (* the semaphore that Join waits on *)
}.

Record Kernel := mkKernel {
  threads : gmap nat Thread;
  currentThread : nat;
  readyList : list nat;
  threadToBeDestroyed : option nat;
  level : IntStatus;
  queue : qid -> list nat;
  sems : nat -> Semaphore;
  locks : nat -> Lock;
  conds : nat -> Condition;
  mutexes : nat -> Mutex;
  barriers : nat -> Barrier;
  client : K
}.

Definition upd {A} (i : nat) (x : A) (f : nat -> A) : nat -> A :=
  fun j => if decide (j = i) then x else f j.

Definition set_threads x (k : Kernel) : Kernel :=
  mkKernel x (currentThread k) (readyList k) (threadToBeDestroyed k) (level k) (queue k)
    (sems k) (locks k) (conds k) (mutexes k) (barriers k) (client k).
Definition set_current x (k : Kernel) : Kernel :=
  mkKernel (threads k) x (readyList k) (threadToBeDestroyed k) (level k) (queue k)
    (sems k) (locks k) (conds k) (mutexes k) (barriers k) (client k).
Definition set_ready x (k : Kernel) : Kernel :=
  mkKernel (threads k) (currentThread k) x (threadToBeDestroyed k) (level k) (queue k)
    (sems k) (locks k) (conds k) (mutexes k) (barriers k) (client k).
Definition set_dead x (k : Kernel) : Kernel :=
  mkKernel (threads k) (currentThread k) (readyList k) x (level k) (queue k)
    (sems k) (locks k) (conds k) (mutexes k) (barriers k) (client k).
Definition set_level x (k : Kernel) : Kernel :=
  mkKernel (threads k) (currentThread k) (readyList k) (threadToBeDestroyed k) x (queue k)
    (sems k) (locks k) (conds k) (mutexes k) (barriers k) (client k).
Definition set_queue (q : qid) x (k : Kernel) : Kernel :=
  mkKernel (threads k) (currentThread k) (readyList k) (threadToBeDestroyed k) (level k)
    (fun q' : qid => if decide (q' = q) then x else queue k q')
    (sems k) (locks k) (conds k) (mutexes k) (barriers k) (client k).
Definition set_sem (s : nat) (x : Semaphore) (k : Kernel) : Kernel :=
  mkKernel (threads k) (currentThread k) (readyList k) (threadToBeDestroyed k) (level k) (queue k)
    (upd s x (sems k)) (locks k) (conds k) (mutexes k) (barriers k) (client k).
Definition set_lock (l : nat) (x : Lock) (k : Kernel) : Kernel :=
  mkKernel (threads k) (currentThread k) (readyList k) (threadToBeDestroyed k) (level k) (queue k)
    (sems k) (upd l x (locks k)) (conds k) (mutexes k) (barriers k) (client k).
Definition set_cond (c : nat) (x : Condition) (k : Kernel) : Kernel :=
  mkKernel (threads k) (currentThread k) (readyList k) (threadToBeDestroyed k) (level k) (queue k)
    (sems k) (locks k) (upd c x (conds k)) (mutexes k) (barriers k) (client k).
Definition set_mutex (m : nat) (x : Mutex) (k : Kernel) : Kernel :=
  mkKernel (threads k) (currentThread k) (readyList k) (threadToBeDestroyed k) (level k) (queue k)
    (sems k) (locks k) (conds k) (upd m x (mutexes k)) (barriers k) (client k).
Definition set_barrier (b : nat) (x : Barrier) (k : Kernel) : Kernel :=
  mkKernel (threads k) (currentThread k) (readyList k) (threadToBeDestroyed k) (level k) (queue k)
    (sems k) (locks k) (conds k) (mutexes k) (upd b x (barriers k)) (client k).
Definition set_client x (k : Kernel) : Kernel :=
  mkKernel (threads k) (currentThread k) (readyList k) (threadToBeDestroyed k) (level k) (queue k)
    (sems k) (locks k) (conds k) (mutexes k) (barriers k) x.

Definition get_thread (t : nat) (k : Kernel) : res Thread :=
  match threads k !! t with Some th => Ok th | None => UB end.

(** [thread->setStatus(st)] *)
Definition setStatus (t : nat) (st : ThreadStatus) (k : Kernel) : res Kernel :=
  th ← get_thread t k;
  Ok (set_threads (<[t := mkThread st (code th) (semaphore th)]> (threads k)) k).

(** The current thread goes on at [c]. *)
Definition goto (c : list (op L)) (k : Kernel) : res Kernel :=
  th ← get_thread (currentThread k) k;
  Ok (set_threads (<[currentThread k := mkThread (status th) c (semaphore th)]> (threads k)) k).

(** ** scheduler.cc *)
Definition ReadyToRun (t : nat) (k : Kernel) : res Kernel :=
  k ← setStatus t READY k;
  Ok (set_ready (readyList k ++ [t]) k).

Definition FindNextToRun (k : Kernel) : option nat * Kernel :=
  match readyList k with
  | [] => (None, k)
  | t :: ts => (Some t, set_ready ts k)
  end.

(** What a user program saves and restores on a context switch (its registers
    and its address space), for the client's threads. *)
Context (SaveState RestoreState : nat -> K -> K).

(** [Run] up to SWITCH; the thread that is switched off goes on with [c] after
    it, when it is switched on again. *)
Definition Run (nextThread : nat) (c : list (op L)) (k : Kernel) : res Kernel :=
  let k := set_client (SaveState (currentThread k) (client k)) k in
  k ← goto (Run_end :: c) k;
  setStatus nextThread RUNNING (set_current nextThread k).

(** [Run] after SWITCH. *)
Definition finish_Run (k : Kernel) : res Kernel :=
  k ← match threadToBeDestroyed k with
      | Some t =>
          ASSERT (negb (Nat.eqb t (currentThread k)));;
          Ok (set_dead None (set_threads (delete t (threads k)) k))
      | None => Ok k
      end;
  Ok (set_client (RestoreState (currentThread k) (client k)) k).

(** [queue->Append(currentThread)] *)
Definition enqueue (q : qid) (k : Kernel) : Kernel :=
  set_queue q (queue k q ++ [currentThread k]) k.

(** [thread = queue->Remove(); if (thread != NULL) scheduler->ReadyToRun(thread)] *)
Definition wake_one (q : qid) (k : Kernel) : res Kernel :=
  match queue k q with
  | [] => Ok k
  | t :: ts => ReadyToRun t (set_queue q ts k)
  end.

Fixpoint wake_n (n : nat) (q : qid) (k : Kernel) : res Kernel :=
  match n with
  | O => Ok k
  | S n => k ← wake_one q k; wake_n n q k
  end.

(** [Sleep], up to its loop; the thread goes on with [c] afterwards. *)
Definition Sleep (c : list (op L)) (k : Kernel) : res Kernel :=
  ASSERT (bool_decide (level k = IntOff));;
  k ← setStatus (currentThread k) BLOCKED k;
  goto (Sleep_loop :: c) k.

(** ** The bodies of operations that do not block *)
Definition v_body (s : nat) (k : Kernel) : res Kernel :=
  k ← wake_one (QSem s) k;
  Ok (set_sem s (mkSem (s32 (value (sems k s) + 1))) k).

Definition release_body (l : nat) (k : Kernel) : res Kernel :=
  k ← wake_one (QLock l) k;
  Ok (set_lock l (mkLock true (owner (locks k l))) k).

Definition isHeldByCurrentThread (l : nat) (k : Kernel) : bool :=
  bool_decide (owner (locks k l) = Some (currentThread k)).

Definition signal_body (c l : nat) (k : Kernel) : res Kernel :=
  if isHeldByCurrentThread l k then
    match queue k (QCond c) with
    | [] => Ok k
    | _ => k ← wake_one (QCond c) k; Ok (set_cond c (mkCond false) k)
    end
  else Ok k.

(** ** One step of the current thread *)

(** What the client's code does at a point: its new state and the calls it
    makes. *)
Context (call : L -> nat -> K -> res (K * list (ucall L))).

(** [removeResources(thread)], on the tables the client keeps. *)
Context (removeResources : nat -> K -> res K).

(** [new Thread], then [Fork(func, arg)]: [ThreadRoot] enables interrupts, runs
    [body] and returns into [ThreadFinish].  [t] is the name of the new control
    block, which no thread has. *)
Definition fork (t : nat) (body : list (ucall L)) (k : Kernel) : res Kernel :=
  match threads k !! t with
  | Some _ => UB
  | None =>
      ReadyToRun t
        (set_threads (<[t := mkThread JUST_CREATED (map Do (Enable :: body)) None]> (threads k)) k)
  end.

(** The operations that were completed, for the theorems on traces. *)
Inductive event :=
  | EvP (s : nat) | EvV (s : nat) | EvAcquire (l t : nat) | EvRelease (l t : nat)
  | EvNew (q : qid).

(** ** synch.cc and thread.cc, operation by operation

    Each operation goes from its beginning to its end, or to the first point
    where it may give up the processor; the point is then another definition.
    [rest] is the code of the caller after the call. *)

(** *** Creation and deletion

    A new object has nobody in its queue.  [delete] of an object that threads
    wait for would lose them, and a thread inside one of its calls, also when it was woken
    already, goes on with the deleted object: both are left undefined. *)
Definition uses (o : op L) : list qid :=
  match o with
  | Do (P s) | Do (V s) | Do (Destroy s) | P_loop s _ => [QSem s]
  | Do (Acquire l) | Do (Release l) | Acquire_loop l _ => [QLock l]
  | Do (Wait c l) | Do (Signal c l) | Do (Broadcast c l) | Wait_loop c l _ | Broadcast_loop c l =>
      [QCond c; QLock l]
  | Do (MLock m) | Do (MUnlock m) | MLock_loop m _ => [QMutex m]
  | Do (BWait b) | BWait_end b _ => [QBarrier b]
  | Do (Delete q) => [q]
  | _ => []
  end.

(** Some thread is in the middle of using [q]; the current one is at its [delete]. *)
Definition in_use (q : qid) (k : Kernel) : bool :=
  existsb (fun p : nat * Thread =>
    existsb (fun o => bool_decide (q ∈ uses o))
      (if Nat.eqb p.1 (currentThread k) then tail (code p.2) else code p.2))
    (map_to_list (threads k)).

Definition delete_object (q : qid) (k : Kernel) : res unit :=
  match queue k q with
  | [] => if in_use q k then UB else Ok tt
  | _ => UB
  end.

Definition construct (q : qid) (v : Z) (k : Kernel) : Kernel :=
  match q with
  | QSem s => set_sem s (new_Semaphore v) k
  | QLock l => set_lock l new_Lock k
  | QCond c => set_cond c new_Condition k
  | QMutex m => set_mutex m new_Mutex k
  | QBarrier b => set_barrier b (new_Barrier v) k
  end.

Definition Object_new (q : qid) (v : Z) (rest : list (op L)) (k : Kernel)
    : res (list event * Kernel) :=
  match queue k q with
  | [] => k ← goto rest (construct q v k); Ok ([EvNew q], k)
  | _ => UB
  end.

Definition Object_delete (q : qid) (rest : list (op L)) (k : Kernel)
    : res (list event * Kernel) :=
  delete_object q k;; k ← goto rest k; Ok ([], k).

(** *** Semaphore *)
Definition Semaphore_P (s : nat) (rest : list (op L)) (k : Kernel) : res (list event * Kernel) :=
  k' ← goto (P_loop s (level k) :: rest) (set_level IntOff k); Ok ([], k').

(** [while (value == 0)], and the rest of [P]. *)
Definition Semaphore_P_loop (s : nat) (old : IntStatus) (rest : list (op L)) (k : Kernel)
    : res (list event * Kernel) :=
  if value (sems k s) =? 0 then
    k ← Sleep (P_loop s old :: rest) (enqueue (QSem s) k); Ok ([], k)
  else
    k ← goto (Restore old :: rest) (set_sem s (mkSem (s32 (value (sems k s) - 1))) k);
    Ok ([EvP s], k).

Definition Semaphore_V (s : nat) (rest : list (op L)) (k : Kernel) : res (list event * Kernel) :=
  let old := level k in
  k ← v_body s (set_level IntOff k);
  k ← goto (Restore old :: rest) k; Ok ([EvV s], k).

Definition Semaphore_Destroy (s : nat) (rest : list (op L)) (k : Kernel)
    : res (list event * Kernel) :=
  let old := level k in
  k ← wake_n (length (queue k (QSem s))) (QSem s) (set_level IntOff k);
  k ← goto (Restore old :: rest) k; Ok ([], k).

(** *** Lock *)
Definition Lock_Acquire (l : nat) (rest : list (op L)) (k : Kernel) : res (list event * Kernel) :=
  k' ← goto (Acquire_loop l (level k) :: rest) (set_level IntOff k); Ok ([], k').

Definition Lock_Acquire_loop (l : nat) (old : IntStatus) (rest : list (op L)) (k : Kernel)
    : res (list event * Kernel) :=
  let me := currentThread k in
  if negb (available (locks k l)) then
    k ← Sleep (Acquire_loop l old :: rest) (enqueue (QLock l) k); Ok ([], k)
  else
    k ← goto (Restore old :: rest) (set_lock l (mkLock false (Some me)) k);
    Ok ([EvAcquire l me], k).

Definition Lock_Release (l : nat) (rest : list (op L)) (k : Kernel) : res (list event * Kernel) :=
  let old := level k in
  let me := currentThread k in
  k ← release_body l (set_level IntOff k);
  k ← goto (Restore old :: rest) k; Ok ([EvRelease l me], k).

(** *** Condition *)
Definition Condition_Wait (c l : nat) (rest : list (op L)) (k : Kernel)
    : res (list event * Kernel) :=
  let old := level k in
  let off := set_level IntOff k in
  let me := currentThread k in
  if isHeldByCurrentThread l off then
    k ← release_body l off;
    k ← goto (Wait_loop c l old :: rest) k; Ok ([EvRelease l me], k)
  else k ← goto (Wait_loop c l old :: rest) off; Ok ([], k).

Definition Condition_Wait_loop (c l : nat) (old : IntStatus) (rest : list (op L)) (k : Kernel)
    : res (list event * Kernel) :=
  if isBusy (conds k c) then
    k ← Sleep (Wait_loop c l old :: rest) (enqueue (QCond c) k); Ok ([], k)
  else
    k ← goto (Do (Acquire l) :: Restore old :: rest) (set_cond c (mkCond true) k);
    Ok ([], k).

Definition Condition_Signal (c l : nat) (rest : list (op L)) (k : Kernel)
    : res (list event * Kernel) :=
  let old := level k in
  k ← signal_body c l (set_level IntOff k);
  k ← goto (Restore old :: rest) k; Ok ([], k).

Definition Condition_Broadcast (c l : nat) (rest : list (op L)) (k : Kernel)
    : res (list event * Kernel) :=
  if isHeldByCurrentThread l k then
    k ← goto (Broadcast_loop c l :: rest) k; Ok ([], k)
  else k ← goto rest k; Ok ([], k).

(** [while (queue->IsEmpty()) Signal(conditionLock)] *)
Definition Condition_Broadcast_loop (c l : nat) (rest : list (op L)) (k : Kernel)
    : res (list event * Kernel) :=
  if bool_decide (queue k (QCond c) = []) then
    k ← goto (Do (Signal c l) :: Broadcast_loop c l :: rest) k; Ok ([], k)
  else k ← goto rest k; Ok ([], k).

(** *** Mutex *)
Definition Mutex_Lock (m : nat) (rest : list (op L)) (k : Kernel) : res (list event * Kernel) :=
  k' ← goto (MLock_loop m (level k) :: rest) (set_level IntOff k); Ok ([], k').

Definition Mutex_Lock_loop (m : nat) (old : IntStatus) (rest : list (op L)) (k : Kernel)
    : res (list event * Kernel) :=
  if negb (mvalue (mutexes k m)) then
    k ← Sleep (MLock_loop m old :: rest) (enqueue (QMutex m) k); Ok ([], k)
  else
    k ← goto (Restore old :: rest) (set_mutex m (mkMutex false) k); Ok ([], k).

Definition Mutex_Unlock (m : nat) (rest : list (op L)) (k : Kernel) : res (list event * Kernel) :=
  let old := level k in
  k ← wake_one (QMutex m) (set_level IntOff k);
  k ← goto (Restore old :: rest) (set_mutex m (mkMutex true) k); Ok ([], k).

(** *** Barrier *)
Definition Barrier_Wait (b : nat) (rest : list (op L)) (k : Kernel)
    : res (list event * Kernel) :=
  let old := level k in
  let n := size (barriers k b) in
  let c := count (barriers k b) in
  let k := set_barrier b (mkBarrier n (wrap 64 (c + 1))) (set_level IntOff k) in
  if c <? n then
    k ← Sleep (BWait_end b old :: rest) (enqueue (QBarrier b) k); Ok ([], k)
  else
    k ← wake_n (Z.to_nat n) (QBarrier b) k;
    if 0 <? n then
      k ← goto (BWait_end b IntOff :: rest) (set_barrier b (mkBarrier n 0) k); Ok ([], k)
    else k ← goto (BWait_end b old :: rest) k; Ok ([], k).

(** *** Thread *)
Definition Thread_Yield (rest : list (op L)) (k : Kernel) : res (list event * Kernel) :=
  let old := level k in
  match FindNextToRun (set_level IntOff k) with
  | (Some n, k) =>
      k ← ReadyToRun (currentThread k) k;
      k ← Run n (Restore old :: rest) k; Ok ([], k)
  | (None, k) => k ← goto (Restore old :: rest) k; Ok ([], k)
  end.

(** The loop of [Sleep] and its [Run]. *)
Definition Thread_Sleep_loop (rest : list (op L)) (k : Kernel) : res (list event * Kernel) :=
  match FindNextToRun k with
  | (Some n, k) => k ← Run n rest k; Ok ([], k)
  | (None, k) => Ok ([], k)      (* interrupt->Idle() *)
  end.

Definition Thread_Finish (k : Kernel) : res (list event * Kernel) :=
  x ← removeResources (currentThread k) (client k);
  k ← goto [Finish_loop] (set_client x (set_level IntOff k)); Ok ([], k).

(** [while (semaphore->getValue() != 1) semaphore->V()], [delete semaphore], and the rest of
    [Finish]. *)
Definition Thread_Finish_loop (k : Kernel) : res (list event * Kernel) :=
  th ← get_thread (currentThread k) k;
  match semaphore th with
  | Some s =>
      if value (sems k s) =? 1 then
        delete_object (QSem s) k;; k ← Sleep [] (set_dead (Some (currentThread k)) k); Ok ([], k)
      else
        k ← v_body s k; k ← goto [Finish_loop] k; Ok ([EvV s], k)
  | None => k ← Sleep [] (set_dead (Some (currentThread k)) k); Ok ([], k)
  end.

Definition Thread_Fork (t : nat) (body : list (ucall L)) (rest : list (op L)) (k : Kernel)
    : res (list event * Kernel) :=
  let old := level k in
  k ← fork t body (set_level IntOff k);
  k ← goto rest (set_level old k); Ok ([], k).

(** [if (thread->semaphore == NULL) thread->semaphore = new Semaphore(0)], then
    [thread->semaphore->P()]. *)
Definition Thread_Join (t s : nat) (rest : list (op L)) (k : Kernel)
    : res (list event * Kernel) :=
  th ← get_thread t k;
  match semaphore th with
  | Some j => k ← goto (Do (P j) :: rest) k; Ok ([], k)
  | None =>
      Object_new (QSem s) 0 (Do (P s) :: rest)
        (set_threads (<[t := mkThread (status th) (code th) (Some s)]> (threads k)) k)
  end.

(** ** A call, and one step of the current thread *)
Definition exec_call (u : ucall L) (rest : list (op L)) (k : Kernel)
    : res (list event * Kernel) :=
  match u with
  | P s => Semaphore_P s rest k
  | V s => Semaphore_V s rest k
  | Destroy s => Semaphore_Destroy s rest k
  | Acquire l => Lock_Acquire l rest k
  | Release l => Lock_Release l rest k
  | Wait c l => Condition_Wait c l rest k
  | Signal c l => Condition_Signal c l rest k
  | Broadcast c l => Condition_Broadcast c l rest k
  | MLock m => Mutex_Lock m rest k
  | MUnlock m => Mutex_Unlock m rest k
  | BWait b => Barrier_Wait b rest k
  | Yield => Thread_Yield rest k
  | Finish => Thread_Finish k
  | Fork t body => Thread_Fork t body rest k
  | Join t s => Thread_Join t s rest k
  | New q v => Object_new q v rest k
  | Delete q => Object_delete q rest k
  | Enable => k ← goto rest (set_level IntOn k); Ok ([], k)
  | Call c =>
      '(x, us) ← call c (currentThread k) (client k);
      k ← goto (map Do us ++ rest) (set_client x k); Ok ([], k)
  end.

Definition exec (o : op L) (rest : list (op L)) (k : Kernel) : res (list event * Kernel) :=
  match o with
  | Do u => exec_call u rest k
  | P_loop s old => Semaphore_P_loop s old rest k
  | Acquire_loop l old => Lock_Acquire_loop l old rest k
  | Wait_loop c l old => Condition_Wait_loop c l old rest k
  | Broadcast_loop c l => Condition_Broadcast_loop c l rest k
  | MLock_loop m old => Mutex_Lock_loop m old rest k
  | Finish_loop => Thread_Finish_loop k
  | Sleep_loop => Thread_Sleep_loop rest k
  | Run_end => k ← finish_Run k; k ← goto rest k; Ok ([], k)
  | BWait_end _ old | Restore old => k ← goto rest (set_level old k); Ok ([], k)
  end.

(** A thread that returns from its procedure goes on in [ThreadFinish]. *)
Definition step (k : Kernel) : res (list event * Kernel) :=
  th ← get_thread (currentThread k) k;
  match code th with
  | [] => exec (Do Finish) [] k
  | o :: rest => exec o rest k
  end.

(** ** The hardware *)

(** The device interrupts that may happen: the semaphore their handler does a
    [V] on. *)
Context (irq : K -> nat -> K -> Prop).

(** The current thread is in [Sleep] and no thread is ready. *)
Definition idle (k : Kernel) : Prop :=
  readyList k = [] /\
  exists th c, threads k !! currentThread k = Some th /\ code th = Sleep_loop :: c.

Inductive sys_step : Kernel -> list event -> Kernel -> Prop :=
  | step_run k es k' : step k = Ok (es, k') -> sys_step k es k'
  | step_preempt k th k' :
      level k = IntOn -> threads k !! currentThread k = Some th ->
      goto (Do Yield :: code th) k = Ok k' -> sys_step k [] k'
  | step_interrupt k s x k' :
      level k = IntOn \/ idle k -> irq (client k) s x ->
      v_body s (set_client x k) = Ok k' -> sys_step k [EvV s] k'.

(** Executions and their traces. *)
Inductive runs : Kernel -> list event -> Kernel -> Prop :=
  | runs_refl k : runs k [] k
  | runs_step k1 es1 k2 es2 k3 :
      runs k1 es1 k2 -> sys_step k2 es2 k3 -> runs k1 (es1 ++ es2) k3.

(** The deterministic run of [n] steps of the threads alone. *)
Fixpoint steps (n : nat) (k : Kernel) : res (list event * Kernel) :=
  match n with
  | O => Ok ([], k)
  | S n => '(es, k) ← step k; '(es', k) ← steps n k; Ok (es ++ es', k)
  end.

(** ** The kernel invariant *)

(** What a thread must be waiting for at a point. *)
Definition queue_of (o : op L) : option qid :=
  match o with
  | P_loop s _ => Some (QSem s)
  | Acquire_loop l _ => Some (QLock l)
  | Wait_loop c _ _ => Some (QCond c)
  | MLock_loop m _ => Some (QMutex m)
  | BWait_end b _ => Some (QBarrier b)
  | _ => None
  end.

(** Points that run with interrupts off. *)
Definition needs_off (o : op L) : bool :=
  match o with
  | Do _ | Broadcast_loop _ _ | Restore _ => false
  | _ => true
  end.

Definition head_off (c : list (op L)) : bool :=
  match c with [] => false | o :: _ => needs_off o end.

Definition is_sleeping (c : list (op L)) : bool :=
  match c with Sleep_loop :: _ => true | _ => false end.

Definition switching (c : list (op L)) : bool :=
  match c with Sleep_loop :: _ | Run_end :: _ => true | _ => false end.

(** Only the first point, and the point after a context switch, are inside a
    call. *)
Definition resumable (c : list (op L)) : Prop :=
  switching c = false /\ Forall (fun o => needs_off o = false) (tail c).

Definition code_ok (c : list (op L)) : Prop :=
  resumable (if switching c then tail c else c).

(** The queue a switched-off thread waits in. *)
Definition waits_on (c : list (op L)) : option qid :=
  match c with
  | (Sleep_loop | Run_end) :: o :: _ => queue_of o
  | _ => None
  end.

(** The code of a thread that does not come back from [Finish]. *)
Definition finished (c : list (op L)) : Prop := c = [Sleep_loop] \/ c = [Run_end].

Lemma finished_waits c : finished c -> waits_on c = None.
Proof. by intros [-> | ->]. Qed.

(** What the kernel knows of one thread: its control block, whether it is the
    current one, on the ready list, in a queue, about to be destroyed. *)
Definition slot_ok (is_current : Prop) (b : option Thread) (is_ready : Prop)
    (queued : qid -> Prop) (dying : Prop) : Prop :=
  match b with
  | None => ~ is_current /\ ~ is_ready /\ (forall q, ~ queued q) /\ ~ dying
  | Some th =>
      code_ok (code th) /\
      match status th with
      | JUST_CREATED => False
      | RUNNING => is_current /\ is_sleeping (code th) = false /\
          ~ is_ready /\ (forall q, ~ queued q) /\ ~ dying
      | READY => (is_current <-> is_sleeping (code th) = true) /\
          is_ready /\ (forall q, ~ queued q) /\ ~ dying
      | BLOCKED => (is_current <-> is_sleeping (code th) = true) /\
          ~ is_ready /\ (forall q, queued q <-> waits_on (code th) = Some q) /\
          (dying -> finished (code th)) /\ switching (code th) = true
      end
  end.

Record wf_state (ths : gmap nat Thread) (cur : nat) (ready : list nat)
    (dead : option nat) (lvl : IntStatus) (que : qid -> list nat) : Prop := {
  wf_slot t : slot_ok (t = cur) (ths !! t) (t ∈ ready) (fun q => t ∈ que q) (dead = Some t);
  wf_level th : ths !! cur = Some th -> head_off (code th) = true -> lvl = IntOff;
  wf_ready : NoDup ready;
  wf_queue q : NoDup (que q)
}.

Definition wf (k : Kernel) : Prop :=
  wf_state (threads k) (currentThread k) (readyList k) (threadToBeDestroyed k)
    (level k) (queue k).

(** *** Changes of the threads that keep the invariant *)

(** The thread [j] after a change of the thread [i]. *)
Ltac slot i j :=
  destruct (decide (j = i)) as [->|];
    [rewrite ?lookup_insert_eq|rewrite ?lookup_insert_ne by congruence].

Lemma slot_ok_iff (c c' : Prop) b (r r' : Prop) q q' (d d' : Prop) :
  slot_ok c b r q d -> (c <-> c') -> (r <-> r') -> (forall i, q i <-> q' i) -> (d <-> d') ->
  slot_ok c' b r' q' d'.
Proof.
  intros H Hc Hr Hq Hd.
  assert ((forall i, ~ q i) <-> (forall i, ~ q' i)) as Hn by (split; intros G i; by rewrite Hq || rewrite <- Hq).
  destruct b as [th|]; simpl in *; [|tauto].
  destruct H as [? H]; split; [done|]. destruct (status th); try tauto.
  destruct H as (A & B & C & D & E). split_and!; try tauto. intros i. by rewrite <- Hq.
Qed.

Lemma slot_queued (c : Prop) th (r : Prop) (q : qid -> Prop) (d : Prop) i :
  slot_ok c (Some th) r q d -> q i ->
  status th = BLOCKED /\ ~ r /\ waits_on (code th) = Some i /\ ~ d /\
  (c <-> is_sleeping (code th) = true).
Proof.
  intros [_ H] Hi. destruct (status th); [done|by destruct H as (_ & _ & _ & HN & _); destruct (HN i)|
    by destruct H as (_ & _ & HN & _); destruct (HN i)|].
  destruct H as (? & ? & Hq & Hd & _). apply Hq in Hi. split_and!; try done.
  intros D. apply Hd, finished_waits in D. congruence.
Qed.

Lemma slot_running (c : Prop) th (r : Prop) (q : qid -> Prop) (d : Prop) :
  slot_ok c (Some th) r q d -> c -> is_sleeping (code th) = false ->
  status th = RUNNING /\ ~ r /\ (forall i, ~ q i) /\ ~ d.
Proof. intros [_ H] Hc Hs. destruct (status th); intuition congruence. Qed.

Lemma current_slot ths cur ready dead lvl que :
  wf_state ths cur ready dead lvl que ->
  exists th, ths !! cur = Some th /\ (status th = RUNNING <-> is_sleeping (code th) = false).
Proof.
  intros [W _ _ _]. specialize (W cur). destruct (ths !! cur) as [th|]; simpl in W.
  - exists th. split; [done|]. destruct W as [_ W].
    destruct (status th), (is_sleeping (code th)); intuition congruence.
  - by destruct W as [[] _].
Qed.

Section changes.
Context (ths : gmap nat Thread) (cur : nat) (ready : list nat)
  (dead : option nat) (lvl : IntStatus) (que : qid -> list nat).
Context (Hwf : wf_state ths cur ready dead lvl que).

Lemma wf_goto th c s lvl' :
  ths !! cur = Some th -> is_sleeping (code th) = false ->
  code_ok c -> is_sleeping c = false -> (head_off c = true -> lvl' = IntOff) ->
  wf_state (<[cur := mkThread (status th) c s]> ths) cur ready dead lvl' que.
Proof.
  intros Hth Hs Hc Hc' Hl. destruct Hwf as [W W2 W3 W4]. split; try done.
  - intros t. pose proof (W t) as Ht. slot cur t; [|done].
    rewrite Hth in Ht. simpl in *. rewrite Hs in Ht. rewrite Hc'.
    split; [done|]. destruct (status th); intuition congruence.
  - intros th'. rewrite lookup_insert_eq. intros [= <-]. done.
Qed.

(** [que] with the queue [q] replaced. *)
#[local] Abbreviation with_queue q l := (fun q' : qid => if decide (q' = q) then l else que q').

Lemma wf_wake q t ts th :
  que q = t :: ts -> ths !! t = Some th ->
  wf_state (<[t := mkThread READY (code th) (semaphore th)]> ths) cur (ready ++ [t]) dead lvl
    (with_queue q ts).
Proof.
  intros Hq Hth. destruct Hwf as [W W2 W3 W4].
  pose proof (W t) as Ht. rewrite Hth in Ht.
  assert (t ∈ que q) as Hin by (rewrite Hq; constructor).
  pose proof (W4 q) as Hnd. rewrite Hq in Hnd. apply NoDup_cons in Hnd as [Hts Hnd].
  pose proof Ht as [Hc _]. destruct (slot_queued _ _ _ _ _ q Ht Hin) as (_ & Hr & Hw & Hd & Hcur).
  split.
  - intros t'. slot t t'.
    + simpl. split_and!; [done|done|set_solver| |].
      * intros q'. case_decide as Hqq; [by subst|]. intros Hin'.
        destruct (slot_queued _ _ _ _ _ q' Ht Hin') as (_ & _ & Hw' & _). congruence.
      * done.
    + eapply slot_ok_iff; [apply W|done|set_solver| |done].
      intros q'. case_decide; [subst q'; rewrite Hq; set_solver|done].
  - intros th'. destruct (decide (cur = t)) as [->|].
    + rewrite lookup_insert_eq. intros [= <-]. by apply (W2 th).
    + rewrite lookup_insert_ne by congruence. by apply W2.
  - apply NoDup_app. split_and!; [done|set_solver|by apply NoDup_singleton].
  - intros q'. by case_decide.
Qed.

(** [Append(currentThread)] and [Sleep]. *)
Lemma wf_block q th c s :
  ths !! cur = Some th -> is_sleeping (code th) = false -> lvl = IntOff ->
  resumable c -> waits_on (Sleep_loop :: c) = Some q ->
  wf_state (<[cur := mkThread BLOCKED (Sleep_loop :: c) s]> ths) cur ready dead lvl
    (with_queue q (que q ++ [cur])).
Proof.
  intros Hth Hs -> Hc Hq. destruct Hwf as [W W2 W3 W4].
  pose proof (W cur) as Ht. rewrite Hth in Ht.
  destruct (slot_running _ _ _ _ _ Ht eq_refl Hs) as (_ & Hr & Hnq & Hd).
  split.
  - intros t'. slot cur t'.
    + cbn -[waits_on]. rewrite Hq. split_and!; [done|done|done| |done|done].
      intros q'. case_decide as Hqq; [subst q'; set_solver|].
      split; [intros []%Hnq|congruence].
    + eapply slot_ok_iff; [apply W|done..| |done].
      intros q'. case_decide; [subst q'; set_solver|done].
  - done.
  - done.
  - intros q'. case_decide; [|done]. apply NoDup_app.
    split_and!; [done|set_solver|by apply NoDup_singleton].
Qed.

(** [threadToBeDestroyed = currentThread] and [Sleep]. *)
Lemma wf_die th s :
  ths !! cur = Some th -> is_sleeping (code th) = false -> lvl = IntOff ->
  wf_state (<[cur := mkThread BLOCKED [Sleep_loop] s]> ths) cur ready (Some cur) lvl que.
Proof.
  intros Hth Hs ->. destruct Hwf as [W W2 W3 W4].
  pose proof (W cur) as Ht. rewrite Hth in Ht.
  destruct (slot_running _ _ _ _ _ Ht eq_refl Hs) as (_ & Hr & Hnq & Hd).
  split; [|done..]. intros t'. slot cur t'.
  - split; [by split; [|constructor]|]. cbn. split_and!; [done|done| |by left|done].
    intros q'. split; [intros []%Hnq|done].
  - specialize (W t'). destruct (ths !! t') as [th'|]; simpl in *; [|intuition congruence].
    destruct (status th'); intuition congruence.
Qed.

Lemma ready_slot t :
  t ∈ ready -> exists th, ths !! t = Some th /\ status th = READY /\
    code_ok (code th) /\ (forall q, t ∉ que q) /\ dead <> Some t /\
    (t = cur <-> is_sleeping (code th) = true).
Proof.
  intros Hr. destruct Hwf as [W _ _ _]. specialize (W t).
  destruct (ths !! t) as [th|]; [|by destruct W as (_ & [] & _)].
  exists th. destruct W as [Hc W]. destruct (status th); intuition congruence.
Qed.

(** [Run] of the first ready thread, by a thread in [Sleep]. *)
Lemma wf_switch th n ts c s thn :
  ths !! cur = Some th -> code th = Sleep_loop :: c -> ready = n :: ts ->
  <[cur := mkThread (status th) (Run_end :: c) s]> ths !! n = Some thn ->
  wf_state (<[n := mkThread RUNNING (code thn) (semaphore thn)]>
             (<[cur := mkThread (status th) (Run_end :: c) s]> ths)) n ts dead lvl que.
Proof.
  intros Hth Hco Hrd Hn. destruct (ready_slot n) as (th0 & H0 & Hst & Hc0 & Hq0 & Hd0 & Hcur);
    [rewrite Hrd; constructor|].
  destruct Hwf as [W W2 W3 W4]. rewrite Hrd in W3. apply NoDup_cons in W3 as [Hnt W3].
  assert (lvl = IntOff) as -> by (apply (W2 th Hth); by rewrite Hco).
  assert (code_ok (Run_end :: c)) as Hc.
  { pose proof (W cur) as H. rewrite Hth in H. destruct H as [H _]. by rewrite Hco in H. }
  split; [|done..]. intros t. slot n t.
  - assert (code_ok (code thn) /\ is_sleeping (code thn) = false) as [??].
    { destruct (decide (n = cur)) as [->|Hne].
      - rewrite lookup_insert_eq in Hn. by injection Hn as <-.
      - rewrite lookup_insert_ne in Hn by congruence. rewrite H0 in Hn. injection Hn as <-.
        split; [done|]. destruct (is_sleeping (code th0)); [|done]. by destruct Hne; apply Hcur. }
    by split.
  - specialize (W t). rewrite Hrd in W. slot cur t.
    + rewrite Hth in W. destruct W as [_ W]. rewrite Hco in W. simpl in *.
      split; [done|]. destruct (status th); [done|by destruct W as (_ & ? & _)|..].
      * destruct W as (_ & Hr & Hq & Hd). split_and!; try done. set_solver.
      * destruct W as (_ & Hr & Hq & Hd & _). split_and!; try done; [set_solver|].
        intros [Hf|Hf]%Hd; [right; by injection Hf as ->|done].
    + assert (t <> cur) as Hne by done. destruct (ths !! t) as [th'|]; simpl in *.
      * destruct W as [? W]. split; [done|]. destruct (status th').
        -- done.
        -- by destruct W.
        -- destruct W as (Hs & Hr & Hq & Hd). split_and!; [tauto|set_solver|done|done].
        -- destruct W as (Hs & Hr & Hq & Hd & Hsw). split_and!; [tauto|set_solver|done|done|done].
      * destruct W as (_ & Hr & Hq & Hd). split_and!; [done|set_solver|done|done].
Qed.

(** [ReadyToRun(this)] and [Run] of the first ready thread, in [Yield]. *)
Lemma wf_yield th n ts c s thn :
  ths !! cur = Some th -> is_sleeping (code th) = false -> ready = n :: ts ->
  resumable c -> ths !! n = Some thn ->
  wf_state (<[n := mkThread RUNNING (code thn) (semaphore thn)]>
             (<[cur := mkThread READY (Run_end :: c) s]> ths)) n (ts ++ [cur]) dead IntOff que.
Proof.
  intros Hth Hs Hrd Hc Hn. destruct (ready_slot n) as (th0 & H0 & Hst & Hc0 & Hq0 & Hd0 & Hcur);
    [rewrite Hrd; constructor|].
  rewrite Hn in H0. injection H0 as <-.
  destruct Hwf as [W W2 W3 W4]. rewrite Hrd in W3. apply NoDup_cons in W3 as [Hnt W3].
  pose proof (W cur) as Hc'. rewrite Hth in Hc'.
  destruct (slot_running _ _ _ _ _ Hc' eq_refl Hs) as (_ & Hr & Hnq & Hd).
  rewrite Hrd in Hr. assert (n <> cur) as Hne by set_solver.
  split; [|done| |done].
  - intros t. slot n t.
    + split; [done|]. simpl. split_and!; [done| |set_solver|done|done].
      destruct (is_sleeping (code thn)); [|done]. by destruct Hne; apply Hcur.
    + specialize (W t). rewrite Hrd in W. slot cur t.
      * split; [done|]. simpl. split_and!; [done|set_solver|done|done].
      * assert (t ∈ n :: ts <-> t ∈ ts ++ [cur]) as Hin by set_solver.
        apply (slot_ok_iff (t = n) _ _ (t ∈ n :: ts) _ (fun q => t ∈ que q) _ (dead = Some t));
          [|done..].
        destruct (ths !! t) as [th'|]; simpl in *; [|intuition congruence].
        destruct W as [? W]. split; [done|]. destruct (status th'); intuition congruence.
  - apply NoDup_app. split_and!; [done|set_solver|by apply NoDup_singleton].
Qed.

(** [delete threadToBeDestroyed]. *)
Lemma wf_reap t th :
  ths !! cur = Some th -> is_sleeping (code th) = false -> dead = Some t ->
  t <> cur /\ wf_state (delete t ths) cur ready None lvl que.
Proof.
  intros Hth Hs Hd. destruct Hwf as [W W2 W3 W4].
  assert (t <> cur) as Hne.
  { intros ->. pose proof (W cur) as Hc. rewrite Hth in Hc.
    by destruct (slot_running _ _ _ _ _ Hc eq_refl Hs) as (_ & _ & _ & []). }
  split; [done|]. split; [| |done..].
  - intros t'. specialize (W t'). destruct (decide (t' = t)) as [->|].
    + rewrite lookup_delete_eq. destruct (ths !! t) as [th'|]; simpl in *; [|intuition congruence].
      destruct W as [_ W]. destruct (status th'); try intuition congruence.
      destruct W as (Hcu & Hr & Hq & Hw & Hsw). split_and!; try done.
      intros q Hin. apply Hq in Hin. rewrite finished_waits in Hin; auto; done.
    + rewrite lookup_delete_ne by congruence. destruct (ths !! t') as [th'|]; simpl in *;
        [|intuition congruence].
      destruct W as [? W]. split; [done|]. destruct (status th'); intuition congruence.
  - intros th'. rewrite lookup_delete_ne by congruence. apply W2.
Qed.

(** [new Thread] and [Fork]. *)
Lemma wf_fork t c s :
  ths !! t = None -> resumable c ->
  wf_state (<[t := mkThread READY c s]> ths) cur (ready ++ [t]) dead lvl que.
Proof.
  intros Ht Hc. destruct Hwf as [W W2 W3 W4]. pose proof (W t) as Hf. rewrite Ht in Hf.
  destruct Hf as (Hcur & Hr & Hq & Hd).
  assert (switching c = false /\ is_sleeping c = false) as [Hsw Hs].
  { destruct Hc as [Hc _]. by destruct c as [|[] ?]. }
  split.
  - intros t'. slot t t'.
    + split; [unfold code_ok; cbn [code]; by rewrite Hsw|]. simpl. rewrite Hs.
      split_and!; [done|set_solver|done|done].
    + eapply slot_ok_iff; [apply W|done|set_solver|done|done].
  - intros th'. rewrite lookup_insert_ne by congruence. apply W2.
  - apply NoDup_app. split_and!; [done|set_solver|by apply NoDup_singleton].
  - done.
Qed.

(** A change of a [semaphore] field. *)
Lemma wf_semaphore t th s :
  ths !! t = Some th ->
  wf_state (<[t := mkThread (status th) (code th) s]> ths) cur ready dead lvl que.
Proof.
  intros Ht. destruct Hwf as [W W2 W3 W4]. split; [| |done..].
  - intros t'. specialize (W t'). slot t t'; [|done]. by rewrite Ht in W.
  - intros th'. destruct (decide (cur = t)) as [->|].
    + rewrite lookup_insert_eq. intros [= <-]. by apply (W2 th).
    + rewrite lookup_insert_ne by congruence. apply W2.
Qed.

End changes.

(** Unfold one operation. *)
Ltac call :=
  cbn [exec exec_call] in *;
  unfold Semaphore_P, Semaphore_P_loop, Semaphore_V, Semaphore_Destroy, Lock_Acquire,
    Lock_Acquire_loop, Lock_Release, Condition_Wait, Condition_Wait_loop, Condition_Signal,
    Condition_Broadcast, Condition_Broadcast_loop, Mutex_Lock, Mutex_Lock_loop, Mutex_Unlock,
    Barrier_Wait, Thread_Yield, Thread_Sleep_loop, Thread_Finish, Thread_Finish_loop,
    Thread_Fork, Thread_Join, Object_new, Object_delete in *; cbv zeta in *.

(** *** The operations keep the invariant *)

(** The invariant while a call runs, with interrupts off. *)
Definition wf_off (k : Kernel) : Prop := wf (set_level IntOff k).

Definition running (k : Kernel) : Prop :=
  exists th, threads k !! currentThread k = Some th /\ is_sleeping (code th) = false.

(** A state inside a call: [k0] is the state at its beginning. *)
Record inside (k0 k : Kernel) : Prop := {
  in_wf : wf_off k;
  in_running : running k;
  in_current : currentThread k = currentThread k0;
  in_level : level k = level k0
}.

Lemma wf_wf_off k : wf k -> wf_off k.
Proof. intros [W1 W2 W3 W4]. by split. Qed.

Lemma goto_ok c k0 k :
  inside k0 k -> code_ok c -> is_sleeping c = false ->
  (head_off c = true -> level k = IntOff) -> exists k', goto c k = Ok k' /\ wf k'.
Proof.
  intros [Hw (th & Hth & Hs) _ _] Hc Hc' Hl. unfold goto, get_thread. rewrite Hth. cbn [bind].
  eexists. split; [done|]. by apply (wf_goto _ _ _ _ _ _ Hw th).
Qed.

Lemma queued_thread q t ts k :
  wf k -> queue k q = t :: ts -> exists th, threads k !! t = Some th.
Proof.
  intros [W _ _ _] Hq. specialize (W t). destruct (threads k !! t) as [th|]; [by exists th|].
  destruct W as (_ & _ & Hn & _). destruct (Hn q). cbn. rewrite Hq. constructor.
Qed.

Lemma v_body_wf s k : wf k -> exists k', v_body s k = Ok k' /\ wf k'.
Proof.
  intros Hw. unfold v_body, wake_one. destruct (queue k (QSem s)) as [|t ts] eqn:Hq.
  - cbn [bind]. by eexists.
  - destruct (queued_thread _ _ _ _ Hw Hq) as [th Hth].
    unfold ReadyToRun, setStatus, get_thread. cbn. rewrite Hth. cbn. eexists. split; [done|].
    by apply (wf_wake _ _ _ _ _ _ Hw (QSem s) t ts th).
Qed.

Lemma ReadyToRun_wake q t ts k0 k :
  inside k0 k -> queue k q = t :: ts ->
  exists k', ReadyToRun t (set_queue q ts k) = Ok k' /\ inside k0 k'.
Proof.
  intros [Hw (thc & Hc & Hs) Hcur Hlv] Hq. unfold ReadyToRun, setStatus, get_thread.
  destruct (queued_thread q t ts _ Hw Hq) as [th Hth]. cbn in Hth.
  cbn. rewrite Hth. cbn [bind]. eexists. split; [done|]. split; [|clear Hw|done..].
  - by apply (wf_wake _ _ _ _ _ _ Hw q t ts th).
  - unfold running. cbn. destruct (decide (t = currentThread k)) as [->|].
    + rewrite lookup_insert_eq. eexists. split; [done|]. by replace th with thc by congruence.
    + rewrite lookup_insert_ne by done. by exists thc.
Qed.

Lemma wake_one_ok q k0 k :
  inside k0 k -> exists k', wake_one q k = Ok k' /\ inside k0 k'.
Proof.
  intros Hi. unfold wake_one. destruct (queue k q) as [|t ts] eqn:Hq; [by exists k|].
  by apply ReadyToRun_wake.
Qed.

Lemma wake_n_ok n q k0 k :
  inside k0 k -> exists k', wake_n n q k = Ok k' /\ inside k0 k'.
Proof.
  revert k. induction n as [|n IH]; simpl; intros k Hi; [by exists k|].
  destruct (wake_one_ok q _ _ Hi) as (k1 & -> & Hi1). by apply IH.
Qed.

Lemma inside_frame k0 k k' :
  threads k' = threads k -> currentThread k' = currentThread k -> readyList k' = readyList k ->
  threadToBeDestroyed k' = threadToBeDestroyed k -> level k' = level k -> queue k' = queue k ->
  inside k0 k -> inside k0 k'.
Proof.
  intros H1 H2 H3 H4 H5 H6 [A B C D]. split.
  - unfold wf_off, wf in *. cbn in *. by rewrite H1, H2, H3, H4, H6.
  - unfold running. by rewrite H1, H2.
  - by rewrite H2.
  - by rewrite H5.
Qed.

Lemma v_body_ok s k0 k : inside k0 k -> exists k', v_body s k = Ok k' /\ inside k0 k'.
Proof.
  intros Hi. unfold v_body. destruct (wake_one_ok (QSem s) _ _ Hi) as (k1 & -> & Hi1).
  eexists. split; [done|]. by eapply inside_frame, Hi1.
Qed.

Lemma release_body_ok l k0 k : inside k0 k -> exists k', release_body l k = Ok k' /\ inside k0 k'.
Proof.
  intros Hi. unfold release_body. destruct (wake_one_ok (QLock l) _ _ Hi) as (k1 & -> & Hi1).
  eexists. split; [done|]. by eapply inside_frame, Hi1.
Qed.

Lemma signal_body_ok c l k0 k :
  inside k0 k -> exists k', signal_body c l k = Ok k' /\ inside k0 k'.
Proof.
  intros Hi. unfold signal_body. destruct (isHeldByCurrentThread l k); [|by exists k].
  destruct (queue k (QCond c)) eqn:Hq; [by exists k|].
  destruct (wake_one_ok (QCond c) _ _ Hi) as (k1 & -> & Hi1).
  eexists. split; [done|]. by eapply inside_frame, Hi1.
Qed.

(** [Append] to a queue and [Sleep]. *)
Lemma Sleep_ok q c k0 k :
  inside k0 k -> level k = IntOff -> resumable c -> waits_on (Sleep_loop :: c) = Some q ->
  exists k', Sleep c (enqueue q k) = Ok k' /\ wf k'.
Proof.
  intros [Hw (th & Hth & Hs) _ _] Hl Hc Hq. unfold Sleep, goto, setStatus, get_thread. cbn.
  rewrite bool_decide_true by done. cbn. rewrite Hth. cbn. rewrite lookup_insert_eq. cbn.
  eexists. split; [done|]. unfold wf. cbn. rewrite insert_insert_eq, Hl.
  by apply (wf_block _ _ _ _ _ _ Hw q th c).
Qed.

Lemma Sleep_die k0 k :
  inside k0 k -> level k = IntOff ->
  exists k', Sleep [] (set_dead (Some (currentThread k)) k) = Ok k' /\ wf k'.
Proof.
  intros [Hw (th & Hth & Hs) _ _] Hl. unfold Sleep, goto, setStatus, get_thread. cbn.
  rewrite bool_decide_true by done. cbn. rewrite Hth. cbn. rewrite lookup_insert_eq. cbn.
  eexists. split; [done|]. unfold wf. cbn. rewrite insert_insert_eq, Hl.
  by apply (wf_die _ _ _ _ _ _ Hw th).
Qed.

(** The loop of [Sleep]: a context switch, or nothing while no thread is ready. *)
Lemma Sleep_loop_ok th c k :
  wf k -> threads k !! currentThread k = Some th -> code th = Sleep_loop :: c ->
  exists k', exec Sleep_loop c k = Ok ([], k') /\ wf k'.
Proof.
  intros Hw Hth Hc. call. unfold FindNextToRun. destruct (readyList k) as [|n ts] eqn:Hr.
  - exists k. done.
  - unfold Run, goto, setStatus, get_thread. cbn. rewrite Hth. cbn.
    destruct (<[currentThread k := mkThread (status th) (Run_end :: c) (semaphore th)]> (threads k) !! n)
      as [thn|] eqn:Hn.
    + cbn. eexists. split; [done|]. by apply (wf_switch _ _ _ _ _ _ Hw th n ts c _ thn).
    + exfalso. destruct (ready_slot _ _ _ _ _ _ Hw n) as (th0 & H0 & _); [rewrite Hr; constructor|].
      rewrite lookup_insert in Hn. by case_decide; [|rewrite H0 in Hn].
Qed.

Lemma Yield_ok rest k0 k :
  inside k0 k -> level k = IntOff -> resumable rest ->
  exists k', (let '(o, k) := FindNextToRun k in
    match o with
    | Some n => k ← ReadyToRun (currentThread k) k; Run n rest k
    | None => goto rest k
    end) = Ok k' /\ wf k'.
Proof.
  intros Hi Hl Hrest. pose proof Hi as [Hw (th & Hth & Hs) _ _]. unfold FindNextToRun.
  assert (switching rest = false /\ is_sleeping rest = false) as [Hsw Hs'].
  { destruct Hrest as [H _]. by destruct rest as [|[] ?]. }
  destruct (readyList k) as [|n ts] eqn:Hr.
  - apply (goto_ok _ _ _ Hi); [by unfold code_ok; rewrite Hsw|done|done].
  - destruct (ready_slot _ _ _ _ _ _ Hw n) as (thn & Hn & Hst & _ & _ & _ & Hcn);
      [cbn; rewrite Hr; constructor|]. cbn in Hn, Hcn.
    assert (n <> currentThread k) as Hne.
    { intros ->. assert (is_sleeping (code thn) = true) by tauto. congruence. }
    unfold ReadyToRun, Run, goto, setStatus, get_thread. cbn. rewrite Hth. cbn.
    rewrite lookup_insert_eq. cbn. rewrite insert_insert_eq, lookup_insert_ne, Hn by done. cbn.
    eexists. split; [done|]. unfold wf. cbn. rewrite Hl.
    by apply (wf_yield _ _ _ _ _ _ Hw th n ts rest _ thn).
Qed.

Lemma finish_Run_ok k :
  inside k k -> exists k', finish_Run k = Ok k' /\ inside k k'.
Proof.
  intros Hi. pose proof Hi as [Hw (th & Hth & Hs) _ _]. unfold finish_Run.
  destruct (threadToBeDestroyed k) as [t|] eqn:Ht.
  - destruct (wf_reap _ _ _ _ _ _ Hw t th Hth Hs Ht) as [Hne Hw'].
    cbn in Hne. rewrite (proj2 (Nat.eqb_neq _ _) Hne). cbn. eexists. split; [done|].
    split; [done| |done..]. exists th. cbn. by rewrite lookup_delete_ne.
  - eexists. split; [done|]. by eapply inside_frame, Hi.
Qed.

Lemma fork_ok t body k0 k :
  inside k0 k -> threads k !! t = None -> exists k', fork t body k = Ok k' /\ inside k0 k'.
Proof.
  intros [Hw (th & Hth & Hs) ??] Ht. unfold fork, ReadyToRun, setStatus, get_thread.
  rewrite Ht. cbn. rewrite lookup_insert_eq. cbn. eexists. split; [done|]. split; [| |done..].
  - unfold wf_off, wf. cbn. rewrite insert_insert_eq.
    apply (wf_fork _ _ _ _ _ _ Hw t (Do Enable :: map Do body)); [done|].
    split; [done|]. simpl. by apply Forall_fmap, Forall_true.
  - exists th. cbn. rewrite insert_insert_eq, lookup_insert_ne; [done|congruence].
Qed.

Lemma SetSemaphore_ok t th j k :
  inside k k -> threads k !! t = Some th ->
  inside k (set_threads (<[t := mkThread (status th) (code th) j]> (threads k)) k).
Proof.
  intros [Hw (thc & Hc & Hs) ??] Ht. split; [|clear Hw|done..].
  - by apply (wf_semaphore _ _ _ _ _ _ Hw t th).
  - unfold running. cbn. destruct (decide (t = currentThread k)) as [->|].
    + rewrite lookup_insert_eq. eexists. split; [done|]. by replace th with thc by congruence.
    + rewrite lookup_insert_ne by done. by exists thc.
Qed.

(** The client's part of a step. *)
Definition client_fails (k : Kernel) : Prop :=
  exists th, threads k !! currentThread k = Some th /\
  match code th with
  | Do (Call c) :: _ => forall r, call c (currentThread k) (client k) <> Ok r
  | [] | Do Finish :: _ => forall r, removeResources (currentThread k) (client k) <> Ok r
  | Do (Fork t _) :: _ => is_Some (threads k !! t)
  | Do (Join t s) :: _ =>
      match threads k !! t with
      | None => True
      | Some th => semaphore th = None /\ queue k (QSem s) <> []
      end
  | Do (New q _) :: _ => queue k q <> []
  | Do (Delete q) :: _ => delete_object q k = UB
  | _ => False
  end.

(** A thread that another one joined finishes: it deletes the semaphore that the joining
    thread waits for, or was woken from. *)
Definition finish_fails (k : Kernel) : Prop :=
  exists th s, threads k !! currentThread k = Some th /\ head (code th) = Some Finish_loop /\
    semaphore th = Some s /\ value (sems k s) = 1 /\ (queue k (QSem s) <> [] \/ in_use (QSem s) k = true).

Definition step_safe (k : Kernel) (r : res (list event * Kernel)) : Prop :=
  (exists es k', r = Ok (es, k') /\ wf k') \/ client_fails k \/ finish_fails k.

(** The rest of the code of a call. *)
Definition plain (c : list (op L)) : Prop := Forall (fun o => needs_off o = false) c.

Lemma plain_resumable o c : switching [o] = false -> plain c -> resumable (o :: c).
Proof. intros Ho Hc. by split; [destruct o|]. Qed.

Lemma plain_code_ok o c : switching [o] = false -> plain c -> code_ok (o :: c).
Proof.
  intros Ho Hc. unfold code_ok. replace (switching (o :: c)) with false by (by destruct o).
  by apply plain_resumable.
Qed.

Lemma plain_head c : plain c -> switching c = false /\ is_sleeping c = false /\ head_off c = false.
Proof. intros [|o c' Ho _]; [done|]. by destruct o. Qed.

Lemma plain_ok c : plain c -> code_ok c.
Proof.
  intros Hc. destruct (plain_head c Hc) as (Hs & _). unfold code_ok. rewrite Hs.
  split; [done|]. by destruct Hc.
Qed.

Lemma inside_refl k : wf_off k -> running k -> inside k k.
Proof. by split. Qed.

Lemma inside_level k0 k l : inside k0 k -> inside (set_level l k0) (set_level l k).
Proof. by intros [????]. Qed.

(** The end of a call. *)
Lemma goto_step c es kc k0 k :
  inside k0 k -> code_ok c -> is_sleeping c = false ->
  (head_off c = true -> level k = IntOff) ->
  step_safe kc (k' ← goto c k; Ok (es, k')).
Proof.
  intros Hi Hc Hs Hl. destruct (goto_ok c k0 k Hi Hc Hs Hl) as (k' & -> & Hw).
  left. by exists es, k'.
Qed.

Lemma goto_plain c es kc k0 k :
  inside k0 k -> plain c -> step_safe kc (k' ← goto c k; Ok (es, k')).
Proof.
  intros Hi Hc. destruct (plain_head c Hc) as (_ & H2 & H3).
  apply (goto_step _ _ _ k0); [done|by apply plain_ok|done|by rewrite H3].
Qed.

Lemma goto_point o c es kc k0 k :
  inside k0 k -> level k = IntOff -> switching [o] = false -> plain c ->
  step_safe kc (k' ← goto (o :: c) k; Ok (es, k')).
Proof.
  intros Hi Hl Ho Hc. apply (goto_step _ _ _ k0); [done|by apply plain_code_ok|by destruct o|done].
Qed.

Lemma Sleep_step q c es kc k0 k :
  inside k0 k -> level k = IntOff -> resumable c -> waits_on (Sleep_loop :: c) = Some q ->
  step_safe kc (k' ← Sleep c (enqueue q k); Ok (es, k')).
Proof.
  intros Hi Hl Hc Hq. destruct (Sleep_ok q c k0 k Hi Hl Hc Hq) as (k' & -> & Hw).
  left. by exists es, k'.
Qed.

Ltac frame Hi := eapply inside_frame, Hi; done.

Lemma exec_call_ok u rest th k :
  wf k -> threads k !! currentThread k = Some th ->
  (code th = Do u :: rest \/ (code th = [] /\ u = Finish)) -> plain rest ->
  step_safe k (exec_call u rest k).
Proof.
  intros Hw Hth Hc Hrest.
  assert (running k) as Hrun by (exists th; split; [done|by destruct Hc as [->|[-> _]]]).
  pose proof (inside_refl k (wf_wf_off k Hw) Hrun) as Hk.
  pose proof (inside_level _ _ IntOff Hk) as Hi.
  assert (forall o, needs_off o = false -> plain (o :: rest)) as Hpl by (by constructor).
  destruct u; call.
  - by apply (goto_point _ _ _ _ _ _ Hi).
  - destruct (v_body_ok s _ _ Hi) as (k1 & -> & Hi1); cbn [bind]. apply (goto_plain _ _ _ _ _ Hi1); auto.
  - destruct (wake_n_ok (length (queue k (QSem s))) (QSem s) _ _ Hi) as (k1 & -> & Hi1); cbn [bind].
    apply (goto_plain _ _ _ _ _ Hi1); auto.
  - by apply (goto_point _ _ _ _ _ _ Hi).
  - destruct (release_body_ok l _ _ Hi) as (k1 & -> & Hi1); cbn [bind]. apply (goto_plain _ _ _ _ _ Hi1); auto.
  - destruct (isHeldByCurrentThread l _).
    + destruct (release_body_ok l _ _ Hi) as (k1 & -> & Hi1); cbn [bind].
      apply (goto_point _ _ _ _ _ _ Hi1); [by apply Hi1|done..].
    + by apply (goto_point _ _ _ _ _ _ Hi).
  - destruct (signal_body_ok c l _ _ Hi) as (k1 & -> & Hi1); cbn [bind]. apply (goto_plain _ _ _ _ _ Hi1); auto.
  - destruct (isHeldByCurrentThread l _); apply (goto_plain _ _ _ _ _ Hk); auto.
  - by apply (goto_point _ _ _ _ _ _ Hi).
  - destruct (wake_one_ok (QMutex m) _ _ Hi) as (k1 & -> & Hi1); cbn [bind].
    assert (inside (set_level IntOff k) (set_mutex m (mkMutex true) k1)) as Hi2 by frame Hi1.
    apply (goto_plain _ _ _ _ _ Hi2); auto.
  - assert (inside (set_level IntOff k) (set_barrier b (mkBarrier (size (barriers k b))
      (wrap 64 (count (barriers k b) + 1))) (set_level IntOff k))) as Hb by frame Hi.
    destruct (_ <? _).
    + apply (Sleep_step _ _ _ _ _ _ Hb); [done|by apply plain_resumable|done].
    + destruct (wake_n_ok (Z.to_nat (size (barriers k b))) (QBarrier b) _ _ Hb) as (k1 & -> & Hi1); cbn [bind].
      cbn [bind]. destruct (_ <? _).
      * apply (goto_point _ _ _ _ (set_level IntOff k)); [frame Hi1|apply Hi1|done|done].
      * apply (goto_point _ _ _ _ _ _ Hi1); [by apply Hi1|done..].
  - destruct (Yield_ok (Restore (level k) :: rest) _ _ Hi) as (k' & HY & Hw');
      [done|by apply plain_resumable|].
    left. exists [], k'. split; [|done]. revert HY. unfold FindNextToRun.
    destruct (readyList _); [by intros ->|].
    destruct (ReadyToRun _ _) as [k1| | | |]; try done. cbn [bind]. by intros ->.
  - destruct (removeResources (currentThread k) (client k)) as [x| | | |] eqn:HR;
      try (right; left; exists th; split; [done|]; rewrite HR;
           by destruct Hc as [->|[-> _]]).
    cbn [bind]. assert (inside (set_level IntOff k) (set_client x (set_level IntOff k))) as Hx by frame Hi.
    apply (goto_point _ _ _ _ _ _ Hx); [done..|constructor].
  - apply (goto_plain _ _ _ _ _ (inside_level _ _ IntOn Hk)); auto.
  - destruct (threads k !! t) eqn:Ht.
    + right. left. exists th. split; [done|]. destruct Hc as [->|[_ ?]]; [by rewrite Ht|done].
    + destruct (fork_ok t body _ _ Hi Ht) as (k1 & -> & Hi1); cbn [bind].
      apply (goto_plain _ _ _ _ _ (inside_level _ _ (level k) Hi1)); auto.
  - unfold get_thread. destruct (threads k !! t) as [th'|] eqn:Ht.
    + cbn [bind]. destruct (semaphore th') eqn:Hj; [apply (goto_plain _ _ _ _ _ Hk); auto|].
      pose proof (SetSemaphore_ok t th' (Some s) k Hk Ht) as Hi1.
      cbn [queue set_threads]. destruct (queue k (QSem s)) eqn:Hq.
      * apply (goto_plain _ _ _ k); [frame Hi1|auto].
      * right. left. exists th. split; [done|]. destruct Hc as [->|[_ ?]]; [|done].
        rewrite Ht, Hq. done.
    + right. left. exists th. split; [done|]. destruct Hc as [->|[_ ?]]; [by rewrite Ht|done].
  - destruct (queue k q) eqn:Hq.
    + apply (goto_plain _ _ _ k); [|done]. destruct q; frame Hk.
    + right. left. exists th. split; [done|]. destruct Hc as [->|[_ ?]]; [by rewrite Hq|done].
  - destruct (delete_object q k) as [[]| | | |] eqn:Hq; [apply (goto_plain _ _ _ _ _ Hk); auto|..];
      try (unfold delete_object in Hq; repeat case_match; discriminate Hq).
    right. left. exists th. split; [done|]. destruct Hc as [->|[_ ?]]; done.
  - destruct (call c (currentThread k) (client k)) as [[x us]| | | |] eqn:HC;
      try (right; left; exists th; split; [done|]; destruct Hc as [->|[_ ?]]; [by rewrite HC|done]).
    cbn [bind]. assert (inside k (set_client x k)) as Hx by frame Hk.
    apply (goto_plain _ _ _ _ _ Hx). apply Forall_app. split; [|done].
    by apply Forall_fmap, Forall_true.
Qed.

Lemma exec_point_ok o rest th k :
  wf k -> threads k !! currentThread k = Some th -> code th = o :: rest ->
  plain rest -> needs_off o = true -> switching [o] = false ->
  step_safe k (exec o rest k).
Proof.
  intros Hw Hth Hc Hrest Ho Hsw.
  assert (level k = IntOff) as Hl.
  { destruct Hw as [_ W _ _]. apply (W th Hth). by rewrite Hc. }
  pose proof (inside_refl k (wf_wf_off k Hw)) as Hk.
  assert (running k) as Hrun by (exists th; split; [done|rewrite Hc; by destruct o]).
  specialize (Hk Hrun).
  assert (forall p, needs_off p = false -> plain (p :: rest)) as Hpl by (by constructor).
  destruct o; try done; call.
  - destruct (_ =? 0).
    + by apply (Sleep_step _ _ _ _ _ _ Hk); [|apply plain_resumable|].
    + apply (goto_plain _ _ _ k); [frame Hk|auto].
  - destruct (negb _).
    + by apply (Sleep_step _ _ _ _ _ _ Hk); [|apply plain_resumable|].
    + apply (goto_plain _ _ _ k); [frame Hk|auto].
  - destruct (isBusy _).
    + by apply (Sleep_step _ _ _ _ _ _ Hk); [|apply plain_resumable|].
    + apply (goto_plain _ _ _ k); [frame Hk|]. constructor; auto.
  - destruct (negb _).
    + by apply (Sleep_step _ _ _ _ _ _ Hk); [|apply plain_resumable|].
    + apply (goto_plain _ _ _ k); [frame Hk|auto].
  - apply (goto_plain _ _ _ _ _ (inside_level _ _ old Hk)); auto.
  - unfold get_thread. rewrite Hth. cbn [bind].
    destruct (Sleep_die _ _ Hk Hl) as (kd & Hd & Hwd).
    assert (forall m : res Kernel, m = Ok kd -> step_safe k (k' ← m; Ok ([], k'))) as Hdie.
    { intros m ->. left. by exists [], kd. }
    destruct (semaphore th) as [s|] eqn:Hsem; [|by apply Hdie].
    destruct (Z.eqb_spec (value (sems k s)) 1) as [Hv|Hv].
    { destruct (delete_object (QSem s) k) as [[]| | | |] eqn:Hq; [by apply Hdie|..];
        try (unfold delete_object in Hq; repeat case_match; discriminate Hq).
      right. right. exists th, s. rewrite Hc. split_and!; [done..|].
      unfold delete_object in Hq. destruct (queue k (QSem s)); [|by left].
      right. by destruct (in_use _ _). }
    destruct (v_body_ok s _ _ Hk) as (k1 & -> & Hi1); cbn [bind].
    apply (goto_point _ _ _ _ _ _ Hi1); [by rewrite (in_level _ _ Hi1)|done|constructor].
Qed.

(** One step of the current thread. *)
Lemma step_ok k : wf k -> step_safe k (step k).
Proof.
  intros Hw. destruct (current_slot _ _ _ _ _ _ Hw) as (th & Hth & _).
  pose proof Hw as [W _ _ _]. specialize (W (currentThread k)). rewrite Hth in W.
  destruct W as [Hc _]. unfold step, get_thread. rewrite Hth. cbn [bind].
  destruct (code th) as [|o rest] eqn:Hco.
  { apply (exec_call_ok Finish [] th); [done..|by right|constructor]. }
  destruct (switching (o :: rest)) eqn:Hsw.
  - unfold code_ok in Hc. rewrite Hsw in Hc. cbn [tail] in Hc.
    destruct o; try done.
    + destruct (Sleep_loop_ok th rest k Hw Hth Hco) as (k' & Hk' & Hw').
      left. by exists [], k'.
    + assert (running k) as Hrun by (exists th; by rewrite Hco).
      assert (level k = IntOff) as Hl.
      { destruct Hw as [_ Wl _ _]. apply (Wl th Hth). by rewrite Hco. }
      destruct (finish_Run_ok k (inside_refl k (wf_wf_off k Hw) Hrun)) as (k1 & Hk1 & Hi1).
      call. rewrite Hk1. cbn [bind]. destruct Hc as [Hs Hp].
      apply (goto_step _ _ _ k); [done| | |].
      * unfold code_ok. by rewrite Hs.
      * by destruct rest as [|[] ?].
      * intros _. by rewrite (in_level _ _ Hi1).
  - unfold code_ok in Hc. rewrite Hsw in Hc. destruct Hc as [_ Hp]. cbn [tail] in Hp.
    destruct (needs_off o) eqn:Ho.
    + apply (exec_point_ok o rest th); [done..|by destruct o].
    + assert (running k) as Hrun by (exists th; rewrite Hco; split; [done|by destruct o]).
      pose proof (inside_refl k (wf_wf_off k Hw) Hrun) as Hk.
      assert (forall p, needs_off p = false -> plain (p :: rest)) as Hpl by (by constructor).
      destruct o as [u| | | |c l| | | | | |old]; try done; call.
      * apply (exec_call_ok u rest th); [done..|by left|done].
      * destruct (bool_decide _); apply (goto_plain _ _ _ _ _ Hk); [|done].
        constructor; [done|auto].
      * apply (goto_plain _ _ _ _ _ (inside_level _ _ old Hk)); auto.
Qed.

Lemma finish_fails_step k : finish_fails k -> step k = UB.
Proof.
  intros (th & s & Hth & Hc & Hs & Hv & Hd). unfold step, get_thread. rewrite Hth. cbn [bind].
  destruct (code th) as [|o rest]; [done|]. injection Hc as ->. cbn [exec]. unfold Thread_Finish_loop, get_thread.
  rewrite Hth. cbn [bind]. rewrite Hs, Hv. cbn [Z.eqb Pos.eqb]. unfold delete_object.
  destruct (queue k (QSem s)); [|done]. destruct Hd as [Hd|Hd]; [done|by rewrite Hd].
Qed.

Lemma sys_step_wf k es k' : wf k -> sys_step k es k' -> wf k'.
Proof.
  intros Hw Hs. destruct Hs as [k es k' Hk|k th k' Hl Hth Hk|k s x k' Hl Hx Hk].
  - destruct (step_ok k Hw) as [(es1 & k1 & Hk1 & Hw1)|[(th & Hth & Hf)|Hf%finish_fails_step]]; [congruence| |congruence].
    exfalso. unfold step, get_thread in Hk. rewrite Hth in Hk. cbn [bind] in Hk.
    destruct (code th) as [|[[]| | | | | | | | | |] ?]; try done; call.
    + destruct (removeResources _ _) as [r| | | |] eqn:HR; try done. by apply (Hf r).
    + destruct (removeResources _ _) as [r| | | |] eqn:HR; try done. by apply (Hf r).
    + unfold fork in Hk. cbn in Hk. destruct (threads k !! t); [done|by destruct Hf].
    + unfold get_thread in Hk. destruct (threads k !! t) as [tht|]; [|done]. cbn in Hk.
      destruct Hf as [Hj Hf]. rewrite Hj in Hk. cbn in Hk. by destruct (queue k (QSem s)).
    + by destruct (queue k q).
    + by rewrite Hf in Hk.
    + destruct (call _ _ _) as [r| | | |] eqn:HR; try done. by apply (Hf r).
  - assert (running k) as Hrun.
    { exists th. split; [done|]. destruct Hw as [_ W _ _]. specialize (W th Hth).
      destruct (code th) as [|[] ?]; try done. specialize (W eq_refl). congruence. }
    assert (plain (code th)) as Hp.
    { pose proof Hw as [W Wl _ _]. specialize (W (currentThread k)). rewrite Hth in W.
      destruct W as [Hc _]. specialize (Wl th Hth). rewrite Hl in Wl.
      destruct (code th) as [|o c]; [constructor|].
      destruct (needs_off o) eqn:Ho; [by specialize (Wl Ho)|]. constructor; [done|].
      unfold code_ok in Hc. replace (switching (o :: c)) with false in Hc by (by destruct o).
      apply Hc. }
    pose proof (inside_refl k (wf_wf_off k Hw) Hrun) as Hki.
    destruct (goto_ok (Do Yield :: code th) k k Hki) as (k1 & Hk1 & Hw1);
      [by apply plain_code_ok|done|done|congruence].
  - destruct (v_body_wf s (set_client x k) Hw) as (k1 & Hk1 & Hw1). congruence.
Qed.

(** ** Executions *)

Lemma runs_wf k0 es k : wf k0 -> runs k0 es k -> wf k.
Proof. intros Hw Hr. induction Hr as [|k1 es1 k2 es2 k3 _ IH Hs]; [done|]. eapply sys_step_wf, Hs; auto. Qed.

(** The start of the system: the main thread, with interrupts enabled. *)
Definition boot (main : list (ucall L)) (x : K) (ss : nat -> Semaphore) (ls : nat -> Lock)
    (cs : nat -> Condition) (ms : nat -> Mutex) (bs : nat -> Barrier) : Kernel :=
  mkKernel {[ 0%nat := mkThread RUNNING (map Do main) None ]} 0 [] None IntOn (fun _ => [])
    ss ls cs ms bs x.

Lemma boot_wf main x ss ls cs ms bs : wf (boot main x ss ls cs ms bs).
Proof.
  assert (plain (map Do main)) as Hp by (by apply Forall_fmap, Forall_true).
  destruct (plain_head _ Hp) as (_ & Hs & Hl).
  split; cbn; [|intros th; rewrite lookup_singleton_eq; intros [= <-]; cbn; congruence|
    constructor|constructor].
  intros t. destruct (decide (t = 0%nat)) as [->|Ht].
  - rewrite lookup_singleton_eq. split; [by apply plain_ok|]. cbn.
    split_and!; [done|done|set_solver|set_solver|done].
  - rewrite lookup_singleton_ne by done. split_and!; [done|set_solver|set_solver|done].
Qed.

(** *** What the steps do to the objects *)

(** The objects and the current thread are as before. *)
Record same (k k' : Kernel) : Prop := {
  same_current : currentThread k' = currentThread k;
  same_sems : sems k' = sems k;
  same_locks : locks k' = locks k;
  same_conds : conds k' = conds k;
  same_mutexes : mutexes k' = mutexes k;
  same_barriers : barriers k' = barriers k
}.

Lemma same_refl k : same k k.
Proof. done. Qed.

Lemma same_trans k1 k2 k3 : same k1 k2 -> same k2 k3 -> same k1 k3.
Proof. intros [] []. split; congruence. Qed.

Lemma goto_same c k k' : goto c k = Ok k' -> same k k'.
Proof. unfold goto. intros H. res_inv. by subst. Qed.

Lemma setStatus_same t st k k' : setStatus t st k = Ok k' -> same k k'.
Proof. unfold setStatus. intros H. res_inv. by subst. Qed.

Lemma ReadyToRun_same t k k' : ReadyToRun t k = Ok k' -> same k k'.
Proof. unfold ReadyToRun. intros H. res_inv. subst. apply setStatus_same in Ha as []. by split. Qed.

Lemma wake_one_same q k k' : wake_one q k = Ok k' -> same k k'.
Proof.
  unfold wake_one. destruct (queue k q); [by intros [= <-]|].
  intros H. apply ReadyToRun_same in H as []. by split.
Qed.

Lemma wake_n_same n q k k' : wake_n n q k = Ok k' -> same k k'.
Proof.
  revert k. induction n as [|n IH]; simpl; intros k H; [by injection H as <-|].
  res_inv. eapply same_trans; [by eapply wake_one_same|by apply IH].
Qed.

Lemma Sleep_same c k k' : Sleep c k = Ok k' -> same k k'.
Proof.
  unfold Sleep. intros H. res_inv. eapply same_trans; [by eapply setStatus_same|by eapply goto_same].
Qed.

Lemma fork_same t body k k' : fork t body k = Ok k' -> same k k'.
Proof. unfold fork. intros H. destruct (threads k !! t); [done|]. apply ReadyToRun_same in H as []. by split. Qed.

(** What one step does to the semaphores and locks, and the event it shows. *)
Inductive effect (k k' : Kernel) : list event -> Prop :=
  | effect_none : sems k' = sems k -> locks k' = locks k -> effect k k' []
  | effect_P s :
      value (sems k s) <> 0 ->
      sems k' = upd s (mkSem (s32 (value (sems k s) - 1))) (sems k) -> locks k' = locks k ->
      effect k k' [EvP s]
  | effect_V s :
      sems k' = upd s (mkSem (s32 (value (sems k s) + 1))) (sems k) -> locks k' = locks k ->
      effect k k' [EvV s]
  | effect_Acquire l :
      available (locks k l) = true -> sems k' = sems k ->
      locks k' = upd l (mkLock false (Some (currentThread k))) (locks k) ->
      effect k k' [EvAcquire l (currentThread k)]
  | effect_Release l :
      sems k' = sems k -> locks k' = upd l (mkLock true (owner (locks k l))) (locks k) ->
      effect k k' [EvRelease l (currentThread k)]
  | effect_New q :
      (forall s, q <> QSem s -> sems k' s = sems k s) ->
      (forall l, q <> QLock l -> locks k' l = locks k l) ->
      effect k k' [EvNew q].

(** Use the equations of the calls a step made. *)
Ltac same_inv :=
  res_inv; subst;
  repeat match goal with
  | H : goto _ _ = Ok _ |- _ => apply goto_same in H as []
  | H : Sleep _ _ = Ok _ |- _ => apply Sleep_same in H as []
  | H : wake_one _ _ = Ok _ |- _ => apply wake_one_same in H as []
  | H : wake_n _ _ _ = Ok _ |- _ => apply wake_n_same in H as []
  | H : fork _ _ _ = Ok _ |- _ => apply fork_same in H as []
  | H : setStatus _ _ _ = Ok _ |- _ => apply setStatus_same in H as []
  | H : ReadyToRun _ _ = Ok _ |- _ => apply ReadyToRun_same in H as []
  end; cbn in *.

Lemma v_body_effect s k k' :
  v_body s k = Ok k' ->
  sems k' = upd s (mkSem (s32 (value (sems k s) + 1))) (sems k) /\ locks k' = locks k.
Proof. unfold v_body. intros H. same_inv. split; congruence. Qed.

Lemma release_body_effect l k k' :
  release_body l k = Ok k' ->
  sems k' = sems k /\ locks k' = upd l (mkLock true (owner (locks k l))) (locks k).
Proof. unfold release_body. intros H. same_inv. split; congruence. Qed.

Lemma signal_body_effect c l k k' :
  signal_body c l k = Ok k' -> sems k' = sems k /\ locks k' = locks k.
Proof.
  unfold signal_body. intros H. destruct (isHeldByCurrentThread l k), (queue k (QCond c));
    same_inv; split; congruence.
Qed.

Lemma Run_effect n c k k' : Run n c k = Ok k' -> sems k' = sems k /\ locks k' = locks k.
Proof. unfold Run. intros H. same_inv. split; congruence. Qed.

Lemma finish_Run_effect k k' : finish_Run k = Ok k' -> sems k' = sems k /\ locks k' = locks k.
Proof. unfold finish_Run. intros H. destruct (threadToBeDestroyed k); same_inv; done. Qed.

Ltac effect_inv :=
  repeat match goal with
  | H : v_body _ _ = Ok _ |- _ => apply v_body_effect in H as []
  | H : release_body _ _ = Ok _ |- _ => apply release_body_effect in H as []
  | H : signal_body _ _ _ = Ok _ |- _ => apply signal_body_effect in H as []
  | H : Run _ _ _ = Ok _ |- _ => apply Run_effect in H as []
  | H : finish_Run _ = Ok _ |- _ => apply finish_Run_effect in H as []
  end; same_inv.

Lemma exec_call_effect u rest k es k' :
  exec_call u rest k = Ok (es, k') -> effect k k' es.
Proof.
  intros H. destruct u; call.
  - same_inv. by constructor.
  - res_inv; subst. effect_inv. constructor; congruence.
  - same_inv. constructor; congruence.
  - same_inv. by constructor.
  - res_inv; subst. effect_inv. constructor; congruence.
  - destruct (isHeldByCurrentThread _ _); res_inv; subst; effect_inv; constructor; congruence.
  - res_inv; subst. effect_inv. constructor; congruence.
  - destruct (isHeldByCurrentThread _ _); same_inv; by constructor.
  - same_inv. by constructor.
  - same_inv. constructor; congruence.
  - destruct (_ <? _); [|res_inv; destruct (_ <? _)]; same_inv; constructor; congruence.
  - unfold FindNextToRun in H.
    destruct (readyList (set_level IntOff k)); res_inv; subst; effect_inv; constructor; congruence.
  - same_inv. by constructor.
  - same_inv. by constructor.
  - same_inv. constructor; congruence.
  - res_inv. destruct (semaphore a); [same_inv; by constructor|].
    cbn in H. destruct (queue k (QSem s)); [|done]. same_inv.
    apply (effect_New _ _ (QSem s)); [|congruence]. intros s' Hs.
    rewrite same_sems0. unfold upd. rewrite decide_False by congruence. done.
  - destruct (queue k q) eqn:Hq; [|done]. same_inv. apply effect_New; intros i Hi.
    + rewrite same_sems0. destruct q; cbn; try done. unfold upd. by rewrite decide_False by congruence.
    + rewrite same_locks0. destruct q; cbn; try done. unfold upd. by rewrite decide_False by congruence.
  - apply bind_Ok in H as ([] & _ & H). same_inv. by constructor.
  - res_inv. destruct a as [x us]. same_inv. by constructor.
Qed.

Lemma step_effect k es k' : step k = Ok (es, k') -> effect k k' es.
Proof.
  unfold step. intros H. apply bind_Ok in H as (th & _ & H).
  destruct (code th) as [|o rest]; [by apply (exec_call_effect Finish [])|].
  destruct o; call.
  - by eapply exec_call_effect.
  - destruct (Z.eqb_spec (value (sems k s)) 0); same_inv; by constructor.
  - destruct (available (locks k l)) eqn:Ha; cbn [negb] in H; same_inv; by constructor.
  - destruct (isBusy _); same_inv; by constructor.
  - destruct (bool_decide _); same_inv; by constructor.
  - destruct (negb _); same_inv; by constructor.
  - same_inv. by constructor.
  - apply bind_Ok in H as (th' & _ & H).
    destruct (semaphore th') as [s|]; [destruct (_ =? 1); [apply bind_Ok in H as ([] & _ & H)|]|];
      [same_inv; by constructor| |same_inv; by constructor].
    res_inv; subst. effect_inv. constructor; congruence.
  - unfold FindNextToRun in H. destruct (readyList k); res_inv; subst; effect_inv;
      constructor; congruence.
  - res_inv; subst. effect_inv. constructor; congruence.
  - same_inv. by constructor.
Qed.

Lemma sys_step_effect k es k' : sys_step k es k' -> effect k k' es.
Proof.
  intros [k1 es1 k1' Hs|k1 th k1' _ _ Hs|k1 s x k1' _ _ Hs].
  - by apply step_effect.
  - same_inv. by constructor.
  - effect_inv. constructor; congruence.
Qed.

(** *** Counting the operations of a trace *)

#[local] Instance event_eq_dec : EqDecision event.
Proof. solve_decision. Defined.

Definition occurs (e : event) (es : list event) : Z :=
  Z.of_nat (length (filter (eq e) es)).

Lemma occurs_nil e : occurs e [] = 0.
Proof. done. Qed.

Lemma occurs_app e es1 es2 : occurs e (es1 ++ es2) = occurs e es1 + occurs e es2.
Proof. unfold occurs. rewrite filter_app, length_app. lia. Qed.

Lemma occurs_one e e' : occurs e [e'] = if decide (e = e') then 1 else 0.
Proof. unfold occurs. cbn. by case_decide. Qed.

Lemma occurs_nonneg e es : 0 <= occurs e es.
Proof. unfold occurs. lia. Qed.

Lemma upd_lookup {A} i j (x : A) f : upd i x f j = if decide (j = i) then x else f j.
Proof. done. Qed.

Lemma effect_value k k' es s :
  effect k k' es -> ~ (EvNew (QSem s) ∈ es) ->
  (value (sems k' s) = value (sems k s) /\ occurs (EvP s) es = 0 /\ occurs (EvV s) es = 0) \/
  (value (sems k' s) = s32 (value (sems k s) + 1) /\ occurs (EvP s) es = 0 /\ occurs (EvV s) es = 1) \/
  (value (sems k s) <> 0 /\ value (sems k' s) = s32 (value (sems k s) - 1) /\
   occurs (EvP s) es = 1 /\ occurs (EvV s) es = 0).
Proof.
  intros [Hs _|s' Hv Hs _|s' Hs _|l _ Hs _|l Hs _|q Hs _] Hn;
    [..|rewrite Hs by (intros ->; apply Hn; constructor); tauto];
    rewrite Hs, ?upd_lookup, ?occurs_one; repeat (case_decide; simplify_eq/=); tauto.
Qed.

Lemma runs_value k0 es k s :
  runs k0 es k -> ~ (EvNew (QSem s) ∈ es) -> 0 <= value (sems k0 s) ->
  value (sems k0 s) + occurs (EvV s) es < 2 ^ 31 ->
  value (sems k s) = value (sems k0 s) + occurs (EvV s) es - occurs (EvP s) es /\
  0 <= value (sems k s).
Proof.
  intros Hr Hn H0. induction Hr as [k|k1 es1 k2 es2 k3 _ IH Hs]; intros Hb; [rewrite ?occurs_nil in *; lia|].
  rewrite !occurs_app in *. rewrite elem_of_app in Hn.
  apply sys_step_effect, (effect_value _ _ _ s) in Hs; [|tauto].
  pose proof (occurs_nonneg (EvV s) es2). pose proof (occurs_nonneg (EvP s) es1).
  destruct IH as [IH IH']; [tauto|done|lia|].
  destruct Hs as [(-> & ? & ?)|[(-> & ? & ?)|(? & -> & ? & ?)]];
    rewrite ?s32_id by (unfold is_s32; lia); lia.
Qed.

(** *** The holder of a lock *)

(** The thread that has acquired [l] and not released it, after a trace. *)
Fixpoint holder (l : nat) (es : list event) (h : option nat) : option nat :=
  match es with
  | [] => h
  | EvAcquire l' t :: es => holder l es (if decide (l' = l) then Some t else h)
  | EvRelease l' _ :: es => holder l es (if decide (l' = l) then None else h)
  | _ :: es => holder l es h
  end.

Lemma holder_app l es1 es2 h : holder l (es1 ++ es2) h = holder l es2 (holder l es1 h).
Proof. revert h. induction es1 as [|[] es1 IH]; simpl; intros h; try apply IH. done. Qed.

Lemma runs_holder k0 es k l :
  runs k0 es k -> ~ (EvNew (QLock l) ∈ es) -> available (locks k0 l) = true ->
  available (locks k l) = bool_decide (holder l es None = None) /\
  (forall t, holder l es None = Some t -> owner (locks k l) = Some t).
Proof.
  intros Hr Hn H0. induction Hr as [k|k1 es1 k2 es2 k3 _ IH Hs]; [done|].
  rewrite elem_of_app in Hn.
  destruct IH as [Ha Ho]; [tauto|done|]. rewrite holder_app. apply sys_step_effect in Hs.
  destruct Hs as [_ Hl|s _ _ Hl|s _ Hl|l' _ _ Hl|l' _ Hl|q _ Hl]; cbn [holder];
    [..|by rewrite Hl by (intros ->; apply Hn; right; constructor)]; rewrite Hl; try done;
    rewrite upd_lookup; destruct (decide (l = l')) as [->|Hne];
    rewrite ?decide_True, ?decide_False by congruence; try done.
Qed.

(** The step of one event of a trace. *)
Lemma runs_event k0 es k e es1 es2 :
  runs k0 es k -> es = es1 ++ e :: es2 ->
  exists k1 k2, runs k0 es1 k1 /\ sys_step k1 [e] k2.
Proof.
  intros Hr. revert es1 es2. induction Hr as [k|k1 es k2 es' k3 Hr IH Hs]; intros es1 es2 He.
  - by destruct es1.
  - assert (es' = [] \/ exists e', es' = [e']) as [->|[e' ->]].
    { apply sys_step_effect in Hs. destruct Hs; eauto. }
    + rewrite app_nil_r in He. by apply (IH es1 es2).
    + destruct es2 as [|x es2 _] using rev_ind.
      * apply app_inj_tail in He as [-> ->]. by exists k2, k3.
      * rewrite app_comm_cons, app_assoc in He. apply app_inj_tail in He as [-> _].
        by apply (IH es1 es2).
Qed.

Lemma holder_released l b t :
  holder l b (Some t) = None -> exists u, EvRelease l u ∈ b.
Proof.
  revert t. induction b as [|[s|s|l' u|l' u|q] b IH]; simpl; intros t Hh; [done|..].
  - destruct (IH t Hh) as [v Hv]. exists v. by constructor.
  - destruct (IH t Hh) as [v Hv]. exists v. by constructor.
  - case_decide; destruct (IH _ Hh) as [v Hv]; exists v; by constructor.
  - case_decide; [subst; exists u; constructor|].
    destruct (IH _ Hh) as [v Hv]. exists v. by constructor.
  - destruct (IH t Hh) as [v Hv]. exists v. by constructor.
Qed.

(** *** Threads on their way to a semaphore *)

Definition at_sem (s : nat) (c : list (op L)) : Prop :=
  match c with
  | P_loop s' _ :: _ | (Sleep_loop | Run_end) :: P_loop s' _ :: _ => s' = s
  | _ => False
  end.

(** [t] is in [P] of [s] and does not wait: it will look at the value. *)
Definition woken (s : nat) (k : Kernel) (t : nat) : Prop :=
  (exists th, threads k !! t = Some th /\ at_sem s (code th)) /\ t ∉ queue k (QSem s).

(** From [k] to [k'] no thread but [c] leaves [P] of [s], and no thread starts
    to wait. *)
Record others (s : nat) (c : nat -> Prop) (k k' : Kernel) : Prop := {
  ot_code t th : ~ c t -> threads k !! t = Some th -> at_sem s (code th) ->
    exists th', threads k' !! t = Some th' /\ at_sem s (code th');
  ot_queue t : t ∈ queue k' (QSem s) -> t ∈ queue k (QSem s)
}.

Lemma others_frame s c k k' :
  threads k' = threads k -> queue k' = queue k -> others s c k k'.
Proof. intros Ht Hq. split; rewrite ?Ht, ?Hq; eauto. Qed.

Lemma others_trans s c k1 k2 k3 : others s c k1 k2 -> others s c k2 k3 -> others s c k1 k3.
Proof.
  intros [A1 B1] [A2 B2]. split; [|auto]. intros t th Hc Ht Hs.
  destruct (A1 t th Hc Ht Hs) as (th' & Ht' & Hs'). by apply (A2 t th').
Qed.

Lemma others_woken s c k k' t : others s c k k' -> ~ c t -> woken s k t -> woken s k' t.
Proof.
  intros [A B] Hc [(th & Ht & Hs) Hn]. split; [|auto]. by apply (A t th).
Qed.

Lemma goto_others s c l k k' : goto l k = Ok k' -> c (currentThread k) -> others s c k k'.
Proof.
  unfold goto. intros H Hc. res_inv. subst. split; [|done]. intros t th Hn Ht Hs. cbn.
  rewrite lookup_insert_ne by (intros <-; done). eauto.
Qed.

Lemma setStatus_others s c t st k k' : setStatus t st k = Ok k' -> others s c k k'.
Proof.
  unfold setStatus, get_thread. intros H. destruct (threads k !! t) as [th0|] eqn:H0; [|done].
  injection H as <-. split; [|done]. intros u th _ Hu Hs. cbn.
  destruct (decide (u = t)) as [->|].
  - rewrite lookup_insert_eq. replace th0 with th by congruence. by eexists.
  - rewrite lookup_insert_ne by done. eauto.
Qed.

Lemma ReadyToRun_others s c t k k' : ReadyToRun t k = Ok k' -> others s c k k'.
Proof.
  unfold ReadyToRun. intros H. res_inv. subst.
  eapply others_trans; [by eapply setStatus_others|by apply others_frame].
Qed.

Lemma wake_one_others s c q k k' : wake_one q k = Ok k' -> others s c k k'.
Proof.
  unfold wake_one. destruct (queue k q) as [|t ts] eqn:Hq; [intros [= <-]; by apply others_frame|].
  intros H. apply (ReadyToRun_others s c) in H. eapply others_trans; [|exact H].
  split; [eauto|]. intros u. cbn. case_decide as Hd; [|done]. rewrite Hd, Hq. by constructor.
Qed.

Lemma wake_n_others s c n q k k' : wake_n n q k = Ok k' -> others s c k k'.
Proof.
  revert k. induction n as [|n IH]; simpl; intros k H; [injection H as <-; by apply others_frame|].
  res_inv. eapply others_trans; [by eapply wake_one_others|by apply IH].
Qed.

Lemma v_body_others s c s' k k' : v_body s' k = Ok k' -> others s c k k'.
Proof.
  unfold v_body. intros H. res_inv. subst.
  eapply others_trans; [by eapply wake_one_others|by apply others_frame].
Qed.

Lemma release_body_others s c l k k' : release_body l k = Ok k' -> others s c k k'.
Proof.
  unfold release_body. intros H. res_inv. subst.
  eapply others_trans; [by eapply wake_one_others|by apply others_frame].
Qed.

Lemma signal_body_others s c x l k k' : signal_body x l k = Ok k' -> others s c k k'.
Proof.
  unfold signal_body. intros H.
  destruct (isHeldByCurrentThread l k); [|injection H as <-; by apply others_frame].
  destruct (queue k (QCond x)); [injection H as <-; by apply others_frame|]. res_inv. subst.
  eapply others_trans; [by eapply wake_one_others|by apply others_frame].
Qed.

Lemma Sleep_others s c q l k k' :
  Sleep l (enqueue q k) = Ok k' -> q <> QSem s -> c (currentThread k) -> others s c k k'.
Proof.
  unfold Sleep. intros H Hq Hc. res_inv. pose proof (setStatus_same _ _ _ _ Ha0) as [Hcur _ _ _ _ _].
  apply (setStatus_others s c) in Ha0. apply (goto_others s c) in H; [|by rewrite Hcur].
  eapply others_trans; [|exact H]. eapply others_trans; [|exact Ha0].
  split; [eauto|]. intros t. cbn. rewrite decide_False by congruence. done.
Qed.

Lemma Sleep_die_others s (c : nat -> Prop) k k' :
  Sleep [] (set_dead (Some (currentThread k)) k) = Ok k' -> c (currentThread k) -> others s c k k'.
Proof.
  unfold Sleep. intros H Hc. res_inv. pose proof (setStatus_same _ _ _ _ Ha0) as [Hcur _ _ _ _ _].
  apply (setStatus_others s c) in Ha0. apply (goto_others s c) in H; [|by rewrite Hcur].
  eapply others_trans; [|exact H]. eapply others_trans; [|exact Ha0]. by apply others_frame.
Qed.

Lemma Run_others s (c : nat -> Prop) n l k k' :
  Run n l k = Ok k' -> c (currentThread k) -> others s c k k'.
Proof.
  unfold Run. intros H Hc. res_inv. apply (setStatus_others s c) in H.
  apply (goto_others s c) in Ha; [|done].
  eapply others_trans; [|exact H]. apply (others_trans _ _ _ a); [|by apply others_frame].
  eapply others_trans; [|exact Ha]. by apply others_frame.
Qed.

Lemma fork_others s c t body k k' : fork t body k = Ok k' -> others s c k k'.
Proof.
  unfold fork. intros H. destruct (threads k !! t) eqn:Hn; [done|].
  apply (ReadyToRun_others s c) in H. eapply others_trans; [|exact H].
  split; [|done]. intros u th _ Ht Hs. cbn. rewrite lookup_insert_ne; [eauto|congruence].
Qed.

Lemma construct_others s c q v k : others s c k (construct q v k).
Proof. destruct q; by apply others_frame. Qed.

Lemma finish_Run_others s c k k' : wf k -> finish_Run k = Ok k' -> others s c k k'.
Proof.
  intros [W _ _ _]. unfold finish_Run. destruct (threadToBeDestroyed k) as [t|] eqn:Ht;
    intros H; res_inv; subst; [|by apply others_frame].
  split; [|done]. intros u th _ Hu Hs. cbn. exists th. split; [|done].
  rewrite lookup_delete_ne; [done|]. intros <-. specialize (W t). rewrite Hu in W.
  destruct W as [_ W]. assert (finished (code th)) as [Hf|Hf].
  { destruct (status th); [done|by destruct W as (_ & _ & _ & _ & Hn); destruct Hn
      |by destruct W as (_ & _ & _ & Hn); destruct Hn|]. by apply W. }
  all: by rewrite Hf in Hs.
Qed.

(** The states a step goes through, one call after the other. *)
Ltac others_side :=
  repeat match goal with
  | H : goto _ _ = Ok _ |- _ => apply goto_same in H as []
  | H : Sleep _ _ = Ok _ |- _ => apply Sleep_same in H as []
  | H : wake_one _ _ = Ok _ |- _ => apply wake_one_same in H as []
  | H : wake_n _ _ _ = Ok _ |- _ => apply wake_n_same in H as []
  | H : ReadyToRun _ _ = Ok _ |- _ => apply ReadyToRun_same in H as []
  | H : fork _ _ _ = Ok _ |- _ => apply fork_same in H as []
  end; cbn in *; congruence.

Lemma v_body_current s k k' : v_body s k = Ok k' -> currentThread k' = currentThread k.
Proof. unfold v_body. intros H. same_inv. congruence. Qed.
Lemma release_body_current l k k' : release_body l k = Ok k' -> currentThread k' = currentThread k.
Proof. unfold release_body. intros H. same_inv. congruence. Qed.
Lemma signal_body_current c l k k' :
  signal_body c l k = Ok k' -> currentThread k' = currentThread k.
Proof.
  unfold signal_body. intros H. destruct (isHeldByCurrentThread l k), (queue k (QCond c));
    same_inv; congruence.
Qed.
Lemma finish_Run_current k k' : finish_Run k = Ok k' -> currentThread k' = currentThread k.
Proof. unfold finish_Run. intros H. destruct (threadToBeDestroyed k); same_inv; done. Qed.

Ltac others_current :=
  repeat match goal with
  | H : v_body _ _ = Ok _ |- _ => apply v_body_current in H
  | H : release_body _ _ = Ok _ |- _ => apply release_body_current in H
  | H : signal_body _ _ _ = Ok _ |- _ => apply signal_body_current in H
  | H : finish_Run _ = Ok _ |- _ => apply finish_Run_current in H
  end; others_side.

Ltac others_chain :=
  match goal with
  | |- others _ _ ?k ?k => by apply others_frame
  | H : goto _ ?x = Ok ?k' |- others _ _ _ ?k' =>
      apply (others_trans _ _ _ x); [others_chain|apply (goto_others _ _ _ _ _ H); others_current]
  | H : Sleep [] (set_dead _ ?x) = Ok ?k' |- others _ _ _ ?k' =>
      apply (others_trans _ _ _ x); [others_chain|apply (Sleep_die_others _ _ _ _ H); others_current]
  | H : Sleep _ (enqueue _ ?x) = Ok ?k' |- others _ _ _ ?k' =>
      apply (others_trans _ _ _ x);
        [others_chain|apply (Sleep_others _ _ _ _ _ _ H); [congruence|others_current]]
  | H : Run _ _ ?x = Ok ?k' |- others _ _ _ ?k' =>
      apply (others_trans _ _ _ x); [others_chain|apply (Run_others _ _ _ _ _ _ H); others_current]
  | H : wake_one _ ?x = Ok ?k' |- others _ _ _ ?k' =>
      apply (others_trans _ _ _ x); [others_chain|apply (wake_one_others _ _ _ _ _ H)]
  | H : wake_n _ _ ?x = Ok ?k' |- others _ _ _ ?k' =>
      apply (others_trans _ _ _ x); [others_chain|apply (wake_n_others _ _ _ _ _ _ H)]
  | H : v_body _ ?x = Ok ?k' |- others _ _ _ ?k' =>
      apply (others_trans _ _ _ x); [others_chain|apply (v_body_others _ _ _ _ _ H)]
  | H : release_body _ ?x = Ok ?k' |- others _ _ _ ?k' =>
      apply (others_trans _ _ _ x); [others_chain|apply (release_body_others _ _ _ _ _ H)]
  | H : signal_body _ _ ?x = Ok ?k' |- others _ _ _ ?k' =>
      apply (others_trans _ _ _ x); [others_chain|apply (signal_body_others _ _ _ _ _ _ H)]
  | H : ReadyToRun _ ?x = Ok ?k' |- others _ _ _ ?k' =>
      apply (others_trans _ _ _ x); [others_chain|apply (ReadyToRun_others _ _ _ _ _ H)]
  | H : fork _ _ ?x = Ok ?k' |- others _ _ _ ?k' =>
      apply (others_trans _ _ _ x); [others_chain|apply (fork_others _ _ _ _ _ _ H)]
  | |- others _ _ _ (construct _ _ ?x) =>
      apply (others_trans _ _ _ x); [others_chain|apply construct_others]
  | |- others _ _ _ (set_level _ ?x) => apply (others_trans _ _ _ x); [others_chain|by apply others_frame]
  | |- others _ _ _ (set_ready _ ?x) => apply (others_trans _ _ _ x); [others_chain|by apply others_frame]
  | |- others _ _ _ (set_client _ ?x) => apply (others_trans _ _ _ x); [others_chain|by apply others_frame]
  | |- others _ _ _ (set_sem _ _ ?x) => apply (others_trans _ _ _ x); [others_chain|by apply others_frame]
  | |- others _ _ _ (set_lock _ _ ?x) => apply (others_trans _ _ _ x); [others_chain|by apply others_frame]
  | |- others _ _ _ (set_cond _ _ ?x) => apply (others_trans _ _ _ x); [others_chain|by apply others_frame]
  | |- others _ _ _ (set_mutex _ _ ?x) => apply (others_trans _ _ _ x); [others_chain|by apply others_frame]
  | |- others _ _ _ (set_barrier _ _ ?x) => apply (others_trans _ _ _ x); [others_chain|by apply others_frame]
  end.

#[local] Abbreviation self k := (eq (currentThread k)).

Lemma exec_call_others s u rest k es k' :
  exec_call u rest k = Ok (es, k') -> others s (self k) k k'.
Proof.
  intros H. destruct u; call.
  - res_inv; subst. others_chain.
  - res_inv; subst. others_chain.
  - res_inv; subst. others_chain.
  - res_inv; subst. others_chain.
  - res_inv; subst. others_chain.
  - destruct (isHeldByCurrentThread _ _); res_inv; subst; others_chain.
  - res_inv; subst. others_chain.
  - destruct (isHeldByCurrentThread _ _); res_inv; subst; others_chain.
  - res_inv; subst. others_chain.
  - res_inv; subst. others_chain.
  - destruct (_ <? _); [|res_inv; destruct (_ <? _)]; res_inv; subst; others_chain.
  - unfold FindNextToRun in H.
    destruct (readyList (set_level IntOff k)); res_inv; subst; others_chain.
  - res_inv; subst. others_chain.
  - res_inv; subst. others_chain.
  - res_inv; subst. others_chain.
  - apply bind_Ok in H as (th & Hth & H). unfold get_thread in Hth.
    destruct (threads k !! t) as [th0|] eqn:Ht; [|done]. injection Hth as ->.
    destruct (semaphore th); [res_inv; subst; others_chain|]. cbn in H.
    destruct (queue k (QSem s0)); [|done].
    apply bind_Ok in H as (k1 & H1 & H). injection H as <- <-.
    eapply others_trans; [|by eapply goto_others]. split; [|done].
    intros u thu _ Hu Hs. cbn. destruct (decide (u = t)) as [->|].
    + rewrite lookup_insert_eq. replace thu with th in Hs by congruence. by eexists.
    + rewrite lookup_insert_ne by done. eauto.
  - destruct (queue k q); [|done]. assert (currentThread (construct q v k) = currentThread k) by (by destruct q).
    res_inv; subst. others_chain.
  - apply bind_Ok in H as ([] & _ & H). res_inv; subst. others_chain.
  - res_inv. destruct a as [x us]. res_inv; subst. others_chain.
Qed.

Lemma others_self s k k' :
  others s (self k) k k' ->
  (forall th, threads k !! currentThread k = Some th -> ~ at_sem s (code th)) ->
  others s (fun _ => False) k k'.
Proof.
  intros [A B] Hc. split; [|done]. intros t th _ Ht Hs.
  destruct (decide (currentThread k = t)) as [<-|]; [by destruct (Hc th Ht)|by apply (A t th)].
Qed.

(** A thread that goes on inside [P] stays on its way to the semaphore. *)
Lemma goto_keeps s l k k' :
  goto l k = Ok k' ->
  (forall th, threads k !! currentThread k = Some th -> at_sem s (code th) -> at_sem s l) ->
  others s (fun _ => False) k k'.
Proof.
  unfold goto, get_thread. intros H Hl. apply bind_Ok in H as (th0 & H0 & H). injection H as <-.
  destruct (threads k !! currentThread k) as [th1|] eqn:E; [|done]. injection H0 as ->.
  split; [|done]. intros t th _ Ht Hs. cbn. destruct (decide (t = currentThread k)) as [->|].
  - rewrite lookup_insert_eq. eexists. split; [done|]. cbn.
    replace th with th0 in Hs by congruence. by apply (Hl th0).
  - rewrite lookup_insert_ne by done. eauto.
Qed.

Lemma finish_Run_lookup t th k k' :
  finish_Run k = Ok k' -> threads k' !! t = Some th -> threads k !! t = Some th.
Proof.
  unfold finish_Run. destruct (threadToBeDestroyed k); intros H; res_inv; subst; [|done].
  cbn. intros Ht. by apply lookup_delete_Some in Ht as [_ ?].
Qed.

Lemma step_sem s k es k' :
  wf k -> step k = Ok (es, k') ->
  value (sems k' s) = 0 \/
  (others s (self k) k k' /\ (es = [EvP s] \/ others s (fun _ => False) k k')).
Proof.
  intros Hw H. unfold step in H. apply bind_Ok in H as (th & Hth & H). unfold get_thread in Hth.
  destruct (threads k !! currentThread k) as [th0|] eqn:Hc; [|done]. injection Hth as ->.
  assert (forall o rest, code th = o :: rest -> ~ at_sem s [o] -> switching [o] = false ->
    others s (self k) k k' -> others s (self k) k k' /\
      (es = [EvP s] \/ others s (fun _ => False) k k')) as Hother.
  { intros o rest Ho Hs Hsw Hk. split; [done|right]. apply (others_self s k k' Hk).
    intros th' Hth'. replace th' with th by congruence. rewrite Ho.
    by destruct o. }
  destruct (code th) as [|o rest] eqn:Hco.
  { right. apply (exec_call_others s Finish []) in H. split; [done|right].
    apply (others_self _ _ _ H). intros th' Hth'. replace th' with th by congruence.
    rewrite Hco. intros []. }
  destruct o as [u|s' old|l old|c l old|c l|m old|b old| | | |old]; call.
  - right. eapply Hother; [done|intros []|done|]. by eapply exec_call_others.
  - destruct (decide (s' = s)) as [->|Hne].
    + destruct (Z.eqb_spec (value (sems k s)) 0); res_inv; subst.
      * left. apply Sleep_same in Ha as [_ Hs _ _ _ _]. by rewrite Hs.
      * right. split; [|by left]. others_chain.
    + right. eapply Hother; [done..|]. destruct (_ =? 0); res_inv; subst; others_chain.
  - right. eapply Hother; [done|intros []|done|]. destruct (negb _); res_inv; subst; others_chain.
  - right. eapply Hother; [done|intros []|done|]. destruct (isBusy _); res_inv; subst; others_chain.
  - right. eapply Hother; [done|intros []|done|]. destruct (bool_decide _); res_inv; subst; others_chain.
  - right. eapply Hother; [done|intros []|done|]. destruct (negb _); res_inv; subst; others_chain.
  - right. eapply Hother; [done|intros []|done|]. res_inv; subst; others_chain.
  - right. eapply Hother; [done|intros []|done|]. apply bind_Ok in H as (th' & _ & H).
    destruct (semaphore th') as [j|]; [destruct (_ =? 1)|]; res_inv; subst; others_chain.
  - right. assert (others s (fun _ => False) k k') as Hk.
    { unfold FindNextToRun in H. destruct (readyList k); res_inv; subst; [by apply others_frame|].
      unfold Run in Ha. res_inv. apply (setStatus_others s (fun _ => False)) in Ha.
      apply (goto_keeps s) in Ha0.
      2: { cbn. intros th' Hth'. replace th' with th by congruence. by rewrite Hco. }
      eapply others_trans; [|exact Ha]. apply (others_trans _ _ _ a); [|by apply others_frame].
      eapply others_trans; [|exact Ha0]. by apply others_frame. }
    split; [|by right]. destruct Hk as [A B]. split; [|done]. intros t tht _. exact (A t tht id).
  - right. assert (others s (fun _ => False) k k') as Hk.
    { apply bind_Ok in H as (k1 & H1 & H). res_inv; subst.
      apply (others_trans _ _ _ k1); [by apply finish_Run_others|].
      apply (goto_keeps s rest k1); [done|]. intros th' Hth'.
      rewrite (finish_Run_current _ _ H1) in Hth'. apply (finish_Run_lookup _ _ _ _ H1) in Hth'.
      replace th' with th by congruence. rewrite Hco. by destruct rest as [|[] ?]. }
    split; [|by right]. destruct Hk as [A B]. split; [|done]. intros t tht _. exact (A t tht id).
  - right. eapply Hother; [done|intros []|done|]. res_inv; subst; others_chain.
Qed.

Lemma v_body_queue s k k' : v_body s k = Ok k' -> queue k' (QSem s) = tail (queue k (QSem s)).
Proof.
  unfold v_body, wake_one, ReadyToRun, setStatus. intros H.
  destruct (queue k (QSem s)) as [|t ts] eqn:Hq; res_inv; subst; cbn; [by rewrite Hq|].
  by rewrite decide_True.
Qed.

Lemma goto_queue c k k' : goto c k = Ok k' -> queue k' = queue k.
Proof. unfold goto. intros H. res_inv. by subst. Qed.

Lemma step_V s k k' : step k = Ok ([EvV s], k') -> queue k' (QSem s) = tail (queue k (QSem s)).
Proof.
  intros H. unfold step in H. apply bind_Ok in H as (th & _ & H).
  assert (forall u rest, exec_call u rest k = Ok ([EvV s], k') ->
    queue k' (QSem s) = tail (queue k (QSem s))) as Hcall.
  { intros u rest Hu. destruct u; call;
      try (destruct (isHeldByCurrentThread _ _)); try (unfold FindNextToRun in Hu; destruct (readyList _));
      try (destruct (_ <? _)); res_inv; try (destruct (_ <? _)); try (destruct a);
      try (destruct (semaphore _)); cbn [queue set_threads] in *;
      try match goal with Hq : match queue k ?q with _ => _ end = Ok _ |- _ => destruct (queue k q) end;
      res_inv; try done.
    simplify_eq. apply goto_queue in Ha0. rewrite Ha0. by apply v_body_queue in Ha. }
  destruct (code th) as [|[]]; [by apply (Hcall Finish [])|by eapply Hcall|..];
    call;
    try (destruct (_ =? 0)); try (destruct (negb _)); try (destruct (isBusy _));
    try (destruct (bool_decide _)); try (unfold FindNextToRun in H; destruct (readyList _));
    res_inv; try done.
  destruct (semaphore a) as [j|]; [destruct (_ =? 1)|]; res_inv; try done.
  simplify_eq. apply goto_queue in Ha1. rewrite Ha1. by apply v_body_queue in Ha0.
Qed.

(** No wake-up of a semaphore is lost: while threads wait, at least [value]
    others are on their way to take it. *)
Definition wake_inv (s : nat) (k : Kernel) : Prop :=
  queue k (QSem s) = [] \/
  exists W, NoDup W /\ (forall t, t ∈ W -> woken s k t) /\
    value (sems k s) <= Z.of_nat (length W).

Lemma others_queue_nil s c k k' :
  others s c k k' -> queue k (QSem s) = [] -> queue k' (QSem s) = [].
Proof.
  intros [_ B] Hq. destruct (queue k' (QSem s)) as [|t ts]; [done|].
  specialize (B t ltac:(constructor)). rewrite Hq in B. by apply elem_of_nil in B.
Qed.

Lemma wake_inv_keep s k k' :
  others s (fun _ => False) k k' -> value (sems k' s) <= value (sems k s) ->
  wake_inv s k -> wake_inv s k'.
Proof.
  intros Ho Hv [Hq|(W & HW & Hw & Hl)]; [left; by eapply others_queue_nil|right].
  exists W. split_and!; [done| |lia]. intros t Ht. apply (others_woken _ _ _ _ _ Ho id). auto.
Qed.

Lemma wake_inv_V s k k' :
  wf k -> others s (fun _ => False) k k' -> queue k' (QSem s) = tail (queue k (QSem s)) ->
  value (sems k' s) <= value (sems k s) + 1 -> wake_inv s k -> wake_inv s k'.
Proof.
  intros [W _ _ Wq] Ho Hq Hv [Hq'|(V & HV & Hw & Hl)]; [left; by rewrite Hq, Hq'|].
  destruct (queue k (QSem s)) as [|u ts] eqn:E; [by left|right].
  specialize (Wq (QSem s)). rewrite E in Wq. apply NoDup_cons in Wq as [Hu _].
  assert (u ∈ queue k (QSem s)) as Hin by (rewrite E; constructor).
  assert (woken s k' u) as Huw.
  { split; [|by rewrite Hq]. specialize (W u). destruct (threads k !! u) as [th|] eqn:Hth.
    - destruct (slot_queued _ _ _ _ _ (QSem s) W Hin) as (_ & _ & Hwait & _).
      apply (ot_code _ _ _ _ Ho u th id Hth). unfold waits_on in Hwait.
      destruct (code th) as [|[] [|[] ?]]; try done; cbn in *; congruence.
    - destruct W as (_ & _ & Hn & _). by destruct (Hn (QSem s)). }
  exists (u :: V). split_and!.
  - apply NoDup_cons. split; [|done]. intros HuV. by destruct (Hw u HuV) as [_ Hn].
  - intros t [->|Ht]%elem_of_cons; [done|]. apply (others_woken _ _ _ _ _ Ho id). auto.
  - cbn. lia.
Qed.

Lemma wake_inv_P s k k' :
  others s (self k) k k' -> value (sems k' s) <= value (sems k s) - 1 ->
  wake_inv s k -> wake_inv s k'.
Proof.
  intros Ho Hv [Hq|(W & HW & Hw & Hl)]; [left; by eapply others_queue_nil|right].
  exists (filter (fun t => t <> currentThread k) W). split_and!.
  - by apply NoDup_filter.
  - intros t [Hne Ht]%list_elem_of_filter. apply (others_woken _ _ _ _ _ Ho); [congruence|auto].
  - assert (length W <= S (length (filter (fun t => t <> currentThread k) W)))%nat; [|lia].
    clear -HW. induction HW as [|t W Ht HW IH]; [cbn; lia|]. rewrite filter_cons. cbn [length].
    case_decide as Hd; cbn [length]; [lia|].
    assert (t = currentThread k) as -> by (destruct (decide (t = currentThread k)); tauto).
    assert (filter (fun u => u <> currentThread k) W = W) as ->; [|lia].
    clear -Ht. induction W as [|u W IH]; [done|]. apply not_elem_of_cons in Ht as [Hne Ht].
    rewrite filter_cons_True by congruence. by rewrite IH.
Qed.

Lemma s32_le z : - 2 ^ 31 <= z -> s32 z <= z.
Proof. unfold s32, swrap. intros H. dlia. Qed.

Lemma sys_step_wake s k es k' :
  wf k -> ~ (EvNew (QSem s) ∈ es) -> 0 <= value (sems k s) -> sys_step k es k' ->
  wake_inv s k -> wake_inv s k'.
Proof.
  intros Hw Hn Hv Hs. pose proof (effect_value _ _ _ s (sys_step_effect _ _ _ Hs) Hn) as He.
  pose proof (s32_le (value (sems k s) + 1) ltac:(lia)).
  pose proof (s32_le (value (sems k s) - 1) ltac:(lia)).
  destruct Hs as [k es k' Hk|k th k' Hl Hth Hk|k s' x k' Hl _ Hk].
  - destruct (step_sem s _ _ _ Hw Hk) as [Hz|[Ho [-> |Ho']]].
    + intros _. right. exists []. split_and!; [constructor| |cbn; lia].
      intros t Ht. by apply elem_of_nil in Ht.
    + rewrite !occurs_one, decide_True in He by done. rewrite decide_False in He by done.
      apply wake_inv_P; [done|]. lia.
    + destruct He as [(Hv' & _)|[(Hv' & _ & HV)|(_ & Hv' & _)]];
        try (apply wake_inv_keep; [done|lia]).
      apply wake_inv_V; [done..| |lia]. destruct (step_effect _ _ _ Hk); try done.
      rewrite occurs_one in HV. case_decide as Hd; [|done]. injection Hd as ->. by apply step_V.
  - rewrite !occurs_nil in He. apply wake_inv_keep; [|lia]. apply (others_self s); [by eapply goto_others|].
    intros th' Hth'. replace th' with th by congruence. intros Hat.
    destruct Hw as [_ Wl _ _]. specialize (Wl th Hth). rewrite Hl in Wl.
    destruct (code th) as [|[] ?]; try done; by specialize (Wl eq_refl).
  - assert (others s (fun _ => False) k k') as Ho.
    { apply (others_trans _ _ _ (set_client x k)); [by apply others_frame|by eapply v_body_others]. }
    destruct He as [(Hv' & _)|[(Hv' & _ & HV)|(_ & Hv' & _)]];
      try (apply wake_inv_keep; [done|lia]).
    apply wake_inv_V; [done..| |lia]. rewrite occurs_one in HV. case_decide as Hd; [|done].
    injection Hd as ->. by apply v_body_queue in Hk.
Qed.

(** *** Invariants of the client

    An invariant [I] of the client's state that its code keeps holds in every
    reachable state; [ok] restricts the code the threads start with. *)
Section client_invariant.
Context (I : K -> Prop) (ok : L -> Prop).

Inductive ok_call : ucall L -> Prop :=
  | ok_fork t body : Forall ok_call body -> ok_call (Fork t body)
  | ok_code c : ok c -> ok_call (Call c)
  | ok_other u : match u with Fork _ _ | Call _ => False | _ => True end -> ok_call u.

Definition ok_op (o : op L) : Prop := match o with Do u => ok_call u | _ => True end.

Definition ok_threads (ths : gmap nat Thread) : Prop :=
  forall t th, ths !! t = Some th -> Forall ok_op (code th).

Definition ok_kernel (k : Kernel) : Prop := I (client k) /\ ok_threads (threads k).

Context (Hcall : forall c t x x' us, I x -> ok c -> call c t x = Ok (x', us) ->
  I x' /\ Forall ok_call us).
Context (Hremove : forall t x x', I x -> removeResources t x = Ok x' -> I x').
Context (Hsave : forall t x, I x -> I (SaveState t x)).
Context (Hrestore : forall t x, I x -> I (RestoreState t x)).
Context (Hirq : forall x s x', I x -> irq x s x' -> I x').

Lemma ok_insert t th ths :
  ok_threads ths -> Forall ok_op (code th) -> ok_threads (<[t := th]> ths).
Proof.
  intros Hths Hth u thu Hu. destruct (decide (u = t)) as [->|].
  - rewrite lookup_insert_eq in Hu. by simplify_eq.
  - rewrite lookup_insert_ne in Hu by done. by eapply Hths.
Qed.

Lemma goto_ok_kernel c k k' : ok_kernel k -> Forall ok_op c -> goto c k = Ok k' -> ok_kernel k'.
Proof. unfold goto. intros [HI Hth] Hc H. res_inv. subst. split; [done|]. by apply ok_insert. Qed.

Lemma setStatus_ok_kernel t st k k' : ok_kernel k -> setStatus t st k = Ok k' -> ok_kernel k'.
Proof.
  unfold setStatus, get_thread. intros [HI Hth] H. destruct (threads k !! t) as [th|] eqn:Ht; [|done].
  injection H as <-. split; [done|]. apply ok_insert; [done|]. exact (Hth t th Ht).
Qed.

Lemma ok_frame k k' : client k' = client k -> threads k' = threads k -> ok_kernel k -> ok_kernel k'.
Proof. unfold ok_kernel. by intros -> ->. Qed.

Lemma ReadyToRun_ok_kernel t k k' : ok_kernel k -> ReadyToRun t k = Ok k' -> ok_kernel k'.
Proof.
  unfold ReadyToRun. intros Hk H. res_inv. subst. apply setStatus_ok_kernel in Ha; [|done].
  by eapply ok_frame, Ha.
Qed.

Lemma wake_one_ok_kernel q k k' : ok_kernel k -> wake_one q k = Ok k' -> ok_kernel k'.
Proof.
  unfold wake_one. intros Hk H. destruct (queue k q); [by simplify_eq|].
  eapply ReadyToRun_ok_kernel, H. by eapply ok_frame, Hk.
Qed.

Lemma wake_n_ok_kernel n q k k' : ok_kernel k -> wake_n n q k = Ok k' -> ok_kernel k'.
Proof.
  revert k. induction n as [|n IH]; simpl; intros k Hk H; [by simplify_eq|].
  res_inv. eapply IH, H. by eapply wake_one_ok_kernel.
Qed.

Lemma Sleep_ok_kernel c k k' : ok_kernel k -> Forall ok_op c -> Sleep c k = Ok k' -> ok_kernel k'.
Proof.
  unfold Sleep. intros Hk Hc H. res_inv. eapply goto_ok_kernel, H; [by eapply setStatus_ok_kernel|].
  by constructor.
Qed.

Lemma Run_ok_kernel n c k k' : ok_kernel k -> Forall ok_op c -> Run n c k = Ok k' -> ok_kernel k'.
Proof.
  unfold Run. intros [HI Hth] Hc H. res_inv. eapply setStatus_ok_kernel, H.
  apply (ok_frame a); [done..|]. eapply goto_ok_kernel, Ha; [|by constructor]. split; [|done].
  by apply Hsave.
Qed.

Lemma finish_Run_ok_kernel k k' : ok_kernel k -> finish_Run k = Ok k' -> ok_kernel k'.
Proof.
  unfold finish_Run. intros [HI Hth] H.
  assert (forall x, ok_kernel x -> ok_kernel (set_client (RestoreState (currentThread x) (client x)) x)) as Hr.
  { intros x [HIx Hx]. split; [|done]. by apply Hrestore. }
  destruct (threadToBeDestroyed k); res_inv; subst; apply Hr; split; try done.
  intros u th Hu. cbn in Hu. apply lookup_delete_Some in Hu as [_ Hu]. by eapply Hth.
Qed.

Lemma fork_ok_kernel t body k k' :
  ok_kernel k -> Forall ok_call body -> fork t body k = Ok k' -> ok_kernel k'.
Proof.
  unfold fork. intros [HI Hth] Hb H. destruct (threads k !! t); [done|].
  eapply ReadyToRun_ok_kernel, H. split; [done|]. apply ok_insert; [done|]. cbn.
  constructor; [by apply ok_other|]. by apply Forall_fmap.
Qed.

Lemma construct_ok_kernel q v k : ok_kernel k -> ok_kernel (construct q v k).
Proof. destruct q; by apply ok_frame. Qed.

Ltac ok_code := repeat first [assumption | constructor | by apply ok_other].

Ltac ok_chain :=
  match goal with
  | H : ok_kernel ?k |- ok_kernel ?k => exact H
  | H : goto _ ?x = Ok ?k' |- ok_kernel ?k' => apply (goto_ok_kernel _ x _) in H; [exact H|ok_chain|ok_code]
  | H : Sleep _ ?x = Ok ?k' |- ok_kernel ?k' =>
      apply (Sleep_ok_kernel _ x _) in H; [exact H|ok_chain|ok_code]
  | H : Run _ _ ?x = Ok ?k' |- ok_kernel ?k' =>
      apply (Run_ok_kernel _ _ x _) in H; [exact H|ok_chain|ok_code]
  | H : wake_one _ ?x = Ok ?k' |- ok_kernel ?k' => apply (wake_one_ok_kernel _ x _) in H; [exact H|ok_chain]
  | H : wake_n _ _ ?x = Ok ?k' |- ok_kernel ?k' => apply (wake_n_ok_kernel _ _ x _) in H; [exact H|ok_chain]
  | H : ReadyToRun _ ?x = Ok ?k' |- ok_kernel ?k' =>
      apply (ReadyToRun_ok_kernel _ x _) in H; [exact H|ok_chain]
  | H : finish_Run ?x = Ok ?k' |- ok_kernel ?k' => apply (finish_Run_ok_kernel x _) in H; [exact H|ok_chain]
  | |- ok_kernel (construct _ _ _) => apply construct_ok_kernel; ok_chain
  | |- ok_kernel (set_level _ ?x) => apply (ok_frame x); [done|done|ok_chain]
  | |- ok_kernel (set_queue _ _ ?x) => apply (ok_frame x); [done|done|ok_chain]
  | |- ok_kernel (enqueue _ ?x) => apply (ok_frame x); [done|done|ok_chain]
  | |- ok_kernel (set_ready _ ?x) => apply (ok_frame x); [done|done|ok_chain]
  | |- ok_kernel (set_dead _ ?x) => apply (ok_frame x); [done|done|ok_chain]
  | |- ok_kernel (set_sem _ _ ?x) => apply (ok_frame x); [done|done|ok_chain]
  | |- ok_kernel (set_lock _ _ ?x) => apply (ok_frame x); [done|done|ok_chain]
  | |- ok_kernel (set_cond _ _ ?x) => apply (ok_frame x); [done|done|ok_chain]
  | |- ok_kernel (set_mutex _ _ ?x) => apply (ok_frame x); [done|done|ok_chain]
  | |- ok_kernel (set_barrier _ _ ?x) => apply (ok_frame x); [done|done|ok_chain]
  end.

Lemma v_body_ok_kernel s k k' : ok_kernel k -> v_body s k = Ok k' -> ok_kernel k'.
Proof. unfold v_body. intros Hk H. res_inv. subst. ok_chain. Qed.

Lemma release_body_ok_kernel l k k' : ok_kernel k -> release_body l k = Ok k' -> ok_kernel k'.
Proof. unfold release_body. intros Hk H. res_inv. subst. ok_chain. Qed.

Lemma signal_body_ok_kernel c l k k' : ok_kernel k -> signal_body c l k = Ok k' -> ok_kernel k'.
Proof.
  unfold signal_body. intros Hk H. destruct (isHeldByCurrentThread l k), (queue k (QCond c));
    res_inv; subst; ok_chain.
Qed.

Lemma exec_call_ok_kernel u rest k es k' :
  ok_kernel k -> ok_call u -> Forall ok_op rest -> exec_call u rest k = Ok (es, k') -> ok_kernel k'.
Proof.
  intros Hk Hu Hrest H. destruct u; call.
  - res_inv; subst; ok_chain.
  - unfold v_body in H. res_inv; subst; ok_chain.
  - res_inv; subst; ok_chain.
  - res_inv; subst; ok_chain.
  - unfold release_body in H. res_inv; subst; ok_chain.
  - unfold release_body in H. destruct (isHeldByCurrentThread _ _); res_inv; subst; ok_chain.
  - res_inv; subst. apply signal_body_ok_kernel in Ha; [|ok_chain]. ok_chain.
  - destruct (isHeldByCurrentThread _ _); res_inv; subst; ok_chain.
  - res_inv; subst; ok_chain.
  - res_inv; subst; ok_chain.
  - destruct (_ <? _); [|res_inv; destruct (_ <? _)]; res_inv; subst; ok_chain.
  - unfold FindNextToRun in H. destruct (readyList (set_level IntOff k)); res_inv; subst; ok_chain.
  - res_inv; subst. apply (goto_ok_kernel _ _ _) in Ha0; [done| |ok_code].
    destruct Hk as [HI Hth]. split; [by eapply Hremove|done].
  - res_inv; subst; ok_chain.
  - inversion Hu; subst; [|done]. res_inv; subst.
    apply fork_ok_kernel in Ha; [|ok_chain|done]. ok_chain.
  - apply bind_Ok in H as (th & Hth & H). unfold get_thread in Hth.
    destruct (threads k !! t) as [th0|] eqn:Ht; [|done]. injection Hth as ->.
    destruct (semaphore th); [res_inv; subst; ok_chain|].
    destruct (queue _ (QSem s)); [|done]. res_inv; subst.
    assert (ok_kernel (set_threads (<[t := mkThread (status th) (code th) (Some s)]> (threads k)) k)) as Hk1.
    { destruct Hk as [HI Hths]. split; [done|]. apply ok_insert; [done|]. exact (Hths t th Ht). }
    ok_chain.
  - destruct (queue k q); [|done]. res_inv; subst; ok_chain.
  - apply bind_Ok in H as ([] & _ & H). res_inv; subst; ok_chain.
  - inversion Hu; subst; [|done]. res_inv. destruct a as [x us]. res_inv; subst.
    destruct Hk as [HI Hths]. destruct (Hcall _ _ _ _ _ HI ltac:(done) Ha) as [HIx Hus].
    apply (goto_ok_kernel _ _ _) in Ha0; [done|by split|]. apply Forall_app. split; [|done].
    by apply Forall_fmap.
Qed.

Lemma step_ok_kernel k es k' : ok_kernel k -> step k = Ok (es, k') -> ok_kernel k'.
Proof.
  intros Hk H. unfold step in H. apply bind_Ok in H as (th & Hth & H). unfold get_thread in Hth.
  destruct (threads k !! currentThread k) as [th0|] eqn:Hc; [|done]. injection Hth as ->.
  pose proof (proj2 Hk _ _ Hc) as Hco.
  destruct (code th) as [|o rest]; [by eapply (exec_call_ok_kernel Finish []), H; [|apply ok_other|]|].
  apply Forall_cons in Hco as [Ho Hrest]. destruct o; call.
  - by eapply exec_call_ok_kernel.
  - destruct (_ =? 0); res_inv; subst; ok_chain.
  - destruct (negb _); res_inv; subst; ok_chain.
  - destruct (isBusy _); res_inv; subst; ok_chain.
  - destruct (bool_decide _); res_inv; subst; ok_chain.
  - destruct (negb _); res_inv; subst; ok_chain.
  - res_inv; subst; ok_chain.
  - apply bind_Ok in H as (th' & _ & H). unfold v_body in H.
    destruct (semaphore th') as [j|]; [destruct (_ =? 1)|]; res_inv; subst; ok_chain.
  - unfold FindNextToRun in H. destruct (readyList k); res_inv; subst; ok_chain.
  - res_inv; subst; ok_chain.
  - res_inv; subst; ok_chain.
Qed.

(** The invariant holds in every reachable state. *)
Lemma runs_ok_kernel k0 es k : ok_kernel k0 -> runs k0 es k -> ok_kernel k.
Proof.
  intros H0 Hr. induction Hr as [|k1 es1 k2 es2 k3 _ IH Hs]; [done|]. specialize (IH H0).
  destruct Hs as [k es k' Hk|k th k' Hl Hth Hk|k s x k' Hl Hx Hk].
  - by eapply step_ok_kernel.
  - pose proof (proj2 IH _ _ Hth) as Hco. ok_chain.
  - apply v_body_ok_kernel in Hk; [done|]. destruct IH as [HI Hths]. split; [|done]. by eapply Hirq.
Qed.

End client_invariant.

(** ** What a step does to the client's state

    A relation that holds between the client's states before and after each of its
    operations in another thread than [t0] holds for the steps of other threads. *)
Section client_relation.
Context (R : K -> K -> Prop) (t0 : nat).
Context (Hrefl : forall x, R x x).
Context (Rcall : forall c t x x' us, t <> t0 -> call c t x = Ok (x', us) -> R x x').
Context (Rremove : forall t x x', t <> t0 -> removeResources t x = Ok x' -> R x x').
Context (Rsave : forall t x, t <> t0 -> R x (SaveState t x)).
Context (Rrestore : forall t x, t <> t0 -> R x (RestoreState t x)).
Context (Rirq : forall x s x', irq x s x' -> R x x').

(** The same client and current thread. *)
Definition same_client (k k' : Kernel) : Prop :=
  client k' = client k /\ currentThread k' = currentThread k.

Lemma goto_client c k k' : goto c k = Ok k' -> same_client k k'.
Proof. unfold goto. intros H. res_inv. by subst. Qed.

Lemma setStatus_client t st k k' : setStatus t st k = Ok k' -> same_client k k'.
Proof. unfold setStatus. intros H. res_inv. by subst. Qed.

Lemma ReadyToRun_client t k k' : ReadyToRun t k = Ok k' -> same_client k k'.
Proof. unfold ReadyToRun. intros H. res_inv. subst. by apply setStatus_client in Ha. Qed.

Lemma same_client_trans k1 k2 k3 : same_client k1 k2 -> same_client k2 k3 -> same_client k1 k3.
Proof. intros [A B] [C D]. split; congruence. Qed.

Lemma wake_one_client q k k' : wake_one q k = Ok k' -> same_client k k'.
Proof.
  unfold wake_one. intros H. destruct (queue k q); [by simplify_eq|]. by apply ReadyToRun_client in H.
Qed.

Lemma wake_n_client n q k k' : wake_n n q k = Ok k' -> same_client k k'.
Proof.
  revert k. induction n as [|n IH]; simpl; intros k H; [by simplify_eq|]. res_inv.
  eapply same_client_trans; [by eapply wake_one_client|by apply IH].
Qed.

Lemma Sleep_client c k k' : Sleep c k = Ok k' -> same_client k k'.
Proof.
  unfold Sleep. intros H. res_inv.
  eapply same_client_trans; [by eapply setStatus_client|by eapply goto_client].
Qed.

Lemma fork_client t body k k' : fork t body k = Ok k' -> same_client k k'.
Proof. unfold fork. intros H. destruct (threads k !! t); [done|]. by apply ReadyToRun_client in H. Qed.

Lemma Run_client n c k k' : Run n c k = Ok k' -> client k' = SaveState (currentThread k) (client k).
Proof.
  unfold Run. intros H. res_inv. apply goto_client in Ha as [Ha _]. apply setStatus_client in H as [H _].
  etransitivity; [exact H|exact Ha].
Qed.

Lemma finish_Run_client k k' :
  finish_Run k = Ok k' -> client k' = RestoreState (currentThread k) (client k) /\
    currentThread k' = currentThread k.
Proof.
  unfold finish_Run. intros H. res_inv. subst. destruct (threadToBeDestroyed k); res_inv; by subst.
Qed.

Ltac client_facts :=
  repeat match goal with
  | H : goto _ _ = Ok _ |- _ => apply goto_client in H as [H _]
  | H : wake_one _ _ = Ok _ |- _ => apply wake_one_client in H as [H _]
  | H : wake_n _ _ _ = Ok _ |- _ => apply wake_n_client in H as [H _]
  | H : Sleep _ _ = Ok _ |- _ => apply Sleep_client in H as [H _]
  | H : fork _ _ _ = Ok _ |- _ => apply fork_client in H as [H _]
  end.

Ltac same_R :=
  client_facts; cbn in *;
  match goal with |- R (client ?k) (client ?k') => replace (client k') with (client k) by congruence; by apply Hrefl end.

Lemma v_body_client s k k' : v_body s k = Ok k' -> client k' = client k.
Proof. unfold v_body. intros H. res_inv. subst. by apply wake_one_client in Ha as [Ha _]. Qed.

Lemma release_body_client l k k' : release_body l k = Ok k' -> client k' = client k.
Proof. unfold release_body. intros H. res_inv. subst. by apply wake_one_client in Ha as [Ha _]. Qed.

Lemma signal_body_client c l k k' : signal_body c l k = Ok k' -> client k' = client k.
Proof.
  unfold signal_body. intros H. destruct (isHeldByCurrentThread l k), (queue k (QCond c)); res_inv; subst;
    try done. by apply wake_one_client in Ha as [Ha _].
Qed.

Lemma exec_call_client u rest k es k' :
  currentThread k <> t0 -> exec_call u rest k = Ok (es, k') -> R (client k) (client k').
Proof.
  intros Ht H. destruct u; call.
  - res_inv; subst; same_R.
  - res_inv; subst. apply v_body_client in Ha. same_R.
  - res_inv; subst; same_R.
  - res_inv; subst; same_R.
  - res_inv; subst. apply release_body_client in Ha. same_R.
  - destruct (isHeldByCurrentThread l _); res_inv; subst; [apply release_body_client in Ha|]; same_R.
  - res_inv; subst. apply signal_body_client in Ha. same_R.
  - destruct (isHeldByCurrentThread l k); res_inv; subst; same_R.
  - res_inv; subst; same_R.
  - res_inv; subst; same_R.
  - destruct (_ <? _); [|res_inv; destruct (_ <? _)]; res_inv; subst; same_R.
  - unfold FindNextToRun in H. destruct (readyList (set_level IntOff k)); res_inv; subst; [same_R|].
    apply ReadyToRun_client in Ha as [A B]. apply Run_client in Ha0. cbn in A, B.
    rewrite Ha0, A, B. by apply Rsave.
  - res_inv; subst. apply goto_client in Ha0 as [H0 _]. rewrite H0. by eapply Rremove.
  - res_inv; subst; same_R.
  - res_inv; subst; same_R.
  - apply bind_Ok in H as (th & _ & H). destruct (semaphore th); [res_inv; subst; same_R|].
    destruct (queue _ (QSem s)); [|done]. res_inv; subst. same_R.
  - destruct (queue k q); [|done]. res_inv; subst. destruct q; same_R.
  - apply bind_Ok in H as ([] & _ & H). res_inv; subst; same_R.
  - res_inv. destruct a as [x us]. res_inv; subst. apply goto_client in Ha0 as [H0 _]. rewrite H0.
    by eapply Rcall.
Qed.

Lemma step_client k es k' : currentThread k <> t0 -> step k = Ok (es, k') -> R (client k) (client k').
Proof.
  intros Ht H. unfold step in H. apply bind_Ok in H as (th & _ & H).
  destruct (code th) as [|o rest]; [by eapply (exec_call_client Finish [])|]. destruct o; call.
  - by eapply exec_call_client.
  - destruct (_ =? 0); res_inv; subst; same_R.
  - destruct (negb _); res_inv; subst; same_R.
  - destruct (isBusy _); res_inv; subst; same_R.
  - destruct (bool_decide _); res_inv; subst; same_R.
  - destruct (negb _); res_inv; subst; same_R.
  - res_inv; subst; same_R.
  - apply bind_Ok in H as (th' & _ & H).
    destruct (semaphore th') as [j|]; [destruct (_ =? 1)|]; res_inv; subst; try same_R.
    apply v_body_client in Ha. same_R.
  - unfold FindNextToRun in H. destruct (readyList k); res_inv; subst; [same_R|].
    apply Run_client in Ha. rewrite Ha. by apply Rsave.
  - res_inv; subst. apply finish_Run_client in Ha as [A B]. apply goto_client in Ha0 as [H0 _].
    rewrite H0, A. by apply Rrestore.
  - res_inv; subst; same_R.
Qed.

Lemma sys_step_client k es k' : currentThread k <> t0 -> sys_step k es k' -> R (client k) (client k').
Proof.
  intros Ht Hs. revert Ht. destruct Hs as [k1 es1 k1' H|k1 th k1' _ _ H|k1 s x k1' _ Hx H]; intros Ht.
  - by eapply step_client.
  - apply goto_client in H as [-> _]. apply Hrefl.
  - apply v_body_client in H as ->. eapply Rirq, Hx.
Qed.

End client_relation.

(** *** Deterministic runs *)

Lemma runs_step_l k1 es1 k2 es2 k3 :
  sys_step k1 es1 k2 -> runs k2 es2 k3 -> runs k1 (es1 ++ es2) k3.
Proof.
  intros Hs Hr. revert k1 es1 Hs. induction Hr as [k|k2 es2 k3 es3 k4 _ IH Hs']; intros k1 es1 Hs.
  - rewrite app_nil_r. apply (runs_step k1 [] k1 es1 k); [constructor|done].
  - rewrite app_assoc. eapply runs_step; [by apply IH|done].
Qed.

Lemma steps_runs n k es k' : steps n k = Ok (es, k') -> runs k es k'.
Proof.
  revert k es. induction n as [|n IH]; simpl; intros k es H.
  - injection H as <- <-. constructor.
  - res_inv. destruct a as [es1 k1]. cbv iota beta in H. res_inv. destruct a as [es2 k2].
    cbv iota beta in H. injection H as <- <-.
    eapply runs_step_l; [by apply step_run|by apply IH].
Qed.

Lemma steps_add m n k :
  steps (m + n) k = '(es, k1) ← steps m k; '(es', k2) ← steps n k1; Ok (es ++ es', k2).
Proof.
  revert k. induction m as [|m IH]; simpl; intros k.
  - by destruct (steps n k) as [[]| | | |].
  - destruct (step k) as [[es k1]| | | |]; try done. cbn [bind]. rewrite IH.
    destruct (steps m k1) as [[es1 k2]| | | |]; try done. cbn [bind].
    destruct (steps n k2) as [[es2 k3]| | | |]; try done. cbn [bind]. by rewrite app_assoc.
Qed.

Lemma steps_loop m n k : steps m k = Ok ([], k) -> steps (m * n) k = Ok ([], k).
Proof.
  intros H. induction n as [|n IH]; [by rewrite Nat.mul_0_r|].
  rewrite Nat.mul_succ_r, steps_add, IH. cbn [bind]. by rewrite H.
Qed.

(** The outcome of a deterministic run. *)
Definition outcome (n : nat) (k : Kernel) : list event * Kernel :=
  match steps n k with Ok p => p | _ => ([], k) end.

Definition completes (n : nat) (k : Kernel) : bool :=
  match steps n k with Ok _ => true | _ => false end.

Lemma outcome_runs n k :
  completes n k = true -> runs k (outcome n k).1 (outcome n k).2.
Proof.
  unfold completes, outcome. destruct (steps n k) as [[es k']| | | |] eqn:H; try done.
  intros _. by apply steps_runs in H.
Qed.

(** *** Waking several threads *)

Lemma ReadyToRun_queue t k k' :
  ReadyToRun t k = Ok k' ->
  readyList k' = readyList k ++ [t] /\ queue k' = queue k /\
  currentThread k' = currentThread k /\ level k' = level k.
Proof. unfold ReadyToRun, setStatus. intros H. res_inv. by subst. Qed.

Lemma wake_n_queue n q k k' :
  wake_n n q k = Ok k' ->
  readyList k' = readyList k ++ take n (queue k q) /\ queue k' q = drop n (queue k q) /\
  (forall q', q' <> q -> queue k' q' = queue k q') /\ level k' = level k.
Proof.
  revert k. induction n as [|n IH]; simpl; intros k H.
  { injection H as <-. by rewrite app_nil_r. }
  apply bind_Ok in H as (k1 & H1 & H). apply IH in H as (Hr & Hq & Hq' & Hl). unfold wake_one in H1.
  destruct (queue k q) as [|t ts] eqn:E.
  - injection H1 as <-. rewrite E, drop_nil in Hq. rewrite E, take_nil in Hr. done.
  - apply ReadyToRun_queue in H1 as (Hr1 & Hq1 & _ & Hl1). cbn in Hr1, Hl1.
    rewrite Hq1 in Hr, Hq, Hq'. cbn in Hr, Hq, Hq'. rewrite decide_True in Hr, Hq by done.
    split_and!; [rewrite Hr, Hr1, <- app_assoc; done|done| |congruence].
    intros q' Hne. rewrite Hq' by done. by rewrite decide_False.
Qed.

(** The step of a thread whose code is known. *)
Lemma step_eq th o rest k :
  threads k !! currentThread k = Some th -> code th = o :: rest -> step k = exec o rest k.
Proof. intros Hth Hc. unfold step, get_thread. rewrite Hth. cbn [bind]. by rewrite Hc. Qed.

Lemma goto_eq th c k :
  threads k !! currentThread k = Some th ->
  goto c k =
    Ok (set_threads (<[currentThread k := mkThread (status th) c (semaphore th)]> (threads k)) k).
Proof. intros Hth. unfold goto, get_thread. by rewrite Hth. Qed.

(** ** Properties *)

(** C3: in every reachable state of the kernel, under any schedule of time
    slices and device interrupts, the current thread can make its next step, with two
    exceptions: the client's own code fails (or it forks a thread that exists, joins
    one that does not, or deletes an object that threads wait for or use); or a thread
    that others joined finishes and deletes the semaphore that they wait for or were woken
    from ([finish_fails], a bug of [Thread::Finish]).  In particular
    no [ASSERT] of [Sleep], [Yield] or [~Thread] fails and no control block is used
    after it was deleted.  A thread is RUNNING exactly when it is the current one and not
    looking for another thread in [Sleep], READY exactly when it is on the ready
    list, and a BLOCKED thread is in the queue of the object its code waits for
    and in no other; queues hold only BLOCKED threads, the ready list has no
    thread twice. *)
Theorem kernel_correct main x ss ls cs ms bs es k :
  runs (boot main x ss ls cs ms bs) es k ->
  ((exists es' k', step k = Ok (es', k')) \/ client_fails k \/ finish_fails k) /\
  (forall t th, threads k !! t = Some th ->
    (status th = RUNNING <-> t = currentThread k /\ is_sleeping (code th) = false) /\
    (status th = READY <-> t ∈ readyList k) /\
    (status th = BLOCKED -> forall q, t ∈ queue k q <-> waits_on (code th) = Some q)) /\
  NoDup (readyList k) /\ (forall t, t ∈ readyList k -> is_Some (threads k !! t)) /\
  (forall q t, t ∈ queue k q -> exists th, threads k !! t = Some th /\ status th = BLOCKED).
Proof.
  intros Hr. assert (wf k) as Hw by (eapply runs_wf, Hr; apply boot_wf).
  pose proof Hw as [W Wl Wr Wq]. split_and!; [|intros t th Ht|done| |].
  - destruct (step_ok k Hw) as [(es' & k' & H & _)|H]; [left; by exists es', k'|by right].
  - specialize (W t). rewrite Ht in W. destruct W as [_ W].
    destruct (status th); intuition congruence.
  - intros t Ht. specialize (W t). destruct (threads k !! t); [done|].
    by destruct W as (_ & Hn & _).
  - intros q t Ht. specialize (W t). destruct (threads k !! t) as [th|].
    + exists th. split; [done|]. by apply (slot_queued _ _ _ _ _ q W).
    + destruct W as (_ & _ & Hn & _). by destruct (Hn q).
Qed.

(** C5: from any state on, as long as no new semaphore gets its name, the value of
    a semaphore is its first value plus the [V]s that were done minus the [P]s that
    were completed, under any schedule; it is never negative, so at most (first
    value + number of [V]s) [P]s complete. *)
Theorem semaphore_correct k0 es k s :
  runs k0 es k -> ~ (EvNew (QSem s) ∈ es) -> 0 <= value (sems k0 s) ->
  value (sems k0 s) + occurs (EvV s) es < 2 ^ 31 ->
  value (sems k s) = value (sems k0 s) + occurs (EvV s) es - occurs (EvP s) es /\
  0 <= value (sems k s) /\
  occurs (EvP s) es <= value (sems k0 s) + occurs (EvV s) es.
Proof. intros Hr Hn H0 Hb. destruct (runs_value _ _ _ s Hr Hn H0 Hb). lia. Qed.

(** C8: no wake-up is lost.  From any reachable state with an empty queue on, such
    as the creation of the semaphore, in every state where the value of a
    semaphore is positive and a thread waits in its queue, another thread is on
    its way to take the value: it is in [P], READY or RUNNING, and not in the
    queue; there are at least as many such threads as the value says. *)
Theorem semaphore_no_lost_wakeup main x ss ls cs ms bs es0 k0 es k s :
  runs (boot main x ss ls cs ms bs) es0 k0 -> queue k0 (QSem s) = [] ->
  runs k0 es k -> ~ (EvNew (QSem s) ∈ es) ->
  0 <= value (sems k0 s) -> value (sems k0 s) + occurs (EvV s) es < 2 ^ 31 ->
  queue k (QSem s) <> [] ->
  exists W, NoDup W /\ value (sems k s) <= Z.of_nat (length W) /\
    (forall t, t ∈ W -> ~ (t ∈ queue k (QSem s)) /\
      exists th, threads k !! t = Some th /\ at_sem s (code th) /\
        (status th = RUNNING \/ status th = READY)).
Proof.
  intros Hr0 Hq0 Hr Hn H0 Hb Hq.
  assert (wf k0) as Hw0 by (eapply runs_wf, Hr0; apply boot_wf).
  assert (wake_inv s k) as [|(W & HW & Hwk & Hl)].
  { clear Hq. assert (wake_inv s k0) as Hi by (by left). clear Hr0 Hq0.
    induction Hr as [|k1 es1 k2 es2 k3 Hr IH Hs]; [done|].
    rewrite occurs_app in Hb. rewrite elem_of_app in Hn. pose proof (occurs_nonneg (EvV s) es2).
    apply (sys_step_wake s _ _ _) in Hs; [done| |tauto| |apply IH; auto; lia].
    - by eapply runs_wf.
    - apply (runs_value _ _ _ s Hr); [tauto|lia..]. }
  - done.
  - exists W. split_and!; [done..|]. intros t Ht. destruct (Hwk t Ht) as [(th & Hth & Hs) Hnq].
    split; [done|]. exists th. split_and!; [done..|].
    pose proof (runs_wf _ _ _ Hw0 Hr) as [Wf _ _ _]. specialize (Wf t). rewrite Hth in Wf.
    destruct Wf as [_ Wf]. destruct (status th); try tauto.
    destruct Wf as (_ & _ & Hwait & _ & Hsw). destruct Hnq. apply Hwait.
    destruct (code th) as [|[] [|[] ?]]; try done; cbn in *; by subst.
Qed.

(** C11: mutual exclusion.  Under any schedule, a lock that was free (and that no new
    lock replaces) is acquired a second time only after a release in between; it is
    available exactly when the last acquisition was released, and while it is held its
    owner is the thread that acquired it. *)
Theorem lock_correct k0 es k l :
  runs k0 es k -> ~ (EvNew (QLock l) ∈ es) -> available (locks k0 l) = true ->
  (forall a b c t u, es = a ++ EvAcquire l t :: b ++ EvAcquire l u :: c ->
    exists v, EvRelease l v ∈ b) /\
  available (locks k l) = bool_decide (holder l es None = None) /\
  (forall t, holder l es None = Some t -> owner (locks k l) = Some t).
Proof.
  intros Hr Hnew H0. split; [|by apply (runs_holder k0)]. intros a b c t u He.
  rewrite app_comm_cons, app_assoc in He.
  destruct (runs_event _ _ _ _ _ _ Hr He) as (k1 & k2 & Hr1 & Hs).
  destruct (runs_holder _ _ _ l Hr1) as [Ha _]; [|done|].
  { intros Hin. apply Hnew. rewrite He. apply elem_of_app. by left. }
  assert (available (locks k1 l) = true) as Hav.
  { apply sys_step_effect in Hs. by inversion Hs; subst. }
  rewrite Ha in Hav. apply bool_decide_eq_true in Hav.
  rewrite holder_app in Hav. cbn [holder] in Hav. rewrite decide_True in Hav by done.
  by eapply holder_released.
Qed.

(** [Barrier::Wait].  The first [size] threads that arrive block and are
    counted; the next one blocks nobody: it makes the first [size] waiting
    threads ready in their order of arrival, resets the count, and goes on with
    interrupts off for good, since the level it restores was read inside the
    loop.  The barrier so opens for [size + 1] threads. *)
Theorem barrier_correct b rest th k :
  wf k -> threads k !! currentThread k = Some th -> code th = Do (BWait b) :: rest ->
  0 < size (barriers k b) < 2 ^ 63 -> 0 <= count (barriers k b) <= size (barriers k b) ->
  exists k' th', step k = Ok ([], k') /\ wf k' /\ threads k' !! currentThread k = Some th' /\
    if count (barriers k b) <? size (barriers k b) then
      status th' = BLOCKED /\ readyList k' = readyList k /\
      queue k' (QBarrier b) = queue k (QBarrier b) ++ [currentThread k] /\
      barriers k' b = mkBarrier (size (barriers k b)) (count (barriers k b) + 1)
    else
      code th' = BWait_end b IntOff :: rest /\
      readyList k' = readyList k ++ take (Z.to_nat (size (barriers k b))) (queue k (QBarrier b)) /\
      queue k' (QBarrier b) = drop (Z.to_nat (size (barriers k b))) (queue k (QBarrier b)) /\
      barriers k' b = mkBarrier (size (barriers k b)) 0.
Proof.
  intros Hw Hth Hc Hs Hcnt.
  destruct (step_ok k Hw) as [(es & k' & Hk & Hw')|[(th0 & H0 & Hf)|(th0 & s & H0 & Hf & _)]].
  2,3: rewrite Hth in H0; injection H0 as <-; by rewrite Hc in Hf.
  assert (step k = exec_call (BWait b) rest k) as Hstep.
  { unfold step, get_thread. rewrite Hth. cbn [bind]. by rewrite Hc. }
  exists k'. rewrite Hstep in Hk |- *. call.
  assert (wrap 64 (count (barriers k b) + 1) = count (barriers k b) + 1) as Hwrap
    by (apply Z.mod_small; lia).
  rewrite Hwrap in Hk |- *. destruct (Z.ltb_spec (count (barriers k b)) (size (barriers k b))).
  - rewrite Hk. apply bind_Ok in Hk as (k1 & H1 & Hk). injection Hk as <- <-.
    unfold Sleep, setStatus, goto, get_thread in H1. cbn in H1. rewrite Hth in H1. cbn in H1.
    rewrite lookup_insert_eq in H1. cbn in H1. injection H1 as <-. cbn.
    rewrite lookup_insert_eq. eexists. split_and!; try done.
    + by rewrite decide_True.
    + by rewrite upd_lookup, decide_True.
  - rewrite Hk. destruct (Z.ltb_spec 0 (size (barriers k b))); [|lia].
    apply bind_Ok in Hk as (k1 & H1 & Hk). apply bind_Ok in Hk as (k2 & H2 & Hk).
    injection Hk as <- <-. pose proof (wake_n_same _ _ _ _ H1) as [Hcur _ _ _ _ Hb].
    apply wake_n_queue in H1 as (Hr & Hq & _). cbn in Hr, Hq, Hcur, Hb.
    unfold goto, get_thread in H2. apply bind_Ok in H2 as (th1 & Ht1 & H2). injection H2 as <-.
    cbn. rewrite Hcur, lookup_insert_eq. eexists. split_and!; try done.
    + by rewrite <- Hcur.
    + by rewrite upd_lookup, decide_True.
Qed.

(** [Condition::Broadcast] wakes nobody.  With threads waiting it returns
    at once and they stay BLOCKED in the queue; with none, called by the holder
    of the lock, it signals the empty queue for ever: any number of steps leads
    back to its loop. *)
Theorem broadcast_correct c l rest th k :
  threads k !! currentThread k = Some th -> code th = Do (Broadcast c l) :: rest ->
  (queue k (QCond c) <> [] ->
    exists n th', steps n k = Ok ([], set_threads (<[currentThread k := th']> (threads k)) k) /\
      code th' = rest) /\
  (queue k (QCond c) = [] -> isHeldByCurrentThread l k = true ->
    forall n, exists k' th', steps (1 + 3 * n) k = Ok ([], k') /\
      threads k' !! currentThread k' = Some th' /\ code th' = Broadcast_loop c l :: rest).
Proof.
  intros Hth Hc. split.
  - intros Hq. destruct (isHeldByCurrentThread l k) eqn:Hh.
    + exists 2%nat. eexists. cbn [steps]. rewrite (step_eq _ _ _ _ Hth Hc). call.
      rewrite Hh, (goto_eq th) by done. cbn [bind].
      erewrite step_eq; [|apply lookup_insert_eq|done]. call; cbn.
      rewrite bool_decide_false by done. erewrite goto_eq by apply lookup_insert_eq. cbn.
      rewrite insert_insert_eq. by split.
    + exists 1%nat. eexists. cbn [steps]. rewrite (step_eq _ _ _ _ Hth Hc). call.
      rewrite Hh, (goto_eq th) by done. by split.
  - intros Hq Hh n.
    set (th1 := mkThread (status th) (Broadcast_loop c l :: rest) (semaphore th)).
    set (k1 := set_threads (<[currentThread k := th1]> (threads k)) k).
    assert (step k = Ok ([], k1)) as H1.
    { rewrite (step_eq _ _ _ _ Hth Hc). call. by rewrite Hh, (goto_eq th). }
    assert (steps 3 k1 = Ok ([], k1)) as H3.
    { pose proof (lookup_insert_eq (threads k) (currentThread k)) as Hin.
      unfold k1. cbn [steps].
      rewrite (step_eq th1 (Broadcast_loop c l) rest) by (apply Hin || done). call.
      rewrite bool_decide_true by done. rewrite (goto_eq th1) by apply Hin. cbn.
      rewrite insert_insert_eq.
      erewrite step_eq; [|apply Hin|done]. call; cbn. unfold signal_body, isHeldByCurrentThread in *.
      cbn. rewrite Hh, Hq. cbn. erewrite goto_eq by apply Hin. cbn. rewrite insert_insert_eq.
      erewrite step_eq; [|apply Hin|done]. call; cbn. erewrite goto_eq by apply Hin. cbn.
      by rewrite insert_insert_eq. }
    exists k1, th1. split_and!; [|cbn; by rewrite lookup_insert_eq|done].
    rewrite steps_add. cbn [steps]. rewrite H1. cbn [bind app].
    by rewrite (steps_loop 3 n k1 H3).
Qed.

End kernel.

Arguments Thread L : clear implicits.
Arguments Kernel K L : clear implicits.

(** The trace creates no object [q]. *)
Definition creates (q : qid) (es : list event) : bool :=
  existsb (fun e => match e with EvNew q' => bool_decide (q' = q) | _ => false end) es.

Lemma creates_false q es : creates q es = false -> ~ (EvNew q ∈ es).
Proof.
  unfold creates. intros H Hin. apply list_elem_of_In in Hin.
  assert (existsb (fun e => match e with EvNew q' => bool_decide (q' = q) | _ => false end) es = true);
    [|congruence].
  apply existsb_exists. exists (EvNew q). split; [done|]. by apply bool_decide_true.
Qed.

(** ** A client without a state of its own *)
Module Plain.

Definition L := Empty_set.
Definition saved (t : nat) (x : unit) : unit := x.
Definition call (c : L) (t : nat) (x : unit) : res (unit * list (ucall L)) := UB.
Definition removeResources (t : nat) (x : unit) : res unit := Ok tt.
(** A device that does [V] on semaphore 0. *)
Definition irq (x : unit) (s : nat) (y : unit) : Prop := s = 0%nat.

(** A thread forks another; both use semaphore 0 and lock 0. *)
Definition worker : list (ucall L) := [Acquire 0; P 0; Release 0].
Definition main : list (ucall L) := [Fork 1 worker; Yield; V 0; Acquire 0; P 1; Release 0].

(** Three threads that meet at barrier 0, two that wait for a semaphore, and one
    that broadcasts. *)
Definition meeting : list (ucall L) := [Fork 1 [BWait 0]; Fork 2 [BWait 0]; BWait 0].
Definition waiters : list (ucall L) := [Fork 1 [P 0]; Fork 2 [P 0]; Yield; V 0].
Definition caller : list (ucall L) := [Acquire 0; Broadcast 0 0].

Definition start (main : list (ucall L)) : Kernel unit L :=
  boot main tt (fun s => new_Semaphore (Z.of_nat s)) (fun _ => new_Lock)
    (fun _ => new_Condition) (fun _ => new_Mutex) (fun _ => new_Barrier 2).

Definition after (main : list (ucall L)) (n : nat) : list event * Kernel unit L :=
  outcome saved saved call removeResources n (start main).

Lemma after_runs main n :
  completes saved saved call removeResources n (start main) = true ->
  runs saved saved call removeResources irq (start main) (after main n).1 (after main n).2.
Proof. apply outcome_runs. Qed.

Lemma after_wf main n :
  completes saved saved call removeResources n (start main) = true -> wf (after main n).2.
Proof. intros H. eapply runs_wf, (after_runs main n H). apply boot_wf. Qed.

(** The current thread of a state. *)
Definition current_thread (k : Kernel unit L) : option (Thread L) := threads k !! currentThread k.

End Plain.

(** ** Witnesses *)

(** After twelve steps the worker holds lock 0 and was woken by the [V]. *)
Lemma kernel_correct_witness :
  let k := (Plain.after Plain.main 12).2 in
  readyList k = [1%nat] /\ NoDup (readyList k) /\
  exists es' k', step Plain.saved Plain.saved Plain.call Plain.removeResources k = Ok (es', k').
Proof.
  intros k.
  destruct (kernel_correct Plain.saved Plain.saved Plain.call Plain.removeResources Plain.irq
    Plain.main tt (fun s => new_Semaphore (Z.of_nat s)) (fun _ => new_Lock) (fun _ => new_Condition)
    (fun _ => new_Mutex) (fun _ => new_Barrier 2) (Plain.after Plain.main 12).1 k)
    as (Hstep & _ & Hnd & _).
  - apply Plain.after_runs. by vm_compute.
  - split; [by vm_compute|]. split; [exact Hnd|].
    destruct Hstep as [H|[(th & Hth & Hf)|(th & s & Hth & Hf & _)]]; [exact H|exfalso..].
    + vm_compute in Hth. injection Hth as <-. exact Hf.
    + vm_compute in Hth. injection Hth as <-. discriminate Hf.
Defined.

Lemma semaphore_correct_witness :
  value (sems (Plain.after Plain.main 18).2 0%nat) = 0 /\
  occurs (EvV 0) (Plain.after Plain.main 18).1 = 1 /\
  occurs (EvP 0) (Plain.after Plain.main 18).1 <=
    0 + occurs (EvV 0) (Plain.after Plain.main 18).1.
Proof.
  split; [by vm_compute|]. split; [by vm_compute|].
  apply (semaphore_correct Plain.saved Plain.saved Plain.call Plain.removeResources Plain.irq
    (Plain.start Plain.main) (Plain.after Plain.main 18).1 (Plain.after Plain.main 18).2 0%nat).
  - apply Plain.after_runs. by vm_compute.
  - apply creates_false. by vm_compute.
  - by vm_compute.
  - by vm_compute.
Defined.

(** Two threads wait, one [V] was done. *)
Lemma semaphore_no_lost_wakeup_witness :
  let k := (Plain.after Plain.waiters 14).2 in
  value (sems k 0%nat) = 1 /\ queue k (QSem 0) = [2%nat] /\
  exists W, NoDup W /\ 1 <= Z.of_nat (length W) /\
    forall t, t ∈ W -> ~ (t ∈ queue k (QSem 0)) /\
      exists th, threads k !! t = Some th /\ at_sem 0 (code th) /\
        (status th = RUNNING \/ status th = READY).
Proof.
  intros k. split; [by vm_compute|]. split; [by vm_compute|].
  apply (semaphore_no_lost_wakeup Plain.saved Plain.saved Plain.call Plain.removeResources Plain.irq
    Plain.waiters tt (fun s => new_Semaphore (Z.of_nat s)) (fun _ => new_Lock) (fun _ => new_Condition)
    (fun _ => new_Mutex) (fun _ => new_Barrier 2) [] (Plain.start Plain.waiters)
    (Plain.after Plain.waiters 14).1 k 0%nat).
  - apply runs_refl.
  - done.
  - apply Plain.after_runs. by vm_compute.
  - apply creates_false. by vm_compute.
  - by vm_compute.
  - by vm_compute.
  - by vm_compute.
Defined.

Lemma lock_correct_witness :
  (Plain.after Plain.main 26).1 =
    [EvAcquire 0 1; EvV 0; EvP 0; EvRelease 0 1; EvAcquire 0 0] /\
  (exists v, EvRelease 0 v ∈ [EvV 0; EvP 0; EvRelease 0 1]) /\
  owner (locks (Plain.after Plain.main 26).2 0%nat) = Some 0%nat.
Proof.
  destruct (lock_correct Plain.saved Plain.saved Plain.call Plain.removeResources Plain.irq
    (Plain.start Plain.main) (Plain.after Plain.main 26).1 (Plain.after Plain.main 26).2 0%nat)
    as (H1 & _ & H3).
  - apply Plain.after_runs. by vm_compute.
  - apply creates_false. by vm_compute.
  - done.
  - split; [by vm_compute|]. split.
    + apply (H1 [] [EvV 0; EvP 0; EvRelease 0 1] [] 1%nat 0%nat). by vm_compute.
    + apply H3. by vm_compute.
Defined.

(** The third thread at the barrier finds two waiting. *)
Lemma barrier_correct_witness :
  let k := (Plain.after Plain.meeting 8).2 in
  queue k (QBarrier 0) = [0%nat; 1%nat] /\
  exists k' th', step Plain.saved Plain.saved Plain.call Plain.removeResources k = Ok ([], k') /\
    wf k' /\ threads k' !! currentThread k = Some th' /\
    code th' = [BWait_end 0 IntOff] /\ readyList k' = [0%nat; 1%nat].
Proof.
  intros k. split; [by vm_compute|].
  destruct (Plain.current_thread k) as [th|] eqn:Hth; [|by vm_compute in Hth].
  assert (code th = [Do (BWait 0)]) as Hc by (by vm_compute in Hth; injection Hth as <-).
  destruct (barrier_correct Plain.saved Plain.saved Plain.call Plain.removeResources
    0 [] th k) as (k' & th' & Hk & Hw & Ht & H).
  - apply Plain.after_wf. by vm_compute.
  - exact Hth.
  - exact Hc.
  - split; vm_compute; reflexivity.
  - split; vm_compute; discriminate.
  - exists k', th'. split; [exact Hk|]. split; [exact Hw|]. split; [exact Ht|].
    assert ((count (barriers k 0%nat) <? size (barriers k 0%nat)) = false) as Hlast
      by (vm_compute; reflexivity).
    rewrite Hlast in H. destruct H as (H1 & H2 & _). split; [exact H1|].
    rewrite H2. vm_compute. reflexivity.
Defined.

(** The holder of lock 0 broadcasts to nobody. *)
Lemma broadcast_correct_witness :
  let k := (Plain.after Plain.caller 3).2 in
  exists k' th',
    steps Plain.saved Plain.saved Plain.call Plain.removeResources (1 + 3 * 5) k = Ok ([], k') /\
    threads k' !! currentThread k' = Some th' /\ code th' = [Broadcast_loop 0 0].
Proof.
  intros k. destruct (Plain.current_thread k) as [th|] eqn:Hth; [|by vm_compute in Hth].
  apply (broadcast_correct Plain.saved Plain.saved Plain.call Plain.removeResources 0 0 [] th k).
  - exact Hth.
  - vm_compute in Hth. injection Hth as <-. reflexivity.
  - vm_compute. reflexivity.
  - vm_compute. reflexivity.
Defined.

End Threads.
