(* ===== verification/Syscall.v ===== *)
(** userprog/exception.cc, userprog/progtest.cc, and the parts of threads/thread.cc
    and threads/scheduler.cc for user programs: system calls.

    Module [Syscall] is a client of the kernel of Synch.v.  The state [OS] holds
    what the handlers share: the machine and the page map, the control tables, the
    user state of each thread, and the operating system of the host (class [UNIX]).
    A handler runs up to its first kernel call; it returns that call and, as the
    [code] of the thread, what is left to do after it.  User programs run between
    two exceptions as the parameter [user]. *)

From S2P Require Import Prelude BitMap OSTable MachineState AddrSpace.
From S2P Require Import Synch.

(** ** The host

    The calls of UNIX the handlers make: a status and, for [read], the bytes.
    [family] is whether [getsockname] says AF_INET6, [inet_pton] gives a status and
    the bytes of the address. *)
Class UNIX (U : Type) := {
  creat : list Z -> U -> Z * U;
  open : list Z -> U -> Z * U;
  read : Z -> Z -> U -> Z * list Z * U;
  write : Z -> list Z -> U -> Z * U;
  close : Z -> U -> Z * U;
  printf : list Z -> U -> U;
  fprintf_stderr : Z -> U -> U;
  socket : bool -> bool -> U -> Z * U;
  family : Z -> U -> bool;
  inet_pton : bool -> list Z -> Z * list Z;
  connect : Z -> bool -> list Z -> Z -> Z -> U -> Z * U;
  bind_ : Z -> bool -> Z -> Z -> U -> Z * U;
  listen : Z -> Z -> U -> Z * U;
  accept : Z -> U -> Z * U;
  shutdown : Z -> Z -> U -> Z * U
}.

Module Syscall.

Import Machine Threads.

#[local] Abbreviation Space := AddrSpace.AddrSpace.
#[local] Abbreviation Table := ControlTable.ControlTable.

Definition BUFFER_SIZE : Z := 1000.
Definition AF_INET_NachOS : Z := 0.
Definition AF_INET6_NachOS : Z := 1.
Definition SOCK_STREAM_NachOS : Z := 0.
Definition SOCK_DGRAM_NachOS : Z := 1.
Definition ConsoleInput : Z := 0.
Definition ConsoleOutput : Z := 1.
Definition ConsoleError : Z := 2.

(** The mutex [canAccessConsole]. *)
Definition canAccessConsole : nat := 0.

(** The tables of objects with a name: their pointers are names or NULL. *)
Inductive kind := KThread | KSem | KLock | KCond.

#[export] Instance kind_eq_dec : EqDecision kind.
Proof. solve_decision. Defined.

(** What is left of a thread's code after a kernel call. *)
Inductive code :=
  | Run                                       (* machine->Run() *)
  | NachOSForkThread (addr : Z)
  | execProcess
  | getNextInstruction
  | RETURN (t : Z)
  | Created (kd : kind) (object : nat)        (* the table's Open, after a constructor *)
  | Destroyed (kd : kind) (id : Z)            (* the table's Close, after a destructor *)
  | Write_locked (buffer_addr size fd : Z)
  | Read_locked (buffer_addr size fd : Z)
  | Exec_end (newThread : nat) (status : Z).  (* the end of the block of argv *)

(** The fields of [Thread] for user programs; a pointer to a table is its
    location. *)
Record UThread := mkUThread {
  userRegisters : list Z;
  space : option Space;
  fileTable : option nat;
  table : kind -> option nat
}.

(** [*p]; NULL is [None]. *)
Definition deref {A} (p : option A) : res A :=
  match p with Some a => Ok a | None => UB end.

Section os.
Context {E D U : Type} `{!Executable E D} `{!UNIX U}.
Context (read_header : list Z -> AddrSpace.NoffHeader) (sizeof_header NOFFMAGIC : Z).

(** [fileSystem->Open(name)]; NULL is [None]. *)
Context (fileSystem_Open : list Z -> D -> res (option E * D)).

(** What the user program of a thread does up to its next exception. *)
Context (user : nat -> Machine -> res (ExceptionType * Machine)).

(** What [new] leaves in memory: registers, objects and words. *)
Context (new_registers : list Z) (new_ints : list Z) (new_pointers : list (option nat))
  (new_words : list Z).

#[local] Abbreviation World := (AddrSpace.World (D := D)).

Record OS := mkOS {
  world : World;                           (* machine, page map, file system *)
  uthreads : gmap nat UThread;
  fileTables : gmap nat (Table Z);
  objectTables : kind -> gmap nat (Table (option nat));
  argv : gmap nat E;                       (* the argument arrays of Exec *)
  unix : U;
  numConsoleCharsWritten : Z;
  next : nat                               (* the next name for an object *)
}.

Definition set_world x (k : OS) : OS :=
  mkOS x (uthreads k) (fileTables k) (objectTables k) (argv k) (unix k)
    (numConsoleCharsWritten k) (next k).
Definition set_uthreads x (k : OS) : OS :=
  mkOS (world k) x (fileTables k) (objectTables k) (argv k) (unix k)
    (numConsoleCharsWritten k) (next k).
Definition set_files x (k : OS) : OS :=
  mkOS (world k) (uthreads k) x (objectTables k) (argv k) (unix k)
    (numConsoleCharsWritten k) (next k).
Definition set_objects kd x (k : OS) : OS :=
  mkOS (world k) (uthreads k) (fileTables k)
    (fun kd' : kind => if decide (kd' = kd) then x else objectTables k kd') (argv k) (unix k)
    (numConsoleCharsWritten k) (next k).
Definition set_argv x (k : OS) : OS :=
  mkOS (world k) (uthreads k) (fileTables k) (objectTables k) x (unix k)
    (numConsoleCharsWritten k) (next k).
Definition set_unix x (k : OS) : OS :=
  mkOS (world k) (uthreads k) (fileTables k) (objectTables k) (argv k) x
    (numConsoleCharsWritten k) (next k).
Definition set_written x (k : OS) : OS :=
  mkOS (world k) (uthreads k) (fileTables k) (objectTables k) (argv k) (unix k) x (next k).

(** A name for a new object. *)
Definition allocate (k : OS) : nat * OS :=
  (next k, mkOS (world k) (uthreads k) (fileTables k) (objectTables k) (argv k) (unix k)
             (numConsoleCharsWritten k) (S (next k))).

Definition the_machine (k : OS) : Machine := AddrSpace.machine (world k).
Definition set_machine (m : Machine) (k : OS) : OS :=
  set_world (AddrSpace.set_machine m (world k)) k.

(** *** Pointers *)
Definition get_uthread (t : nat) (k : OS) : res UThread := deref (uthreads k !! t).

Definition get_files (t : nat) (k : OS) : res (nat * Table Z) :=
  th ← get_uthread t k; l ← deref (fileTable th);
  tb ← deref (fileTables k !! l); Ok (l, tb).

Definition get_objects (kd : kind) (t : nat) (k : OS) : res (nat * Table (option nat)) :=
  th ← get_uthread t k; l ← deref (table th kd);
  tb ← deref (objectTables k kd !! l); Ok (l, tb).

(** *** The methods of the tables of a thread *)
Definition file_isOpened (fd : Z) (t : nat) (k : OS) : res bool :=
  '(_, tb) ← get_files t k; ControlTable.isOpened fd tb.

Definition file_getObject (fd : Z) (t : nat) (k : OS) : res Z :=
  '(_, tb) ← get_files t k; o ← ControlTable.getObject fd tb; deref o.

Definition file_Open (object : Z) (t : nat) (k : OS) : res (Z * OS) :=
  '(l, tb) ← get_files t k; '(id, tb) ← ControlTable.Open object tb;
  Ok (id, set_files (<[l := tb]> (fileTables k)) k).

Definition file_Close (fd : Z) (t : nat) (k : OS) : res (option Z * OS) :=
  '(l, tb) ← get_files t k; '(o, tb) ← ControlTable.Close 0 fd tb;
  Ok (o, set_files (<[l := tb]> (fileTables k)) k).

Definition isOpened (kd : kind) (id : Z) (t : nat) (k : OS) : res bool :=
  '(_, tb) ← get_objects kd t k; ControlTable.isOpened id tb.

(** The object is used: NULL is dereferenced. *)
Definition getObject (kd : kind) (id : Z) (t : nat) (k : OS) : res nat :=
  '(_, tb) ← get_objects kd t k; o ← ControlTable.getObject id tb; p ← deref o; deref p.

Definition Open (kd : kind) (object : nat) (t : nat) (k : OS) : res (Z * OS) :=
  '(l, tb) ← get_objects kd t k; '(id, tb) ← ControlTable.Open (Some object) tb;
  Ok (id, set_objects kd (<[l := tb]> (objectTables k kd)) k).

Definition Close (kd : kind) (id : Z) (t : nat) (k : OS) : res OS :=
  '(l, tb) ← get_objects kd t k; '(_, tb) ← ControlTable.Close None id tb;
  Ok (set_objects kd (<[l := tb]> (objectTables k kd)) k).

(** ** Registers and user memory *)
Definition READ_PARAM (t : Z) (k : OS) : res Z := ReadRegister (t + 3) (the_machine k).

Definition write_register (r v : Z) (k : OS) : res OS :=
  m ← WriteRegister r v (the_machine k); Ok (set_machine m k).

Definition do_RETURN (t : Z) (k : OS) : res OS := write_register 2 t k.

Definition advance_pc (k : OS) : res OS :=
  pc ← ReadRegister PCReg (the_machine k);
  k ← write_register PrevPCReg pc k;
  npc ← ReadRegister NextPCReg (the_machine k);
  k ← write_register PCReg npc k;
  npc ← ReadRegister NextPCReg (the_machine k);
  write_register NextPCReg (s32 (npc + 4)) k.

(** [while (!machine->ReadMem(addr, 1, &value))]: an exception goes to
    [ExceptionHandler], which stops the kernel, or returns from a page fault without
    doing anything; then the loop never ends. *)
Definition user_ReadMem (addr : Z) (m : Machine) : res (Z * Machine) :=
  o ← Translate addr 1 false m;
  match o with
  | inr (physAddr, m) => v ← load physAddr 1 m; Ok (v, m)
  | inl PageFaultException => NoFuel
  | inl _ => Abort
  end.

Definition user_WriteMem (addr value : Z) (m : Machine) : res Machine :=
  o ← Translate addr 1 true m;
  match o with
  | inr (physAddr, m) => store physAddr 1 value m
  | inl PageFaultException => NoFuel
  | inl _ => Abort
  end.

(** The loop of [ReadMem]: the bytes from [addr] on, up to a zero. *)
Fixpoint read_bytes (n : nat) (addr : Z) (m : Machine) : res (list Z * Machine) :=
  match n with
  | O => Ok ([], m)
  | S n =>
      '(value, m) ← user_ReadMem addr m;
      let c := u8 value in
      if c =? 0 then Ok ([c], m)
      else '(cs, m) ← read_bytes n (addr + 1) m; Ok (c :: cs, m)
  end.

(** [ReadMem], and [ReadMemSTR], which is the same code: the bytes of [dest].
    [memset] with a negative size is undefined. *)
Definition ReadMem (addr bytes : Z) (m : Machine) : res (list Z * Machine) :=
  if bytes <? 0 then UB
  else
    '(cs, m) ← read_bytes (Z.to_nat (s32 (addr + bytes) - addr)) addr m;
    Ok (cs ++ replicate (Z.to_nat bytes - length cs) 0, m).

Definition ReadMemSTR (addr bytes : Z) (m : Machine) : res (list Z * Machine) :=
  if bytes <? 0 then UB
  else
    '(cs, m) ← read_bytes (Z.to_nat (s32 (addr + bytes) - addr)) addr m;
    Ok (cs ++ replicate (Z.to_nat bytes - length cs) 0, m).

Fixpoint write_bytes (n : nat) (addr : Z) (src : list Z) (m : Machine) : res Machine :=
  match n with
  | O => Ok m
  | S n =>
      match src with
      | [] => UB
      | c :: src => m ← user_WriteMem addr c m; write_bytes n (addr + 1) src m
      end
  end.

Definition WriteMem (addr bytes : Z) (src : list Z) (m : Machine) : res Machine :=
  write_bytes (Z.to_nat (s32 (addr + bytes) - addr)) addr src m.

(** A [char] array as a C string; without a zero it is read past its end. *)
Fixpoint c_string (l : list Z) : res (list Z) :=
  match l with
  | [] => UB
  | c :: l => if c =? 0 then Ok [] else s ← c_string l; Ok (c :: s)
  end.

(** The name a register points to. *)
Definition read_name (addr : Z) (k : OS) : res (list Z * OS) :=
  '(buffer, m) ← ReadMemSTR addr BUFFER_SIZE (the_machine k);
  name ← c_string buffer; Ok (name, set_machine m k).

(** ** thread.cc and scheduler.cc: the state of a user program *)
Definition SaveUserState (m : Machine) : res (list Z) :=
  for_range (Z.to_nat NumTotalRegs) 0
    (fun i regs => v ← ReadRegister i m; Ok (regs ++ [v])) [].

Definition RestoreUserState (regs : list Z) (m : Machine) : res Machine :=
  for_range (Z.to_nat NumTotalRegs) 0
    (fun i m => v ← zget regs i; WriteRegister i v m) m.

(** What [Scheduler::Run] does before and after SWITCH for a thread with a
    space. *)
Definition save_thread (t : nat) (k : OS) : res OS :=
  match uthreads k !! t with
  | Some (mkUThread _ (Some s) f tb) =>
      regs ← SaveUserState (the_machine k);
      let k := set_uthreads (<[t := mkUThread regs (Some s) f tb]> (uthreads k)) k in
      Ok (set_machine (AddrSpace.SaveState s (the_machine k)) k)
  | _ => Ok k
  end.

Definition restore_thread (t : nat) (k : OS) : res OS :=
  match uthreads k !! t with
  | Some (mkUThread regs (Some s) _ _) =>
      m ← RestoreUserState regs (the_machine k);
      Ok (set_machine (AddrSpace.RestoreState s m) k)
  | _ => Ok k
  end.

(** They do not fail on a machine with its 40 registers. *)
Definition total (f : nat -> OS -> res OS) (t : nat) (k : OS) : OS :=
  match f t k with Ok k' => k' | _ => k end.

Definition SaveState := total save_thread.
Definition RestoreState := total restore_thread.

(** [new Thread(name)] *)
Definition new_Thread (k : OS) : nat * OS :=
  let '(t, k) := allocate k in
  (t, set_uthreads (<[t := mkUThread new_registers None None (fun _ => None)]> (uthreads k)) k).

Definition set_space (t : nat) (s : option Space) (k : OS) : res OS :=
  th ← get_uthread t k;
  Ok (set_uthreads (<[t := mkUThread (userRegisters th) s (fileTable th) (table th)]>
        (uthreads k)) k).

(** ** Common functions *)
Definition add_file_user (src dst : nat) (k : OS) : res OS :=
  '(l, tb) ← get_files src k;
  th ← get_uthread dst k;
  Ok (set_files (<[l := ControlTable.addThread tb]> (fileTables k))
       (set_uthreads (<[dst := mkUThread (userRegisters th) (space th) (Some l) (table th)]>
          (uthreads k)) k)).

Definition add_object_user (kd : kind) (src dst : nat) (k : OS) : res OS :=
  '(l, tb) ← get_objects kd src k;
  th ← get_uthread dst k;
  let tbs := fun kd' => if decide (kd' = kd) then Some l else table th kd' in
  Ok (set_objects kd (<[l := ControlTable.addThread tb]> (objectTables k kd))
       (set_uthreads (<[dst := mkUThread (userRegisters th) (space th) (fileTable th) tbs]>
          (uthreads k)) k)).

Definition ShareResources (src dst : nat) (k : OS) : res OS :=
  k ← add_file_user src dst k;
  k ← add_object_user KThread src dst k;
  k ← add_object_user KSem src dst k;
  k ← add_object_user KLock src dst k;
  add_object_user KCond src dst k.

(** [NachOSForkThread(addr)], up to [machine->Run()]. *)
Definition do_NachOSForkThread (addr : Z) (t : nat) (k : OS) : res OS :=
  th ← get_uthread t k;
  s ← deref (space th);
  m ← AddrSpace.InitRegisters s (the_machine k);
  let k := set_machine (AddrSpace.RestoreState s m) k in
  k ← write_register RetAddrReg 4 k;
  k ← write_register PCReg addr k;
  write_register NextPCReg (s32 (addr + 4)) k.

(** [execProcess(argv)]: the array is a variable of the thread that called
    [Exec]. *)
Definition load_program (executable : E) (t : nat) (k : OS) : res OS :=
  '(s, w) ← AddrSpace.new read_header sizeof_header NOFFMAGIC executable (world k);
  set_space t (Some s) (set_world w k).

Definition start_program (t : nat) (k : OS) : res OS :=
  th ← get_uthread t k;
  s ← deref (space th);
  m ← AddrSpace.InitRegisters s (the_machine k);
  Ok (set_machine (AddrSpace.RestoreState s m) k).

Definition do_execProcess (t : nat) (k : OS) : res OS :=
  executable ← deref (argv k !! t);
  k ← load_program executable t k;
  start_program t k.

(** ** removeResources (thread.cc) *)
Definition del_file_user (l : nat) (k : OS) : res OS :=
  tb ← deref (fileTables k !! l);
  Ok (set_files (<[l := ControlTable.delThread tb]> (fileTables k)) k).

Definition del_object_user (kd : kind) (l : nat) (k : OS) : res OS :=
  tb ← deref (objectTables k kd !! l);
  Ok (set_objects kd (<[l := ControlTable.delThread tb]> (objectTables k kd)) k).

(** [if (getThreadCount() == 0) delete table] *)
Definition drop_file_table (l : nat) (k : OS) : res OS :=
  tb ← deref (fileTables k !! l);
  if ControlTable.getThreadCount tb =? 0 then Ok (set_files (delete l (fileTables k)) k)
  else Ok k.

Definition drop_object_table (kd : kind) (l : nat) (k : OS) : res OS :=
  tb ← deref (objectTables k kd !! l);
  if ControlTable.getThreadCount tb =? 0 then Ok (set_objects kd (delete l (objectTables k kd)) k)
  else Ok k.

(** The thread has no space after it, and its tables are not its own any more: its
    entry is deleted, so that using them again is undefined. *)
Definition removeResources (t : nat) (k : OS) : res OS :=
  th ← get_uthread t k;
  '(_, tb) ← get_objects KThread t k;
  id ← ControlTable.getID (Some t) tb;
  k ← Close KThread id t k;
  lt ← deref (table th KThread); lf ← deref (fileTable th);
  ls ← deref (table th KSem); ll ← deref (table th KLock); lc ← deref (table th KCond);
  k ← del_object_user KThread lt k; k ← del_file_user lf k; k ← del_object_user KSem ls k;
  k ← del_object_user KLock ll k; k ← del_object_user KCond lc k;
  k ← drop_object_table KThread lt k; k ← drop_file_table lf k;
  k ← drop_object_table KSem ls k; k ← drop_object_table KLock ll k;
  k ← drop_object_table KCond lc k;
  k ← match space th with
      | Some s => w ← AddrSpace.destroy s (world k); Ok (set_world w k)
      | None => Ok k
      end;
  Ok (set_uthreads (delete t (uthreads k)) k).

(** ** System calls

    A handler of the thread [t] gives the new state and the kernel calls it goes on
    with. *)
Definition handler : Type := nat -> OS -> res (OS * list (ucall code)).

(** Return [status] at once, or after a kernel call. *)
Definition return_now (status : Z) (k : OS) : res (OS * list (ucall code)) :=
  k ← do_RETURN status k; Ok (k, []).

Definition then_return (u : ucall code) (status : Z) (k : OS) : res (OS * list (ucall code)) :=
  Ok (k, [u; Call (RETURN status)]).

Definition NachOS_Halt : handler := fun t k => Exit 0.

(** [Finish] does not return. *)
Definition NachOS_Exit : handler := fun t k =>
  status ← READ_PARAM 1 k; Ok (k, [Yield; Finish]).

Definition NachOS_Exec : handler := fun t k =>
  addr ← READ_PARAM 1 k;
  '(programName, k) ← read_name addr k;
  '(executable, d) ← fileSystem_Open programName (AddrSpace.disk (world k));
  let w := world k in
  let k := set_world (AddrSpace.mkWorld (AddrSpace.machine w) (AddrSpace.physicalPageMap w)
             (AddrSpace.numDiskReads w) d) k in
  match executable with
  | Some e =>
      let '(newThread, k) := new_Thread k in
      '(status, k) ← Open KThread newThread t k;
      k ← ShareResources t newThread k;
      let k := set_argv (<[newThread := e]> (argv k)) k in
      Ok (k, [Fork newThread [Call execProcess]; Call (Exec_end newThread status)])
  | None => return_now (-1) k
  end.

Definition NachOS_Join : handler := fun t k =>
  thread_id ← READ_PARAM 1 k;
  o ← isOpened KThread thread_id t k;
  if (o : bool) then
    thread ← getObject KThread thread_id t k;
    let '(s, k) := allocate k in
    then_return (Join thread s) (-1) k
  else return_now (-1) k.

Definition NachOS_Create : handler := fun t k =>
  addr ← READ_PARAM 1 k;
  '(name, k) ← read_name addr k;
  let '(fd, u) := creat name (unix k) in
  return_now fd (set_unix u k).

Definition NachOS_Open : handler := fun t k =>
  addr ← READ_PARAM 1 k;
  '(name, k) ← read_name addr k;
  let '(fd, u) := open name (unix k) in
  let k := set_unix u k in
  if negb (fd =? -1) then '(fd, k) ← file_Open fd t k; return_now fd k
  else return_now fd k.

(** [canAccessConsole->Lock()] comes before the rest. *)
Definition NachOS_Write : handler := fun t k =>
  buffer_addr ← READ_PARAM 1 k; size ← READ_PARAM 2 k; fd ← READ_PARAM 3 k;
  Ok (k, [MLock canAccessConsole; Call (Write_locked buffer_addr size fd)]).

Definition write_file (fd size : Z) (buffer : list Z) (buffer_addr : Z) (k : OS) : res (Z * OS) :=
  if fd =? ConsoleOutput then
    s ← c_string buffer;
    Ok (0, set_written (s32 (numConsoleCharsWritten k + (size + 1))) (set_unix (printf s (unix k)) k))
  else if fd =? ConsoleError then
    Ok (0, set_unix (fprintf_stderr buffer_addr (unix k)) k)
  else
    let '(status, u) := write fd (take (Z.to_nat size) buffer) (unix k) in
    Ok (status, set_unix u k).

(** The test [fd != ConsoleInput && isOpened(fd)]. *)
Definition may_write (fd : Z) (t : nat) (k : OS) : res bool :=
  if fd =? ConsoleInput then Ok false else file_isOpened fd t k.

(** The buffer has [size + 1] bytes, the last one zero. *)
Definition do_write (buffer_addr size fd : Z) (t : nat) (k : OS) : res (Z * OS) :=
  ok ← may_write fd t k;
  if (ok : bool) then
    '(buffer, m) ← ReadMem buffer_addr size (the_machine k);
    let k := set_machine m k in
    fd ← file_getObject fd t k;
    write_file fd size (buffer ++ [0]) buffer_addr k
  else Ok (-1, k).

Definition NachOS_Write_locked (buffer_addr size fd : Z) : handler := fun t k =>
  '(status, k) ← do_write buffer_addr size fd t k;
  then_return (MUnlock canAccessConsole) status k.

Definition NachOS_Read : handler := fun t k =>
  buffer_addr ← READ_PARAM 1 k; size ← READ_PARAM 2 k; fd ← READ_PARAM 3 k;
  Ok (k, [MLock canAccessConsole; Call (Read_locked buffer_addr size fd)]).

Definition may_read (fd : Z) (t : nat) (k : OS) : res bool :=
  if (fd =? ConsoleOutput) || (fd =? ConsoleError) then Ok false else file_isOpened fd t k.

(** [READ_PARAM(3)] is read again after the host's [read]. *)
Definition do_read (buffer_addr size fd : Z) (t : nat) (k : OS) : res (Z * OS) :=
  ok ← may_read fd t k;
  if (ok : bool) then
    (if size <? 0 then UB else Ok tt);;
    fd ← file_getObject fd t k;
    let '(status, bytes, u) := read fd size (unix k) in
    let k := set_unix u k in
    if negb (status =? -1) then
      p3 ← READ_PARAM 3 k;
      let k := if p3 =? ConsoleInput then
                 set_written (s32 (numConsoleCharsWritten k + status)) k else k in
      m ← WriteMem buffer_addr status bytes (the_machine k);
      Ok (status, set_machine m k)
    else Ok (status, k)
  else Ok (-1, k).

Definition NachOS_Read_locked (buffer_addr size fd : Z) : handler := fun t k =>
  '(status, k) ← do_read buffer_addr size fd t k;
  then_return (MUnlock canAccessConsole) status k.

Definition NachOS_Close : handler := fun t k =>
  fd ← READ_PARAM 1 k;
  o ← file_isOpened fd t k;
  if (o : bool) then
    ufd ← file_getObject fd t k;
    let '(_, u) := close ufd (unix k) in
    '(object, k) ← file_Close fd t (set_unix u k);
    status ← deref object;
    return_now status k
  else return_now (-1) k.

(** No value is returned; the result of the table's [Open] is not used. *)
Definition NachOS_Fork : handler := fun t k =>
  let '(newThread, k) := new_Thread k in
  th ← get_uthread t k;
  father ← deref (space th);
  '(s, w) ← AddrSpace.copy father (world k);
  k ← set_space newThread (Some s) (set_world w k);
  '(_, k) ← Open KThread newThread t k;
  k ← ShareResources t newThread k;
  addr ← READ_PARAM 1 k;
  Ok (k, [Fork newThread [Call (NachOSForkThread addr)]]).

Definition NachOS_Yield : handler := fun t k => Ok (k, [Yield]).

(** Semaphores, locks and condition variables. *)
Definition object_of (kd : kind) (o : nat) : qid :=
  match kd with KLock => QLock o | KCond => QCond o | _ => QSem o end.

(** [new], then the table's [Open], then RETURN. *)
Definition create_object (kd : kind) (v : Z) : handler := fun t k =>
  let '(o, k) := allocate k in
  Ok (k, [New (object_of kd o) v; Call (Created kd o)]).

Definition NachOS_Created (kd : kind) (o : nat) : handler := fun t k =>
  '(id, k) ← Open kd o t k; return_now id k.

(** [delete getObject(id)], then the table's [Close], then RETURN. *)
Definition destroy_object (kd : kind) : handler := fun t k =>
  id ← READ_PARAM 1 k;
  o ← isOpened kd id t k;
  if (o : bool) then
    object ← getObject kd id t k;
    Ok (k, [Delete (object_of kd object); Call (Destroyed kd id)])
  else return_now (-1) k.

Definition NachOS_Destroyed (kd : kind) (id : Z) : handler := fun t k =>
  k ← Close kd id t k; return_now 0 k.

(** A call of a method of the object with the identifier of the parameter. *)
Definition call_object (kd : kind) (method : nat -> ucall code) : handler := fun t k =>
  id ← READ_PARAM 1 k;
  o ← isOpened kd id t k;
  if (o : bool) then object ← getObject kd id t k; then_return (method object) 0 k
  else return_now (-1) k.

Definition NachOS_SemCreate : handler := fun t k =>
  v ← READ_PARAM 1 k; create_object KSem v t k.
Definition NachOS_SemDestroy : handler := destroy_object KSem.
Definition NachOS_SemSignal : handler := call_object KSem V.
Definition NachOS_SemWait : handler := call_object KSem P.

Definition NachOS_LockCreate : handler := create_object KLock 0.
Definition NachOS_LockDestroy : handler := destroy_object KLock.
Definition NachOS_LockAcquire : handler := call_object KLock Acquire.
Definition NachOS_LockRelease : handler := call_object KLock Release.

Definition NachOS_CondCreate : handler := create_object KCond 0.
Definition NachOS_CondDestroy : handler := destroy_object KCond.

(** [condTable->isOpened(cond_id) && lockTable->isOpened(lock_id)] *)
Definition call_condition (method : nat -> nat -> ucall code) : handler := fun t k =>
  cond_id ← READ_PARAM 1 k;
  lock_id ← READ_PARAM 2 k;
  oc ← isOpened KCond cond_id t k;
  if (oc : bool) then
    ol ← isOpened KLock lock_id t k;
    if (ol : bool) then
      lock ← getObject KLock lock_id t k;
      cond ← getObject KCond cond_id t k;
      then_return (method cond lock) 0 k
    else return_now (-1) k
  else return_now (-1) k.

Definition NachOS_CondSignal : handler := call_condition Signal.
Definition NachOS_CondWait : handler := call_condition Wait.
Definition NachOS_CondBroadcast : handler := call_condition Broadcast.

(** *** Sockets *)
Definition htons (port : Z) : Z := (port mod 256) * 256 + (port / 256) mod 256.
Definition sizeof_sockaddr_in : Z := 16.
Definition sizeof_sockaddr_in6 : Z := 28.

(** The characters of a literal. *)
Definition localhost : list Z := [108; 111; 99; 97; 108; 104; 111; 115; 116].
Definition loopback : list Z := [49; 50; 55; 46; 48; 46; 48; 46; 49].

Definition NachOS_Socket : handler := fun t k =>
  family ← READ_PARAM 1 k;
  type ← READ_PARAM 2 k;
  if ((family =? AF_INET_NachOS) || (family =? AF_INET6_NachOS)) &&
     ((type =? SOCK_DGRAM_NachOS) || (type =? SOCK_STREAM_NachOS))
  then
    let '(socket_id, u) :=
      socket (negb (family =? AF_INET_NachOS)) (negb (type =? SOCK_DGRAM_NachOS)) (unix k) in
    let k := set_unix u k in
    if negb (socket_id =? -1) then '(status, k) ← file_Open socket_id t k; return_now status k
    else return_now (-1) k
  else return_now (-1) k.

(** The address is the one [inet_pton] wrote, over zeros. *)
Definition NachOS_Connect : handler := fun t k =>
  socketFD ← READ_PARAM 1 k; addrHost ← READ_PARAM 2 k; port ← READ_PARAM 3 k;
  '(host, k) ← read_name addrHost k;
  let host := if decide (host = localhost) then loopback else host in
  o ← file_isOpened socketFD t k;
  if (o : bool) then
    fd ← file_getObject socketFD t k;
    let v6 := family fd (unix k) in
    let '(status, address) := inet_pton v6 host in
    if negb (status =? -1) then
      let '(status, u) := connect fd v6 address (htons port)
            (if v6 then sizeof_sockaddr_in6 else sizeof_sockaddr_in) (unix k) in
      return_now status (set_unix u k)
    else return_now status k
  else return_now 0 k.

(** Both families give [bind] the size of the IPv4 address. *)
Definition NachOS_Bind : handler := fun t k =>
  socketFD ← READ_PARAM 1 k; port ← READ_PARAM 2 k;
  o ← file_isOpened socketFD t k;
  if (o : bool) then
    fd ← file_getObject socketFD t k;
    let v6 := family fd (unix k) in
    let len := if v6 then sizeof_sockaddr_in else sizeof_sockaddr_in in
    let '(status, u) := bind_ fd v6 (htons port) len (unix k) in
    return_now status (set_unix u k)
  else return_now (-1) k.

Definition NachOS_Listen : handler := fun t k =>
  socketFD ← READ_PARAM 1 k; numConnection ← READ_PARAM 2 k;
  o ← file_isOpened socketFD t k;
  if (o : bool) then
    fd ← file_getObject socketFD t k;
    let '(status, u) := listen fd numConnection (unix k) in
    return_now status (set_unix u k)
  else return_now (-1) k.

Definition NachOS_Accept : handler := fun t k =>
  socketFD ← READ_PARAM 1 k;
  o ← file_isOpened socketFD t k;
  if (o : bool) then
    fd ← file_getObject socketFD t k;
    let '(status, u) := accept fd (unix k) in
    let k := set_unix u k in
    if negb (status =? -1) then '(status, k) ← file_Open status t k; return_now status k
    else return_now status k
  else return_now (-1) k.

(** [Close] is called with the descriptor of the host. *)
Definition NachOS_Shutdown : handler := fun t k =>
  socket ← READ_PARAM 1 k; how ← READ_PARAM 2 k;
  o ← file_isOpened socket t k;
  if (o : bool) then
    socket ← file_getObject socket t k;
    let '(status, u) :=
      if negb (socket =? -1) then shutdown socket how (unix k) else (-1, unix k) in
    '(_, k) ← file_Close socket t (set_unix u k);
    return_now status k
  else return_now (-1) k.

(** ** ExceptionHandler *)
Definition syscall (type : Z) : handler := fun t k =>
  match type with
  | 0 => NachOS_Halt t k
  | 1 => NachOS_Exit t k
  | 2 => NachOS_Exec t k
  | 3 => NachOS_Join t k
  | 4 => NachOS_Create t k
  | 5 => NachOS_Open t k
  | 6 => NachOS_Read t k
  | 7 => NachOS_Write t k
  | 8 => NachOS_Close t k
  | 9 => NachOS_Fork t k
  | 10 => NachOS_Yield t k
  | 11 => NachOS_SemCreate t k
  | 12 => NachOS_SemDestroy t k
  | 13 => NachOS_SemSignal t k
  | 14 => NachOS_SemWait t k
  | 15 => NachOS_LockCreate t k
  | 16 => NachOS_LockDestroy t k
  | 17 => NachOS_LockAcquire t k
  | 18 => NachOS_LockRelease t k
  | 19 => NachOS_CondCreate t k
  | 20 => NachOS_CondDestroy t k
  | 21 => NachOS_CondSignal t k
  | 22 => NachOS_CondWait t k
  | 23 => NachOS_CondBroadcast t k
  | 30 => NachOS_Socket t k
  | 31 => NachOS_Connect t k
  | 32 => NachOS_Bind t k
  | 33 => NachOS_Listen t k
  | 34 => NachOS_Accept t k
  | 35 => NachOS_Shutdown t k
  | _ => Abort                     (* ASSERT(false) *)
  end.

(** Without virtual memory a page fault does nothing. *)
Definition ExceptionHandler (which : ExceptionType) : handler := fun t k =>
  type ← ReadRegister 2 (the_machine k);
  match which with
  | SyscallException =>
      '(k, us) ← syscall type t k; Ok (k, us ++ [Call getNextInstruction])
  | PageFaultException => Ok (k, [])
  | _ => Abort
  end.

(** [machine->Run()]: the program runs to its next exception, the handler takes
    over, and the program goes on. *)
Definition do_Run : handler := fun t k =>
  '(which, m) ← user t (the_machine k);
  '(k, us) ← ExceptionHandler which t (set_machine m k);
  Ok (k, us ++ [Call Run]).

(** ** StartProcess (progtest.cc) *)
Definition new_file_table (k : OS) : res (nat * OS) :=
  tb ← ControlTable.new 0 4 new_ints new_words;
  let '(l, k) := allocate k in
  Ok (l, set_files (<[l := tb]> (fileTables k)) k).

Definition new_object_table (kd : kind) (k : OS) : res (nat * OS) :=
  tb ← ControlTable.new None 8 new_pointers new_words;
  let '(l, k) := allocate k in
  Ok (l, set_objects kd (<[l := tb]> (objectTables k kd)) k).

Definition new_tables (t : nat) (k : OS) : res OS :=
  th ← get_uthread t k;
  '(lf, k) ← new_file_table k;
  '(lt, k) ← new_object_table KThread k;
  '(ls, k) ← new_object_table KSem k;
  '(ll, k) ← new_object_table KLock k;
  '(lc, k) ← new_object_table KCond k;
  let tbs := fun kd =>
    Some (match kd with KThread => lt | KSem => ls | KLock => ll | KCond => lc end) in
  Ok (set_uthreads (<[t := mkUThread (userRegisters th) (space th) (Some lf) tbs]>
        (uthreads k)) k).

Definition StartProcess (filename : list Z) : handler := fun t k =>
  '(executable, d) ← fileSystem_Open filename (AddrSpace.disk (world k));
  let w := world k in
  let k := set_world (AddrSpace.mkWorld (AddrSpace.machine w) (AddrSpace.physicalPageMap w)
             (AddrSpace.numDiskReads w) d) k in
  match executable with
  | None => Ok (k, [])
  | Some e =>
      k ← load_program e t k;
      k ← new_tables t k;
      '(_, k) ← file_Open 0 t k;
      '(_, k) ← file_Open 1 t k;
      '(_, k) ← file_Open 2 t k;
      '(_, k) ← Open KThread t t k;
      k ← start_program t k;
      Ok (k, [Call Run])
  end.

(** ** The client of the kernel *)
Definition call (c : code) : handler := fun t k =>
  match c with
  | Run => do_Run t k
  | NachOSForkThread addr => k ← do_NachOSForkThread addr t k; Ok (k, [Call Run])
  | execProcess => k ← do_execProcess t k; Ok (k, [Call Run])
  | getNextInstruction => k ← advance_pc k; Ok (k, [])
  | RETURN status => return_now status k
  | Created kd o => NachOS_Created kd o t k
  | Destroyed kd id => NachOS_Destroyed kd id t k
  | Write_locked b s fd => NachOS_Write_locked b s fd t k
  | Read_locked b s fd => NachOS_Read_locked b s fd t k
  | Exec_end newThread status => return_now status (set_argv (delete newThread (argv k)) k)
  end.

(** The system started with -x: the main thread calls [StartProcess] and then
    [Finish]. *)
Definition initial (w : World) (u : U) : OS :=
  mkOS w {[ 0%nat := mkUThread new_registers None None (fun _ => None) ]} ∅ (fun _ => ∅) ∅ u 0 1.

Definition start (w : World) (u : U) (filename : list Z) : res (Kernel OS code) :=
  '(k, us) ← StartProcess filename 0%nat (initial w u);
  Ok (boot us k (fun _ => new_Semaphore 0) (fun _ => new_Lock) (fun _ => new_Condition)
        (fun _ => new_Mutex) (fun _ => new_Barrier 0)).

End os.

End Syscall.
