(* ===== verification/Processes.v ===== *)
(** The whole system: programs that run on the kernel of Synch.v through the system
    calls of Syscall.v.

    The theorems hold in every state that threads, time slices and device
    interrupts reach from the start of a program, for any programs and any host:
    the control tables of a process are shared by exactly the threads their counters
    say, and a thread finds its registers as it left them. *)

From S2P Require Import Prelude BitMap OSTable MachineState Interrupt AddrSpace Synch Syscall.

(** ** Counting the users of shared objects

    A map [M] of users, each with a pointer to an object of the heap [H] or none,
    and in each object a counter. *)
Module RefCount.
Section refcount.
Context {P T : Type} (ptr : P -> option nat) (usage : T -> Z).

Definition count (l : nat) (M : gmap nat P) : Z :=
  Z.of_nat (size (filter (fun p : nat * P => ptr p.2 = Some l) M)).

Definition one (l : nat) (u : P) : Z := if decide (ptr u = Some l) then 1 else 0.

(** Each object has users, and its counter is their number. *)
Definition counted (M : gmap nat P) (H : gmap nat T) : Prop :=
  forall l, match H !! l with
    | Some x => usage x = count l M /\ 0 < count l M
    | None => count l M = 0
    end.

Lemma count_insert l t u M : M !! t = None -> count l (<[t := u]> M) = count l M + one l u.
Proof.
  intros Ht. unfold count, one. destruct (decide (ptr u = Some l)) as [Hu|Hu].
  - rewrite map_filter_insert_True by done. rewrite map_size_insert_None; [lia|].
    apply map_lookup_filter_None. by left.
  - rewrite map_filter_insert_False by done. rewrite delete_id by done. lia.
Qed.

Lemma count_delete l t u M : M !! t = Some u -> count l (delete t M) = count l M - one l u.
Proof.
  intros Ht. rewrite <- (insert_delete_id M t u Ht) at 2.
  rewrite count_insert by apply lookup_delete_eq. lia.
Qed.

Lemma count_update l t u u' M :
  M !! t = Some u -> count l (<[t := u']> M) = count l M - one l u + one l u'.
Proof.
  intros Ht. rewrite <- insert_delete_eq, count_insert by apply lookup_delete_eq.
  by rewrite (count_delete l t u).
Qed.

Lemma count_empty l : count l ∅ = 0.
Proof. unfold count. by rewrite map_filter_empty, map_size_empty. Qed.

Lemma one_range l u : 0 <= one l u <= 1.
Proof. unfold one. case_decide; lia. Qed.

Lemma one_other l l' u : ptr u = Some l' -> l <> l' -> one l u = 0.
Proof. intros Hu Hne. unfold one. rewrite decide_False; congruence. Qed.

Lemma one_same l u : ptr u = Some l -> one l u = 1.
Proof. intros Hu. unfold one. by rewrite decide_True. Qed.

Lemma one_none l u : ptr u = None -> one l u = 0.
Proof. intros Hu. unfold one. rewrite decide_False; congruence. Qed.

Lemma count_used M t u l : M !! t = Some u -> ptr u = Some l -> 0 < count l M.
Proof.
  intros Ht Hu. pose proof (count_delete l t u M Ht) as Hd. rewrite (one_same l u Hu) in Hd.
  unfold count in *. lia.
Qed.

Lemma counted_empty M : (forall t u, M !! t = Some u -> ptr u = None) -> counted M ∅.
Proof.
  intros HM l. rewrite lookup_empty. unfold count.
  assert (filter (fun p : nat * P => ptr p.2 = Some l) M = ∅) as ->; [|by rewrite map_size_empty].
  apply map_empty. intros t. apply map_lookup_filter_None. right. intros u Ht. cbn.
  specialize (HM t u Ht). congruence.
Qed.

(** A pointer of a user is valid. *)
Lemma counted_valid M H t u l :
  counted M H -> M !! t = Some u -> ptr u = Some l -> exists x, H !! l = Some x.
Proof.
  intros HC Ht Hu. specialize (HC l). pose proof (count_used M t u l Ht Hu).
  destruct (H !! l) as [x|]; [by exists x|lia].
Qed.

(** A new user without an object. *)
Lemma counted_new M H t u :
  counted M H -> M !! t = None -> ptr u = None -> counted (<[t := u]> M) H.
Proof.
  intros HC Ht Hu l. specialize (HC l). rewrite count_insert, one_none by done.
  by rewrite Z.add_0_r.
Qed.

(** A user changes and keeps its pointer. *)
Lemma counted_same M H t u u' :
  counted M H -> M !! t = Some u -> ptr u' = ptr u -> counted (<[t := u']> M) H.
Proof.
  intros HC Ht Hu l. specialize (HC l). rewrite (count_update l t u) by done.
  assert (one l u' = one l u) as -> by (unfold one; by rewrite Hu).
  by rewrite Z.sub_add.
Qed.

(** A user shares an object. *)
Lemma counted_share M H t u u' l x x' :
  counted M H -> M !! t = Some u -> ptr u = None -> ptr u' = Some l ->
  H !! l = Some x -> usage x' = usage x + 1 -> counted (<[t := u']> M) (<[l := x']> H).
Proof.
  intros HC Ht Hu Hu' Hl Hx i. specialize (HC i). rewrite (count_update i t u), one_none by done.
  destruct (decide (i = l)) as [->|Hne].
  - rewrite lookup_insert_eq, one_same by done. rewrite Hl in HC. lia.
  - rewrite lookup_insert_ne, (one_other i l) by done. by rewrite Z.sub_0_r, Z.add_0_r.
Qed.

(** A user gets a new object. *)
Lemma counted_create M H t u u' l x :
  counted M H -> M !! t = Some u -> ptr u = None -> ptr u' = Some l ->
  H !! l = None -> usage x = 1 -> counted (<[t := u']> M) (<[l := x]> H).
Proof.
  intros HC Ht Hu Hu' Hl Hx i. specialize (HC i). rewrite (count_update i t u), one_none by done.
  destruct (decide (i = l)) as [->|Hne].
  - rewrite lookup_insert_eq, one_same by done. rewrite Hl in HC. lia.
  - rewrite lookup_insert_ne, (one_other i l) by done. by rewrite Z.sub_0_r, Z.add_0_r.
Qed.

(** A user leaves; its object goes with the last one. *)
Lemma counted_leave M H t u l x x' :
  counted M H -> M !! t = Some u -> ptr u = Some l -> H !! l = Some x ->
  usage x' = usage x - 1 ->
  counted (delete t M) (if usage x' =? 0 then delete l (<[l := x']> H) else <[l := x']> H).
Proof.
  intros HC Ht Hu Hl Hx i. specialize (HC i). rewrite (count_delete i t u) by done.
  destruct (decide (i = l)) as [->|Hne].
  - rewrite one_same by done. rewrite Hl in HC. destruct (Z.eqb_spec (usage x') 0).
    + rewrite lookup_delete_eq. lia.
    + rewrite lookup_insert_eq. lia.
  - rewrite (one_other i l) by done. rewrite Z.sub_0_r.
    destruct (usage x' =? 0); rewrite ?lookup_delete_ne, lookup_insert_ne by done; done.
Qed.

(** The objects change and keep their counters. *)
Lemma counted_usage M H H' :
  (forall l, usage <$> H' !! l = usage <$> H !! l) -> counted M H -> counted M H'.
Proof.
  intros HH HC l. specialize (HC l). specialize (HH l).
  destruct (H !! l), (H' !! l); simplify_eq/=; [|done]. by rewrite HH.
Qed.

(** The number of users bounds every counter. *)
Lemma count_bound l M n : (forall t u, M !! t = Some u -> (t < n)%nat) -> count l M <= Z.of_nat n.
Proof.
  intros HM. unfold count. assert (size (filter (fun p : nat * P => ptr p.2 = Some l) M) <= n)%nat; [|lia].
  rewrite <- size_dom. rewrite <- (size_set_seq (C := gset nat) 0 n).
  apply subseteq_size. intros t Ht. apply elem_of_dom in Ht as [u Hu].
  apply map_lookup_filter_Some in Hu as [Hu _]. apply elem_of_set_seq. specialize (HM t u Hu). lia.
Qed.

End refcount.
End RefCount.

Module Processes.

Import MachineState.Machine Threads Syscall RefCount.

#[local] Abbreviation Table := ControlTable.ControlTable.

(** *** The counters of tables *)
Lemma Open_usage {A} (x : A) tb id tb' :
  ControlTable.Open x tb = Ok (id, tb') -> ControlTable.usage tb' = ControlTable.usage tb.
Proof. unfold ControlTable.Open. intros H. res_inv. destruct a. res_inv. by simplify_eq. Qed.

Lemma Close_usage {A} (z : A) id tb o tb' :
  ControlTable.Close z id tb = Ok (o, tb') -> ControlTable.usage tb' = ControlTable.usage tb.
Proof. unfold ControlTable.Close. intros H. res_inv. destruct a0; res_inv; by simplify_eq. Qed.

Section system.
Context {E D U : Type} `{!Executable E D} `{!UNIX U}.
Context (read_header : list Z -> AddrSpace.NoffHeader) (sizeof_header NOFFMAGIC : Z).
Context (fileSystem_Open : list Z -> D -> res (option E * D)).
Context (user : nat -> Machine -> res (ExceptionType * Machine)).
Context (new_registers new_ints : list Z) (new_pointers : list (option nat)) (new_words : list Z).

#[local] Abbreviation OS := (@OS E D U).
#[local] Abbreviation call := (@call E D U _ _ read_header sizeof_header NOFFMAGIC
  fileSystem_Open user new_registers).

(** ** Steps that leave the threads and the counters alone *)
Record quiet (k k' : OS) : Prop := {
  q_threads : uthreads k' = uthreads k;
  q_next : (next k <= next k')%nat;
  q_files l : ControlTable.usage <$> fileTables k' !! l = ControlTable.usage <$> fileTables k !! l;
  q_objects kd l : ControlTable.usage <$> objectTables k' kd !! l =
    ControlTable.usage <$> objectTables k kd !! l
}.

#[local] Instance quiet_preorder : PreOrder quiet.
Proof.
  split; [done|]. intros k1 k2 k3 [A1 B1 C1 D1] [A2 B2 C2 D2].
  split; [congruence|lia|intros l; by rewrite C2|intros kd l; by rewrite D2].
Qed.

Lemma quiet_world w (k : OS) : quiet k (set_world w k). Proof. done. Qed.
Lemma quiet_machine m (k : OS) : quiet k (set_machine m k). Proof. done. Qed.
Lemma quiet_argv x (k : OS) : quiet k (set_argv x k). Proof. done. Qed.
Lemma quiet_unix x (k : OS) : quiet k (set_unix x k). Proof. done. Qed.
Lemma quiet_written x (k : OS) : quiet k (set_written x k). Proof. done. Qed.

Lemma quiet_allocate n (k k' : OS) : allocate k = (n, k') -> quiet k k'.
Proof. intros [= <- <-]. split; cbn; try done. lia. Qed.

Lemma insert_usage {A} (H : gmap nat (Table A)) l tb tb' i :
  H !! l = Some tb -> ControlTable.usage tb' = ControlTable.usage tb ->
  ControlTable.usage <$> <[l := tb']> H !! i = ControlTable.usage <$> H !! i.
Proof.
  intros Hl Hu. destruct (decide (i = l)) as [->|].
  - rewrite lookup_insert_eq, Hl. cbn. by rewrite Hu.
  - by rewrite lookup_insert_ne.
Qed.

Lemma deref_Ok {A} (p : option A) a : deref p = Ok a -> p = Some a.
Proof. by destruct p; intros [= ->]. Qed.

Lemma get_files_Ok t (k : OS) l tb :
  get_files t k = Ok (l, tb) ->
  exists th, uthreads k !! t = Some th /\ fileTable th = Some l /\ fileTables k !! l = Some tb.
Proof.
  unfold get_files, get_uthread. intros H. res_inv. simplify_eq.
  exists a. by rewrite (deref_Ok _ _ Ha), (deref_Ok _ _ Ha0), (deref_Ok _ _ Ha1).
Qed.

Lemma get_objects_Ok kd t (k : OS) l tb :
  get_objects kd t k = Ok (l, tb) ->
  exists th, uthreads k !! t = Some th /\ table th kd = Some l /\ objectTables k kd !! l = Some tb.
Proof.
  unfold get_objects, get_uthread. intros H. res_inv. simplify_eq.
  exists a. by rewrite (deref_Ok _ _ Ha), (deref_Ok _ _ Ha0), (deref_Ok _ _ Ha1).
Qed.

Lemma quiet_files l tb tb' (k : OS) :
  fileTables k !! l = Some tb -> ControlTable.usage tb' = ControlTable.usage tb ->
  quiet k (set_files (<[l := tb']> (fileTables k)) k).
Proof. intros Hl Hu. split; cbn; try done. intros i. by eapply insert_usage. Qed.

Lemma quiet_objects kd l tb tb' (k : OS) :
  objectTables k kd !! l = Some tb -> ControlTable.usage tb' = ControlTable.usage tb ->
  quiet k (set_objects kd (<[l := tb']> (objectTables k kd)) k).
Proof.
  intros Hl Hu. split; cbn; try done. intros kd' i. case_decide; [subst|done].
  by eapply insert_usage.
Qed.

Lemma quiet_file_Open x t (k : OS) id k' : file_Open x t k = Ok (id, k') -> quiet k k'.
Proof.
  unfold file_Open. intros H. res_inv. destruct a as [l tb]. apply bind_Ok in H as ([i tb'] & Ho & H).
  simplify_eq. apply get_files_Ok in Ha as (_ & _ & _ & Hl). apply Open_usage in Ho.
  by eapply quiet_files.
Qed.

Lemma quiet_file_Close fd t (k : OS) o k' : file_Close fd t k = Ok (o, k') -> quiet k k'.
Proof.
  unfold file_Close. intros H. res_inv. destruct a as [l tb]. apply bind_Ok in H as ([i tb'] & Ho & H).
  simplify_eq. apply get_files_Ok in Ha as (_ & _ & _ & Hl). apply Close_usage in Ho.
  by eapply quiet_files.
Qed.

Lemma quiet_Open kd x t (k : OS) id k' : Open kd x t k = Ok (id, k') -> quiet k k'.
Proof.
  unfold Open. intros H. res_inv. destruct a as [l tb]. apply bind_Ok in H as ([i tb'] & Ho & H).
  simplify_eq. apply get_objects_Ok in Ha as (_ & _ & _ & Hl). apply Open_usage in Ho.
  by eapply quiet_objects.
Qed.

Lemma quiet_Close kd id t (k k' : OS) : Close kd id t k = Ok k' -> quiet k k'.
Proof.
  unfold Close. intros H. res_inv. destruct a as [l tb]. apply bind_Ok in H as ([i tb'] & Ho & H).
  simplify_eq. apply get_objects_Ok in Ha as (_ & _ & _ & Hl). apply Close_usage in Ho.
  by eapply quiet_objects.
Qed.

Lemma quiet_register r v (k k' : OS) : write_register r v k = Ok k' -> quiet k k'.
Proof. unfold write_register. intros H. res_inv. by simplify_eq. Qed.

Lemma quiet_name addr (k : OS) s k' : read_name addr k = Ok (s, k') -> quiet k k'.
Proof.
  unfold read_name. intros H. apply bind_Ok in H as ([b m] & _ & H). res_inv. by simplify_eq.
Qed.

(** Follow the successful path of a handler. *)
Ltac prog :=
  repeat first
    [ progress res_inv
    | match goal with
      | H : match ?x with _ => _ end = Ok _ |- _ => destruct x eqn:?
      | H : Ok _ = Ok _ |- _ => injection H as H; subst
      | H : (_, _) = (_, _) |- _ => injection H as ? ?; subst
      end ]; simplify_eq.

Ltac quiet_facts :=
  repeat match goal with
  | H : file_Open _ _ _ = Ok _ |- _ => apply quiet_file_Open in H
  | H : file_Close _ _ _ = Ok _ |- _ => apply quiet_file_Close in H
  | H : Open _ _ _ _ = Ok _ |- _ => apply quiet_Open in H
  | H : Close _ _ _ _ = Ok _ |- _ => apply quiet_Close in H
  | H : write_register _ _ _ = Ok _ |- _ => apply quiet_register in H
  | H : read_name _ _ = Ok _ |- _ => apply quiet_name in H
  | H : allocate _ = _ |- _ => apply quiet_allocate in H
  end.

Ltac quiet_chain :=
  match goal with
  | |- quiet ?k ?k => reflexivity
  | |- context [if ?b then _ else _] => destruct b; quiet_chain
  | H : quiet ?x ?y |- quiet _ ?y => transitivity x; [clear H; quiet_chain|exact H]
  | |- quiet _ (set_world _ ?x) => transitivity x; [quiet_chain|apply quiet_world]
  | |- quiet _ (set_machine _ ?x) => transitivity x; [quiet_chain|apply quiet_machine]
  | |- quiet _ (set_argv _ ?x) => transitivity x; [quiet_chain|apply quiet_argv]
  | |- quiet _ (set_unix _ ?x) => transitivity x; [quiet_chain|apply quiet_unix]
  | |- quiet _ (set_written _ ?x) => transitivity x; [quiet_chain|apply quiet_written]
  end.

(** What a handler that is not Exec or Fork does. *)
Definition quiet_handler (h : @handler E D U) : Prop :=
  forall t k k' us, h t k = Ok (k', us) -> quiet k k'.

Ltac quiet_handler :=
  intros t k k' us H; unfold call_object, call_condition, create_object, destroy_object, then_return,
    return_now, do_RETURN in H;
  prog; quiet_facts; quiet_chain.

Lemma quiet_call_object kd m :
  quiet_handler (call_object kd m).
Proof. quiet_handler. Qed.

Lemma quiet_call_condition m :
  quiet_handler (call_condition m).
Proof. quiet_handler. Qed.

Lemma quiet_create_object kd v : quiet_handler (create_object kd v).
Proof. quiet_handler. Qed.

Lemma quiet_destroy_object kd : quiet_handler (destroy_object kd).
Proof. quiet_handler. Qed.

Lemma quiet_return v : quiet_handler (fun _ => return_now v).
Proof. quiet_handler. Qed.

Lemma quiet_do_write b s fd t (k : OS) st k' : do_write b s fd t k = Ok (st, k') -> quiet k k'.
Proof. intros H. unfold do_write, write_file in H. prog; quiet_facts; quiet_chain. Qed.

Lemma quiet_do_read b s fd t (k : OS) st k' : do_read b s fd t k = Ok (st, k') -> quiet k k'.
Proof. intros H. unfold do_read in H. prog; quiet_facts; quiet_chain. Qed.

Lemma quiet_Exit_ : quiet_handler NachOS_Exit.
Proof. unfold NachOS_Exit. quiet_handler. Qed.
Lemma quiet_Join_ : quiet_handler NachOS_Join.
Proof. unfold NachOS_Join. quiet_handler. Qed.
Lemma quiet_Create_ : quiet_handler NachOS_Create.
Proof. unfold NachOS_Create. quiet_handler. Qed.
Lemma quiet_Open_ : quiet_handler NachOS_Open.
Proof. unfold NachOS_Open. quiet_handler. Qed.
Lemma quiet_Read_ : quiet_handler NachOS_Read.
Proof. unfold NachOS_Read. quiet_handler. Qed.
Lemma quiet_Write_ : quiet_handler NachOS_Write.
Proof. unfold NachOS_Write. quiet_handler. Qed.
Lemma quiet_Close_ : quiet_handler NachOS_Close.
Proof. unfold NachOS_Close. quiet_handler. Qed.
Lemma quiet_Socket_ : quiet_handler NachOS_Socket.
Proof. unfold NachOS_Socket. quiet_handler. Qed.
Lemma quiet_Connect_ : quiet_handler NachOS_Connect.
Proof. unfold NachOS_Connect. quiet_handler. Qed.
Lemma quiet_Bind_ : quiet_handler NachOS_Bind.
Proof. unfold NachOS_Bind. quiet_handler. Qed.
Lemma quiet_Listen_ : quiet_handler NachOS_Listen.
Proof. unfold NachOS_Listen. quiet_handler. Qed.
Lemma quiet_Accept_ : quiet_handler NachOS_Accept.
Proof. unfold NachOS_Accept. quiet_handler. Qed.
Lemma quiet_Shutdown_ : quiet_handler NachOS_Shutdown.
Proof. unfold NachOS_Shutdown. quiet_handler. Qed.
Lemma quiet_Yield_ : quiet_handler NachOS_Yield.
Proof. unfold NachOS_Yield. quiet_handler. Qed.
Lemma quiet_SemCreate_ : quiet_handler NachOS_SemCreate.
Proof. unfold NachOS_SemCreate. quiet_handler. Qed.

(** Every system call but Exec and Fork. *)
Lemma quiet_syscall type :
  type <> 2 -> type <> 9 -> quiet_handler (syscall fileSystem_Open new_registers type).
Proof.
  intros H2 H9. unfold syscall.
  repeat case_match; try done; try (intros t k k' us H; discriminate H);
    try apply quiet_call_object;
    try apply quiet_call_condition;
    try apply quiet_create_object; try apply quiet_destroy_object;
    try apply quiet_Exit_;
    try apply quiet_Join_;
    try apply quiet_Create_;
    try apply quiet_Open_;
    try apply quiet_Read_;
    try apply quiet_Write_;
    try apply quiet_Close_;
    try apply quiet_Socket_;
    try apply quiet_Connect_;
    try apply quiet_Bind_;
    try apply quiet_Listen_;
    try apply quiet_Accept_;
    try apply quiet_Shutdown_;
    try apply quiet_Yield_;
    try apply quiet_SemCreate_.
Qed.

(** ** Sharing

    Names are below [next]; each table has users, and [usage] is the number of
    threads that have a pointer to it. *)
Record shared (k : OS) : Prop := {
  sh_threads t u : uthreads k !! t = Some u -> (t < next k)%nat;
  sh_flocs l tb : fileTables k !! l = Some tb -> (l < next k)%nat;
  sh_olocs kd l tb : objectTables k kd !! l = Some tb -> (l < next k)%nat;
  sh_files : counted fileTable ControlTable.usage (uthreads k) (fileTables k);
  sh_objects kd :
    counted (fun u => table u kd) ControlTable.usage (uthreads k) (objectTables k kd)
}.

Lemma fmap_is_Some {A B} (f : A -> B) (x y : option A) a :
  f <$> x = f <$> y -> x = Some a -> exists b, y = Some b.
Proof. intros H ->. destruct y as [b|]; [by exists b|done]. Qed.

Lemma quiet_shared k k' : quiet k k' -> shared k -> shared k'.
Proof.
  intros [Ht Hn Hf Ho] [S1 S2 S3 S4 S5]. split.
  - intros t u Hu. rewrite Ht in Hu. specialize (S1 t u Hu). lia.
  - intros l tb Hl. destruct (fmap_is_Some _ _ _ _ (Hf l) Hl) as [tb' Hl'].
    specialize (S2 l tb' Hl'). lia.
  - intros kd l tb Hl. destruct (fmap_is_Some _ _ _ _ (Ho kd l) Hl) as [tb' Hl'].
    specialize (S3 kd l tb' Hl'). lia.
  - rewrite Ht. by eapply counted_usage.
  - intros kd. rewrite Ht. eapply counted_usage; [apply Ho|done].
Qed.

(** A thread changes its registers or its space. *)
Lemma shared_thread t u u' k :
  shared k -> uthreads k !! t = Some u -> fileTable u' = fileTable u ->
  (forall kd, table u' kd = table u kd) -> shared (set_uthreads (<[t := u']> (uthreads k)) k).
Proof.
  intros [S1 S2 S3 S4 S5] Ht Hf Ho. split; cbn; try done.
  - intros t' u1 H1. destruct (decide (t' = t)) as [->|]; [by eapply S1|].
    rewrite lookup_insert_ne in H1 by done. by eapply S1.
  - by eapply counted_same.
  - intros kd. by eapply counted_same.
Qed.

Lemma set_space_shared t s k k' :
  shared k -> set_space t s k = Ok k' -> shared k' /\ next k' = next k /\
    exists u, uthreads k !! t = Some u /\
      uthreads k' = <[t := mkUThread (userRegisters u) s (fileTable u) (table u)]> (uthreads k).
Proof.
  unfold set_space, get_uthread. intros Hk H. apply bind_Ok in H as (u & Hu & H).
  apply deref_Ok in Hu. injection H as <-. split; [|split; [done|by exists u]].
  by eapply shared_thread.
Qed.

Lemma save_thread_shared t k : shared k -> shared (SaveState t k).
Proof.
  intros Hk. unfold SaveState, total, save_thread.
  destruct (uthreads k !! t) as [[regs [s|] f tb]|] eqn:Ht; try done.
  destruct (SaveUserState _); try done. cbn [bind].
  apply (quiet_shared (set_uthreads (<[t := mkUThread a (Some s) f tb]> (uthreads k)) k)); [done|].
  by eapply shared_thread.
Qed.

Lemma restore_thread_shared t k : shared k -> shared (RestoreState t k).
Proof.
  intros Hk. unfold RestoreState, total, restore_thread.
  destruct (uthreads k !! t) as [[regs [s|] f tb]|]; try done.
  destruct (RestoreUserState _ _); try done. cbn [bind]. by apply (quiet_shared k).
Qed.

Lemma load_program_shared e t k k' :
  shared k -> load_program read_header sizeof_header NOFFMAGIC e t k = Ok k' -> shared k'.
Proof.
  unfold load_program. intros Hk H. apply bind_Ok in H as ([s w] & _ & H).
  apply set_space_shared in H as [? _]; [done|]. by apply (quiet_shared k).
Qed.

(** [new Thread] *)
Lemma new_Thread_shared k t k' :
  shared k -> new_Thread new_registers k = (t, k') ->
  shared k' /\ t = next k /\ next k' = S (next k) /\
  uthreads k' = <[t := mkUThread new_registers None None (fun _ => None)]> (uthreads k) /\
  uthreads k !! t = None /\ fileTables k' = fileTables k /\ objectTables k' = objectTables k.
Proof.
  unfold new_Thread, allocate. intros [S1 S2 S3 S4 S5] [= <- <-].
  assert (uthreads k !! next k = None) as Hn.
  { destruct (uthreads k !! next k) as [u|] eqn:Hu; [|done]. specialize (S1 _ _ Hu). lia. }
  split; [|done]. split; cbn.
  - intros t u Hu. destruct (decide (t = next k)) as [->|]; [lia|].
    rewrite lookup_insert_ne in Hu by done. specialize (S1 _ _ Hu). lia.
  - intros l tb Hl. specialize (S2 _ _ Hl). lia.
  - intros kd l tb Hl. specialize (S3 _ _ _ Hl). lia.
  - by apply counted_new.
  - intros kd. by apply counted_new.
Qed.

(** A counter that is in range does not wrap around. *)
Definition small (k : OS) : Prop := Z.of_nat (next k) < 2 ^ 31.

Lemma usage_bound (k : OS) (ptr : UThread -> option nat) {T} (usage : T -> Z) H l x :
  (forall t u, uthreads k !! t = Some u -> (t < next k)%nat) -> small k ->
  counted ptr usage (uthreads k) H -> H !! l = Some x -> 0 < usage x < 2 ^ 31.
Proof.
  intros Hn Hs HC Hl. specialize (HC l). rewrite Hl in HC. destruct HC as [Hu Hp].
  pose proof (count_bound ptr l (uthreads k) (next k) Hn). unfold small in Hs. lia.
Qed.

Lemma addThread_usage {A} (tb : Table A) :
  0 < ControlTable.usage tb < 2 ^ 31 - 1 ->
  ControlTable.usage (ControlTable.addThread tb) = ControlTable.usage tb + 1.
Proof. intros H. cbn. apply s32_id. unfold is_s32. lia. Qed.

Lemma delThread_usage {A} (tb : Table A) :
  0 < ControlTable.usage tb < 2 ^ 31 ->
  ControlTable.usage (ControlTable.delThread tb) = ControlTable.usage tb - 1.
Proof. intros H. cbn. apply s32_id. unfold is_s32. lia. Qed.

(** The counter of a table that one more thread will use: that thread does not use
    it yet. *)
Lemma usage_bound_share (k : OS) (ptr : UThread -> option nat) {T} (usage : T -> Z) H l x dst u :
  (forall t u, uthreads k !! t = Some u -> (t < next k)%nat) -> small k ->
  uthreads k !! dst = Some u -> ptr u = None ->
  counted ptr usage (uthreads k) H -> H !! l = Some x -> 0 < usage x < 2 ^ 31 - 1.
Proof.
  intros Hn Hs Hd Hu HC Hl. pose proof (HC l) as HCl. rewrite Hl in HCl. destruct HCl as [Hux Hp].
  assert (count ptr l (delete dst (uthreads k)) = count ptr l (uthreads k)) as Hdel.
  { rewrite (count_delete ptr l dst u _ Hd), one_none by done. lia. }
  destruct (next k) as [|n] eqn:En; [specialize (Hn dst u Hd); lia|].
  assert (base.size (filter (fun p : nat * UThread => ptr p.2 = Some l) (delete dst (uthreads k))) <= n)%nat;
    [|unfold count in *; unfold small in Hs; lia].
  rewrite <- size_dom.
  assert (base.size (set_seq (C := gset nat) 0 (S n) ∖ {[dst]}) = n) as <-.
  { rewrite size_difference, size_set_seq, size_singleton; [lia|].
    apply singleton_subseteq_l, elem_of_set_seq. specialize (Hn dst u Hd). lia. }
  apply subseteq_size. intros t Ht. apply elem_of_dom in Ht as [v Hv].
  apply map_lookup_filter_Some in Hv as [Hv _]. apply lookup_delete_Some in Hv as [Hne Hv].
  apply elem_of_difference. split; [|by apply not_elem_of_singleton].
  apply elem_of_set_seq. specialize (Hn t v Hv). lia.
Qed.

Lemma add_file_user_shared src dst u k k' :
  shared k -> small k -> uthreads k !! dst = Some u -> fileTable u = None ->
  add_file_user src dst k = Ok k' ->
  shared k' /\ next k' = next k /\ exists us l tb,
    uthreads k !! src = Some us /\ fileTable us = Some l /\ fileTables k !! l = Some tb /\
    uthreads k' = <[dst := mkUThread (userRegisters u) (space u) (Some l) (table u)]> (uthreads k).
Proof.
  unfold add_file_user, get_uthread. intros Hk Hs Hd Hu H. apply bind_Ok in H as ([l tb] & Hg & H).
  rewrite Hd in H. cbn in H. injection H as <-.
  apply get_files_Ok in Hg as (us & Hsrc & Hf & Hl). pose proof Hk as [S1 S2 S3 S4 S5].
  pose proof (usage_bound_share k fileTable _ _ l tb dst u S1 Hs Hd Hu S4 Hl) as Hb.
  split; [|split; [done|by exists us, l, tb]]. split; cbn.
  - intros t v Hv. destruct (decide (t = dst)) as [->|]; [by eapply S1|].
    rewrite lookup_insert_ne in Hv by done. by eapply S1.
  - intros i tb' Hi. destruct (decide (i = l)) as [->|]; [by eapply S2|].
    rewrite lookup_insert_ne in Hi by done. by eapply S2.
  - done.
  - eapply counted_share; [done..|]. by apply addThread_usage.
  - intros kd. by eapply counted_same.
Qed.

Lemma add_object_user_shared kd src dst u k k' :
  shared k -> small k -> uthreads k !! dst = Some u -> table u kd = None ->
  add_object_user kd src dst k = Ok k' ->
  shared k' /\ next k' = next k /\ exists us l tb,
    uthreads k !! src = Some us /\ table us kd = Some l /\ objectTables k kd !! l = Some tb /\
    uthreads k' = <[dst := mkUThread (userRegisters u) (space u) (fileTable u)
      (fun kd' => if decide (kd' = kd) then Some l else table u kd')]> (uthreads k).
Proof.
  unfold add_object_user, get_uthread. intros Hk Hs Hd Hu H. apply bind_Ok in H as ([l tb] & Hg & H).
  rewrite Hd in H. cbn in H. injection H as <-.
  apply get_objects_Ok in Hg as (us & Hsrc & Hf & Hl). pose proof Hk as [S1 S2 S3 S4 S5].
  pose proof (usage_bound_share k (fun u => table u kd) _ _ l tb dst u S1 Hs Hd Hu (S5 kd) Hl) as Hb.
  split; [|split; [done|by exists us, l, tb]]. split; cbn.
  - intros t v Hv. destruct (decide (t = dst)) as [->|]; [by eapply S1|].
    rewrite lookup_insert_ne in Hv by done. by eapply S1.
  - done.
  - intros kd' i tb' Hi. case_decide as Hkd; [subst kd'|by eapply S3].
    destruct (decide (i = l)) as [->|]; [by eapply S3|].
    rewrite lookup_insert_ne in Hi by done. by eapply S3.
  - by eapply counted_same.
  - intros kd'. case_decide as Hkd.
    + subst kd'. eapply counted_share; [done..| | |].
      * cbn. by rewrite decide_True.
      * done.
      * by apply addThread_usage.
    + eapply counted_same; [done..|]. cbn. by rewrite decide_False.
Qed.

(** [ShareResources]: the new thread has the tables of the other one. *)
Lemma ShareResources_shared src dst u k k' :
  shared k -> small k -> uthreads k !! dst = Some u ->
  fileTable u = None -> (forall kd, table u kd = None) -> src <> dst ->
  ShareResources src dst k = Ok k' ->
  shared k' /\ next k' = next k /\ exists us u',
    uthreads k !! src = Some us /\ uthreads k' = <[dst := u']> (uthreads k) /\
    userRegisters u' = userRegisters u /\ space u' = space u /\
    fileTable u' = fileTable us /\ (forall kd, table u' kd = table us kd).
Proof.
  unfold ShareResources. intros Hk Hs Hd Hf Ho Hne H.
  apply bind_Ok in H as (k1 & H1 & H).
  apply (add_file_user_shared _ _ u) in H1 as (Hk1 & N1 & us & l0 & tb0 & Hus & Hl0 & _ & M1); try done.
  assert (forall (kx : OS) v, uthreads kx = <[dst := v]> (uthreads k) -> uthreads kx !! dst = Some v) as Hlk
    by (intros kx v ->; apply lookup_insert_eq).
  assert (forall (kx : OS) v w, uthreads kx = <[dst := v]> (uthreads k) ->
    <[dst := w]> (uthreads kx) = <[dst := w]> (uthreads k)) as Hins
    by (intros kx v w ->; apply insert_insert_eq).
  assert (forall (kx : OS) v, uthreads kx = <[dst := v]> (uthreads k) -> uthreads kx !! src = Some us) as Hsr
    by (intros kx v ->; by rewrite lookup_insert_ne).
  assert (forall kx : OS, next kx = next k -> small kx) as Hsm by (unfold small; by intros kx ->).
  apply bind_Ok in H as (k2 & H2 & H).
  eapply add_object_user_shared in H2 as (Hk2 & N2 & us2 & l2 & tb2 & Hus2 & Hl2 & _ & M2);
    [|done|by apply Hsm|by apply (Hlk _ _ M1)|apply Ho].
  rewrite (Hins _ _ _ M1) in M2. rewrite (Hsr _ _ M1) in Hus2. injection Hus2 as <-. rewrite N1 in N2.
  apply bind_Ok in H as (k3 & H3 & H).
  eapply add_object_user_shared in H3 as (Hk3 & N3 & us3 & l3 & tb3 & Hus3 & Hl3 & _ & M3);
    [|done|by apply Hsm|by apply (Hlk _ _ M2)|apply Ho].
  rewrite (Hins _ _ _ M2) in M3. rewrite (Hsr _ _ M2) in Hus3. injection Hus3 as <-. rewrite N2 in N3.
  apply bind_Ok in H as (k4 & H4 & H).
  eapply add_object_user_shared in H4 as (Hk4 & N4 & us4 & l4 & tb4 & Hus4 & Hl4 & _ & M4);
    [|done|by apply Hsm|by apply (Hlk _ _ M3)|apply Ho].
  rewrite (Hins _ _ _ M3) in M4. rewrite (Hsr _ _ M3) in Hus4. injection Hus4 as <-. rewrite N3 in N4.
  eapply add_object_user_shared in H as (Hk5 & N5 & us5 & l5 & tb5 & Hus5 & Hl5 & _ & M5);
    [|done|by apply Hsm|by apply (Hlk _ _ M4)|apply Ho].
  rewrite (Hins _ _ _ M4) in M5. rewrite (Hsr _ _ M4) in Hus5. injection Hus5 as <-. rewrite N4 in N5.
  split; [done|]. split; [done|]. eexists us, _. split; [done|]. split; [exact M5|]. cbn.
  split; [done|]. split; [done|]. split; [done|].
  intros kd. repeat case_decide; destruct kd; congruence.
Qed.

Lemma small_le (k k' : OS) : (next k <= next k')%nat -> small k' -> small k.
Proof. unfold small. lia. Qed.

Lemma Open_user kd x t (k : OS) id k' :
  Open kd x t k = Ok (id, k') ->
  next k' = next k /\ exists th l, uthreads k !! t = Some th /\ table th kd = Some l.
Proof.
  unfold Open. intros H. apply bind_Ok in H as ([l tb] & Hg & H).
  apply bind_Ok in H as ([i tb'] & _ & H). injection H as <- <-.
  apply get_objects_Ok in Hg as (th & ? & ? & _). split; [done|]. by exists th, l.
Qed.

Lemma ShareResources_next src dst (k k' : OS) : ShareResources src dst k = Ok k' -> next k' = next k.
Proof. unfold ShareResources, add_file_user, add_object_user. intros H. prog. done. Qed.

(** A thread that shares the tables of [t] after [new Thread] and quiet steps. *)
Lemma spawn_shared t n u k k1 k2 k' us_t :
  shared k -> uthreads k !! t = Some us_t -> new_Thread new_registers k = (n, k1) ->
  shared k2 -> next k2 = next k1 -> uthreads k2 = <[n := u]> (uthreads k) ->
  fileTable u = None -> (forall kd, table u kd = None) ->
  ShareResources t n k2 = Ok k' -> small k' ->
  shared k' /\ next k' = next k1 /\ exists u',
    uthreads k' = <[n := u']> (uthreads k) /\ userRegisters u' = userRegisters u /\
    space u' = space u /\ fileTable u' = fileTable us_t /\
    (forall kd, table u' kd = table us_t kd).
Proof.
  intros Hk Ht Hn Hk2 Hn2 Hu2 Hf Ho HS Hs.
  apply new_Thread_shared in Hn as (_ & -> & Hn1 & _ & Hnone & _ & _); [|done].
  assert (t <> next k) as Hne by (intros ->; congruence).
  assert (small k2) as Hs2 by (unfold small in *; by rewrite <- (ShareResources_next _ _ _ _ HS)).
  pose proof (ShareResources_next _ _ _ _ HS) as Hn'.
  destruct (ShareResources_shared t (next k) u k2 k') as (Hk' & _ & us & u' & Hus & Hu' & H1 & H2 & H3 & H4);
    [done|done|by rewrite Hu2, lookup_insert_eq|done|done|done|done|].
  split; [done|]. split; [congruence|].
  rewrite Hu2, lookup_insert_ne, Ht in Hus by done. injection Hus as <-.
  exists u'. rewrite Hu', Hu2, insert_insert_eq. done.
Qed.

Lemma Exec_shared t k k' us :
  shared k -> NachOS_Exec fileSystem_Open new_registers t k = Ok (k', us) ->
  small k' -> shared k'.
Proof.
  unfold NachOS_Exec. intros Hk H. apply bind_Ok in H as (addr & _ & H).
  apply bind_Ok in H as ([name k0] & Hn & H). apply quiet_name in Hn.
  apply bind_Ok in H as ([ex d] & _ & H). cbv zeta in H.
  set (k1 := set_world _ k0) in H. assert (quiet k k1) as Hq by (transitivity k0; [done|apply quiet_world]).
  pose proof (quiet_shared _ _ Hq Hk) as Hk1. pose proof (q_next _ _ Hq) as Hnx. clearbody k1.
  destruct ex as [e|].
  - destruct (new_Thread new_registers k1) as [n k2] eqn:E2.
    apply bind_Ok in H as ([st k3] & H3 & H). apply bind_Ok in H as (k4 & H4 & H). injection H as <- <-.
    pose proof (new_Thread_shared k1 n k2 Hk1 E2) as (Hk2 & -> & N2 & M2 & F2 & _ & _).
    destruct (Open_user _ _ _ _ _ _ H3) as (N3 & ut & l & Hut & Htb).
    rewrite M2 in Hut. destruct (decide (t = next k1)) as [->|Hne];
      [rewrite lookup_insert_eq in Hut; by simplify_eq|rewrite lookup_insert_ne in Hut by done].
    apply quiet_Open in H3. assert (shared k3) as Hk3 by (by eapply quiet_shared).
    intros Hs. apply (quiet_shared k4); [apply quiet_argv|].
    eapply (spawn_shared t _ _ k1 k2 k3 k4 ut) in H4 as (Hk4 & _);
      [done..|by rewrite (q_threads _ _ H3)|done|done|done].
  - apply quiet_return in H; [|exact 0%nat]. intros _. by eapply quiet_shared.
Qed.

Lemma Fork_shared t k k' us :
  shared k -> NachOS_Fork new_registers t k = Ok (k', us) ->
  small k' -> shared k'.
Proof.
  unfold NachOS_Fork. intros Hk H.
  destruct (new_Thread new_registers k) as [n k1] eqn:E1.
  pose proof (new_Thread_shared k n k1 Hk E1) as (Hk1 & -> & N1 & M1 & F1 & _ & _).
  apply bind_Ok in H as (th & Hth & H). apply bind_Ok in H as (father & Hf & H).
  apply bind_Ok in H as ([s w] & _ & H). apply bind_Ok in H as (k2 & H2 & H).
  apply bind_Ok in H as ([id k3] & H3 & H). apply bind_Ok in H as (k4 & H4 & H).
  apply bind_Ok in H as (addr & _ & H). injection H as <- <-.
  unfold get_uthread in Hth. apply deref_Ok in Hth. apply deref_Ok in Hf.
  assert (t <> next k) as Hne.
  { intros ->. rewrite M1, lookup_insert_eq in Hth. by simplify_eq. }
  rewrite M1, lookup_insert_ne in Hth by done.
  apply set_space_shared in H2 as (Hk2 & N2 & u2 & Hu2 & M2); [|by apply (quiet_shared k1)].
  cbn in Hu2. rewrite M1, lookup_insert_eq in Hu2. injection Hu2 as <-.
  cbn in M2. rewrite M1, insert_insert_eq in M2. cbn in N2.
  destruct (Open_user _ _ _ _ _ _ H3) as [N3 _].
  apply quiet_Open in H3. assert (shared k3) as Hk3 by (by eapply quiet_shared).
  pose proof (ShareResources_next _ _ _ _ H4) as N4.
  intros Hs. eapply (spawn_shared t _ _ k k1 k3 k4 th) in H4 as (Hk4 & _ & _);
    [done|done|done|done|done|congruence|by rewrite (q_threads _ _ H3)|done|done|done].
Qed.

(** *** Leaving *)
Record same_but_objects (kd : kind) (k k' : OS) : Prop := {
  so_threads : uthreads k' = uthreads k;
  so_next : next k' = next k;
  so_files : fileTables k' = fileTables k;
  so_objects kd' : kd' <> kd -> objectTables k' kd' = objectTables k kd'
}.

Lemma del_object_spec kd l (k k' : OS) :
  del_object_user kd l k = Ok k' ->
  same_but_objects kd k k' /\ exists tb, objectTables k kd !! l = Some tb /\
    objectTables k' kd = <[l := ControlTable.delThread tb]> (objectTables k kd).
Proof.
  unfold del_object_user. intros H. apply bind_Ok in H as (tb & Htb & [= <-]). apply deref_Ok in Htb.
  split; [|exists tb; split; [done|cbn; by rewrite decide_True]].
  split; cbn; try done. intros kd' Hne. by rewrite decide_False.
Qed.

Lemma drop_object_spec kd l (k k' : OS) :
  drop_object_table kd l k = Ok k' ->
  same_but_objects kd k k' /\ exists tb, objectTables k kd !! l = Some tb /\
    objectTables k' kd = if ControlTable.usage tb =? 0 then delete l (objectTables k kd)
                         else objectTables k kd.
Proof.
  unfold drop_object_table, ControlTable.getThreadCount. intros H. apply bind_Ok in H as (tb & Htb & H).
  apply deref_Ok in Htb. destruct (ControlTable.usage tb =? 0) eqn:Hu; injection H as <-.
  - split; [|exists tb; split; [done|cbn; by rewrite decide_True, Hu]].
    split; cbn; try done. intros kd' Hne. by rewrite decide_False.
  - split; [done|]. exists tb. by rewrite Hu.
Qed.

Lemma del_file_spec l (k k' : OS) :
  del_file_user l k = Ok k' -> exists tb, fileTables k !! l = Some tb /\
    k' = set_files (<[l := ControlTable.delThread tb]> (fileTables k)) k.
Proof.
  unfold del_file_user. intros H. apply bind_Ok in H as (tb & Htb & [= <-]). apply deref_Ok in Htb.
  by exists tb.
Qed.

Lemma drop_file_spec l (k k' : OS) :
  drop_file_table l k = Ok k' -> exists tb, fileTables k !! l = Some tb /\
    k' = set_files (if ControlTable.usage tb =? 0 then delete l (fileTables k) else fileTables k) k.
Proof.
  unfold drop_file_table, ControlTable.getThreadCount. intros H. apply bind_Ok in H as (tb & Htb & H).
  apply deref_Ok in Htb. exists tb. split; [done|].
  destruct (ControlTable.usage tb =? 0); injection H as <-; [done|by destruct k].
Qed.

(** The tables of a kind when a thread that uses the table [l] leaves. *)
Definition left_table {A} (l : nat) (H : gmap nat (Table A)) (H' : gmap nat (Table A)) : Prop :=
  exists tb, H !! l = Some tb /\
    H' = if ControlTable.usage (ControlTable.delThread tb) =? 0
         then delete l (<[l := ControlTable.delThread tb]> H)
         else <[l := ControlTable.delThread tb]> H.

Lemma left_table_intro {A} l (H H1 H2 : gmap nat (Table A)) tb tb' :
  H !! l = Some tb -> H1 = <[l := ControlTable.delThread tb]> H -> H1 !! l = Some tb' ->
  H2 = (if ControlTable.usage tb' =? 0 then delete l H1 else H1) -> left_table l H H2.
Proof.
  intros Hl -> Hl' ->. rewrite lookup_insert_eq in Hl'. injection Hl' as <-. by exists tb.
Qed.

Lemma removeResources_left t (k k' : OS) :
  removeResources t k = Ok k' ->
  exists u k0 lf, uthreads k !! t = Some u /\ quiet k k0 /\ next k0 = next k /\ next k' = next k /\
    uthreads k' = delete t (uthreads k) /\
    fileTable u = Some lf /\ left_table lf (fileTables k0) (fileTables k') /\
    forall kd, exists l, table u kd = Some l /\
      left_table l (objectTables k0 kd) (objectTables k' kd).
Proof.
  unfold removeResources, get_uthread. intros H.
  apply bind_Ok in H as (u & Hu & H). apply deref_Ok in Hu.
  apply bind_Ok in H as ([l tb] & _ & H). apply bind_Ok in H as (id & _ & H).
  apply bind_Ok in H as (k0 & HC & H).
  assert (next k0 = next k) as N0.
  { unfold Close in HC. apply bind_Ok in HC as ([? ?] & _ & HC).
    apply bind_Ok in HC as ([? ?] & _ & HC). by injection HC as <-. }
  apply quiet_Close in HC.
  apply bind_Ok in H as (lt & Hlt & H). apply deref_Ok in Hlt.
  apply bind_Ok in H as (lf & Hlf & H). apply deref_Ok in Hlf.
  apply bind_Ok in H as (ls & Hls & H). apply deref_Ok in Hls.
  apply bind_Ok in H as (ll & Hll & H). apply deref_Ok in Hll.
  apply bind_Ok in H as (lc & Hlc & H). apply deref_Ok in Hlc.
  apply bind_Ok in H as (k1 & H1 & H). apply del_object_spec in H1 as ([A1 B1 C1 D1] & t1 & L1 & O1).
  apply bind_Ok in H as (k2 & H2 & H). apply del_file_spec in H2 as (t2 & L2 & ->).
  apply bind_Ok in H as (k3 & H3 & H). apply del_object_spec in H3 as ([A3 B3 C3 D3] & t3 & L3 & O3).
  apply bind_Ok in H as (k4 & H4 & H). apply del_object_spec in H4 as ([A4 B4 C4 D4] & t4 & L4 & O4).
  apply bind_Ok in H as (k5 & H5 & H). apply del_object_spec in H5 as ([A5 B5 C5 D5] & t5 & L5 & O5).
  apply bind_Ok in H as (k6 & H6 & H). apply drop_object_spec in H6 as ([A6 B6 C6 D6] & t6 & L6 & O6).
  apply bind_Ok in H as (k7 & H7 & H). apply drop_file_spec in H7 as (t7 & L7 & ->).
  apply bind_Ok in H as (k8 & H8 & H). apply drop_object_spec in H8 as ([A8 B8 C8 D8] & t8 & L8 & O8).
  apply bind_Ok in H as (k9 & H9 & H). apply drop_object_spec in H9 as ([A9 B9 C9 D9] & t9 & L9 & O9).
  apply bind_Ok in H as (ka & Ha & H). apply drop_object_spec in Ha as ([Aa Ba Ca Da] & ta & La & Oa).
  apply bind_Ok in H as (kb & Hb & [= <-]).
  assert (uthreads kb = uthreads ka /\ next kb = next ka /\ fileTables kb = fileTables ka /\
    objectTables kb = objectTables ka) as (Ab & Bb & Cb & Ob).
  { destruct (space u); [apply bind_Ok in Hb as (w & _ & Hb)|]; by injection Hb as <-. }
  cbn in *. exists u, k0, lf. split; [done|]. split; [done|]. split; [done|]. split; [congruence|]. split.
  { rewrite Ab, Aa, A9, A8, A6, A5, A4, A3, A1. by rewrite (q_threads _ _ HC). }
  split; [done|]. split.
  { apply (left_table_intro lf _ (fileTables k6) _ t2 t7); try congruence. }
  rewrite Ob. intros []; [exists lt|exists ls|exists ll|exists lc]; (split; [done|]).
  - apply (left_table_intro lt _ (objectTables k5 KThread) _ t1 t6); try congruence.
    + by rewrite D5, D4, D3.
    + by rewrite Da, D9, D8.
  - apply (left_table_intro ls _ (objectTables k6 KSem) _ t3 t8); try congruence.
    + by rewrite <- D1.
    + by rewrite D6, D5, D4, O3, D1.
    + by rewrite Da, D9.
  - apply (left_table_intro ll _ (objectTables k8 KLock) _ t4 t9); try congruence.
    + by rewrite <- D1, <- D3.
    + by rewrite D8, D6, D5, O4, D3, D1.
    + by rewrite Da.
  - apply (left_table_intro lc _ (objectTables k9 KCond) _ t5 ta); try congruence.
    + by rewrite <- D1, <- D3, <- D4.
    + by rewrite D9, D8, D6, O5, D4, D3, D1.
Qed.

Lemma left_table_counted {A} (ptr : UThread -> option nat) (k : OS) t u l (H H' : gmap nat (Table A)) :
  (forall t u, uthreads k !! t = Some u -> (t < next k)%nat) -> small k ->
  counted ptr ControlTable.usage (uthreads k) H -> uthreads k !! t = Some u -> ptr u = Some l ->
  left_table l H H' -> counted ptr ControlTable.usage (delete t (uthreads k)) H'.
Proof.
  intros Hn Hs HC Ht Hu (tb & Hl & ->). eapply counted_leave; [done..|].
  apply delThread_usage. by eapply usage_bound.
Qed.

Lemma left_table_lookup {A} l (H H' : gmap nat (Table A)) i tb :
  left_table l H H' -> H' !! i = Some tb -> exists tb', H !! i = Some tb'.
Proof.
  intros (x & Hl & ->) Hi. destruct (decide (i = l)) as [->|Hne]; [by exists x|].
  destruct (_ =? 0); rewrite ?lookup_delete_ne, lookup_insert_ne in Hi by done; by exists tb.
Qed.

Lemma removeResources_shared t k k' :
  shared k -> small k -> removeResources t k = Ok k' -> shared k'.
Proof.
  intros Hk Hs H.
  destruct (removeResources_left t k k' H) as (u & k0 & lf & Hu & Hq & N0 & Hn & Ht & Hf & Hlf & Ho).
  pose proof (quiet_shared _ _ Hq Hk) as [S1 S2 S3 S4 S5].
  assert (small k0) as Hs0 by (unfold small in *; by rewrite N0).
  rewrite <- (q_threads _ _ Hq) in Ht, Hu. rewrite N0 in S1, S2, S3. split; rewrite ?Ht, ?Hn.
  - intros t' u' H'. apply lookup_delete_Some in H' as [_ H']. by eapply S1.
  - intros l tb Hl. destruct (left_table_lookup _ _ _ _ _ Hlf Hl) as [tb' Hl']. by eapply S2.
  - intros kd l tb Hl. destruct (Ho kd) as (lo & _ & HL).
    destruct (left_table_lookup _ _ _ _ _ HL Hl) as [tb' Hl']. by eapply S3.
  - apply (left_table_counted fileTable k0 t u lf (fileTables k0)); try done. by rewrite N0.
  - intros kd. destruct (Ho kd) as (lo & Hlo & HL).
    apply (left_table_counted (fun th => table th kd) k0 t u lo (objectTables k0 kd)); try done. by rewrite N0.
Qed.

(** ** The start *)
Lemma initial_shared w u : shared (initial new_registers w u : OS).
Proof.
  assert (forall t v, uthreads (initial new_registers w u : OS) !! t = Some v ->
    t = 0%nat /\ fileTable v = None /\ forall kd, table v kd = None) as Hi.
  { intros t v Hv. cbn in Hv. by apply lookup_singleton_Some in Hv as [<- <-]. }
  split.
  - intros t v Hv. destruct (Hi t v Hv) as [-> _]. cbn. lia.
  - intros l tb Hl. cbn in Hl. by rewrite lookup_empty in Hl.
  - intros kd l tb Hl. cbn in Hl. by rewrite lookup_empty in Hl.
  - apply counted_empty. intros t v Hv. by destruct (Hi t v Hv) as (_ & ? & _).
  - intros kd. apply counted_empty. intros t v Hv. by destruct (Hi t v Hv) as (_ & _ & ?).
Qed.

Lemma new_table_usage {A} (z : A) n objects storage tb :
  ControlTable.new z n objects storage = Ok tb -> ControlTable.usage tb = 1.
Proof. unfold ControlTable.new. intros H. apply bind_Ok in H as (m & _ & H). injection H. by intros <-. Qed.

Lemma new_file_table_spec (k : OS) l (k' : OS) :
  new_file_table new_ints new_words k = Ok (l, k') ->
  exists tb, ControlTable.usage tb = 1 /\ l = next k /\ next k' = S (next k) /\
    uthreads k' = uthreads k /\ fileTables k' = <[l := tb]> (fileTables k) /\
    objectTables k' = objectTables k.
Proof.
  unfold new_file_table. intros H. apply bind_Ok in H as (tb & Htb & H). injection H as <- <-.
  exists tb. apply new_table_usage in Htb. by split_and!.
Qed.

Lemma new_object_table_spec kd (k : OS) l (k' : OS) :
  new_object_table new_pointers new_words kd k = Ok (l, k') ->
  exists tb, ControlTable.usage tb = 1 /\ l = next k /\ next k' = S (next k) /\
    uthreads k' = uthreads k /\ fileTables k' = fileTables k /\
    objectTables k' kd = <[l := tb]> (objectTables k kd) /\
    forall kd', kd' <> kd -> objectTables k' kd' = objectTables k kd'.
Proof.
  unfold new_object_table. intros H. apply bind_Ok in H as (tb & Htb & H). injection H as <- <-.
  exists tb. apply new_table_usage in Htb. cbn.
  split_and!; try done; [by rewrite decide_True|]. intros kd' Hne. by rewrite decide_False.
Qed.

Lemma fresh_location {A} (H : gmap nat A) n :
  (forall l x, H !! l = Some x -> (l < n)%nat) -> forall m, (n <= m)%nat -> H !! m = None.
Proof. intros HH m Hm. destruct (H !! m) as [x|] eqn:Em; [|done]. specialize (HH m x Em). lia. Qed.

Lemma new_tables_shared t u k k' :
  shared k -> uthreads k !! t = Some u -> fileTable u = None -> (forall kd, table u kd = None) ->
  new_tables new_ints new_pointers new_words t k = Ok k' ->
  shared k' /\ next k' = (5 + next k)%nat.
Proof.
  unfold new_tables, get_uthread. intros [S1 S2 S3 S4 S5] Ht Hf Ho H. rewrite Ht in H. cbn [deref bind] in H.
  apply bind_Ok in H as ([lf k1] & H1 & H). apply bind_Ok in H as ([lt k2] & H2 & H).
  apply bind_Ok in H as ([ls k3] & H3 & H). apply bind_Ok in H as ([ll k4] & H4 & H).
  apply bind_Ok in H as ([lc k5] & H5 & H). injection H as <-.
  apply new_file_table_spec in H1 as (t1 & U1 & -> & N1 & M1 & F1 & O1).
  apply new_object_table_spec in H2 as (t2 & U2 & -> & N2 & M2 & F2 & O2 & P2).
  apply new_object_table_spec in H3 as (t3 & U3 & -> & N3 & M3 & F3 & O3 & P3).
  apply new_object_table_spec in H4 as (t4 & U4 & -> & N4 & M4 & F4 & O4 & P4).
  apply new_object_table_spec in H5 as (t5 & U5 & -> & N5 & M5 & F5 & O5 & P5).
  set (loc := fun kd => match kd with KThread => next k1 | KSem => next k2 | KLock => next k3
                        | KCond => next k4 end).
  set (tbl := fun kd => match kd with KThread => t2 | KSem => t3 | KLock => t4 | KCond => t5 end).
  assert (forall kd, objectTables k5 kd = <[loc kd := tbl kd]> (objectTables k kd)) as O.
  { rewrite O1 in O2, P2.
    intros []; cbn; rewrite ?O5, ?P5, ?O4, ?P4, ?O3, ?P3, ?O2, ?P2, ?P3, ?P4, ?P5 by done; done. }
  assert (fileTables k5 = <[next k := t1]> (fileTables k)) as F by congruence.
  assert (uthreads k5 = uthreads k) as M by congruence.
  assert (forall kd, (next k <= loc kd < next k5)%nat) as Hloc by (intros []; cbn; lia).
  assert (next k5 = 5 + next k)%nat as N by lia.
  assert (forall kd, ControlTable.usage (tbl kd) = 1) as Ut by (by intros []).
  split; [|done]. split; cbn; rewrite ?M, ?F.
  - intros t' v Hv. destruct (decide (t' = t)) as [->|]; [specialize (S1 _ _ Ht); lia|].
    rewrite lookup_insert_ne in Hv by done. specialize (S1 _ _ Hv). lia.
  - intros l tb Hl. destruct (decide (l = next k)) as [->|]; [lia|].
    rewrite lookup_insert_ne in Hl by done. specialize (S2 _ _ Hl). lia.
  - intros kd l tb Hl. rewrite O in Hl. specialize (Hloc kd).
    destruct (decide (l = loc kd)) as [->|]; [lia|].
    rewrite lookup_insert_ne in Hl by done. specialize (S3 _ _ _ Hl). lia.
  - eapply counted_create; [done..| |done]. by eapply fresh_location.
  - intros kd. rewrite O. eapply counted_create; [done..|by destruct kd| |done].
    eapply fresh_location; [apply S3|apply Hloc].
Qed.

Lemma start_program_quiet t (k k' : OS) : start_program t k = Ok k' -> quiet k k'.
Proof. unfold start_program. intros H. prog. apply quiet_machine. Qed.

Lemma StartProcess_shared filename (k k' : OS) us u :
  shared k -> uthreads k !! 0%nat = Some u -> fileTable u = None -> (forall kd, table u kd = None) ->
  StartProcess read_header sizeof_header NOFFMAGIC fileSystem_Open new_ints new_pointers new_words
    filename 0%nat k = Ok (k', us) ->
  shared k'.
Proof.
  unfold StartProcess. intros Hk Hu Hf Ho H. apply bind_Ok in H as ([ex d] & _ & H). cbv zeta in H.
  set (k1 := set_world _ k) in H. assert (shared k1) as Hk1 by (by apply (quiet_shared k)).
  assert (uthreads k1 !! 0%nat = Some u) as Hu1 by done. clearbody k1. clear k Hk Hu.
  destruct ex as [e|]; [|by simplify_eq].
  apply bind_Ok in H as (k2 & H2 & H). apply bind_Ok in H as (k3 & H3 & H).
  apply bind_Ok in H as ([i4 k4] & H4 & H). apply bind_Ok in H as ([i5 k5] & H5 & H).
  apply bind_Ok in H as ([i6 k6] & H6 & H). apply bind_Ok in H as ([i7 k7] & H7 & H).
  apply bind_Ok in H as (k8 & H8 & H). injection H as <- <-.
  unfold load_program in H2. apply bind_Ok in H2 as ([s w] & _ & H2).
  apply set_space_shared in H2 as (Hk2 & _ & u2 & Hu2 & M2); [|by apply (quiet_shared k1)].
  cbn in Hu2, M2. rewrite Hu1 in Hu2. injection Hu2 as <-.
  eapply (new_tables_shared 0%nat) in H3 as [Hk3 _];
    [|done|rewrite M2; apply lookup_insert_eq|done|done].
  apply quiet_file_Open in H4, H5, H6. apply quiet_Open in H7. apply start_program_quiet in H8.
  eapply quiet_shared, Hk3. quiet_chain.
Qed.

(** ** What a piece of code changes in the other threads

    Nothing in the threads below [b] but [t]; new threads have new names. *)
Record moved (b t : nat) (k k' : OS) : Prop := {
  mv_next : (next k <= next k')%nat;
  mv_old i : i <> t -> (i < b)%nat -> uthreads k' !! i = uthreads k !! i;
  mv_new i : is_Some (uthreads k' !! i) -> is_Some (uthreads k !! i) \/ (next k <= i < next k')%nat
}.

#[local] Instance moved_preorder b t : PreOrder (moved b t).
Proof.
  split; [intros k; split; [lia|done|by left]|].
  intros k1 k2 k3 [A1 B1 C1] [A2 B2 C2]. split; [lia| |].
  - intros i Hi Hb. by rewrite B2, B1.
  - intros i Hi. destruct (C2 i Hi) as [H|?]; [|right; lia]. destruct (C1 i H); [by left|right; lia].
Qed.

Lemma quiet_moved b t k k' : quiet k k' -> moved b t k k'.
Proof. intros [H1 H2 _ _]. split; [done| |]; rewrite H1; [done|by left]. Qed.

(** One thread changes. *)
Lemma insert_moved b t n u u' (k k' : OS) :
  n = t \/ (b <= n)%nat -> uthreads k !! n = Some u -> uthreads k' = <[n := u']> (uthreads k) ->
  next k' = next k -> moved b t k k'.
Proof.
  intros Hn Hu H' N. split; [lia| |]; rewrite H'.
  - intros i Hi Hb. by rewrite lookup_insert_ne by lia.
  - intros i Hi. destruct (decide (i = n)) as [->|]; [rewrite Hu; by left|].
    rewrite lookup_insert_ne in Hi by done. by left.
Qed.

Lemma set_space_moved b t n s k k' :
  n = t \/ (b <= n)%nat -> set_space n s k = Ok k' -> moved b t k k'.
Proof.
  unfold set_space, get_uthread. intros Hn H. apply bind_Ok in H as (u & Hu & H).
  apply deref_Ok in Hu. injection H as <-. by eapply insert_moved.
Qed.

Lemma new_Thread_moved b t k n k' :
  (b <= next k)%nat -> new_Thread new_registers k = (n, k') -> moved b t k k' /\ n = next k.
Proof.
  unfold new_Thread, allocate. intros Hb [= <- <-]. split; [|done]. split; cbn; [lia| |].
  - intros i Hi Hib. by rewrite lookup_insert_ne by lia.
  - intros i Hi. destruct (decide (i = next k)) as [->|]; [right; lia|].
    rewrite lookup_insert_ne in Hi by done. by left.
Qed.

Lemma add_file_user_moved b t src dst (k k' : OS) :
  (b <= dst)%nat -> add_file_user src dst k = Ok k' -> moved b t k k'.
Proof.
  unfold add_file_user, get_uthread. intros Hb H. apply bind_Ok in H as ([l tb] & _ & H).
  apply bind_Ok in H as (u & Hu & H). apply deref_Ok in Hu. injection H as <-.
  eapply (insert_moved _ _ dst); [by right|done..].
Qed.

Lemma add_object_user_moved b t kd src dst (k k' : OS) :
  (b <= dst)%nat -> add_object_user kd src dst k = Ok k' -> moved b t k k'.
Proof.
  unfold add_object_user, get_uthread. intros Hb H. apply bind_Ok in H as ([l tb] & _ & H).
  apply bind_Ok in H as (u & Hu & H). apply deref_Ok in Hu. injection H as <-.
  eapply (insert_moved _ _ dst); [by right|done..].
Qed.

Lemma ShareResources_moved b t src dst (k k' : OS) :
  (b <= dst)%nat -> ShareResources src dst k = Ok k' -> moved b t k k'.
Proof.
  unfold ShareResources. intros Hb H. apply bind_Ok in H as (k1 & H1 & H).
  apply bind_Ok in H as (k2 & H2 & H). apply bind_Ok in H as (k3 & H3 & H).
  apply bind_Ok in H as (k4 & H4 & H).
  apply (add_file_user_moved b t) in H1; [|done].
  eapply (add_object_user_moved b t) in H2, H3, H4, H; [|done..].
  by transitivity k1; [|transitivity k2; [|transitivity k3; [|transitivity k4]]].
Qed.

Lemma load_program_moved b t e k k' :
  load_program read_header sizeof_header NOFFMAGIC e t k = Ok k' -> moved b t k k'.
Proof.
  unfold load_program. intros H. apply bind_Ok in H as ([s w] & _ & H).
  eapply (set_space_moved b t) in H; [|by left]. transitivity (set_world w k); [|done].
  by apply quiet_moved.
Qed.

Lemma Exec_moved t k k' us :
  NachOS_Exec fileSystem_Open new_registers t k = Ok (k', us) -> moved (next k) t k k'.
Proof.
  unfold NachOS_Exec. intros H. apply bind_Ok in H as (addr & _ & H).
  apply bind_Ok in H as ([name k0] & Hn & H). apply quiet_name in Hn.
  apply bind_Ok in H as ([ex d] & _ & H). cbv zeta in H.
  set (k1 := set_world _ k0) in H. assert (quiet k k1) as Hq by (transitivity k0; [done|apply quiet_world]).
  clearbody k1. pose proof (q_next _ _ Hq) as N. transitivity k1; [by apply quiet_moved|].
  destruct ex as [e|].
  - destruct (new_Thread new_registers k1) as [n k2] eqn:E2.
    apply bind_Ok in H as ([st k3] & H3 & H). apply bind_Ok in H as (k4 & H4 & H). injection H as <- _.
    apply (new_Thread_moved (next k) t) in E2 as [M2 ->]; [|done]. apply quiet_Open in H3.
    apply (ShareResources_moved (next k) t) in H4; [|done].
    transitivity k2; [done|]. transitivity k3; [by apply quiet_moved|]. transitivity k4; [done|].
    apply quiet_moved, quiet_argv.
  - apply quiet_return in H; [|exact 0%nat]. by apply quiet_moved.
Qed.

Lemma Fork_moved t k k' us :
  NachOS_Fork new_registers t k = Ok (k', us) -> moved (next k) t k k'.
Proof.
  unfold NachOS_Fork. intros H. destruct (new_Thread new_registers k) as [n k1] eqn:E1.
  apply (new_Thread_moved (next k) t) in E1 as [M1 ->]; [|done].
  apply bind_Ok in H as (th & _ & H). apply bind_Ok in H as (father & _ & H).
  apply bind_Ok in H as ([s w] & _ & H). apply bind_Ok in H as (k2 & H2 & H).
  apply bind_Ok in H as ([id k3] & H3 & H). apply bind_Ok in H as (k4 & H4 & H).
  apply bind_Ok in H as (addr & _ & H). injection H as <- _.
  apply (set_space_moved (next k) t) in H2; [|by right]. apply quiet_Open in H3.
  apply (ShareResources_moved (next k) t) in H4; [|done].
  transitivity k1; [done|]. transitivity (set_world w k1); [by apply quiet_moved|].
  transitivity k2; [done|]. transitivity k3; [by apply quiet_moved|done].
Qed.

Lemma removeResources_moved b t k k' : removeResources t k = Ok k' -> moved b t k k'.
Proof.
  intros H. destruct (removeResources_left t k k' H) as (u & k0 & lf & Hu & Hq & N0 & Hn & Ht & _).
  split; [lia| |]; rewrite Ht.
  - intros i Hi _. by rewrite lookup_delete_ne.
  - intros i [v Hv]. left. apply lookup_delete_Some in Hv as [_ Hv]. by exists v.
Qed.

(** ** The effects of a piece of code of a thread *)
Inductive effect (t : nat) (k k' : OS) : Prop :=
  | eff_quiet : quiet k k' -> effect t k k'
  | eff_exec k1 us :
      quiet k k1 -> NachOS_Exec fileSystem_Open new_registers t k1 = Ok (k', us) -> effect t k k'
  | eff_fork k1 us :
      quiet k k1 -> NachOS_Fork new_registers t k1 = Ok (k', us) -> effect t k k'
  | eff_load e k1 :
      load_program read_header sizeof_header NOFFMAGIC e t k = Ok k1 -> quiet k1 k' -> effect t k k'.

Lemma ok_any {L} (u : ucall L) : ok_call (fun _ => True) u.
Proof.
  revert u. fix IH 1. intros u. destruct u as [| | | | | | | | | | | | | |t body| | | |]; try by apply ok_other.
  - apply ok_fork. induction body; constructor; [apply IH|assumption].
  - by apply ok_code.
Qed.

Lemma ExceptionHandler_effect which t k k0 k' us :
  quiet k k0 -> ExceptionHandler fileSystem_Open new_registers which t k0 = Ok (k', us) ->
  effect t k k'.
Proof.
  unfold ExceptionHandler. intros Hk H. apply bind_Ok in H as (type & _ & H).
  destruct which; try done; [|injection H as <- <-; by apply eff_quiet].
  apply bind_Ok in H as ([k1 us1] & H1 & H). injection H as <- <-.
  destruct (decide (type = 2)) as [->|]; [by eapply eff_exec|].
  destruct (decide (type = 9)) as [->|]; [by eapply eff_fork|].
  apply quiet_syscall in H1; [|done..]. apply eff_quiet. by transitivity k0.
Qed.

Lemma call_effect c t k k' us : call c t k = Ok (k', us) -> effect t k k'.
Proof.
  intros H. destruct c; cbn [Syscall.call] in H.
  - unfold do_Run in H. apply bind_Ok in H as ([which m] & _ & H).
    apply bind_Ok in H as ([k1 us1] & H1 & H). injection H as <- <-.
    by eapply ExceptionHandler_effect, H1.
  - apply eff_quiet. unfold do_NachOSForkThread in H. prog. quiet_facts. quiet_chain.
  - apply bind_Ok in H as (k1 & H1 & H). injection H as <- <-. unfold do_execProcess in H1.
    apply bind_Ok in H1 as (e & _ & H1). apply bind_Ok in H1 as (k2 & H2 & H1).
    eapply eff_load; [exact H2|by eapply start_program_quiet].
  - apply eff_quiet. unfold advance_pc in H. prog. quiet_facts. quiet_chain.
  - apply eff_quiet. by apply quiet_return in H.
  - apply eff_quiet. apply bind_Ok in H as ([id k1] & H1 & H). apply quiet_Open in H1.
    apply quiet_return in H; [|exact 0%nat]. by transitivity k1.
  - apply eff_quiet. apply bind_Ok in H as (k1 & H1 & H). apply quiet_Close in H1.
    apply quiet_return in H; [|exact 0%nat]. by transitivity k1.
  - apply eff_quiet. apply bind_Ok in H as ([st k1] & H1 & H). injection H as <- <-.
    by eapply quiet_do_write.
  - apply eff_quiet. apply bind_Ok in H as ([st k1] & H1 & H). injection H as <- <-.
    by eapply quiet_do_read.
  - apply eff_quiet. apply quiet_return in H; [|exact 0%nat].
    transitivity (set_argv (delete newThread (argv k)) k); [apply quiet_argv|done].
Qed.

Lemma effect_moved t k k' : effect t k k' -> moved (next k) t k k'.
Proof.
  intros [Hq|k1 us Hq H|k1 us Hq H|e k1 H Hq].
  - by apply quiet_moved.
  - transitivity k1; [by apply quiet_moved|]. apply Exec_moved in H as [A B C].
    pose proof (q_next _ _ Hq). split; [done| |done]. intros i Hi Hb. apply B; [done|lia].
  - transitivity k1; [by apply quiet_moved|]. apply Fork_moved in H as [A B C].
    pose proof (q_next _ _ Hq). split; [done| |done]. intros i Hi Hb. apply B; [done|lia].
  - transitivity k1; [by eapply load_program_moved|by apply quiet_moved].
Qed.

Lemma effect_shared t k k' : effect t k k' -> shared k -> small k' -> shared k'.
Proof.
  intros [Hq|k1 us Hq H|k1 us Hq H|e k1 H Hq] Hk Hs.
  - by eapply quiet_shared.
  - eapply Exec_shared, Hs; [by eapply quiet_shared|done].
  - eapply Fork_shared, Hs; [by eapply quiet_shared|done].
  - eapply quiet_shared; [done|]. by eapply load_program_shared.
Qed.

(** ** Context switches *)
Lemma SaveUserState_eq m :
  length (registers m) = Z.to_nat NumTotalRegs -> SaveUserState m = Ok (registers m).
Proof.
  intros Hl. unfold SaveUserState.
  destruct (for_range_rule (fun i regs => regs = take (Z.to_nat i) (registers m))
    (Z.to_nat NumTotalRegs) 0 (fun i regs => v ← ReadRegister i m; Ok (regs ++ [v])) [])
    as (regs & -> & ->); [done| |by rewrite firstn_all2 by (rewrite Hl; done)].
  intros i regs Hi ->. change (0 + Z.of_nat (Z.to_nat NumTotalRegs)) with NumTotalRegs in Hi.
  unfold ReadRegister, reg. rewrite (ASSERT_true _) by (apply andb_true_iff; lia). cbn [bind].
  destruct (zget_is_Ok (registers m) i) as [v Hv]; [rewrite Hl; lia|].
  rewrite Hv. cbn [bind]. eexists. split; [done|]. apply zget_Ok in Hv as [_ Hv].
  rewrite Z2Nat.inj_add, Nat.add_1_r by lia. by rewrite (take_S_r _ _ v).
Qed.

Lemma RestoreUserState_eq regs m :
  length (registers m) = Z.to_nat NumTotalRegs -> length regs = Z.to_nat NumTotalRegs ->
  RestoreUserState regs m = Ok (set_registers regs m).
Proof.
  intros Hl Hr. unfold RestoreUserState.
  destruct (for_range_rule (fun i m' =>
      m' = set_registers (take (Z.to_nat i) regs ++ drop (Z.to_nat i) (registers m)) m)
    (Z.to_nat NumTotalRegs) 0 (fun i m => v ← zget regs i; WriteRegister i v m) m)
    as (m' & -> & ->).
  - by destruct m.
  - intros i m1 Hi ->. change (0 + Z.of_nat (Z.to_nat NumTotalRegs)) with NumTotalRegs in Hi.
    destruct (zget_is_Ok regs i) as [v Hv]; [rewrite Hr; lia|]. rewrite Hv. cbn [bind].
    apply zget_Ok in Hv as [_ Hv]. unfold WriteRegister.
    rewrite (ASSERT_true _) by (apply andb_true_iff; lia). cbn [bind].
    assert (Z.to_nat i < Z.to_nat NumTotalRegs)%nat by lia.
    rewrite set_reg_eq by (rewrite ?length_app, ?length_take, ?length_drop; cbn [registers set_registers];
      rewrite ?length_app, ?length_take, ?length_drop; lia).
    eexists. split; [done|]. cbn [registers set_registers].
    rewrite insert_app_r_alt by (rewrite length_take; lia).
    rewrite length_take_le, Nat.sub_diag by lia.
    destruct (lookup_lt_is_Some_2 (registers m) (Z.to_nat i)) as [w Hw]; [lia|].
    rewrite (drop_S _ w _ Hw). cbn [insert list_insert].
    by rewrite Z2Nat.inj_add, Nat.add_1_r, (take_S_r _ _ v), <- app_assoc by (lia || done).
  - rewrite firstn_all2, skipn_all2, app_nil_r by (rewrite ?Hr, ?Hl; done). done.
Qed.

Lemma SaveState_next t (k : OS) : next (SaveState t k) = next k.
Proof.
  unfold SaveState, total, save_thread. destruct (uthreads k !! t) as [[? [] ? ?]|]; try done.
  by destruct (SaveUserState _).
Qed.

Lemma RestoreState_threads t (k : OS) :
  uthreads (RestoreState t k) = uthreads k /\ next (RestoreState t k) = next k.
Proof.
  unfold RestoreState, total, restore_thread. destruct (uthreads k !! t) as [[? [] ? ?]|]; try done.
  by destruct (RestoreUserState _ _).
Qed.

Lemma SaveState_other t i (k : OS) : i <> t -> uthreads (SaveState t k) !! i = uthreads k !! i.
Proof.
  intros Hi. unfold SaveState, total, save_thread.
  destruct (uthreads k !! t) as [[? [] ? ?]|]; try done. destruct (SaveUserState _); try done. cbn.
  by rewrite lookup_insert_ne.
Qed.

(** ** Executions

    A device may interrupt and signal any semaphore; its handler does not touch the
    tables. *)
Definition device_interrupt (x : OS) (s : nat) (x' : OS) : Prop := x' = x.

#[local] Abbreviation sys_step :=
  (Threads.sys_step SaveState RestoreState call removeResources device_interrupt).
#[local] Abbreviation runs :=
  (Threads.runs SaveState RestoreState call removeResources device_interrupt).

(** The system goes on until the thread [t] has the processor (again). *)
Inductive away (t : nat) : Kernel OS code -> Kernel OS code -> Prop :=
  | away_refl k : away t k k
  | away_step k1 k2 es k3 :
      away t k1 k2 -> currentThread k2 <> t -> sys_step k2 es k3 -> away t k1 k3.

Lemma runs_shared k0 es k :
  shared (client k0) -> runs k0 es k -> small (client k) -> shared (client k).
Proof.
  intros H0 Hr. assert (ok_kernel (fun x => small x -> shared x) (fun _ => True) k) as [H _]; [|exact H].
  revert Hr. apply runs_ok_kernel.
  - intros c t x x' us Hx _ Hc. apply call_effect in Hc. split; [|apply Forall_true, ok_any].
    intros Hs. eapply effect_shared; [done| |done]. apply Hx.
    eapply small_le, Hs. by eapply mv_next, effect_moved.
  - intros t x x' Hx Hc Hs. pose proof (removeResources_moved 0 t x x' Hc) as Hm.
    eapply removeResources_shared, Hc; [apply Hx|]; eapply small_le, Hs; apply Hm.
  - intros t x Hx Hs. apply save_thread_shared, Hx. unfold small in *. by rewrite SaveState_next in Hs.
  - intros t x Hx Hs. apply restore_thread_shared, Hx. unfold small in *. by rewrite (proj2 (RestoreState_threads _ _)) in Hs.
  - intros x s x' Hx ->. done.
  - split; [done|]. intros t th Hth. apply Forall_true. intros o. destruct o; try done. apply ok_any.
Qed.

Lemma away_keeps t k1 k2 :
  away t k1 k2 -> (t < next (client k1))%nat -> (t < next (client k2))%nat /\
  uthreads (client k2) !! t = uthreads (client k1) !! t.
Proof.
  intros Ha Ht. induction Ha as [k|k1 k2 es k3 _ IH Hc Hs]; [done|]. specialize (IH Ht) as [N E2].
  apply (sys_step_client _ _ _ _ _ (fun x x' => (t < next x)%nat -> (t < next x')%nat /\
    uthreads x' !! t = uthreads x !! t) t) in Hs; try done.
  - destruct Hs as [? Hs]. split; [done|congruence].
  - intros c t' x x' us Hne Hc' Hx. apply call_effect, effect_moved in Hc' as [A B _].
    split; [lia|]. by apply B.
  - intros t' x x' Hne Hc' Hx. apply (removeResources_moved (next x)) in Hc' as [A B _].
    split; [lia|]. by apply B.
  - intros t' x Hne Hx. split; [by rewrite SaveState_next|by apply SaveState_other].
  - intros t' x Hne Hx. by destruct (RestoreState_threads t' x) as [-> ->].
  - intros x s x' -> Hx. done.
Qed.

Lemma start_shared w u filename k0 :
  start read_header sizeof_header NOFFMAGIC fileSystem_Open new_registers new_ints new_pointers
    new_words w u filename = Ok k0 -> shared (client k0).
Proof.
  unfold start. intros H. apply bind_Ok in H as ([x us] & H & [= <-]). cbn.
  eapply StartProcess_shared, H; [apply initial_shared|apply lookup_singleton_eq|done|done].
Qed.

(** The deterministic steps of the other threads. *)
Fixpoint gone (n : nat) (t : nat) (k : Kernel OS code) : res (Kernel OS code) :=
  match n with
  | O => Ok k
  | S n =>
      if Nat.eqb (currentThread k) t then UB
      else '(_, k) ← step SaveState RestoreState call removeResources k; gone n t k
  end.

Lemma away_step_l t k1 k2 es k3 :
  currentThread k1 <> t -> sys_step k1 es k2 -> away t k2 k3 -> away t k1 k3.
Proof.
  intros Hc Hs Ha. revert k1 es Hc Hs. induction Ha as [k|ka kb es' kc _ IH Hc' Hs']; intros k1 es Hc Hs.
  - by eapply away_step; [apply away_refl|..].
  - by eapply away_step; [by eapply IH|..].
Qed.

Lemma gone_away n t k k' : gone n t k = Ok k' -> away t k k'.
Proof.
  revert k. induction n as [|n IH]; cbn; intros k H; [injection H as <-; apply away_refl|].
  destruct (Nat.eqb_spec (currentThread k) t); [done|]. apply bind_Ok in H as ([es k1] & H1 & H).
  eapply away_step_l; [done|by apply step_run|by apply IH].
Qed.

(** ** Properties *)

(** C9: in every state that the system reaches from the start of a program, the
    pointers of a thread to its five tables are valid, and the counter of each table
    is the number of the threads that have a pointer to it, which is not zero: no
    thread uses a table after it was deleted, and a table without threads was
    deleted.  ([next] counts the objects that were created; below 2^31 the counters do
    not wrap around.) *)
Theorem tables_shared w u filename k0 es k :
  start read_header sizeof_header NOFFMAGIC fileSystem_Open new_registers new_ints new_pointers
    new_words w u filename = Ok k0 ->
  runs k0 es k -> small (client k) ->
  let threads := uthreads (client k) in
  (forall t th, threads !! t = Some th ->
    (forall l, fileTable th = Some l -> is_Some (fileTables (client k) !! l)) /\
    (forall kd l, table th kd = Some l -> is_Some (objectTables (client k) kd !! l))) /\
  (forall l tb, fileTables (client k) !! l = Some tb ->
    ControlTable.usage tb = count fileTable l threads /\ 0 < ControlTable.usage tb) /\
  (forall kd l tb, objectTables (client k) kd !! l = Some tb ->
    ControlTable.usage tb = count (fun th => table th kd) l threads /\ 0 < ControlTable.usage tb).
Proof.
  intros H0 Hr Hs threads. apply start_shared in H0.
  destruct (runs_shared _ _ _ H0 Hr Hs) as [_ _ _ S4 S5]. split_and!.
  - intros t th Ht. split; [intros l Hl|intros kd l Hl].
    + destruct (counted_valid _ _ _ _ _ _ _ S4 Ht Hl) as [tb ->]. done.
    + destruct (counted_valid _ _ _ _ _ _ _ (S5 kd) Ht Hl) as [tb ->]. done.
  - intros l tb Hl. specialize (S4 l). rewrite Hl in S4. destruct S4 as [-> ?]. done.
  - intros kd l tb Hl. specialize (S5 kd l). rewrite Hl in S5. destruct S5 as [-> ?]. done.
Qed.

(** C10: a thread of a user program that loses the processor finds its registers and
    its page table as it left them when it gets the processor back, whatever the other
    threads and the devices did in the meantime; memory and page tables are as they
    left them. *)
Theorem context_switch_correct w u filename k0 es kr k n c k1 k2 k3 th s :
  start read_header sizeof_header NOFFMAGIC fileSystem_Open new_registers new_ints new_pointers
    new_words w u filename = Ok k0 ->
  runs k0 es kr -> small (client kr) ->
  client k = client kr ->
  uthreads (client k) !! currentThread k = Some th -> space th = Some s ->
  length (registers (the_machine (client k))) = Z.to_nat NumTotalRegs ->
  Threads.Run SaveState n c k = Ok k1 ->
  away (currentThread k) k1 k2 -> currentThread k2 = currentThread k ->
  length (registers (the_machine (client k2))) = Z.to_nat NumTotalRegs ->
  finish_Run RestoreState k2 = Ok k3 ->
  let m := the_machine (client k) in
  let m2 := the_machine (client k2) in
  let m3 := the_machine (client k3) in
  registers m3 = registers m /\
  pageTable m3 = Some (AddrSpace.pageTable s) /\ pageTableSize m3 = AddrSpace.numPages s /\
  mainMemory m3 = mainMemory m2 /\ tables m3 = tables m2.
Proof.
  intros H0 Hr Hs Hc Hth Hsp Hl HRun Ha Hcur Hl2 Hfin m m2 m3. apply start_shared in H0.
  pose proof (sh_threads _ (runs_shared _ _ _ H0 Hr Hs)) as Hn. rewrite <- Hc in Hn.
  specialize (Hn _ _ Hth). apply Run_client in HRun.
  assert (SaveState (currentThread k) (client k) =
    set_uthreads (<[currentThread k := mkUThread (registers m) (Some s) (fileTable th) (table th)]>
      (uthreads (client k))) (client k)) as HS.
  { unfold SaveState, total, save_thread. rewrite Hth. destruct th as [r sp f tb]. cbn in Hsp.
    subst sp. rewrite SaveUserState_eq by done. cbn. by destruct (client k) as [[] ? ? ? ? ? ? ?]. }
  rewrite HS in HRun. destruct (away_keeps _ _ _ Ha) as [_ Hk2]; [by rewrite HRun|].
  rewrite HRun in Hk2. cbn in Hk2. rewrite lookup_insert_eq in Hk2.
  apply finish_Run_client in Hfin as [Hfin _]. unfold m3. rewrite Hfin, Hcur.
  unfold RestoreState, total, restore_thread. rewrite Hk2, RestoreUserState_eq by done. done.
Qed.

End system.

(** ** A program that forks a thread, and then both yield *)
Module Sample.

#[export] Instance host : UNIX unit := {|
  creat _ u := (0, u);
  open _ u := (7, u);
  read _ n u := (0, [], u);
  write _ bytes u := (Z.of_nat (length bytes), u);
  close _ u := (0, u);
  printf _ u := u;
  fprintf_stderr _ u := u;
  socket _ _ u := (8, u);
  family _ _ := false;
  inet_pton _ _ := (1, [127; 0; 0; 1]);
  connect _ _ _ _ _ u := (0, u);
  bind_ _ _ _ _ u := (0, u);
  listen _ _ u := (0, u);
  accept _ u := (9, u);
  shutdown _ _ u := (0, u)
|}.

#[export] Existing Instance AddrSpace.list_Executable.

(** The main thread calls Fork once; register 16 remembers it. *)
Definition user (t : nat) (m : Machine) : res (ExceptionType * Machine) :=
  r ← ReadRegister 16 m;
  let first := Nat.eqb t 0 && (r =? 0) in
  m ← WriteRegister 16 (r + 1) m;
  m ← WriteRegister 2 (if first then 9 else 10) m;
  Ok (SyscallException, m).

Definition fileSystem_Open (name : list Z) (d : unit) : res (option (list Z) * unit) :=
  Ok (Some AddrSpace.program, d).

Definition zeros (n : nat) : list Z := replicate n 0.

Definition call := @call (list Z) unit unit _ _ AddrSpace.noff 40 AddrSpace.magic
  fileSystem_Open user (zeros 40).

Definition start : res (Kernel (OS (E := list Z) (D := unit) (U := unit)) code) :=
  start AddrSpace.noff 40 AddrSpace.magic fileSystem_Open (zeros 40) (zeros 100)
    (replicate 100 None) (zeros 4) AddrSpace.world0 tt [].

Definition kernel0 : Kernel (OS (E := list Z) (D := unit) (U := unit)) code :=
  match start with
  | Ok k => k
  | _ => boot [] (initial (zeros 40) AddrSpace.world0 tt) (fun _ => new_Semaphore 0)
           (fun _ => new_Lock) (fun _ => new_Condition) (fun _ => new_Mutex) (fun _ => new_Barrier 0)
  end.

#[local] Abbreviation runs :=
  (Threads.runs SaveState RestoreState call removeResources device_interrupt).

(** After [n] steps. *)
Definition after (n : nat) : list event * Kernel OS code :=
  outcome SaveState RestoreState call removeResources n kernel0.

Lemma sample_runs n :
  completes SaveState RestoreState call removeResources n kernel0 = true ->
  runs kernel0 (after n).1 (after n).2.
Proof. apply outcome_runs. Qed.

Lemma tables_shared_witness :
  let k := (after 4).2 in
  exists tb, fileTables (client k) !! 1%nat = Some tb /\ ControlTable.usage tb = 2 /\
    count fileTable 1 (uthreads (client k)) = 2.
Proof.
  intros k.
  destruct (tables_shared AddrSpace.noff 40 AddrSpace.magic fileSystem_Open user (zeros 40) (zeros 100)
    (replicate 100 None) (zeros 4) AddrSpace.world0 tt [] kernel0 (after 4).1 k) as (_ & H & _).
  - by vm_compute.
  - apply sample_runs. by vm_compute.
  - by vm_compute.
  - destruct (fileTables (client k) !! 1%nat) as [tb|] eqn:Htb; [|by vm_compute in Htb].
    destruct (H 1%nat tb Htb) as [Hu _]. exists tb. split; [done|].
    assert (count fileTable 1 (uthreads (client k)) = 2) as Hc by (by vm_compute).
    split; [etransitivity; [exact Hu|exact Hc]|exact Hc].
Defined.

(** The main thread yields after four steps; it is at the start of [Run] in
    [switching], the other thread runs from [switched] to [back]. *)
Definition result {A} (d : A) (r : res A) : A := match r with Ok a => a | _ => d end.

Definition rest : list (op code) := [Restore Interrupt.IntOn; Do (Call getNextInstruction); Do (Call Run)].
Definition switching : Kernel OS code :=
  result kernel0 (ReadyToRun 0 (set_ready [] (set_level Interrupt.IntOff (after 4).2))).
Definition switched : Kernel OS code := result kernel0 (Threads.Run SaveState 6 rest switching).
Definition others : nat -> res (Kernel OS code) :=
  fun n => gone AddrSpace.noff 40 AddrSpace.magic fileSystem_Open user (zeros 40) n 0 switched.
Definition back : Kernel OS code := result kernel0 (others 4).

Lemma context_switch_correct_witness :
  exists k3, finish_Run RestoreState back = Ok k3 /\
    registers (the_machine (client back)) !! 16%nat = Some 1 /\
    registers (the_machine (client k3)) !! 16%nat = Some 2.
Proof.
  destruct (finish_Run RestoreState back) as [k3| | | |] eqn:Hf; try by vm_compute in Hf.
  exists k3. split; [done|]. split; [by vm_compute|].
  destruct (uthreads (client switching) !! 0%nat) as [th|] eqn:Hth; [|by vm_compute in Hth].
  destruct (space th) as [sp|] eqn:Hsp; [|by vm_compute in Hth; injection Hth as <-].
  destruct (context_switch_correct AddrSpace.noff 40 AddrSpace.magic fileSystem_Open user (zeros 40)
    (zeros 100) (replicate 100 None) (zeros 4) AddrSpace.world0 tt [] kernel0 (after 4).1 (after 4).2
    switching 6 rest switched back k3 th sp) as [H _].
  - by vm_compute.
  - apply sample_runs. by vm_compute.
  - by vm_compute.
  - by vm_compute.
  - exact Hth.
  - exact Hsp.
  - by vm_compute.
  - by vm_compute.
  - apply (gone_away _ _ _ _ _ _ 4). by vm_compute.
  - by vm_compute.
  - by vm_compute.
  - exact Hf.
  - rewrite H. by vm_compute.
Defined.

End Sample.

End Processes.
