(* ===== verification/UserMemory.v ===== *)
(** userprog/exception.cc: what the handlers read and write in the memory of a user
    program.

    Module [UserMemory]: with the page table of an address space on the machine,
    [memory] is the program's memory as one list of bytes.  The theorems state
    [ReadMem], [WriteMem] and the reading of a name as operations on that list. *)

From S2P Require Import Prelude BitMap MachineState AddrSpace Synch Syscall.

Module UserMemory.

Import Machine AddrSpace Syscall.

(** The machine runs a program whose pages are the frames [ps]. *)
Record mapped (ps : list Z) (m : Machine) : Prop := {
  mp_mem : mem_ok m;
  mp_tlb : tlb m = None;
  mp_table : exists a table,
    Machine.pageTable m = Some a /\ tables m !! a = Some table /\ frames table = ps /\
    pageTableSize m = Z.of_nat (length table) /\
    Forall (fun e => valid e = true /\ readOnly e = false) table;
  mp_frames : Forall frame_ok ps;
  mp_nodup : NoDup ps;
  mp_max : (length ps <= 32)%nat
}.

Definition memory (ps : list Z) (m : Machine) : list Z := vpages ps (mainMemory m).

(** The number of bytes of the program. *)
Definition extent (ps : list Z) : Z := 128 * Z.of_nat (length ps).

Lemma length_memory ps m : mapped ps m -> Z.of_nat (length (memory ps m)) = extent ps.
Proof.
  intros [[Hl _] _ _ Hf _ _]. unfold memory, extent. rewrite length_vpages by done. lia.
Qed.

(** An access changes the use bits of one entry. *)
Definition touched (m m' : Machine) : Prop :=
  mainMemory m' = mainMemory m /\ registers m' = registers m.

Lemma Translate_byte ps m v (w : bool) :
  mapped ps m -> 0 <= v < extent ps ->
  exists p m', ps !! Z.to_nat (v / 128) = Some p /\ frame_ok p /\
    Translate v 1 w m = Ok (inr (p * 128 + v mod 128, m')) /\ mapped ps m' /\ touched m m'.
Proof.
  intros [Hmem Htlb (a & table & Ha & Ht & Hps & Hn & Hv) Hf Hnd Hmax] Hrange. unfold extent in Hrange.
  assert (length ps = length table) as Hlen by (rewrite <- Hps; apply length_fmap).
  pose proof (Z.div_pos v 128 ltac:(lia) ltac:(lia)) as Hk0.
  pose proof (Z.div_lt_upper_bound v 128 (Z.of_nat (length ps)) ltac:(lia) ltac:(lia)) as Hk1.
  destruct (lookup_lt_is_Some_2 table (Z.to_nat (v / 128))) as [e He]; [lia|].
  assert (ps !! Z.to_nat (v / 128) = Some (physicalPage e)) as Hp
    by (rewrite <- Hps; unfold frames; by rewrite list_lookup_fmap, He).
  pose proof (Forall_lookup_1 _ _ _ _ Hf Hp) as Hpf. pose proof Hpf as Hpf'.
  unfold frame_ok in Hpf'. change NumPhysPages with 32 in Hpf'.
  destruct (Forall_lookup_1 _ _ _ _ Hv He) as [Hve Hro].
  set (table' := <[Z.to_nat (v / 128) := marked w e]> table).
  exists (physicalPage e), (set_table a table' m).
  split; [done|]. split; [done|]. split; [|split; [|done]].
  - unfold Translate. cbn [Z.eqb Pos.eqb andb orb]. rewrite Htlb, Ha. cbn [isNull orb negb bind ASSERT].
    rewrite u32_small by lia. change PageSize with 128. unfold lookup_entry. rewrite Htlb, Ha, Hn.
    destruct (Z.leb_spec (Z.of_nat (length table)) (v / 128)) as [?|_]; [lia|].
    cbn [bind]. rewrite Ht. assert (zget table (v / 128) = Ok e) as -> by (apply zget_Ok; split; [lia|done]).
    cbn [bind]. rewrite Hve. cbn [negb bind]. rewrite Hro. cbn [andb]. rewrite u32_small by lia. change NumPhysPages with 32.
    destruct (Z.leb_spec 32 (physicalPage e)) as [?|_]; [lia|].
    unfold store_entry. rewrite Ht. rewrite zset_eq by lia. cbn [bind].
    pose proof (Z.mod_pos_bound v 128 ltac:(lia)). rewrite s32_id by (unfold is_s32; lia).
    rewrite ASSERT_true by (change MemorySize with 4096; apply andb_true_iff; lia). done.
  - split; [by destruct Hmem|exact Htlb| |done|done|done]. exists a, table'.
    split; [done|]. split; [apply lookup_insert_eq|]. split; [|split].
    + rewrite <- Hps. unfold frames, table'. rewrite list_fmap_insert.
      apply list_insert_id. rewrite list_lookup_fmap, He. by destruct w.
    + unfold table'. by rewrite length_insert.
    + apply Forall_insert; [done|]. by destruct w.
Qed.

(** An address past the program. *)
Lemma Translate_outside ps m v (w : bool) :
  mapped ps m -> extent ps <= v < 2 ^ 32 -> Translate v 1 w m = Ok (inl AddressErrorException).
Proof.
  intros [Hmem Htlb (a & table & Ha & Ht & Hps & Hn & Hv) Hf Hnd Hmax] Hrange. unfold extent in Hrange.
  assert (length ps = length table) as Hlen by (rewrite <- Hps; apply length_fmap).
  unfold Translate. cbn [Z.eqb Pos.eqb andb orb]. rewrite Htlb, Ha. cbn [isNull orb negb bind ASSERT].
  rewrite u32_small by lia. change PageSize with 128. unfold lookup_entry. rewrite Htlb, Ha, Hn.
  pose proof (Z.div_le_lower_bound v 128 (Z.of_nat (length ps)) ltac:(lia) ltac:(lia)).
  destruct (Z.leb_spec (Z.of_nat (length table)) (v / 128)) as [_|?]; [done|lia].
Qed.

Lemma touched_memory ps m m' : touched m m' -> memory ps m' = memory ps m.
Proof. intros [H _]. unfold memory. by rewrite H. Qed.

(** The byte of a virtual address in physical memory. *)
Lemma memory_byte ps m v p :
  mapped ps m -> 0 <= v < extent ps -> ps !! Z.to_nat (v / 128) = Some p ->
  exists b, zget (mainMemory m) (p * 128 + v mod 128) = Ok b /\
    memory ps m !! Z.to_nat v = Some b /\ is_byte b.
Proof.
  intros Hm Hv Hp. pose proof Hm as [[Hl Hb] _ _ Hf _ _]. unfold extent in Hv.
  pose proof (Z.mod_pos_bound v 128 ltac:(lia)) as Ho.
  pose proof (Forall_lookup_1 _ _ _ _ Hf Hp) as Hpf. unfold frame_ok in Hpf. change NumPhysPages with 32 in Hpf.
  change MemorySize with 4096 in Hl.
  destruct (zget_is_Ok (mainMemory m) (p * 128 + v mod 128)) as [b Hz]; [lia|].
  exists b. split; [done|]. apply zget_Ok in Hz as [_ Hz]. split; [|by eapply Forall_lookup_1].
  pose proof (vpages_zslice ps (mainMemory m) (Z.to_nat (v / 128)) p (v mod 128) 1) as HS.
  pose proof (Z.div_mod v 128 ltac:(lia)). pose proof (Z.div_pos v 128 ltac:(lia) ltac:(lia)).
  specialize (HS Hl Hf Hp ltac:(lia) ltac:(lia) ltac:(lia)).
  apply (f_equal (fun l => l !! 0%nat)) in HS. rewrite !lookup_zslice, !Nat.add_0_r in HS by lia.
  unfold memory. rewrite Hz in HS. rewrite <- HS. f_equal. lia.
Qed.

Lemma u8_s8 b : is_byte b -> u8 (s8 b) = b.
Proof. unfold is_byte, u8, s8, swrap, wrap. intros H. change (2 ^ 8) with 256. change (2 ^ (8 - 1)) with 128. dlia. Qed.

Lemma user_ReadMem_byte ps m v :
  mapped ps m -> 0 <= v < extent ps ->
  exists b x m', user_ReadMem v m = Ok (x, m') /\ u8 x = b /\ memory ps m !! Z.to_nat v = Some b /\
    mapped ps m' /\ touched m m'.
Proof.
  intros Hm Hv. destruct (Translate_byte ps m v false Hm Hv) as (p & m' & Hp & _ & HT & Hm' & Ht).
  destruct (memory_byte ps m v p Hm Hv Hp) as (b & Hz & Hb & Hbyte).
  exists b, (s8 b), m'. split; [|split; [by apply u8_s8|done]].
  unfold user_ReadMem. rewrite HT. cbn [bind]. unfold load. cbn [Z.eqb Pos.eqb].
  destruct Ht as [-> _]. by rewrite Hz.
Qed.

Lemma user_WriteMem_byte ps m v x :
  mapped ps m -> 0 <= v < extent ps ->
  exists m', user_WriteMem v x m = Ok m' /\ mapped ps m' /\
    memory ps m' = <[Z.to_nat v := u8 x]> (memory ps m) /\ registers m' = registers m /\
    forall p, frame_ok p -> ~ (p ∈ ps) ->
      page_bytes (mainMemory m') p = page_bytes (mainMemory m) p.
Proof.
  intros Hm Hv. destruct (Translate_byte ps m v true Hm Hv) as (p & m1 & Hp & Hpf & HT & Hm1 & Ht & Hr).
  pose proof (Z.mod_pos_bound v 128 ltac:(lia)) as Ho. pose proof (Z.div_mod v 128 ltac:(lia)) as Hd.
  unfold extent in Hv. pose proof (Z.div_pos v 128 ltac:(lia) ltac:(lia)) as Hk.
  pose proof Hm1 as [Hmem1 Htlb1 Htab1 Hf Hnd Hmax]. pose proof Hmem1 as [Hl1 _].
  pose proof Hpf as Hpf'. unfold frame_ok in Hpf'. change NumPhysPages with 32 in Hpf'.
  exists (set_memory (zsplice (p * 128 + v mod 128) [u8 x] (mainMemory m1)) m1). split.
  { unfold user_WriteMem. rewrite HT. cbn [bind]. unfold store. cbn [Z.eqb Pos.eqb].
    rewrite zset_zsplice by (change MemorySize with 4096 in Hl1; lia). done. }
  split; [|split; [|split; [done|]]].
  - split; [|done|done|done|done|done].
    pose proof (store_mem_ok (p * 128 + v mod 128) 1 x m1 Hmem1 ltac:(by left)) as Hs.
    apply Hs. unfold in_memory. change MemorySize with 4096. lia.
  - unfold memory. cbn [mainMemory set_memory].
    pose proof (vpages_zsplice (mainMemory m1) ps (Z.to_nat (v / 128)) p (v mod 128) [u8 x] Hl1 Hf Hnd Hp
      ltac:(lia) ltac:(change PageSize with 128; cbn; lia)) as HV. change PageSize with 128 in HV.
    rewrite HV, Ht.
    replace (Z.of_nat (Z.to_nat (v / 128)) * 128 + v mod 128) with v by lia.
    assert (zset (vpages ps (mainMemory m)) v (u8 x) = Ok (zsplice v [u8 x] (vpages ps (mainMemory m)))) as HZ.
    { apply zset_zsplice. pose proof (length_memory ps m Hm). unfold memory, extent in *. lia. }
    apply zset_Ok in HZ as [_ ->]. done.
  - intros q Hq Hnq. cbn [mainMemory set_memory]. rewrite <- Ht.
    pose proof (page_zsplice (mainMemory m1) p q (v mod 128) [u8 x] Hl1 Hpf Hq ltac:(lia)
      ltac:(change PageSize with 128; cbn; lia)) as HP. change PageSize with 128 in HP. rewrite HP.
    rewrite decide_False; [done|]. intros ->. apply Hnq. by eapply list_elem_of_lookup_2.
Qed.

(** ** The loops *)

(** The bytes up to the first zero, that zero included. *)
Fixpoint until_zero (l : list Z) : list Z :=
  match l with
  | [] => []
  | c :: l => if c =? 0 then [c] else c :: until_zero l
  end.

Lemma until_zero_length l : (length (until_zero l) <= length l)%nat.
Proof. induction l as [|c l IH]; cbn; [done|]. destruct (c =? 0); cbn; lia. Qed.

Lemma zslice_cons (l : list Z) v n b :
  0 <= v -> 0 < n -> l !! Z.to_nat v = Some b -> zslice v n l = b :: zslice (v + 1) (n - 1) l.
Proof.
  intros Hv Hn Hb. unfold zslice. rewrite (drop_S _ b _ Hb).
  replace (Z.to_nat n) with (S (Z.to_nat (n - 1))) by lia. cbn [take].
  by replace (Z.to_nat (v + 1)) with (S (Z.to_nat v)) by lia.
Qed.

(** A byte past the program stops the kernel. *)
Lemma user_ReadMem_outside ps m v :
  mapped ps m -> extent ps <= v < 2 ^ 32 -> user_ReadMem v m = Abort.
Proof. intros Hm Hv. unfold user_ReadMem. by rewrite (Translate_outside ps). Qed.

Lemma user_WriteMem_outside ps m v x :
  mapped ps m -> extent ps <= v < 2 ^ 32 -> user_WriteMem v x m = Abort.
Proof. intros Hm Hv. unfold user_WriteMem. by rewrite (Translate_outside ps). Qed.

Lemma zsplice_insert (l bs : list Z) v b :
  0 <= v < Z.of_nat (length l) -> v + 1 + Z.of_nat (length bs) <= Z.of_nat (length l) ->
  zsplice (v + 1) bs (<[Z.to_nat v := b]> l) = zsplice v (b :: bs) l.
Proof.
  intros Hv Hl. unfold zsplice. replace (Z.to_nat (v + 1)) with (S (Z.to_nat v)) by lia.
  rewrite (take_S_r _ _ b) by (apply list_lookup_insert_eq; lia).
  rewrite take_insert_ge, drop_insert_lt by lia. rewrite <- app_assoc. cbn [app length].
  by replace (Z.to_nat v + S (length bs))%nat with (S (Z.to_nat v) + length bs)%nat by lia.
Qed.

(** There is a zero, or the bytes end, before the end of the program. *)
Definition readable (v n : Z) (l : list Z) : bool :=
  (n =? 0) || (v + n <=? Z.of_nat (length l)) || bool_decide (0 ∈ zslice v n l).

Lemma readable_past v n l : 0 < n -> Z.of_nat (length l) <= v -> readable v n l = false.
Proof.
  intros Hn Hv. unfold readable. assert (zslice v n l = []) as ->.
  { unfold zslice. rewrite drop_ge by lia. apply take_nil. }
  destruct (Z.eqb_spec n 0), (Z.leb_spec (v + n) (Z.of_nat (length l))); try lia.
  cbn. apply bool_decide_eq_false_2. set_solver.
Qed.

Lemma readable_next v n l b :
  0 <= v < Z.of_nat (length l) -> 0 < n -> l !! Z.to_nat v = Some b ->
  readable v n l = (b =? 0) || readable (v + 1) (n - 1) l.
Proof.
  intros Hv Hn Hb. unfold readable. rewrite (zslice_cons l v n b) by (lia || done).
  replace (bool_decide (0 ∈ b :: zslice (v + 1) (n - 1) l))
    with ((b =? 0) || bool_decide (0 ∈ zslice (v + 1) (n - 1) l)).
  - replace (v + 1 + (n - 1)) with (v + n) by lia.
    destruct (Z.eqb_spec n 0), (Z.eqb_spec (n - 1) 0), (Z.leb_spec (v + n) (Z.of_nat (length l))),
      (b =? 0); try lia; done.
  - destruct (Z.eqb_spec b 0) as [->|Hne].
    + symmetry. apply bool_decide_eq_true_2. set_solver.
    + apply bool_decide_ext. set_solver.
Qed.

Lemma read_bytes_spec ps n v m :
  mapped ps m -> 0 <= v -> v + Z.of_nat n < 2 ^ 31 ->
  if readable v (Z.of_nat n) (memory ps m) then
    exists m', read_bytes n v m = Ok (until_zero (zslice v (Z.of_nat n) (memory ps m)), m') /\
      mapped ps m' /\ touched m m'
  else read_bytes n v m = Abort.
Proof.
  revert v m. induction n as [|n IH]; intros v m Hm Hv Hb.
  { rewrite zslice_0. cbn. by exists m. }
  pose proof (length_memory ps m Hm) as Hlen.
  destruct (Z.lt_ge_cases v (extent ps)) as [Hin|Hout].
  - destruct (user_ReadMem_byte ps m v Hm ltac:(lia)) as (b & x & m1 & HR & Hx & Hmb & Hm1 & Ht).
    rewrite (readable_next v _ _ b) by (lia || done). rewrite (zslice_cons _ v _ b) by (lia || done).
    cbn [read_bytes until_zero]. rewrite HR. cbn [bind]. rewrite Hx.
    replace (Z.of_nat (S n) - 1) with (Z.of_nat n) by lia.
    destruct (b =? 0); cbn [orb]; [by exists m1|].
    specialize (IH (v + 1) m1 Hm1 ltac:(lia) ltac:(lia)). rewrite (touched_memory ps _ _ Ht) in IH.
    destruct (readable _ _ _); [|by rewrite IH].
    destruct IH as (m2 & -> & Hm2 & Ht2). exists m2. split; [done|]. split; [done|].
    destruct Ht, Ht2. split; congruence.
  - rewrite readable_past by lia. cbn [read_bytes]. rewrite (user_ReadMem_outside ps) by (done || lia). done.
Qed.

Lemma write_bytes_spec ps src v m :
  mapped ps m -> 0 <= v -> v + Z.of_nat (length src) < 2 ^ 31 ->
  if (length src =? 0)%nat || (v + Z.of_nat (length src) <=? extent ps) then
    exists m', write_bytes (length src) v src m = Ok m' /\ mapped ps m' /\
      memory ps m' = zsplice v (u8 <$> src) (memory ps m) /\ registers m' = registers m /\
      forall p, frame_ok p -> ~ (p ∈ ps) ->
        page_bytes (mainMemory m') p = page_bytes (mainMemory m) p
  else write_bytes (length src) v src m = Abort.
Proof.
  revert v m. induction src as [|c src IH]; intros v m Hm Hv Hb.
  { cbn. exists m. by rewrite zsplice_nil. }
  cbn [length] in *. cbn [Nat.eqb orb write_bytes].
  pose proof (length_memory ps m Hm) as Hlen.
  destruct (Z.lt_ge_cases v (extent ps)) as [Hin|Hout].
  - destruct (user_WriteMem_byte ps m v c Hm ltac:(lia)) as (m1 & -> & Hm1 & Hmem & Hr & Ho).
    cbn [bind]. specialize (IH (v + 1) m1 Hm1 ltac:(lia) ltac:(lia)).
    assert (((length src =? 0)%nat || (v + 1 + Z.of_nat (length src) <=? extent ps)) =
      (v + Z.of_nat (S (length src)) <=? extent ps)) as HE.
    { destruct (Nat.eqb_spec (length src) 0), (Z.leb_spec (v + 1 + Z.of_nat (length src)) (extent ps)),
        (Z.leb_spec (v + Z.of_nat (S (length src))) (extent ps)); try lia; done. }
    rewrite HE in IH. destruct (Z.leb_spec (v + Z.of_nat (S (length src))) (extent ps)); [|done].
    destruct IH as (m2 & -> & Hm2 & Hmem2 & Hr2 & Ho2). exists m2.
    split; [done|]. split; [done|]. split; [|split; [congruence|]].
    + rewrite Hmem2, Hmem. cbn [fmap list_fmap]. apply zsplice_insert; [lia|].
      rewrite length_fmap. lia.
    + intros p Hp Hn. rewrite Ho2, Ho by done. done.
  - destruct (Z.leb_spec (v + Z.of_nat (S (length src))) (extent ps)); [lia|].
    rewrite (user_WriteMem_outside ps) by (done || lia). done.
Qed.

(** ** Names *)

Lemma until_zero_app name rest :
  Forall (fun c => c <> 0) name -> until_zero (name ++ 0 :: rest) = name ++ [0].
Proof.
  induction 1 as [|c name Hc _ IH]; [done|]. cbn. destruct (Z.eqb_spec c 0); [done|]. by rewrite IH.
Qed.

Lemma until_zero_all bs : Forall (fun c => c <> 0) bs -> until_zero bs = bs.
Proof. induction 1 as [|c bs Hc _ IH]; [done|]. cbn. destruct (Z.eqb_spec c 0); [done|]. by rewrite IH. Qed.

Lemma c_string_app name rest :
  Forall (fun c => c <> 0) name -> c_string (name ++ 0 :: rest) = Ok name.
Proof.
  induction 1 as [|c name Hc _ IH]; [done|]. cbn. destruct (Z.eqb_spec c 0); [done|]. by rewrite IH.
Qed.

Lemma c_string_open bs : Forall (fun c => c <> 0) bs -> c_string bs = UB.
Proof. induction 1 as [|c bs Hc _ IH]; [done|]. cbn. destruct (Z.eqb_spec c 0); [done|]. by rewrite IH. Qed.

Lemma zslice_more (l bs : list Z) v n :
  0 <= v -> zslice v (Z.of_nat (length bs)) l = bs -> Z.of_nat (length bs) <= n ->
  exists rest, zslice v n l = bs ++ rest.
Proof.
  unfold zslice. intros Hv Hb Hn. exists (drop (length bs) (take (Z.to_nat n) (drop (Z.to_nat v) l))).
  rewrite <- Hb at 1. rewrite Nat2Z.id, <- (take_drop (length bs) (take (Z.to_nat n) _)) at 1.
  by rewrite take_take, Nat.min_l by lia.
Qed.

(** *** ReadMem *)
Lemma ReadMem_spec ps m addr bytes :
  mapped ps m -> 0 <= addr -> addr + bytes < 2 ^ 31 ->
  if bytes <? 0 then ReadMem addr bytes m = UB
  else if readable addr bytes (memory ps m) then
    exists m', let read := until_zero (zslice addr bytes (memory ps m)) in
      ReadMem addr bytes m = Ok (read ++ replicate (Z.to_nat bytes - length read) 0, m') /\
      mapped ps m' /\ memory ps m' = memory ps m /\ registers m' = registers m
  else ReadMem addr bytes m = Abort.
Proof.
  intros Hm Ha Hb. unfold ReadMem. destruct (Z.ltb_spec bytes 0) as [|H0]; [done|].
  rewrite s32_id by (unfold is_s32; lia). replace (addr + bytes - addr) with bytes by lia.
  pose proof (read_bytes_spec ps (Z.to_nat bytes) addr m Hm Ha ltac:(lia)) as HR.
  rewrite Z2Nat.id in HR by lia. destruct (readable _ _ _).
  - destruct HR as (m' & -> & Hm' & Ht). exists m'. split; [done|]. split; [done|].
    split; [by apply touched_memory|apply Ht].
  - by rewrite HR.
Qed.

(** ** Properties *)

(** C27: [ReadMem] reads the bytes of the program's memory from an address up to the
    first zero and fills the rest of its buffer with zeros; it leaves memory and
    registers alone.  When there is neither a zero nor the end of the request before
    the end of the program, the kernel stops on the address error.  A negative size is
    undefined.  [ReadMemSTR] is the same function. *)
Theorem ReadMem_correct ps m addr bytes :
  mapped ps m -> 0 <= addr -> addr + bytes < 2 ^ 31 ->
  (ReadMemSTR addr bytes m = ReadMem addr bytes m) /\
  if bytes <? 0 then ReadMem addr bytes m = UB
  else if readable addr bytes (memory ps m) then
    exists m', let read := until_zero (zslice addr bytes (memory ps m)) in
      ReadMem addr bytes m = Ok (read ++ replicate (Z.to_nat bytes - length read) 0, m') /\
      mapped ps m' /\ memory ps m' = memory ps m /\ registers m' = registers m
  else ReadMem addr bytes m = Abort.
Proof. intros Hm Ha Hb. split; [done|]. by apply ReadMem_spec. Qed.

(** C28: bytes that [WriteMem] puts into the program's memory are there, and no other
    byte of the program and no other page of physical memory changes; [ReadMem] gets
    them back when none is zero.  A request past the end of the program stops the
    kernel. *)
Theorem user_memory_roundtrip ps m addr src :
  mapped ps m -> 0 <= addr -> addr + Z.of_nat (length src) < 2 ^ 31 -> Forall is_byte src ->
  let bytes := Z.of_nat (length src) in
  if (bytes =? 0) || (addr + bytes <=? extent ps) then
    exists m1, WriteMem addr bytes src m = Ok m1 /\ mapped ps m1 /\
      memory ps m1 = zsplice addr src (memory ps m) /\ registers m1 = registers m /\
      (forall p, frame_ok p -> ~ (p ∈ ps) ->
        page_bytes (mainMemory m1) p = page_bytes (mainMemory m) p) /\
      (Forall (fun c => c <> 0) src -> exists m2, ReadMem addr bytes m1 = Ok (src, m2))
  else WriteMem addr bytes src m = Abort.
Proof.
  intros Hm Ha Hb Hsrc bytes. unfold WriteMem. rewrite s32_id by (unfold is_s32; lia).
  replace (Z.to_nat (addr + bytes - addr)) with (length src) by lia.
  pose proof (write_bytes_spec ps src addr m Hm Ha Hb) as HW.
  replace ((length src =? 0)%nat) with (bytes =? 0) in HW
    by (destruct (Z.eqb_spec bytes 0), (Nat.eqb_spec (length src) 0); lia || done).
  fold bytes in HW. destruct ((bytes =? 0) || (addr + bytes <=? extent ps)) eqn:Hin; [|done].
  destruct HW as (m1 & -> & Hm1 & Hmem & Hr & Ho). exists m1.
  assert (u8 <$> src = src) as HE.
  { rewrite <- (list_fmap_id src) at 2. apply list_fmap_ext. intros i x Hx. apply u8_id.
    by eapply Forall_lookup_1. }
  rewrite HE in Hmem. split_and!; [done|done|done|done|done|]. intros Hnz. unfold ReadMem.
  pose proof (length_memory ps m1 Hm1) as Hl1. pose proof (length_memory ps m Hm) as Hl.
  assert (bytes = 0 \/ addr + bytes <= extent ps) as Hin'.
  { apply orb_true_iff in Hin as [?|?]; lia. }
  destruct (Z.ltb_spec bytes 0); [lia|]. rewrite s32_id by (unfold is_s32; lia).
  replace (Z.to_nat (addr + bytes - addr)) with (length src) by lia.
  pose proof (read_bytes_spec ps (length src) addr m1 Hm1 Ha Hb) as HR. fold bytes in HR.
  assert (readable addr bytes (memory ps m1) = true) as Hrd.
  { unfold readable. destruct Hin' as [-> | ?]; [done|].
    destruct (Z.leb_spec (addr + bytes) (Z.of_nat (length (memory ps m1)))); [|lia].
    by destruct (bytes =? 0). }
  rewrite Hrd in HR. destruct HR as (m2 & -> & _). exists m2. cbn [bind].
  assert (zslice addr bytes (memory ps m1) = src) as ->.
  { rewrite Hmem. destruct Hin' as [Hz|Hin']; [|apply zslice_zsplice; lia].
    destruct src as [|c src]; [|cbn in *; lia]. rewrite zsplice_nil. by rewrite Hz, zslice_0. }
  rewrite until_zero_all by done. replace (Z.to_nat bytes - length src)%nat with 0%nat by lia.
  by rewrite app_nil_r.
Qed.

Lemma BUFFER_SIZE_eq : BUFFER_SIZE = 1000. Proof. done. Qed.
#[local] Opaque BUFFER_SIZE.

(** A system call with a name gets the characters in the program's memory up to the
    zero, when they are fewer than [BUFFER_SIZE]; a name of [BUFFER_SIZE] characters or
    more is read past the end of the buffer. *)
Theorem read_name_correct {E D U} ps (k : OS (E := E) (D := D) (U := U)) addr name :
  mapped ps (the_machine k) -> 0 <= addr -> addr + BUFFER_SIZE < 2 ^ 31 ->
  Forall (fun c => c <> 0) name ->
  zslice addr (Z.of_nat (length name)) (memory ps (the_machine k)) = name ->
  (Z.of_nat (length name) < BUFFER_SIZE ->
   memory ps (the_machine k) !! (Z.to_nat addr + length name)%nat = Some 0 ->
   exists k', read_name addr k = Ok (name, k') /\ mapped ps (the_machine k') /\
     memory ps (the_machine k') = memory ps (the_machine k)) /\
  (Z.of_nat (length name) = BUFFER_SIZE -> read_name addr k = UB).
Proof.
  intros Hm Ha Hb Hnz Hname. set (m := the_machine k) in *.
  pose proof (read_bytes_spec ps (Z.to_nat BUFFER_SIZE) addr m Hm Ha) as HR.
  specialize (HR ltac:(pose proof BUFFER_SIZE_eq; lia)).
  assert (s32 (addr + BUFFER_SIZE) - addr = BUFFER_SIZE) as Hs.
  { pose proof BUFFER_SIZE_eq. rewrite s32_id; [lia|]. unfold is_s32. lia. }
  pose proof BUFFER_SIZE_eq as HB.
  unfold read_name, ReadMemSTR. fold m. rewrite Hs. destruct (Z.ltb_spec BUFFER_SIZE 0); [lia|].
  rewrite Z2Nat.id in HR by lia.
  assert (forall rest, zslice addr BUFFER_SIZE (memory ps m) = name ++ rest -> (exists m',
    read_bytes (Z.to_nat BUFFER_SIZE) addr m = Ok (until_zero (name ++ rest), m') /\
      mapped ps m' /\ touched m m') \/ readable addr BUFFER_SIZE (memory ps m) = false) as HE.
  { intros rest Hr. rewrite Hr in HR. destruct (readable _ _ _); [left|by right]. exact HR. }
  split.
  - intros Hlt Hz.
    assert (zslice addr (Z.of_nat (length (name ++ [0]))) (memory ps m) = name ++ [0]) as Hz1.
    { rewrite length_app. unfold zslice in *. rewrite Nat2Z.id in *. cbn [length].
      rewrite Nat.add_1_r. rewrite (take_S_r _ _ 0); [by rewrite Hname|]. by rewrite lookup_drop. }
    destruct (zslice_more _ _ addr BUFFER_SIZE Ha Hz1) as [rest Hrest].
    { rewrite length_app. cbn [length]. lia. }
    rewrite <- app_assoc in Hrest. cbn [app] in Hrest.
    destruct (HE _ Hrest) as [(m' & HRB & Hm' & Ht)|Hbad].
    + rewrite HRB. cbn [bind]. rewrite until_zero_app by done. rewrite <- app_assoc. cbn [app].
      rewrite c_string_app by done. cbn [bind]. eexists. split; [done|]. split; [done|].
      by apply touched_memory.
    + unfold readable in Hbad. rewrite bool_decide_eq_true_2, orb_true_r in Hbad; [done|].
      rewrite Hrest. set_solver.
  - intros Hl. rewrite Hl in Hname.
    destruct (HE []) as [(m' & HRB & _)|Hbad]; [by rewrite app_nil_r| |].
    + rewrite HRB. cbn [bind]. rewrite app_nil_r, until_zero_all by done.
      replace (Z.to_nat BUFFER_SIZE - length name)%nat with 0%nat by lia. cbn [replicate].
      by rewrite app_nil_r, c_string_open.
    + unfold readable in Hbad.
      assert (addr + BUFFER_SIZE <= Z.of_nat (length (memory ps m))) as Hle.
      { apply (f_equal length) in Hname. unfold zslice in Hname.
        rewrite length_take, length_drop in Hname. lia. }
      destruct (Z.leb_spec (addr + BUFFER_SIZE) (Z.of_nat (length (memory ps m)))); [|lia].
      by rewrite orb_true_r in Hbad.
Qed.

(** ** A program of two pages, with a name across their border *)
Definition name0 : list Z := [104; 105; 121; 97].

Definition machine0 : Machine :=
  mkMachine (zsplice (5 * PageSize) [121; 97] (zsplice (3 * PageSize + 126) [104; 105]
      (replicate (Z.to_nat MemorySize) 0)))
    (replicate (Z.to_nat NumTotalRegs) 0) None (Some 1%positive) 2
    {[1%positive := [mkEntry 0 3 true false false false; mkEntry 1 5 true false false false]]} false 0.

Lemma machine0_mapped : mapped [3; 5] machine0.
Proof.
  split.
  - split; [by vm_compute|]. apply (bool_decide_unpack _). by vm_compute.
  - done.
  - eexists _, _. split; [done|]. split; [by apply lookup_singleton_eq|].
    split; [done|]. split; [done|]. by repeat constructor.
  - by repeat constructor.
  - apply (bool_decide_unpack _). by vm_compute.
  - cbn. lia.
Qed.

Lemma ReadMem_correct_witness :
  exists m', ReadMem 126 10 machine0 = Ok (name0 ++ replicate 6 0, m').
Proof.
  pose proof (ReadMem_correct [3; 5] machine0 126 10 machine0_mapped ltac:(lia) ltac:(lia)) as [_ H].
  change (10 <? 0) with false in H.
  assert (readable 126 10 (memory [3; 5] machine0) = true) as HR by (by vm_compute).
  assert (zslice 126 10 (memory [3; 5] machine0) = name0 ++ replicate 6 0) as HZ by (by vm_compute).
  rewrite HR, HZ in H. destruct H as (m' & H & _). exists m'. exact H.
Defined.

Lemma user_memory_roundtrip_witness :
  exists m1 m2, WriteMem 126 4 [1; 2; 3; 4] machine0 = Ok m1 /\ ReadMem 126 4 m1 = Ok ([1; 2; 3; 4], m2).
Proof.
  destruct (user_memory_roundtrip [3; 5] machine0 126 [1; 2; 3; 4] machine0_mapped ltac:(lia)
    ltac:(cbn; lia) ltac:(by repeat constructor)) as (m1 & HW & _ & _ & _ & _ & HR).
  destruct HR as [m2 HR]; [by repeat constructor|]. exists m1, m2. split; [exact HW|exact HR].
Defined.

Lemma read_name_correct_witness :
  exists k', read_name 126 (mkOS (E := unit) (D := unit) (U := unit)
      (AddrSpace.mkWorld machine0 (BitMap.mkBitMap 32 1 [40]) 0 tt) ∅ ∅ (fun _ => ∅) ∅ tt 0 1) =
    Ok (name0, k').
Proof.
  destruct (read_name_correct [3; 5] (mkOS (E := unit) (D := unit) (U := unit)
      (AddrSpace.mkWorld machine0 (BitMap.mkBitMap 32 1 [40]) 0 tt) ∅ ∅ (fun _ => ∅) ∅ tt 0 1) 126 name0)
    as [H _].
  - exact machine0_mapped.
  - lia.
  - rewrite BUFFER_SIZE_eq. lia.
  - by repeat constructor.
  - by vm_compute.
  - destruct H as (k' & H & _).
    + rewrite BUFFER_SIZE_eq. cbn. lia.
    + by vm_compute.
    + exists k'. exact H.
Defined.

End UserMemory.
