(* ===== verification/Handlers.v ===== *)
(** userprog/exception.cc: what the system calls do.

    Module [Handlers] states handlers of Syscall.v through the abstract view of the
    control tables (a partial map from identifiers) and of the memory of the user
    program (a list of bytes, UserMemory.v). *)

From S2P Require Import Prelude BitMap OSTable MachineState AddrSpace Synch Syscall.
From S2P Require Import UserMemory Processes.

Module Handlers.

Import Machine Threads Syscall UserMemory.

Section handlers.
Context {E D U : Type} `{!Executable E D} `{!UNIX U}.
Context (read_header : list Z -> AddrSpace.NoffHeader) (sizeof_header NOFFMAGIC : Z).
Context (fileSystem_Open : list Z -> D -> res (option E * D)).

#[local] Abbreviation OS := (@OS E D U).
#[local] Abbreviation handler := (nat -> OS -> res (OS * list (ucall code))).

(** ** The tables of a thread as maps *)
Definition object_at (kd : kind) (t : nat) (k : OS) (id : Z) : option (option nat) :=
  match get_objects kd t k with Ok (_, tb) => ControlTable.binding tb id | _ => None end.

Definition file_at (t : nat) (k : OS) (fd : Z) : option Z :=
  match get_files t k with Ok (_, tb) => ControlTable.binding tb fd | _ => None end.

(** The thread has a table of the kind. *)
Definition has_table (kd : kind) (t : nat) (k : OS) : Prop :=
  exists l tb, get_objects kd t k = Ok (l, tb) /\ ControlTable.wf tb.

Definition has_files (t : nat) (k : OS) : Prop :=
  exists l tb, get_files t k = Ok (l, tb) /\ ControlTable.wf tb.

Definition valid_id (id : Z) : Prop := 0 <= id < ControlTable.TABLE_SIZE.

#[export] Instance valid_id_dec id : Decision (valid_id id).
Proof. apply _. Defined.

Lemma isOpened_eq kd t k id :
  has_table kd t k ->
  isOpened kd id t k =
    if decide (valid_id id) then Ok (bool_decide (is_Some (object_at kd t k id))) else Abort.
Proof.
  intros (l & tb & Hg & Hwf). unfold isOpened, object_at. rewrite Hg. cbn [bind].
  case_decide as Hid; [by apply ControlTable.isOpened_spec|]. apply (ControlTable.bad_id None id tb Hid).
Qed.

Lemma getObject_eq kd t k id o :
  has_table kd t k -> valid_id id -> object_at kd t k id = Some (Some o) -> getObject kd id t k = Ok o.
Proof.
  intros (l & tb & Hg & Hwf) Hid. unfold getObject, object_at. rewrite Hg. cbn [bind].
  intros Ho. by rewrite ControlTable.getObject_spec, Ho.
Qed.

Lemma file_isOpened_eq t k id :
  has_files t k ->
  file_isOpened id t k =
    if decide (valid_id id) then Ok (bool_decide (is_Some (file_at t k id))) else Abort.
Proof.
  intros (l & tb & Hg & Hwf). unfold file_isOpened, file_at. rewrite Hg. cbn [bind].
  case_decide as Hid; [by apply ControlTable.isOpened_spec|]. apply (ControlTable.bad_id 0 id tb Hid).
Qed.

Lemma file_getObject_eq t k id h :
  has_files t k -> valid_id id -> file_at t k id = Some h -> file_getObject id t k = Ok h.
Proof.
  intros (l & tb & Hg & Hwf) Hid. unfold file_getObject, file_at. rewrite Hg. cbn [bind].
  intros Ho. by rewrite ControlTable.getObject_spec, Ho.
Qed.

(** ** Registers *)
Definition regs40 (k : OS) : Prop :=
  length (registers (the_machine k)) = Z.to_nat NumTotalRegs.

(** Register 2 gets the status. *)
Definition returned (status : Z) (k : OS) : OS :=
  set_machine (set_registers (<[2%nat := status]> (registers (the_machine k))) (the_machine k)) k.

Lemma return_now_eq status k : regs40 k -> return_now status k = Ok (returned status k, []).
Proof.
  intros Hr. unfold return_now, do_RETURN, write_register, WriteRegister.
  rewrite ASSERT_true by done. cbn [bind]. by rewrite set_reg_eq.
Qed.

Lemma returned_regs40 status k : regs40 k -> regs40 (returned status k).
Proof. unfold regs40, returned. cbn. by rewrite length_insert. Qed.

Lemma returned_reg status k : regs40 k -> reg 2 (the_machine (returned status k)) = Ok status.
Proof.
  unfold regs40, reg. intros Hr. apply zget_Ok. split; [done|]. cbn. apply list_lookup_insert_eq.
  rewrite Hr. change (Z.to_nat NumTotalRegs) with 40%nat. lia.
Qed.

Lemma write_register_ok r v k :
  regs40 k -> 0 <= r < NumTotalRegs ->
  exists k', write_register r v k = Ok k' /\ regs40 k' /\
    forall i, 0 <= i < NumTotalRegs ->
      reg i (the_machine k') = if i =? r then Ok v else reg i (the_machine k).
Proof.
  intros Hr Hi. unfold write_register, WriteRegister.
  rewrite ASSERT_true by (apply andb_true_iff; lia). cbn [bind]. rewrite set_reg_eq by done. cbn [bind].
  eexists. split; [done|]. split; [unfold regs40; cbn; by rewrite length_insert|].
  intros i Hi'. apply reg_set_registers; done || lia.
Qed.

(** ** New bindings *)
Lemma get_objects_set kd t (k : OS) l tb tb' :
  get_objects kd t k = Ok (l, tb) ->
  get_objects kd t (set_objects kd (<[l := tb']> (objectTables k kd)) k) = Ok (l, tb').
Proof.
  unfold get_objects, get_uthread. intros H. cbn. destruct (uthreads k !! t); [|done]. cbn in *.
  destruct (table u kd) as [l'|]; [|done]. cbn in *. res_inv. simplify_eq. rewrite decide_True by done.
  by rewrite lookup_insert_eq.
Qed.

Lemma Open_eq kd o t k :
  has_table kd t k -> (exists id, valid_id id /\ object_at kd t k id = None) ->
  exists id k', Open kd o t k = Ok (id, k') /\ valid_id id /\ object_at kd t k id = None /\
    has_table kd t k' /\ the_machine k' = the_machine k /\
    forall j, object_at kd t k' j = if decide (j = id) then Some (Some o) else object_at kd t k j.
Proof.
  intros (l & tb & Hg & Hwf) (id & Hid & Hfree). unfold object_at in *. rewrite Hg in Hfree.
  pose proof (ControlTable.Open_spec (Some o) tb Hwf) as HO.
  destruct (first_clear _) as [n|]; [|destruct HO as [Hall _]; destruct (Hall id Hid); congruence].
  destruct HO as (tb' & HO & Hwf' & _ & Hn & Hb & _ & Hb').
  pose proof (get_objects_set kd t k l tb tb' Hg) as Hg'.
  exists (Z.of_nat n), (set_objects kd (<[l := tb']> (objectTables k kd)) k).
  unfold Open. rewrite Hg, Hg'. cbn [bind]. rewrite HO. cbn [bind].
  split_and!; [done|unfold valid_id; lia|done|by exists l, tb'|done|done].
Qed.

Lemma Close_eq kd id t k :
  has_table kd t k -> valid_id id ->
  exists k', Close kd id t k = Ok k' /\ has_table kd t k' /\ the_machine k' = the_machine k /\
    forall j, object_at kd t k' j = if decide (j = id) then None else object_at kd t k j.
Proof.
  intros (l & tb & Hg & Hwf) Hid. unfold object_at.
  destruct (ControlTable.Close_spec None id tb Hwf Hid) as (tb' & HC & Hwf' & _ & Hb).
  pose proof (get_objects_set kd t k l tb tb' Hg) as Hg'.
  exists (set_objects kd (<[l := tb']> (objectTables k kd)) k).
  unfold Close. rewrite Hg, Hg'. cbn [bind]. rewrite HC. cbn [bind].
  split_and!; [done|by exists l, tb'|done|done].
Qed.

(** ** Calls by identifier

    [use] is what is done with the object. *)
Definition object_call (kd : kind) (id : Z) (t : nat) (k : OS)
    (use : nat -> res (OS * list (ucall code))) : res (OS * list (ucall code)) :=
  if decide (valid_id id) then
    match object_at kd t k id with
    | Some (Some o) => use o
    | Some None => UB
    | None => Ok (returned (-1) k, [])
    end
  else Abort.

Lemma getObject_null kd t k id :
  has_table kd t k -> valid_id id -> object_at kd t k id = Some None -> getObject kd id t k = UB.
Proof.
  intros (l & tb & Hg & Hwf) Hid. unfold getObject, object_at. rewrite Hg. cbn [bind].
  intros Ho. by rewrite ControlTable.getObject_spec, Ho.
Qed.

Lemma object_call_eq kd id t k use :
  has_table kd t k -> regs40 k ->
  (o ← isOpened kd id t k;
   if (o : bool) then object ← getObject kd id t k; use object else return_now (-1) k) =
  object_call kd id t k use.
Proof.
  intros Ht Hr. unfold object_call. rewrite isOpened_eq by done.
  destruct (decide (valid_id id)) as [Hid|]; [|done]. cbn [bind].
  destruct (object_at kd t k id) as [[o|]|] eqn:Ho.
  - by rewrite bool_decide_eq_true_2, (getObject_eq kd t k id o) by done.
  - by rewrite bool_decide_eq_true_2, getObject_null by done.
  - rewrite bool_decide_eq_false_2 by (by intros [? ?]). by apply return_now_eq.
Qed.

Lemma call_object_eq kd method id t k :
  has_table kd t k -> READ_PARAM 1 k = Ok id -> regs40 k ->
  call_object kd method t k = object_call kd id t k (fun o => then_return (method o) 0 k).
Proof. intros Ht Hp Hr. unfold call_object. rewrite Hp. cbn [bind]. by apply object_call_eq. Qed.

Lemma destroy_object_eq kd id t k :
  has_table kd t k -> READ_PARAM 1 k = Ok id -> regs40 k ->
  destroy_object kd t k =
    object_call kd id t k (fun o => Ok (k, [Delete (object_of kd o); Call (Destroyed kd id)])).
Proof. intros Ht Hp Hr. unfold destroy_object. rewrite Hp. cbn [bind]. by apply object_call_eq. Qed.

(** ** Files *)

(** What [ReadMem] leaves in its buffer. *)
Definition buffer_of (addr size : Z) (mem : list Z) : list Z :=
  let read := until_zero (zslice addr size mem) in
  read ++ replicate (Z.to_nat size - length read) 0.

(** The characters before the first zero. *)
Fixpoint before_zero (l : list Z) : list Z :=
  match l with
  | [] => []
  | c :: l => if c =? 0 then [] else c :: before_zero l
  end.

Lemma c_string_zero l : c_string (l ++ [0]) = Ok (before_zero l).
Proof. induction l as [|c l IH]; cbn; [done|]. destruct (c =? 0); [done|]. by rewrite IH. Qed.

Lemma get_files_frame t (k : OS) m : get_files t (set_machine m k) = get_files t k.
Proof. done. Qed.

(** What the host does with the bytes. *)
Definition host_write (h addr size : Z) (buffer : list Z) (k : OS) : Z * OS :=
  if h =? ConsoleOutput then
    (0, set_written (s32 (numConsoleCharsWritten k + (size + 1)))
          (set_unix (printf (before_zero buffer) (unix k)) k))
  else if h =? ConsoleError then (0, set_unix (fprintf_stderr addr (unix k)) k)
  else
    let '(status, u) := write h (take (Z.to_nat size) buffer) (unix k) in (status, set_unix u k).

Lemma write_file_eq h addr size buffer (k : OS) :
  write_file h size (buffer ++ [0]) addr k =
    Ok (host_write h addr size (if h =? ConsoleOutput then buffer else buffer ++ [0]) k).
Proof.
  unfold write_file, host_write. destruct (h =? ConsoleOutput); [by rewrite c_string_zero|].
  destruct (h =? ConsoleError); [done|]. by destruct (write _ _ _).
Qed.

Lemma buffer_of_length addr size mem :
  0 <= size -> length (buffer_of addr size mem) = Z.to_nat size.
Proof.
  intros Hs. unfold buffer_of. rewrite length_app, length_replicate.
  pose proof (until_zero_length (zslice addr size mem)) as Hl.
  assert (length (zslice addr size mem) <= Z.to_nat size)%nat.
  { unfold zslice. rewrite length_take. lia. }
  lia.
Qed.

(** ** Properties *)

(** A system call on a semaphore, a lock or a condition variable by its identifier
    goes to the object that the thread's table gives for it, and then returns 0; with
    an identifier that is not open it returns -1 at once and changes nothing else; an
    identifier outside the table stops the kernel.  A call on a condition variable needs a
    lock that is open, too (no identifier is bound to NULL). *)
Theorem object_calls_correct t k id :
  (forall kd, has_table kd t k) -> READ_PARAM 1 k = Ok id -> regs40 k ->
  let method kd u := object_call kd id t k (fun o => Ok (k, [u o; Call (RETURN 0)])) in
  let delete kd :=
    object_call kd id t k (fun o => Ok (k, [Delete (object_of kd o); Call (Destroyed kd id)])) in
  (NachOS_SemSignal t k = method KSem V /\ NachOS_SemWait t k = method KSem P /\
   NachOS_LockAcquire t k = method KLock Acquire /\ NachOS_LockRelease t k = method KLock Release /\
   NachOS_SemDestroy t k = delete KSem /\ NachOS_LockDestroy t k = delete KLock /\
   NachOS_CondDestroy t k = delete KCond) /\
  ((forall kd i, object_at kd t k i <> Some None) ->
    forall lock_id, READ_PARAM 2 k = Ok lock_id -> valid_id lock_id ->
    let condition u := object_call KCond id t k (fun c =>
      object_call KLock lock_id t k (fun l => Ok (k, [u c l; Call (RETURN 0)]))) in
    NachOS_CondSignal t k = condition Signal /\ NachOS_CondWait t k = condition Wait /\
    NachOS_CondBroadcast t k = condition Broadcast).
Proof.
  intros Ht Hp Hr method delete. split.
  - split_and!; first [exact (call_object_eq _ _ id t k (Ht _) Hp Hr)
                      |exact (destroy_object_eq _ id t k (Ht _) Hp Hr)].
  - intros Hnull lock_id Hp2 Hl condition.
    assert (forall u, call_condition u t k = condition u) as HC; [|by split_and!; apply HC].
    intros u. unfold call_condition, condition, object_call. rewrite Hp, Hp2. cbn [bind].
    rewrite isOpened_eq by done. destruct (decide (valid_id id)) as [Hid|]; [|done]. cbn [bind].
    rewrite (isOpened_eq KLock) by done. rewrite decide_True by done. cbn [bind].
    destruct (object_at KCond t k id) as [[c|]|] eqn:Hc; [|by destruct (Hnull KCond id)|].
    + rewrite bool_decide_eq_true_2 by done.
      destruct (object_at KLock t k lock_id) as [[l|]|] eqn:Hl1; [|by destruct (Hnull KLock lock_id)|].
      * rewrite bool_decide_eq_true_2, (getObject_eq KLock t k lock_id l) by done. cbn [bind].
        by rewrite (getObject_eq KCond t k id c), decide_True by done.
      * rewrite bool_decide_eq_false_2, decide_True by (done || by intros [? ?]). by apply return_now_eq.
    + rewrite bool_decide_eq_false_2 by (by intros [? ?]). by apply return_now_eq.
Qed.

(** *** The life of an object

    [made h kd v t k]: the system call [h] makes an object of the kind with the value [v],
    and then gives the thread a free identifier for it. *)
Definition made (h : handler) (kd : kind) (v : Z) (t : nat) (k : OS) : Prop :=
  let o := next k in
  exists k1 id k2,
    h t k = Ok (k1, [New (object_of kd o) v; Call (Created kd o)]) /\
    NachOS_Created kd o t k1 = Ok (k2, []) /\ reg 2 (the_machine k2) = Ok id /\
    valid_id id /\ object_at kd t k id = None /\
    forall j, object_at kd t k2 j = if decide (j = id) then Some (Some o) else object_at kd t k j.

Definition has_room (kd : kind) (t : nat) (k : OS) : Prop :=
  exists id, valid_id id /\ object_at kd t k id = None.

Lemma create_made kd v t k : has_table kd t k -> regs40 k -> has_room kd t k -> made (create_object kd v) kd v t k.
Proof.
  intros Ht Hr Hfree. unfold made, create_object. cbn [allocate].
  set (k1 := mkOS _ _ _ _ _ _ _ _). exists k1.
  assert (forall j, object_at kd t k1 j = object_at kd t k j) as H1 by done.
  destruct (Open_eq kd (next k) t k1) as (id & k2 & HO & Hid & Hnone & Ht2 & Hm2 & Hb);
    [destruct Ht as (l & tb & Ht); by exists l, tb|done|].
  assert (regs40 k2) as Hr2 by (unfold regs40; by rewrite Hm2).
  exists id, (returned id k2). split_and!; [done| |by apply returned_reg|done..].
  unfold NachOS_Created. rewrite HO. cbn [bind]. by apply return_now_eq.
Qed.

(** Two threads with the same table of the kind. *)
Definition shares (kd : kind) (t t' : nat) (k : OS) : Prop :=
  exists l tb, get_objects kd t k = Ok (l, tb) /\ get_objects kd t' k = Ok (l, tb).

Definition object_handlers : list handler :=
  [NachOS_SemCreate; NachOS_SemDestroy; NachOS_SemSignal; NachOS_SemWait;
   NachOS_LockCreate; NachOS_LockDestroy; NachOS_LockAcquire; NachOS_LockRelease;
   NachOS_CondCreate; NachOS_CondDestroy; NachOS_CondSignal; NachOS_CondWait; NachOS_CondBroadcast].

(** What the kernel does for the system calls on objects, of any thread, but for the end of
    a call that destroys the object [id] of thread [t]. *)
Inductive object_step (kd : kind) (id : Z) (t : nat) (k : OS) : OS -> Prop :=
  | step_call (h : handler) t' k' us : h ∈ object_handlers -> h t' k = Ok (k', us) -> object_step kd id t k k'
  | step_created kd' o t' k' us : NachOS_Created kd' o t' k = Ok (k', us) -> object_step kd id t k k'
  | step_destroyed kd' id' t' k' us : ~ (kd' = kd /\ id' = id /\ shares kd t t' k) ->
      NachOS_Destroyed kd' id' t' k = Ok (k', us) -> object_step kd id t k k'
  | step_return status k' us : return_now status k = Ok (k', us) -> object_step kd id t k k'.

#[local] Ltac run := res_inv; simplify_eq/=.

Definition same_tables (k k' : OS) : Prop := objectTables k' = objectTables k /\ uthreads k' = uthreads k.

Lemma same_get_objects kd t (k k' : OS) : same_tables k k' -> get_objects kd t k' = get_objects kd t k.
Proof. intros [E1 E2]. unfold get_objects, get_uthread. by rewrite E1, E2. Qed.

Lemma return_tables status (k k' : OS) us : return_now status k = Ok (k', us) -> same_tables k k'.
Proof.
  unfold return_now, do_RETURN, write_register. intros H. run. done.
Qed.

Lemma handler_tables (h : handler) t (k k' : OS) us :
  h ∈ object_handlers -> h t k = Ok (k', us) -> same_tables k k'.
Proof.
  assert (forall kd v t, create_object kd v t k = Ok (k', us) -> same_tables k k') as Hc.
  { intros kd v t' [= <- _]. done. }
  assert (forall kd t, destroy_object kd t k = Ok (k', us) -> same_tables k k') as Hd.
  { intros kd t'. unfold destroy_object. intros H. run.
    case_match; run; [done|by eapply return_tables]. }
  assert (forall kd m t, call_object kd m t k = Ok (k', us) -> same_tables k k') as Ho.
  { intros kd m t'. unfold call_object, then_return. intros H. run.
    case_match; run; [done|by eapply return_tables]. }
  assert (forall m t, call_condition m t k = Ok (k', us) -> same_tables k k') as Hn.
  { intros m t'. unfold call_condition, then_return. intros H. run.
    case_match; run; [case_match; run; [done|]|]; by eapply return_tables. }
  unfold object_handlers. rewrite !elem_of_cons, elem_of_nil.
  intros Hin. repeat (destruct Hin as [->|Hin]);
    try (first [done|exact (Hc _ _ t)|exact (Hd _ t)|exact (Ho _ _ t)|exact (Hn _ t)]).
  unfold NachOS_SemCreate. intros H. run. by eapply Hc.
Qed.

Lemma set_objects_get kd t (k : OS) l tb kd' l' tb' :
  get_objects kd t k = Ok (l, tb) ->
  get_objects kd t (set_objects kd' (<[l' := tb']> (objectTables k kd')) k) =
    Ok (l, if decide (kd' = kd /\ l' = l) then tb' else tb).
Proof.
  unfold get_objects, get_uthread. intros H. cbn. destruct (uthreads k !! t); [|done]. cbn in *.
  destruct (table u kd) as [l0|]; [|done]. cbn in *. destruct (objectTables k kd !! l0) eqn:El; [|done].
  cbn in H. injection H as -> ->. destruct (decide (kd = kd')) as [->|Hne].
  - destruct (decide (l' = l)) as [->|].
    + rewrite lookup_insert_eq, decide_True by done. done.
    + rewrite lookup_insert_ne, El, decide_False by (done || by intros []). done.
  - rewrite El, decide_False by (intros []; congruence). done.
Qed.

(** An identifier stays bound while it is not closed. *)
Definition bound (kd : kind) (t : nat) (k : OS) (id : Z) (o : nat) : Prop :=
  has_table kd t k /\ object_at kd t k id = Some (Some o).

Lemma bound_same kd t (k k' : OS) id o : same_tables k k' -> bound kd t k id o -> bound kd t k' id o.
Proof.
  intros Hs. pose proof (same_get_objects kd t k k' Hs) as Eg. unfold bound, has_table, object_at. by rewrite Eg.
Qed.

Lemma bound_Open kd t (k k' : OS) id o kd' o' t' id' :
  Open kd' o' t' k = Ok (id', k') -> bound kd t k id o -> bound kd t k' id o.
Proof.
  unfold Open. intros H [(l & tb & Hg & Hwf) Hb].
  apply bind_Ok in H as ([l1 tb1] & Hg1 & H). apply bind_Ok in H as ([i1 tb2] & HO & H). injection H as -> <-.
  unfold bound, has_table, object_at in *. rewrite Hg in Hb.
  rewrite (set_objects_get kd t k l tb kd' l1 tb2 Hg).
  destruct (decide (kd' = kd /\ l1 = l)) as [[-> ->]|]; [|split; [by exists l, tb|done]].
  assert (tb1 = tb) as ->.
  { revert Hg Hg1. unfold get_objects. intros. res_inv. congruence. }
  pose proof (ControlTable.Open_spec (Some o') tb Hwf) as Hs.
  destruct (first_clear _) as [m|]; [|destruct Hs as [_ Hs]; congruence].
  destruct Hs as (tb3 & E3 & Hwf3 & _ & _ & Hnone & _ & Hall). rewrite E3 in HO. injection HO as <- <-.
  split; [by exists l, tb3|]. rewrite Hall. case_decide; [congruence|done].
Qed.

Lemma bound_Close kd t (k k' : OS) id o kd' id' t' :
  ~ (kd' = kd /\ id' = id /\ shares kd t t' k) ->
  Close kd' id' t' k = Ok k' -> bound kd t k id o -> bound kd t k' id o.
Proof.
  unfold Close. intros Hn H [(l & tb & Hg & Hwf) Hb].
  apply bind_Ok in H as ([l1 tb1] & Hg1 & H). apply bind_Ok in H as ([o1 tb2] & HC & H). injection H as <-.
  unfold bound, has_table, object_at in *. rewrite Hg in Hb.
  rewrite (set_objects_get kd t k l tb kd' l1 tb2 Hg).
  destruct (decide (kd' = kd /\ l1 = l)) as [[-> ->]|]; [|split; [by exists l, tb|done]].
  assert (tb1 = tb) as ->.
  { revert Hg Hg1. unfold get_objects. intros. res_inv. congruence. }
  destruct (decide (valid_id id')) as [Hid|Hid].
  2: { destruct (ControlTable.bad_id None id' tb Hid) as (E3 & _). congruence. }
  destruct (ControlTable.Close_spec None id' tb Hwf Hid) as (tb3 & E3 & Hwf3 & _ & Hall).
  rewrite E3 in HC. injection HC as _ <-. split; [by exists l, tb3|]. rewrite Hall.
  case_decide as Ei; [|done]. destruct Hn. split_and!; [done|done|]. by exists l, tb.
Qed.

Lemma object_step_bound kd id t k k' o : object_step kd id t k k' -> bound kd t k id o -> bound kd t k' id o.
Proof.
  intros Hs Hb. destruct Hs as [h t' k' us Hin H|kd' o' t' k' us H|kd' id' t' k' us Hn H|status k' us H].
  - eapply bound_same; [by eapply handler_tables|done].
  - unfold NachOS_Created in H. apply bind_Ok in H as ([i1 k1] & HO & H). eapply bound_same; [by eapply return_tables|]. by eapply bound_Open.
  - unfold NachOS_Destroyed in H. apply bind_Ok in H as (k1 & HC & H). eapply bound_same; [by eapply return_tables|]. by eapply bound_Close.
  - eapply bound_same; [by eapply return_tables|done].
Qed.

(** C19: the life of a semaphore, a lock or a condition variable.  SemCreate, LockCreate and
    CondCreate make a new object of their kind and give the thread a free identifier for it;
    calls with an identifier that is bound go to its object, those on conditions also to the
    lock they name; SemDestroy, LockDestroy and CondDestroy delete that object, and then
    unbind its identifier and no other.  Whatever calls on objects any threads make, an
    identifier keeps its object until a thread that shares the table destroys it. *)
Theorem object_lifecycle t k :
  (forall kd, has_table kd t k) -> regs40 k ->
  ((forall v, READ_PARAM 1 k = Ok v -> has_room KSem t k -> made NachOS_SemCreate KSem v t k) /\
   (has_room KLock t k -> made NachOS_LockCreate KLock 0 t k) /\
   (has_room KCond t k -> made NachOS_CondCreate KCond 0 t k)) /\
  (forall id o, READ_PARAM 1 k = Ok id -> valid_id id ->
   let calls u := Ok (k, [u; Call (RETURN 0)]) in
   let destroys kd := Ok (k, [Delete (object_of kd o); Call (Destroyed kd id)]) in
   (object_at KSem t k id = Some (Some o) ->
     NachOS_SemSignal t k = calls (V o) /\ NachOS_SemWait t k = calls (P o) /\
     NachOS_SemDestroy t k = destroys KSem) /\
   (object_at KLock t k id = Some (Some o) ->
     NachOS_LockAcquire t k = calls (Acquire o) /\ NachOS_LockRelease t k = calls (Release o) /\
     NachOS_LockDestroy t k = destroys KLock) /\
   (object_at KCond t k id = Some (Some o) ->
     NachOS_CondDestroy t k = destroys KCond /\
     forall lock_id l, READ_PARAM 2 k = Ok lock_id -> valid_id lock_id ->
       object_at KLock t k lock_id = Some (Some l) ->
       NachOS_CondSignal t k = calls (Signal o l) /\ NachOS_CondWait t k = calls (Wait o l) /\
       NachOS_CondBroadcast t k = calls (Broadcast o l))) /\
  (forall kd id, valid_id id ->
   exists k', NachOS_Destroyed kd id t k = Ok (k', []) /\ reg 2 (the_machine k') = Ok 0 /\
     forall j, object_at kd t k' j = if decide (j = id) then None else object_at kd t k j) /\
  (forall kd id o k', object_at kd t k id = Some (Some o) -> rtc (object_step kd id t) k k' ->
   object_at kd t k' id = Some (Some o)).
Proof.
  intros Ht Hr. split_and!.
  - intros v Hv Hroom. destruct (create_made KSem v t k (Ht _) Hr Hroom) as (k1 & id & k2 & H).
    exists k1, id, k2. unfold NachOS_SemCreate. rewrite Hv. exact H.
  - by apply create_made.
  - by apply create_made.
  - intros id o Hp Hid calls destroys.
    assert (forall kd m, object_at kd t k id = Some (Some o) -> call_object kd m t k = calls (m o)) as Hc.
    { intros kd m Ho. rewrite (call_object_eq kd m id t k (Ht _) Hp Hr). unfold object_call.
      by rewrite decide_True, Ho. }
    assert (forall kd, object_at kd t k id = Some (Some o) -> destroy_object kd t k = destroys kd) as Hd.
    { intros kd Ho. rewrite (destroy_object_eq kd id t k (Ht _) Hp Hr). unfold object_call.
      by rewrite decide_True, Ho. }
    split_and!; intros Ho; [by split_and!; first [apply Hc|apply Hd]..|].
    split; [by apply Hd|]. intros lock_id l Hp2 Hlid Hl.
    assert (forall u, call_condition u t k = calls (u o l)) as HC; [|by split_and!; apply HC].
    intros u. unfold call_condition. rewrite Hp, Hp2. cbn [bind]. rewrite !isOpened_eq by apply Ht.
    rewrite !decide_True, Ho, Hl by done. cbn [bind].
    rewrite !bool_decide_eq_true_2, (getObject_eq KLock t k lock_id l) by done. cbn [bind].
    by rewrite (getObject_eq KCond t k id o).
  - intros kd id Hid. destruct (Close_eq kd id t k (Ht _) Hid) as (k4 & HC & Ht4 & Hm4 & Hb4).
    assert (regs40 k4) as Hr4 by (unfold regs40; by rewrite Hm4).
    exists (returned 0 k4). unfold NachOS_Destroyed. rewrite HC. cbn [bind].
    split; [by apply return_now_eq|]. split; [by apply returned_reg|exact Hb4].
  - intros kd id o k' Ho Hs. assert (bound kd t k id o) as Hb by done. clear Ht Hr Ho.
    induction Hs as [|k k1 k' Hs _ IH]; [apply Hb|]. apply IH. by eapply object_step_bound.
Qed.

(** [Write], with the lock on the console: nothing is written and the status is -1
    for the console's input and for a descriptor that is not open; one outside the table
    stops the kernel.  Otherwise the host gets the bytes of the program's memory, with
    zeros from the first zero on: the console prints the characters before it, a file
    gets exactly [size] bytes and its status is the host's. *)
Theorem Write_correct ps t k addr size fd :
  has_files t k -> mapped ps (the_machine k) -> 0 <= addr -> 0 <= size ->
  addr + size < 2 ^ 31 -> readable addr size (memory ps (the_machine k)) = true ->
  let buffer := buffer_of addr size (memory ps (the_machine k)) in
  (length buffer = Z.to_nat size) /\
  if fd =? ConsoleInput then do_write addr size fd t k = Ok (-1, k)
  else if decide (valid_id fd) then
    match file_at t k fd with
    | None => do_write addr size fd t k = Ok (-1, k)
    | Some h =>
        exists m', mapped ps m' /\ memory ps m' = memory ps (the_machine k) /\
          registers m' = registers (the_machine k) /\
          do_write addr size fd t k = Ok (host_write h addr size buffer (set_machine m' k))
    end
  else do_write addr size fd t k = Abort.
Proof.
  intros Hf Hm Ha Hs Hb Hrd buffer. pose proof (buffer_of_length addr size _ Hs : length buffer = _) as Hlen.
  split; [done|]. unfold do_write, may_write. destruct (Z.eqb_spec fd ConsoleInput); [done|].
  rewrite file_isOpened_eq by done. destruct (decide (valid_id fd)) as [Hid|]; [|done]. cbn [bind].
  destruct (file_at t k fd) as [h|] eqn:Hh.
  - rewrite bool_decide_eq_true_2 by done.
    pose proof (ReadMem_spec ps (the_machine k) addr size Hm Ha Hb) as HR.
    destruct (Z.ltb_spec size 0); [lia|]. rewrite Hrd in HR.
    destruct HR as (m' & HR & Hm' & Hmem & Hreg). exists m'. split_and!; [done..|].
    rewrite HR. cbn [bind].
    change (until_zero _ ++ replicate _ 0) with buffer.
    rewrite (file_getObject_eq t (set_machine m' k) fd h) by done. cbn [bind].
    rewrite write_file_eq. f_equal. unfold host_write. destruct (h =? ConsoleOutput); [done|].
    rewrite take_app_le by lia. done.
  - by rewrite bool_decide_eq_false_2 by (by intros [? ?]).
Qed.

(** An exception of a user program.  After a system call the thread goes on with what
    the handler left to do, and then at the next instruction: the program counters
    advance by one instruction and no other register changes.  A system call with an
    unknown number, and every exception but a page fault, stop the kernel; a page fault
    changes nothing, so that the program meets it again. *)
Theorem ExceptionHandler_correct new_registers t k type :
  regs40 k -> reg 2 (the_machine k) = Ok type ->
  let handle which := ExceptionHandler fileSystem_Open new_registers which t k in
  (forall k' us, syscall fileSystem_Open new_registers type t k = Ok (k', us) ->
    handle SyscallException = Ok (k', us ++ [Call getNextInstruction])) /\
  (type < 0 \/ 23 < type < 30 \/ 35 < type -> handle SyscallException = Abort) /\
  (forall which, which <> SyscallException -> which <> PageFaultException -> handle which = Abort) /\
  handle PageFaultException = Ok (k, []) /\
  exists pc npc k', reg PCReg (the_machine k) = Ok pc /\ reg NextPCReg (the_machine k) = Ok npc /\
    advance_pc k = Ok k' /\
    forall i, 0 <= i < NumTotalRegs -> reg i (the_machine k') =
      if i =? PrevPCReg then Ok pc else if i =? PCReg then Ok npc
      else if i =? NextPCReg then Ok (s32 (npc + 4)) else reg i (the_machine k).
Proof.
  intros Hr Ht handle. assert (ReadRegister 2 (the_machine k) = Ok type) as HR
    by (unfold ReadRegister; by rewrite ASSERT_true).
  split_and!.
  - intros k' us H. unfold handle, ExceptionHandler. rewrite HR. cbn [bind]. by rewrite H.
  - intros Hx. unfold handle, ExceptionHandler. rewrite HR. cbn [bind].
    assert (syscall fileSystem_Open new_registers type t k = Abort) as ->; [|done].
    unfold syscall. repeat case_match; done || lia.
  - intros which H1 H2. unfold handle, ExceptionHandler. rewrite HR. by destruct which.
  - unfold handle, ExceptionHandler. by rewrite HR.
  - destruct (zget_is_Ok (registers (the_machine k)) PCReg) as [pc Hpc]; [by rewrite Hr|].
    destruct (zget_is_Ok (registers (the_machine k)) NextPCReg) as [npc Hnpc]; [by rewrite Hr|].
    exists pc, npc. unfold advance_pc, ReadRegister. rewrite !ASSERT_true by done. cbn [bind].
    change (reg PCReg (the_machine k)) with (zget (registers (the_machine k)) PCReg).
    rewrite Hpc. cbn [bind].
    destruct (write_register_ok PrevPCReg pc k Hr) as (k1 & -> & Hr1 & Hg1); [done|]. cbn [bind].
    rewrite Hg1 by done. change (NextPCReg =? PrevPCReg) with false. cbv iota.
    change (reg NextPCReg (the_machine k)) with (zget (registers (the_machine k)) NextPCReg).
    rewrite Hnpc. cbn [bind].
    destruct (write_register_ok PCReg npc k1 Hr1) as (k2 & -> & Hr2 & Hg2); [done|]. cbn [bind].
    rewrite Hg2, Hg1 by done. change (NextPCReg =? PrevPCReg) with false.
    change (NextPCReg =? PCReg) with false. cbv iota.
    change (reg NextPCReg (the_machine k)) with (zget (registers (the_machine k)) NextPCReg).
    rewrite Hnpc. cbn [bind].
    destruct (write_register_ok NextPCReg (s32 (npc + 4)) k2 Hr2) as (k3 & -> & Hr3 & Hg3); [done|].
    exists k3. split_and!; [done..|]. intros i Hi. rewrite Hg3, Hg2, Hg1 by done.
    change PrevPCReg with 36. change PCReg with 34. change NextPCReg with 35.
    destruct (Z.eqb_spec i 36), (Z.eqb_spec i 35), (Z.eqb_spec i 34); done || lia.
Qed.

(** The new thread of [Exec] reads its program from an array of the thread that called
    [Exec], which is gone when [Exec] returns: as long as it is there, the new thread
    loads and starts the program; after that, what it reads is undefined. *)
Theorem Exec_argument_lifetime new_registers t (k k1 : OS) newThread body status :
  NachOS_Exec fileSystem_Open new_registers t k =
    Ok (k1, [Fork newThread body; Call (Exec_end newThread status)]) ->
  body = [Call execProcess] /\
  exists e, argv k1 !! newThread = Some e /\
  (forall k2 : OS, argv k2 !! newThread = argv k1 !! newThread ->
    do_execProcess read_header sizeof_header NOFFMAGIC newThread k2 =
      k' ← load_program read_header sizeof_header NOFFMAGIC e newThread k2;
      start_program newThread k') /\
  (forall k2 : OS, regs40 k2 ->
    let k3 := returned status (set_argv (delete newThread (argv k2)) k2) in
    return_now status (set_argv (delete newThread (argv k2)) k2) = Ok (k3, []) /\
    do_execProcess read_header sizeof_header NOFFMAGIC newThread k3 = UB).
Proof.
  unfold NachOS_Exec. intros H. apply bind_Ok in H as (addr & _ & H).
  apply bind_Ok in H as ([name k0] & _ & H). apply bind_Ok in H as ([ex d] & _ & H). cbv zeta in H.
  destruct ex as [e|]; [|by apply bind_Ok in H as (? & _ & [= _ ?])].
  destruct (new_Thread new_registers _) as [n kn] eqn:En.
  apply bind_Ok in H as ([st ka] & _ & H). apply bind_Ok in H as (kb & _ & H).
  injection H as Hk1 Hn Hb Hs; subst n k1 body st. split; [done|]. exists e. split; [apply lookup_insert_eq|]. split.
  - intros k2 Hk2. unfold do_execProcess. rewrite Hk2. cbn. by rewrite lookup_insert_eq.
  - intros k2 Hr. split; [by apply return_now_eq|].
    unfold do_execProcess. cbn. by rewrite lookup_delete_eq.
Qed.

End handlers.
(** ** Witnesses: the program of Processes.v, after its start *)
Section witnesses.
Import Processes.
#[local] Existing Instance Sample.host.
#[local] Existing Instance AddrSpace.list_Executable.

Definition k0 : OS (E := list Z) (D := unit) (U := unit) := client Sample.kernel0.

Definition table_check {A} (tb : ControlTable.ControlTable A) : bool :=
  let b := ControlTable.logicalMap tb in
  (BitMap.numBits b =? 100) && (BitMap.numWords b =? divRoundUp 100 BitMap.BitsInWord) &&
  (Z.of_nat (length (BitMap.map b)) =? BitMap.numWords b) &&
  forallb (fun w => bool_decide (is_u32 w)) (BitMap.map b) &&
  (Z.of_nat (length (ControlTable.openObjects tb)) =? 100).

Lemma table_check_wf {A} (tb : ControlTable.ControlTable A) : table_check tb = true -> ControlTable.wf tb.
Proof.
  unfold table_check. intros H. apply andb_true_iff in H as [H H5]. apply andb_true_iff in H as [H H4].
  apply andb_true_iff in H as [H H3]. apply andb_true_iff in H as [H1 H2].
  rewrite Z.eqb_eq in H1, H2, H3, H5. split; [split|done|done]; [lia|congruence|done|].
  apply Forall_forall. intros w Hw. rewrite forallb_forall in H4.
  eapply bool_decide_eq_true_1, H4. by apply list_elem_of_In.
Qed.

Lemma has_table_check {E D U} kd t (k : OS (E := E) (D := D) (U := U)) :
  match get_objects kd t k with Ok (_, tb) => table_check tb | _ => false end = true -> has_table kd t k.
Proof.
  unfold has_table. destruct (get_objects kd t k) as [[l tb]| | | |]; try done. intros H.
  exists l, tb. split; [done|by apply table_check_wf].
Qed.

Lemma has_files_check {E D U} t (k : OS (E := E) (D := D) (U := U)) :
  match get_files t k with Ok (_, tb) => table_check tb | _ => false end = true -> has_files t k.
Proof.
  unfold has_files. destruct (get_files t k) as [[l tb]| | | |]; try done. intros H.
  exists l, tb. split; [done|by apply table_check_wf].
Qed.

Lemma k0_tables kd : has_table kd 0%nat k0.
Proof. apply has_table_check. destruct kd; by vm_compute. Qed.

Lemma k0_regs : regs40 k0.
Proof. by vm_compute. Qed.

(** Semaphore 0 is not open. *)
Lemma object_calls_correct_witness : NachOS_SemWait 0%nat k0 = Ok (returned (-1) k0, []).
Proof.
  destruct (object_calls_correct 0%nat k0 0 k0_tables) as [(_ & H & _) _].
  - by vm_compute.
  - exact k0_regs.
  - etransitivity; [exact H|]. unfold object_call.
    assert (object_at KSem 0%nat k0 0 = None) as -> by (by vm_compute). reflexivity.
Defined.

Lemma object_lifecycle_witness :
  exists k1 id k2, NachOS_LockCreate 0%nat k0 = Ok (k1, [New (QLock 6) 0; Call (Created KLock 6)]) /\
    NachOS_Created KLock 6 0%nat k1 = Ok (k2, []) /\ object_at KLock 0%nat k2 id = Some (Some 6%nat).
Proof.
  destruct (object_lifecycle 0%nat k0 k0_tables k0_regs) as ((_ & H & _) & _).
  destruct H as (k1 & id & k2 & H1 & H2 & _ & _ & _ & Hb).
  - exists 0. split; [by split|by vm_compute].
  - exists k1, id, k2. split; [exact H1|]. split; [exact H2|]. rewrite Hb. by rewrite decide_True.
Defined.

Lemma k0_mapped : mapped (seqZ 0 11) (the_machine k0).
Proof.
  split.
  - split; [by vm_compute|]. apply (bool_decide_unpack _). by vm_compute.
  - by vm_compute.
  - exists 1%positive. destruct (tables (the_machine k0) !! 1%positive) as [table|] eqn:Ht.
    + exists table. split; [by vm_compute|]. split; [done|].
      vm_compute in Ht. injection Ht as <-. split; [by vm_compute|]. split; [by vm_compute|].
      by repeat constructor.
    + by vm_compute in Ht.
  - vm_compute. by repeat constructor.
  - apply (bool_decide_unpack _). by vm_compute.
  - vm_compute. lia.
Qed.

(** Three bytes of code to the console. *)
Lemma Write_correct_witness :
  exists k', do_write 0 3 1 0%nat k0 = Ok (0, k') /\ numConsoleCharsWritten k' = 4.
Proof.
  pose proof (has_files_check 0%nat k0 ltac:(by vm_compute)) as Hf.
  assert (readable 0 3 (memory (seqZ 0 11) (the_machine k0)) = true) as Hrd by (by vm_compute).
  assert (file_at 0%nat k0 1 = Some 1) as HF by (by vm_compute).
  assert (numConsoleCharsWritten k0 = 0) as Hn by (by vm_compute).
  pose proof k0_mapped as Hm. revert Hf Hrd HF Hn Hm. generalize k0. intros k Hf Hrd HF Hn Hm.
  destruct (Write_correct (seqZ 0 11) 0%nat k 0 3 1 Hf Hm ltac:(lia) ltac:(lia) ltac:(lia) Hrd) as [_ H].
  rewrite HF in H. destruct H as (m' & _ & _ & _ & H). eexists. split; [exact H|].
  cbn. by rewrite Hn.
Defined.

Lemma ExceptionHandler_correct_witness :
  exists k', advance_pc k0 = Ok k' /\ reg PCReg (the_machine k') = Ok 4.
Proof.
  assert (reg NextPCReg (the_machine k0) = Ok 4) as HN by (by vm_compute).
  assert (reg 2 (the_machine k0) = Ok 0) as H2 by (by vm_compute).
  pose proof k0_regs as Hr. revert HN H2 Hr. generalize k0. intros k HN H2 Hr.
  destruct (ExceptionHandler_correct Sample.fileSystem_Open (Sample.zeros 40) 0%nat k 0 Hr H2)
    as (_ & _ & _ & _ & pc & npc & k' & _ & Hn & H & Hreg).
  exists k'. split; [exact H|]. rewrite (Hreg PCReg) by done.
  change (PCReg =? PrevPCReg) with false. change (PCReg =? PCReg) with true. cbv iota. congruence.
Defined.

Lemma Exec_argument_lifetime_witness :
  exists (k k1 : OS (E := list Z) (D := unit) (U := unit)) n status,
    NachOS_Exec Sample.fileSystem_Open (Sample.zeros 40) 0%nat k =
      Ok (k1, [Fork n [Call execProcess]; Call (Exec_end n status)]) /\
    do_execProcess AddrSpace.noff 40 AddrSpace.magic n
      (returned status (set_argv (delete n (argv k1)) k1)) = UB.
Proof.
  assert (match NachOS_Exec Sample.fileSystem_Open (Sample.zeros 40) 0%nat k0 with
    | Ok (k1, us) => us = [Fork 6%nat [Call execProcess]; Call (Exec_end 6%nat 1)] /\ regs40 k1
    | _ => False
    end) as Hus by (vm_compute; split; reflexivity).
  exists k0. revert Hus. generalize k0. intros k.
  destruct (NachOS_Exec _ _ 0%nat k) as [[k1 us]| | | |] eqn:HE; try done. intros [-> Hr].
  exists k1, 6%nat, 1. split; [reflexivity|].
  destruct (Exec_argument_lifetime AddrSpace.noff 40 AddrSpace.magic Sample.fileSystem_Open
    (Sample.zeros 40) 0%nat k k1 6%nat [Call execProcess] 1 HE) as (_ & e & _ & _ & H).
  destruct (H k1 Hr) as [_ HU]. exact HU.
Defined.

End witnesses.

End Handlers.
