(* ===== verification/VMap.v ===== *)
(** vm/Map.hpp: the map of the virtual memory.

    Module [Map] is the array of pairs with its capacity; looking a key up scans the
    keys and also reads the one after the last.  [pairs] is the list it stands for. *)

From S2P Require Import Prelude.

Module Map.

Section map.
Context {Key Object : Type} `{EqDecision Key}.

(** What [new] and [realloc] leave in the arrays. *)
Context (new_keys : Z -> list Key) (new_objects : Z -> list Object).

Record Map := mkMap {
  keys : list Key;
  array : list Object;
  capacity : Z;
  count : Z
}.

Definition new : Map := mkMap (new_keys 300) (new_objects 300) 300 0.

(** The loop of [operator[]]; [index] was already incremented. *)
Fixpoint index_loop (fuel : nat) (key : Key) (index : Z) (m : Map) : res Z :=
  match fuel with
  | O => NoFuel
  | S fuel =>
      k ← zget (keys m) index;
      if decide (key = k) then Ok index
      else if index <? count m then index_loop fuel key (index + 1) m
      else Ok index
  end.

Definition at_key (key : Key) (m : Map) : res Object :=
  index ← index_loop (S (Z.to_nat (count m))) key 0 m;
  zget (array m) index.

Definition grow (m : Map) : Map :=
  let capacity' := wrap 64 (capacity m * 2) in
  mkMap (keys m ++ new_keys (capacity' - capacity m)) (array m ++ new_objects (capacity' - capacity m))
    capacity' (count m).

Definition insert (key : Key) (object : Object) (m : Map) : res Map :=
  let m := if capacity m <=? count m then grow m else m in
  ks ← zset (keys m) (count m) key;
  os ← zset (array m) (count m) object;
  Ok (mkMap ks os (capacity m) (wrap 64 (count m + 1))).

(** The loop of [remove] has no bound but the key. *)
Fixpoint remove_loop (fuel : nat) (key : Key) (index : Z) (m : Map) : res Z :=
  match fuel with
  | O => NoFuel
  | S fuel =>
      k ← zget (keys m) index;
      if decide (key = k) then Ok index else remove_loop fuel key (index + 1) m
  end.

Definition shift_body (i : Z) (m : Map) : res Map :=
  if i + 1 <? count m then
    k ← zget (keys m) (i + 1); ks ← zset (keys m) i k;
    o ← zget (array m) (i + 1); os ← zset (array m) i o;
    Ok (mkMap ks os (capacity m) (count m))
  else Ok m.

Definition remove (key : Key) (m : Map) : res Map :=
  index ← remove_loop (S (length (keys m))) key 0 m;
  m ← for_range (Z.to_nat (count m - index)) index shift_body m;
  Ok (mkMap (keys m) (array m) (capacity m) (wrap 64 (count m - 1))).

Definition getCount (m : Map) : Z := count m.

(** [nullptr] is [None]. *)
Definition getKeys (m : Map) : option (list Key) :=
  if 0 <? count m then Some (take (Z.to_nat (count m)) (keys m)) else None.

(** ** The list of pairs *)
Record wf (m : Map) : Prop := {
  wf_keys : Z.of_nat (length (keys m)) = capacity m;
  wf_array : Z.of_nat (length (array m)) = capacity m;
  wf_count : 0 <= count m <= capacity m;
  wf_capacity : 0 < capacity m < 2 ^ 64
}.

Definition pairs (m : Map) : list (Key * Object) :=
  take (Z.to_nat (count m)) (zip (keys m) (array m)).

(** The object of the first pair with the key. *)
Fixpoint assoc (key : Key) (l : list (Key * Object)) : option Object :=
  match l with
  | [] => None
  | (k, o) :: l => if decide (key = k) then Some o else assoc key l
  end.

(** The list less the first pair with the key. *)
Fixpoint without (key : Key) (l : list (Key * Object)) : list (Key * Object) :=
  match l with
  | [] => []
  | (k, o) :: l => if decide (key = k) then l else (k, o) :: without key l
  end.

(** [j] is the first place of [key] in [ks]. *)
Definition first_at (key : Key) (ks : list Key) (j : nat) : Prop :=
  ks !! j = Some key /\ forall i k, (i < j)%nat -> ks !! i = Some k -> k <> key.

Lemma assoc_first key l o :
  assoc key l = Some o ->
  exists j, l !! j = Some (key, o) /\ first_at key l.*1 j /\ without key l = delete j l.
Proof.
  induction l as [|[k o'] l IH]; cbn; [done|]. intros H. case_decide; simplify_eq.
  - exists 0%nat. split_and!; [done| |done]. split; [done|lia].
  - destruct (IH H) as (j & H1 & [H2 H3] & H4). exists (S j). split_and!; [done| |].
    + split; [done|]. intros [|i] k' Hi E; simplify_eq/=; [done|].
      apply (H3 i); [lia|done].
    + cbn. by rewrite H4.
Qed.

Lemma assoc_app key l l' :
  assoc key (l ++ l') = match assoc key l with Some o => Some o | None => assoc key l' end.
Proof. induction l as [|[k o] l IH]; cbn; [done|]. by case_decide. Qed.

Lemma assoc_None key l : assoc key l = None <-> key ∉ l.*1.
Proof.
  induction l as [|[k o] l IH]; cbn.
  - split; [intros _; apply not_elem_of_nil|done].
  - rewrite not_elem_of_cons. case_decide; [naive_solver|tauto].
Qed.

Lemma assoc_without_ne key key' l : key' <> key -> assoc key' (without key l) = assoc key' l.
Proof.
  intros Hne. induction l as [|[k o] l IH]; cbn; [done|].
  destruct (decide (key = k)) as [->|]; cbn; [by rewrite decide_False|]. by rewrite IH.
Qed.

(** The objects that are left. *)
Lemma without_objects key l o :
  assoc key l = Some o -> Permutation l.*2 (o :: (without key l).*2).
Proof.
  induction l as [|[k o'] l IH]; cbn; [done|]. intros H. case_decide; simplify_eq; [done|].
  cbn. rewrite (IH H). apply perm_swap.
Qed.

Lemma length_pairs m : wf m -> Z.of_nat (length (pairs m)) = count m.
Proof.
  intros [Hk Ha Hc _]. unfold pairs. rewrite length_take, length_zip. lia.
Qed.

Lemma lookup_pairs m j k o :
  wf m -> Z.of_nat j < count m ->
  pairs m !! j = Some (k, o) <-> keys m !! j = Some k /\ array m !! j = Some o.
Proof.
  intros [Hk Ha Hc _] Hj. unfold pairs. rewrite lookup_take_lt by lia.
  rewrite lookup_zip_Some. done.
Qed.

Lemma pairs_keys m : wf m -> (pairs m).*1 = take (Z.to_nat (count m)) (keys m).
Proof.
  intros [Hk Ha Hc _]. unfold pairs. rewrite fmap_take, fst_zip; [done|lia].
Qed.

Lemma pairs_first m key o :
  wf m -> assoc key (pairs m) = Some o ->
  exists j, Z.of_nat j < count m /\ first_at key (keys m) j /\ array m !! j = Some o /\
    without key (pairs m) = delete j (pairs m).
Proof.
  intros Hm H. destruct (assoc_first _ _ _ H) as (j & H1 & [H2 H3] & H4).
  assert (Z.of_nat j < count m) as Hj.
  { rewrite <- (length_pairs m) by done. apply lookup_lt_Some in H1. lia. }
  exists j. apply lookup_pairs in H1 as [Ek Eo]; [|done|done].
  split_and!; [done| |done|done]. split; [done|]. intros i k' Hi E. apply (H3 i); [lia|].
  rewrite pairs_keys, lookup_take_lt by (done || lia). done.
Qed.

(** ** The loops *)
Lemma zget_nat {A} (l : list A) j x : l !! j = Some x -> zget l (Z.of_nat j) = Ok x.
Proof. intros H. apply zget_Ok. split; [lia|]. by rewrite Nat2Z.id. Qed.

Lemma index_loop_first fuel key i j m :
  Z.of_nat j < count m -> first_at key (keys m) j -> (i <= j)%nat -> (j - i < fuel)%nat ->
  index_loop fuel key (Z.of_nat i) m = Ok (Z.of_nat j).
Proof.
  intros Hj [H1 H2]. revert i. induction fuel as [|fuel IH]; intros i Hi Hf; [lia|]. cbn.
  destruct (decide (i = j)) as [->|Hne].
  - rewrite (zget_nat _ _ key) by done. cbn. by rewrite decide_True.
  - destruct (lookup_lt_is_Some_2 (keys m) i) as [k Hk]; [apply lookup_lt_Some in H1; lia|].
    rewrite (zget_nat _ _ k) by done. cbn.
    rewrite decide_False by (intros <-; by apply (H2 i key); [lia|..]).
    rewrite (proj2 (Z.ltb_lt _ _)) by lia.
    replace (Z.of_nat i + 1) with (Z.of_nat (S i)) by lia. apply IH; lia.
Qed.

Lemma remove_loop_first fuel key i j m :
  first_at key (keys m) j -> (i <= j)%nat -> (j - i < fuel)%nat ->
  remove_loop fuel key (Z.of_nat i) m = Ok (Z.of_nat j).
Proof.
  intros [H1 H2]. revert i. induction fuel as [|fuel IH]; intros i Hi Hf; [lia|]. cbn.
  destruct (decide (i = j)) as [->|Hne].
  - rewrite (zget_nat _ _ key) by done. cbn. by rewrite decide_True.
  - destruct (lookup_lt_is_Some_2 (keys m) i) as [k Hk]; [apply lookup_lt_Some in H1; lia|].
    rewrite (zget_nat _ _ k) by done. cbn.
    rewrite decide_False by (intros <-; by apply (H2 i key); [lia|..]).
    replace (Z.of_nat i + 1) with (Z.of_nat (S i)) by lia. apply IH; lia.
Qed.

(** [l] after the items from [j] on moved one place down, up to [i]. *)
Definition shifted {A} (j i : nat) (l l' : list A) : Prop :=
  length l' = length l /\
  forall n, l' !! n = if decide (j <= n < i)%nat then l !! S n else l !! n.

Lemma shifted_step {A} (j i : nat) (l l' : list A) x :
  shifted j i l l' -> (j <= i)%nat -> (S i < length l)%nat -> l' !! S i = Some x ->
  shifted j (S i) l (<[i := x]> l').
Proof.
  intros [Hl H] Hj Hi Hx. rewrite (H (S i)), decide_False in Hx by lia.
  split; [by rewrite length_insert|]. intros n. destruct (decide (n = i)) as [->|Hne].
  - rewrite list_lookup_insert_eq, decide_True by lia. by rewrite Hx.
  - rewrite list_lookup_insert_ne, H by done. repeat case_decide; done || lia.
Qed.

Lemma shift_loop n j m :
  wf m -> (j + n <= Z.to_nat (count m))%nat ->
  exists m', for_range n (Z.of_nat j) shift_body m = Ok m' /\
    capacity m' = capacity m /\ count m' = count m /\
    shifted j (min (j + n) (Z.to_nat (count m - 1))) (keys m) (keys m') /\
    shifted j (min (j + n) (Z.to_nat (count m - 1))) (array m) (array m').
Proof.
  intros Hm Hn. destruct (wf_count m Hm) as [Hc Hcap].
  destruct (for_range_rule
    (fun i m' => capacity m' = capacity m /\ count m' = count m /\
      shifted j (min (Z.to_nat i) (Z.to_nat (count m - 1))) (keys m) (keys m') /\
      shifted j (min (Z.to_nat i) (Z.to_nat (count m - 1))) (array m) (array m'))
    n (Z.of_nat j) shift_body m) as (m' & E & H).
  - split_and!; [done|done| |]; (split; [done|]); intros k; rewrite decide_False by lia; done.
  - intros i m1 Hi (E1 & E2 & K & A). unfold shift_body. rewrite E2.
    destruct (Z.ltb_spec (i + 1) (count m)) as [Hlt|Hge].
    + replace (min (Z.to_nat i) (Z.to_nat (count m - 1))) with (Z.to_nat i) in K, A by lia.
      replace (min (Z.to_nat (i + 1)) (Z.to_nat (count m - 1))) with (S (Z.to_nat i)) by lia.
      destruct (zget_is_Ok (keys m1) (i + 1)) as [k Hk]; [rewrite (proj1 K), (wf_keys m Hm); lia|].
      destruct (zget_is_Ok (array m1) (i + 1)) as [o Ho]; [rewrite (proj1 A), (wf_array m Hm); lia|].
      rewrite Hk, Ho. cbn. rewrite !zset_eq
        by (rewrite ?(proj1 K), ?(proj1 A), ?(wf_keys m Hm), ?(wf_array m Hm); lia).
      cbn. eexists. split; [done|]. cbn. apply zget_Ok in Hk as [_ Hk], Ho as [_ Ho].
      replace (Z.to_nat (i + 1)) with (S (Z.to_nat i)) in Hk, Ho by lia.
      split_and!; [done|done| |]; apply shifted_step; try done; try lia.
      * pose proof (wf_keys m Hm). lia.
      * pose proof (wf_array m Hm). lia.
    + exists m1. split; [done|]. split_and!; [done|done| |].
      * replace (min (Z.to_nat (i + 1)) _) with (min (Z.to_nat i) (Z.to_nat (count m - 1))) by lia. done.
      * replace (min (Z.to_nat (i + 1)) _) with (min (Z.to_nat i) (Z.to_nat (count m - 1))) by lia. done.
  - exists m'. replace (Z.to_nat (Z.of_nat j + Z.of_nat n)) with (j + n)%nat in H by lia. done.
Qed.

Lemma take_shifted {A} (j c : nat) (l l' : list A) :
  shifted j c l l' -> (j <= c)%nat -> (c < length l)%nat ->
  take c l' = delete j (take (S c) l).
Proof.
  intros [Hl H] Hj Hc. apply list_eq. intros n.
  destruct (decide (n < j)%nat).
  - rewrite lookup_take_lt, H, decide_False, list_lookup_delete_lt, lookup_take_lt by lia. done.
  - rewrite list_lookup_delete_ge by lia. destruct (decide (n < c)%nat).
    + rewrite !lookup_take_lt, H, decide_True by lia. done.
    + rewrite !lookup_take_ge by lia. done.
Qed.

Lemma zip_delete {A B} (j : nat) (l : list A) (k : list B) :
  zip (delete j l) (delete j k) = delete j (zip l k).
Proof.
  revert l k. induction j as [|j IH]; intros [|x l] [|y k]; cbn; try done.
  - by destruct l.
  - f_equal. apply IH.
Qed.

Lemma pairs_zip m :
  pairs m = zip (take (Z.to_nat (count m)) (keys m)) (take (Z.to_nat (count m)) (array m)).
Proof. unfold pairs. apply zip_with_take. Qed.

(** ** The operations on the list of pairs *)
Context (Hkeys : forall n, 0 <= n -> Z.of_nat (length (new_keys n)) = n).
Context (Hobjects : forall n, 0 <= n -> Z.of_nat (length (new_objects n)) = n).

Lemma wf_new : wf new /\ pairs new = [].
Proof.
  split; [|by unfold pairs; cbn]. split; cbn; rewrite ?Hkeys, ?Hobjects; lia.
Qed.

Lemma at_key_pairs m key o : wf m -> assoc key (pairs m) = Some o -> at_key key m = Ok o.
Proof.
  intros Hm H. destruct (pairs_first m key o Hm H) as (j & Hj & Hf & Ho & _). unfold at_key.
  rewrite (index_loop_first _ key 0 j) by (done || lia). cbn. by apply zget_nat.
Qed.

Lemma grow_pairs m : wf m -> capacity m < 2 ^ 63 ->
  wf (grow m) /\ pairs (grow m) = pairs m /\ count (grow m) = count m /\
  capacity (grow m) = 2 * capacity m.
Proof.
  intros [Hk Ha Hc Hcap] H. unfold grow.
  assert (wrap 64 (capacity m * 2) = 2 * capacity m) as -> by (unfold wrap; rewrite Z.mod_small; lia).
  split_and!; [split; cbn; rewrite ?Z_of_nat_app, ?length_app, ?Nat2Z.inj_add, ?Hkeys, ?Hobjects; lia| |done|done].
  unfold pairs. cbn. rewrite !zip_with_take, !take_app_le by lia. done.
Qed.

Lemma insert_pairs m key o :
  wf m -> capacity m < 2 ^ 63 ->
  exists m', insert key o m = Ok m' /\ wf m' /\ pairs m' = pairs m ++ [(key, o)] /\
    capacity m' = (if capacity m <=? count m then 2 * capacity m else capacity m).
Proof.
  intros Hm Hcap. unfold insert.
  set (m1 := if capacity m <=? count m then grow m else m).
  assert (wf m1 /\ pairs m1 = pairs m /\ count m1 < capacity m1 /\
    (if capacity m <=? count m then 2 * capacity m else capacity m) = capacity m1)
    as (H1 & <- & Hlt & ->).
  { subst m1. destruct (Z.leb_spec (capacity m) (count m)); [|split_and!; done || lia].
    destruct (grow_pairs m Hm Hcap) as (? & ? & -> & ->). pose proof (wf_count m Hm).
    pose proof (wf_capacity m Hm). split_and!; done || lia. }
  clearbody m1. destruct H1 as [Hk Ha Hc Hcap1].
  rewrite !zset_eq by lia. cbn. eexists. split; [done|].
  assert (wrap 64 (count m1 + 1) = count m1 + 1) as E by (unfold wrap; apply Z.mod_small; lia).
  split; [split; cbn; rewrite ?length_insert, ?E; lia|].
  split; [|done]. unfold pairs. cbn. rewrite E, !zip_with_take.
  replace (Z.to_nat (count m1 + 1)) with (S (Z.to_nat (count m1))) by lia.
  rewrite !(take_S_r _ _ key), !(take_S_r _ _ o) by (apply list_lookup_insert_eq; lia).
  rewrite !take_insert_ge by lia. rewrite zip_with_app by (rewrite !length_take; lia). done.
Qed.

(** Removing the item at [j] of the arrays, which may lie past the pairs. *)
Lemma remove_at m key j :
  wf m -> 0 < count m -> first_at key (keys m) j ->
  exists m', remove key m = Ok m' /\ wf m' /\
    (pairs m' = if decide (Z.of_nat j < count m) then delete j (pairs m)
               else take (Z.to_nat (count m - 1)) (pairs m)) /\
    capacity m' = capacity m.
Proof.
  intros Hm Hc0 Hf. unfold remove.
  rewrite (remove_loop_first _ key 0 j) by (done || (apply proj1 in Hf; apply lookup_lt_Some in Hf; lia)).
  cbn -[for_range Z.sub].
  assert (forall m', capacity m' = capacity m -> count m' = count m ->
    length (keys m') = length (keys m) -> length (array m') = length (array m) ->
    wf (mkMap (keys m') (array m') (capacity m') (wrap 64 (count m' - 1)))) as Hwf.
  { destruct Hm as [Hk Ha Hc Hcap]. intros m' E1 E2 E3 E4.
    split; cbn; rewrite ?E1, ?E2, ?E3, ?E4; unfold wrap; rewrite ?Z.mod_small; lia. }
  assert (wrap 64 (count m - 1) = count m - 1) as E
    by (destruct Hm; unfold wrap; apply Z.mod_small; lia).
  case_decide as Hj.
  - destruct (shift_loop (Z.to_nat (count m - Z.of_nat j)) j m Hm) as (m' & -> & E1 & E2 & K & A); [lia|].
    cbn. eexists. split; [done|]. split; [by apply Hwf; [| |apply K|apply A]|]. split; [|done].
    destruct Hm as [Hk Ha Hc Hcap]. unfold pairs. cbn. rewrite E2, E, !zip_with_take.
    replace (min _ _) with (Z.to_nat (count m - 1)) in K, A by lia.
    rewrite (take_shifted _ _ _ _ K), (take_shifted _ _ _ _ A) by lia.
    replace (S (Z.to_nat (count m - 1))) with (Z.to_nat (count m)) by lia. apply zip_delete.
  - replace (Z.to_nat (count m - Z.of_nat j)) with 0%nat by lia. cbn.
    eexists. split; [done|]. split; [by apply Hwf|]. split; [|done].
    unfold pairs. cbn. rewrite E, take_take. f_equal. lia.
Qed.

Lemma remove_pairs m key o :
  wf m -> assoc key (pairs m) = Some o ->
  exists m', remove key m = Ok m' /\ wf m' /\ pairs m' = without key (pairs m) /\
    capacity m' = capacity m.
Proof.
  intros Hm H. destruct (pairs_first m key o Hm H) as (j & Hj & Hf & Ho & E).
  destruct (remove_at m key j Hm) as (m' & E' & Hw & Hp & Hc); [lia|done|].
  exists m'. rewrite decide_True in Hp by done. by rewrite Hp, E.
Qed.

Lemma getKeys_pairs m :
  wf m -> getKeys m = if decide (pairs m = []) then None else Some (pairs m).*1.
Proof.
  intros Hm. unfold getKeys. rewrite <- pairs_keys by done. pose proof (length_pairs m Hm) as Hl.
  destruct (Z.ltb_spec 0 (count m)), (pairs m) as [|p l]; cbn in *; done || lia.
Qed.

Lemma index_loop_absent fuel key i m :
  wf m -> count m < capacity m -> key ∉ (pairs m).*1 -> (i <= Z.to_nat (count m))%nat ->
  (Z.to_nat (count m) - i < fuel)%nat ->
  index_loop fuel key (Z.of_nat i) m = Ok (count m).
Proof.
  intros Hm Hlt Hkey. destruct (wf_count m Hm). revert i.
  induction fuel as [|fuel IH]; intros i Hi Hf; [lia|]. cbn.
  destruct (lookup_lt_is_Some_2 (keys m) i) as [k Hk]; [pose proof (wf_keys m Hm); lia|].
  rewrite (zget_nat _ _ k) by done. cbn. destruct (Z.ltb_spec (Z.of_nat i) (count m)).
  - rewrite decide_False.
    + replace (Z.of_nat i + 1) with (Z.of_nat (S i)) by lia. apply IH; lia.
    + intros <-. apply Hkey. rewrite pairs_keys by done. apply list_elem_of_lookup_2 with i.
      by rewrite lookup_take_lt by lia.
  - replace (Z.of_nat i) with (count m) by lia. by case_decide.
Qed.

Lemma index_loop_full fuel key i m :
  wf m -> count m = capacity m -> key ∉ (pairs m).*1 -> (i <= Z.to_nat (count m))%nat ->
  (Z.to_nat (count m) - i < fuel)%nat ->
  index_loop fuel key (Z.of_nat i) m = UB.
Proof.
  intros Hm Hfull Hkey. destruct (wf_count m Hm). pose proof (wf_keys m Hm). revert i.
  induction fuel as [|fuel IH]; intros i Hi Hf; [lia|]. cbn.
  destruct (decide (i < length (keys m))%nat) as [Hlt|Hge]; [|by rewrite zget_UB by lia].
  destruct (lookup_lt_is_Some_2 (keys m) i Hlt) as [k Hk].
  rewrite (zget_nat _ _ k) by done. cbn. rewrite decide_False.
  - rewrite (proj2 (Z.ltb_lt _ _)) by lia.
    replace (Z.of_nat i + 1) with (Z.of_nat (S i)) by lia. apply IH; lia.
  - intros <-. apply Hkey. rewrite pairs_keys by done. apply list_elem_of_lookup_2 with i.
    by rewrite lookup_take_lt by lia.
Qed.

Lemma first_place key (ks : list Key) : key ∈ ks -> exists j, first_at key ks j.
Proof.
  induction ks as [|k ks IH]; [by rewrite elem_of_nil|]. intros H.
  destruct (decide (k = key)) as [->|Hne].
  - exists 0%nat. split; [done|lia].
  - apply elem_of_cons in H as [->|H]; [done|]. destruct (IH H) as (j & H1 & H2).
    exists (S j). split; [done|]. intros [|i] k' Hi E; simplify_eq/=; [done|].
    apply (H2 i); [lia|done].
Qed.

Lemma remove_loop_absent fuel key i m :
  key ∉ keys m -> (length (keys m) < i + fuel)%nat ->
  (i <= length (keys m))%nat -> remove_loop fuel key (Z.of_nat i) m = UB.
Proof.
  intros Hk. revert i. induction fuel as [|fuel IH]; intros i Hl Hf; [lia|]. cbn.
  destruct (decide (i < length (keys m))%nat) as [Hi|Hi].
  - destruct (lookup_lt_is_Some_2 (keys m) i Hi) as [k E].
    rewrite (zget_nat _ _ k) by done. cbn.
    rewrite decide_False by (intros ->; by apply Hk, list_elem_of_lookup_2 with i).
    replace (Z.of_nat i + 1) with (Z.of_nat (S i)) by lia.
    apply IH; lia.
  - rewrite zget_UB by lia. done.
Qed.

(** C31: the map of vm/Map.hpp behaves as the list of pairs inserted, oldest
    first.  A new map is the empty list; [operator[]] on a key that is bound gives
    the object of its first pair; [insert] always succeeds, doubling the arrays
    when they are full, and appends the pair, even when the key is bound already;
    [remove] of a bound key takes its first pair out and keeps the order of the
    others; [getKeys] is the list of keys, or the null pointer on an empty map. *)
Theorem map_refines_pairs (m : Map) :
  wf m ->
  (wf new /\ pairs new = []) /\
  (forall key o, assoc key (pairs m) = Some o -> at_key key m = Ok o) /\
  (forall key o, capacity m < 2 ^ 63 ->
     exists m', insert key o m = Ok m' /\ wf m' /\ pairs m' = pairs m ++ [(key, o)] /\
       capacity m' = (if capacity m <=? count m then 2 * capacity m else capacity m)) /\
  (forall key o, assoc key (pairs m) = Some o ->
     exists m', remove key m = Ok m' /\ wf m' /\ pairs m' = without key (pairs m) /\
       capacity m' = capacity m) /\
  getKeys m = (if decide (pairs m = []) then None else Some (pairs m).*1) /\
  getCount m = Z.of_nat (length (pairs m)).
Proof.
  intros Hm. split_and!; [apply wf_new|apply wf_new| | | |by apply getKeys_pairs|].
  - intros. by apply at_key_pairs.
  - intros. by apply insert_pairs.
  - intros. by eapply remove_pairs.
  - by rewrite length_pairs.
Qed.

(** No operation of vm/Map.hpp checks that the key is bound.  On an absent key,
    [operator[]] answers whatever lies one past the last object, and reads past the
    array when the map is full.  [remove] drops the last pair, which has another
    key, when a copy of the key is left in the array after the last pair, and
    otherwise reads past the array. *)
Theorem absent_key_unchecked (m : Map) key :
  wf m -> key ∉ (pairs m).*1 ->
  (count m < capacity m -> at_key key m = zget (array m) (count m)) /\
  (count m = capacity m -> at_key key m = UB) /\
  (0 < count m -> key ∈ keys m ->
     exists m', remove key m = Ok m' /\ pairs m' = take (Z.to_nat (count m - 1)) (pairs m)) /\
  (key ∉ keys m -> remove key m = UB).
Proof.
  intros Hm Hkey. split_and!.
  - intros Hlt. unfold at_key. by rewrite (index_loop_absent _ key 0) by (done || lia).
  - intros Hfull. unfold at_key. by rewrite (index_loop_full _ key 0) by (done || lia).
  - intros Hc Hin. destruct (first_place key (keys m) Hin) as [j Hj].
    destruct (remove_at m key j Hm Hc Hj) as (m' & E & _ & Hp & _). exists m'. split; [done|].
    rewrite Hp, decide_False; [done|]. intros Hlt. apply Hkey. rewrite pairs_keys by done.
    apply list_elem_of_lookup_2 with j. rewrite lookup_take_lt by lia. apply Hj.
  - intros Hk. unfold remove. rewrite (remove_loop_absent _ key 0) by (done || lia). done.
Qed.

End map.
(** ** Witnesses *)
Section witnesses.

(** A map of capacity 4 with three pairs, two of the same key, and a stale pair. *)
Definition map0 : Map (Key := Z) (Object := Z) := mkMap [5; 7; 5; 9] [50; 70; 51; 90] 4 3.

Lemma map0_ok : wf map0.
Proof. by split. Qed.

Lemma zeros_length n : 0 <= n -> Z.of_nat (length (replicate (Z.to_nat n) 0)) = n.
Proof. intros. rewrite length_replicate. lia. Qed.

Lemma map_refines_pairs_witness :
  at_key 5 map0 = Ok 50 /\
  exists m, remove 5 map0 = Ok m /\ pairs m = [(7, 70); (5, 51)].
Proof.
  destruct (map_refines_pairs (fun n => replicate (Z.to_nat n) 0) (fun n => replicate (Z.to_nat n) 0)
    zeros_length zeros_length map0 map0_ok) as (_ & Hat & _ & Hrem & _).
  split; [by apply Hat|]. destruct (Hrem 5 50 eq_refl) as (m & E & _ & Hp & _).
  exists m. split; [exact E|exact Hp].
Defined.

Lemma absent_key_unchecked_witness :
  at_key 9 map0 = Ok 90 /\ (exists m, remove 9 map0 = Ok m /\ pairs m = [(5, 50); (7, 70)]) /\
  remove 8 map0 = UB.
Proof.
  split_and!.
  - destruct (absent_key_unchecked map0 9 map0_ok ltac:(by apply (bool_decide_unpack _))) as (H & _).
    exact (H eq_refl).
  - destruct (absent_key_unchecked map0 9 map0_ok ltac:(by apply (bool_decide_unpack _))) as (_ & _ & H & _).
    exact (H eq_refl ltac:(by apply (bool_decide_unpack _))).
  - destruct (absent_key_unchecked map0 8 map0_ok ltac:(by apply (bool_decide_unpack _))) as (_ & _ & _ & H).
    apply H. by apply (bool_decide_unpack _).
Defined.

End witnesses.

End Map.
