(* ===== verification/VMem.v ===== *)
(** userprog/addrspace.h and addrspaceVM.cc, vm/BackingStore.hpp and
    BackingStore.cpp: the address spaces of a kernel built with VM, where pages are
    loaded when a fault asks for them and a TLB of four entries translates.

    Module [VM] holds the page replacement ([secondChance]), the backing store
    ([pageIn], [pageOut], [remove]), and the address space: constructors,
    destructor, [SaveState], [RestoreState], [updataPageTables] and
    [PageFaultException].  A pointer to an entry of a page table is the table and
    an index; the buffers of the backing store live on a heap, because a buffer
    that was deleted can still be pointed to. *)

From S2P Require Import Prelude BitMap MachineState AddrSpace VMap.

Module VM.

Import Machine.

Definition NO_PHYSYCAL_PAGE : Z := -1.
Definition FILE_NAME_SIZE : Z := 1000.

(** [TranslationEntry*], into a page table. *)
Definition entry_ptr : Type := table_loc * Z.

(** [char*] of [new char[PageSize]]. *)
Abbreviation buffer_loc := positive.

Definition set_physicalPage (p : Z) (e : TranslationEntry) : TranslationEntry :=
  mkEntry (virtualPage e) p (valid e) (readOnly e) (use e) (dirty e).
Definition clear_use (e : TranslationEntry) : TranslationEntry :=
  mkEntry (virtualPage e) (physicalPage e) (valid e) (readOnly e) false (dirty e).
Definition use_and_valid (e : TranslationEntry) : TranslationEntry :=
  mkEntry (virtualPage e) (physicalPage e) true (readOnly e) true (dirty e).

(** ** Second chance *)
Section second_chance.
Context {St : Type} (get : Z -> St -> res TranslationEntry)
  (set : Z -> TranslationEntry -> St -> res St).

(** The loop of both versions of [secondChance]; [get] and [set] access
    [table[index]].  The result is the last index. *)
Fixpoint secondChance (fuel : nat) (index range : Z) (s : St) : res (Z * St) :=
  match fuel with
  | O => NoFuel
  | S fuel =>
      e ← get index s;
      if use e && valid e then
        ASSERT (index <? range);;
        s ← (if negb (physicalPage e =? NO_PHYSYCAL_PAGE) then set index (clear_use e) s
             else Ok s);
        secondChance fuel (Z.rem (index + 1) range) range s
      else Ok (index, s)
  end.

End second_chance.

(** Two rounds of the table. *)
Definition rounds (range : Z) : nat := S (2 * Z.to_nat range).

Section vm.
Context {thread : Type} `{EqDecision thread}.
Context {E D : Type} `{!Executable E D}.
Context (read_header : list Z -> AddrSpace.NoffHeader) (sizeof_header NOFFMAGIC : Z).

(** [fileSystem->Open(name)]; NULL is [None]. *)
Context (fileSystem_Open : list Z -> D -> res (option E * D)).

(** What [new] leaves in the array of [getPhysicalPageTable] and in the arrays of
    the two maps. *)
Context (new_pointers : list entry_ptr).
Context (new_threads : Z -> list thread) (new_keys : Z -> list entry_ptr)
  (new_buffers : Z -> list buffer_loc).

(** The fields of an address space do not change after its constructor. *)
Record AddrSpace := mkSpace {
  pageTable : table_loc;
  numPages : Z;
  usage : Z;
  file : list Z
}.

Context (new_spaces : Z -> list AddrSpace).

(** The globals: [machine], [physicalPageMap], [stats], the disk, [invertedTable],
    [backingStore] with its buffers, [tlbIndex] and [physicalIndex]. *)
Record World := mkWorld {
  machine : Machine;
  physicalPageMap : BitMap.BitMap;
  numDiskReads : Z;
  numPageFaults : Z;
  disk : D;
  invertedTable : Map.Map (Key := thread) (Object := AddrSpace);
  backingStore : Map.Map (Key := entry_ptr) (Object := buffer_loc);
  buffers : gmap buffer_loc (list Z);
  tlbIndex : Z;
  physicalIndex : Z
}.

Definition set_machine (m : Machine) (w : World) : World :=
  mkWorld m (physicalPageMap w) (numDiskReads w) (numPageFaults w) (disk w) (invertedTable w)
    (backingStore w) (buffers w) (tlbIndex w) (physicalIndex w).
Definition set_map (b : BitMap.BitMap) (w : World) : World :=
  mkWorld (machine w) b (numDiskReads w) (numPageFaults w) (disk w) (invertedTable w)
    (backingStore w) (buffers w) (tlbIndex w) (physicalIndex w).
Definition set_disk (reads : Z) (d : D) (w : World) : World :=
  mkWorld (machine w) (physicalPageMap w) reads (numPageFaults w) d (invertedTable w)
    (backingStore w) (buffers w) (tlbIndex w) (physicalIndex w).
Definition set_invertedTable t (w : World) : World :=
  mkWorld (machine w) (physicalPageMap w) (numDiskReads w) (numPageFaults w) (disk w) t
    (backingStore w) (buffers w) (tlbIndex w) (physicalIndex w).
Definition set_store st bufs (w : World) : World :=
  mkWorld (machine w) (physicalPageMap w) (numDiskReads w) (numPageFaults w) (disk w)
    (invertedTable w) st bufs (tlbIndex w) (physicalIndex w).
Definition set_tlbIndex (i : Z) (w : World) : World :=
  mkWorld (machine w) (physicalPageMap w) (numDiskReads w) (numPageFaults w) (disk w)
    (invertedTable w) (backingStore w) (buffers w) i (physicalIndex w).
Definition set_physicalIndex (i : Z) (w : World) : World :=
  mkWorld (machine w) (physicalPageMap w) (numDiskReads w) (numPageFaults w) (disk w)
    (invertedTable w) (backingStore w) (buffers w) (tlbIndex w) i.
(** [++stats->numPageFaults] *)
Definition count_fault (w : World) : World :=
  mkWorld (machine w) (physicalPageMap w) (numDiskReads w) (s32 (numPageFaults w + 1)) (disk w)
    (invertedTable w) (backingStore w) (buffers w) (tlbIndex w) (physicalIndex w).

(** ** Memory through pointers *)
Definition get_table (a : table_loc) (w : World) : res (list TranslationEntry) :=
  match tables (machine w) !! a with Some t => Ok t | None => UB end.

Definition get_entry (p : entry_ptr) (w : World) : res TranslationEntry :=
  t ← get_table (fst p) w; zget t (snd p).

Definition set_entry (p : entry_ptr) (e : TranslationEntry) (w : World) : res World :=
  t ← get_table (fst p) w; t ← zset t (snd p) e;
  Ok (set_machine (set_table (fst p) t (machine w)) w).

Definition upd_entry (p : entry_ptr) (f : TranslationEntry -> TranslationEntry) (w : World)
    : res World :=
  e ← get_entry p w; set_entry p (f e) w.

(** [machine->tlb[i]] *)
Definition get_tlb (i : Z) (w : World) : res TranslationEntry :=
  match tlb (machine w) with Some t => zget t i | None => UB end.

Definition put_tlb (i : Z) (e : TranslationEntry) (w : World) : res World :=
  match tlb (machine w) with
  | Some t => t ← zset t i e; Ok (set_machine (set_tlb t (machine w)) w)
  | None => UB
  end.

(** The page at [&machine->mainMemory[frame * PageSize]]. *)
Definition read_page (frame : Z) (w : World) : res (list Z) :=
  zread (frame * PageSize) PageSize (mainMemory (machine w)).

Definition write_page (frame : Z) (bs : list Z) (w : World) : res World :=
  mem ← zcopy (frame * PageSize) bs (mainMemory (machine w));
  Ok (set_machine (set_memory mem (machine w)) w).

Definition zero_page : list Z := replicate (Z.to_nat PageSize) 0.

(** ** The backing store *)

(** The copy of a page into a new buffer. *)
Definition save_page (p : entry_ptr) (frame : Z) (w : World) : res World :=
  bs ← read_page frame w;
  let buffer := fresh (dom (buffers w)) in
  st ← Map.insert new_keys new_buffers p buffer (backingStore w);
  Ok (set_store st (<[buffer := bs]> (buffers w)) w).

Definition pageIn (pin pout : entry_ptr) (w : World) : res World :=
  eout ← get_entry pout w;
  let frame := physicalPage eout in
  w ← upd_entry pin (set_physicalPage frame) w;
  w ← upd_entry pout (set_physicalPage NO_PHYSYCAL_PAGE) w;
  w ← upd_entry pout use_and_valid w;
  w ← upd_entry pin use_and_valid w;
  eout ← get_entry pout w;
  w ← (if negb (readOnly eout) then save_page pout frame w else Ok w);
  src ← Map.at_key pin (backingStore w);
  w ← write_page frame zero_page w;
  match buffers w !! src with
  | None => UB
  | Some bs =>
      w ← write_page frame bs w;
      st ← Map.remove pin (backingStore w);
      Ok (set_store st (delete src (buffers w)) w)
  end.

Definition pageOut (pout : entry_ptr) (w : World) : res World :=
  eout ← get_entry pout w;
  let frame := physicalPage eout in
  map ← BitMap.Clear frame (physicalPageMap w);
  w ← upd_entry pout (set_physicalPage NO_PHYSYCAL_PAGE) (set_map map w);
  w ← upd_entry pout use_and_valid w;
  eout ← get_entry pout w;
  if negb (readOnly eout) then
    w ← save_page pout frame w;
    write_page frame zero_page w
  else Ok w.

(** [remove]: the buffer is the caller's. *)
Definition remove (p : entry_ptr) (w : World) : res (buffer_loc * World) :=
  buffer ← Map.at_key p (backingStore w);
  st ← Map.remove p (backingStore w);
  Ok (buffer, set_store st (buffers w) w).

(** ** Page replacement *)
Definition secondChance_tlb (w : World) : res (Z * World) :=
  '(index, w) ← secondChance get_tlb put_tlb (rounds TLBSize) (tlbIndex w) TLBSize w;
  Ok (index, set_tlbIndex (Z.rem (index + 1) TLBSize) w).

(** [*table[i]] in an array of pointers. *)
Definition get_pointed (table : list entry_ptr) (i : Z) (w : World) : res TranslationEntry :=
  p ← zget table i; get_entry p w.
Definition put_pointed (table : list entry_ptr) (i : Z) (e : TranslationEntry) (w : World) : res World :=
  p ← zget table i; set_entry p e w.

Definition secondChance_table (table : list entry_ptr) (w : World) : res (entry_ptr * World) :=
  '(index, w) ←
    secondChance (get_pointed table) (put_pointed table)
      (rounds NumPhysPages) (physicalIndex w) NumPhysPages w;
  p ← zget table index;
  Ok (p, set_physicalIndex index w).

(** The keys [getKeys] returns; [size] is 0 when it returns NULL. *)
Definition space_at (keys : list thread) (i : Z) (w : World) : res AddrSpace :=
  key ← zget keys i; Map.at_key key (invertedTable w).

Definition getPhysicalPageTable (w : World) : res (list entry_ptr) :=
  let keys := default [] (Map.getKeys (invertedTable w)) in
  let size := Map.getCount (invertedTable w) in
  '(PhysicalPageTable, _) ←
    for_range (Z.to_nat size) 0 (fun i s =>
      space ← space_at keys i w;
      table ← get_table (pageTable space) w;
      for_range (Z.to_nat (numPages space)) 0 (fun j s =>
        let '(ppt, iterator) := s in
        e ← zget table j;
        if negb (physicalPage e =? NO_PHYSYCAL_PAGE) then
          ppt ← zset ppt iterator (pageTable space, j); Ok (ppt, iterator + 1)
        else Ok (ppt, iterator)) s)
      (new_pointers, 0);
  Ok PhysicalPageTable.

(** [FindPage]: [availablePage], and [pageOut] when it is set. *)
Definition FindPage (w : World) : res (Z * option entry_ptr * World) :=
  '(availablePage, map) ← BitMap.Find (physicalPageMap w);
  let w := set_map map w in
  if availablePage =? NO_PHYSYCAL_PAGE then
    table ← getPhysicalPageTable w;
    '(pout, w) ← secondChance_table table w;
    Ok (availablePage, Some pout, w)
  else Ok (availablePage, None, w).

(** The body of the inner loop: the page of [space] at [j] against the TLB entry. *)
Definition sync_entry (cur : TranslationEntry) (e : TranslationEntry) : TranslationEntry :=
  if physicalPage e =? physicalPage cur then
    mkEntry (virtualPage e) (physicalPage e) (valid cur) (readOnly e) (use e) (dirty cur)
  else e.

Definition updataPageTables (w : World) : res World :=
  match Map.getKeys (invertedTable w) with
  | None => Ok w
  | Some keys =>
      for_range (Z.to_nat TLBSize) 0 (fun it1 w =>
        for_range (Z.to_nat (Map.getCount (invertedTable w))) 0 (fun it2 w =>
          space ← space_at keys it2 w;
          for_range (Z.to_nat (numPages space)) 0 (fun it3 w =>
            cur ← get_tlb it1 w;
            upd_entry (pageTable space, it3) (sync_entry cur) w) w) w) w
  end.

(** ** Page faults *)

(** [stats->numDiskReads += executable->ReadAt(into, numBytes, position)] *)
Definition load_page (executable : E) (frame position : Z) (w : World) : res World :=
  '(bs, d) ← exe_ReadAt PageSize position executable (disk w);
  write_page frame bs (set_disk (s32 (numDiskReads w + Z.of_nat (length bs))) d w).

Definition read_noff (executable : E) (w : World) : res (AddrSpace.NoffHeader * World) :=
  '(bs, d) ← exe_ReadAt sizeof_header 0 executable (disk w);
  Ok (read_header bs, set_disk (s32 (numDiskReads w + Z.of_nat (length bs))) d w).

(** The frame of a page that is not in the backing store. *)
Definition take_frame (w : World) : res (Z * World) :=
  '(availablePage, pout, w) ← FindPage w;
  if availablePage =? NO_PHYSYCAL_PAGE then
    match pout with
    | None => UB
    | Some pout => e ← get_entry pout w; w ← pageOut pout w; Ok (physicalPage e, w)
    end
  else Ok (availablePage, w).

(** Filling it from the executable. *)
Definition load_fault (this : AddrSpace) (vpn : Z) (pin : entry_ptr) (availablePage : Z)
    (w : World) : res World :=
  '(executable, d) ← fileSystem_Open (file this) (disk w);
  match executable with
  | None => UB
  | Some executable =>
      '(noffH, w) ← read_noff executable (set_disk (numDiskReads w) d w);
      w ← upd_entry pin (set_physicalPage availablePage) w;
      let physicalPosition := s32 (AddrSpace.inFileAddr (AddrSpace.code noffH) + vpn * PageSize) in
      let executableSize :=
        s32 (AddrSpace.size (AddrSpace.code noffH) + AddrSpace.size (AddrSpace.initData noffH)) in
      w ← write_page availablePage zero_page w;
      if vpn <? divRoundUp executableSize PageSize then
        load_page executable availablePage physicalPosition w
      else Ok w
  end.

Definition swap_in (pin : entry_ptr) (w : World) : res World :=
  table ← getPhysicalPageTable w;
  '(poutPT, w) ← secondChance_table table w;
  pageIn pin poutPT w.

Definition PageFaultException (this : AddrSpace) (w : World) : res World :=
  w ← updataPageTables w;
  let w := count_fault w in
  addr ← ReadRegister BadVAddrReg (machine w);
  let vpn := u32 addr / PageSize in
  let pin := (pageTable this, vpn) in
  '(out, w) ← secondChance_tlb w;
  e ← get_entry pin w;
  w ← (if physicalPage e =? NO_PHYSYCAL_PAGE then
         if valid e && dirty e && negb (readOnly e) then swap_in pin w
         else
           '(availablePage, w) ← take_frame w;
           load_fault this vpn pin availablePage w
       else Ok w);
  w ← upd_entry pin use_and_valid w;
  e ← get_entry pin w;
  put_tlb out e w.

(** ** Constructors and destructor *)

(** [strcpy(this->file, name)] *)
Definition copy_name (name : list Z) : res (list Z) :=
  if Z.of_nat (length name) <? FILE_NAME_SIZE then Ok name else UB.

Definition register (t : thread) (s : AddrSpace) (table : list TranslationEntry) (w : World)
    : res (AddrSpace * World) :=
  inv ← Map.insert new_threads new_spaces t s (invertedTable w);
  Ok (s, set_invertedTable inv (set_machine (set_table (pageTable s) table (machine w)) w)).

(** [AddrSpace(executable, programName)], called by the current thread [t]. *)
Definition new (executable : E) (programName : list Z) (t : thread) (w : World)
    : res (AddrSpace * World) :=
  name ← copy_name programName;
  '(noffH, w) ← read_noff executable w;
  ASSERT (AddrSpace.noffMagic noffH =? NOFFMAGIC);;
  let size := u32 (AddrSpace.size (AddrSpace.code noffH) + AddrSpace.size (AddrSpace.initData noffH)
                   + AddrSpace.size (AddrSpace.uninitData noffH) + AddrSpace.UserStackSize) in
  let numPages := u32 (divRoundUp (s32 size) PageSize) in
  let table := (fun i => mkEntry i NO_PHYSYCAL_PAGE false false false false) <$> seqZ 0 numPages in
  register t (mkSpace (fresh (dom (tables (machine w)))) numPages 1 name) table w.

(** [AddrSpace(father, thread)] *)
Definition copy (father : AddrSpace) (t : thread) (w : World) : res (AddrSpace * World) :=
  name ← copy_name (file father);
  ft ← get_table (pageTable father) w;
  table ← for_range (Z.to_nat (numPages father)) 0 (fun i table =>
    e ← zget ft i;
    Ok (table ++ [mkEntry i NO_PHYSYCAL_PAGE false (readOnly e) false false])) [];
  register t (mkSpace (fresh (dom (tables (machine w)))) (numPages father) (1 + 1) name) table w.

Definition free_page (this : AddrSpace) (i : Z) (w : World) : res World :=
  e ← get_entry (pageTable this, i) w;
  let currentPage := physicalPage e in
  if negb (currentPage =? NO_PHYSYCAL_PAGE) then
    map ← BitMap.Clear currentPage (physicalPageMap w);
    write_page currentPage zero_page (set_map map w)
  else if valid e && dirty e then
    '(buffer, w) ← remove (pageTable this, i) w;
    match buffers w !! buffer with
    | None => UB
    | Some _ => Ok (set_store (backingStore w) (delete buffer (buffers w)) w)
    end
  else Ok w.

(** [~AddrSpace()], called by the current thread [t]. *)
Definition destroy (this : AddrSpace) (t : thread) (w : World) : res World :=
  w ← for_range (Z.to_nat (numPages this)) 0 (free_page this) w;
  inv ← Map.remove t (invertedTable w);
  let w := set_invertedTable inv w in
  Ok (set_machine (AddrSpace.delete_table (pageTable this) (machine w)) w).

(** ** Context switches *)
Definition SaveState (w : World) : res World := updataPageTables w.

Definition invalidate (e : TranslationEntry) : TranslationEntry :=
  mkEntry (virtualPage e) (physicalPage e) false (readOnly e) (use e) (dirty e).

Definition RestoreState (w : World) : res World :=
  for_range (Z.to_nat TLBSize) 0
    (fun i w => e ← get_tlb i w; put_tlb i (invalidate e) w) w.

End vm.

(** The same code as without VM. *)
Definition InitRegisters (s : AddrSpace) (m : Machine) : res Machine :=
  m ← for_range (Z.to_nat NumTotalRegs) 0 (fun i m => WriteRegister i 0 m) m;
  m ← WriteRegister PCReg 0 m;
  m ← WriteRegister NextPCReg 4 m;
  WriteRegister StackReg (s32 (numPages s * PageSize - 16)) m.

(** ** Which entry second chance takes *)
Definition busy (e : TranslationEntry) : bool := use e && valid e.
Definition resident (e : TranslationEntry) : bool := negb (physicalPage e =? NO_PHYSYCAL_PAGE).

(** What a pass of the loop leaves of an entry. *)
Definition pass (e : TranslationEntry) : TranslationEntry :=
  if resident e then clear_use e else e.

(** The place [k] steps after [index] in a table of [n] entries. *)
Definition cyc (n index : Z) (k : nat) : nat := Z.to_nat ((index + Z.of_nat k) mod n).

(** The table after the first [k] entries from [index] on were passed. *)
Definition passed (index : Z) (k : nat) (l : list TranslationEntry) : list TranslationEntry :=
  imap (fun n e => if (Z.of_nat n - index) mod Z.of_nat (length l) <? Z.of_nat k
                   then pass e else e) l.

(** The table from [index] on, then from its start. *)
Definition order (index : Z) (l : list TranslationEntry) : list TranslationEntry :=
  drop (Z.to_nat index) l ++ take (Z.to_nat index) l.

(** The choice: the first entry in the order of the clock that is not in use or
    not valid; when there is none, the first one that has a physical page, and by
    then all of these have lost their use bit; with neither the loop never ends. *)
Definition choose (index : Z) (l : list TranslationEntry) : option (nat * list TranslationEntry) :=
  match list_find (fun e => busy e = false) (order index l) with
  | Some (k, _) => Some (cyc (Z.of_nat (length l)) index k, passed index k l)
  | None =>
      match list_find (fun e => resident e = true) (order index l) with
      | Some (k, _) => Some (cyc (Z.of_nat (length l)) index k, pass <$> l)
      | None => None
      end
  end.

Lemma cyc_lt n index k : 0 < n -> (cyc n index k < Z.to_nat n)%nat.
Proof. intros. unfold cyc. pose proof (Z.mod_pos_bound (index + Z.of_nat k) n). lia. Qed.

Lemma cyc_0 n index : 0 <= index < n -> cyc n index 0 = Z.to_nat index.
Proof. intros. unfold cyc. rewrite Z.add_0_r, Z.mod_small; done. Qed.

Lemma cyc_S n index k : 0 < n ->
  Z.of_nat (cyc n index (S k)) = Z.rem (Z.of_nat (cyc n index k) + 1) n.
Proof.
  intros. unfold cyc. pose proof (Z.mod_pos_bound (index + Z.of_nat k) n).
  pose proof (Z.mod_pos_bound (index + Z.of_nat (S k)) n).
  rewrite Z.rem_mod_nonneg, !Z2Nat.id by lia. rewrite Zplus_mod_idemp_l. f_equal. lia.
Qed.

Lemma cyc_dist n index k j : 0 <= index < n -> Z.of_nat k < n -> (j < Z.to_nat n)%nat ->
  j = cyc n index k <-> (Z.of_nat j - index) mod n = Z.of_nat k.
Proof.
  intros Hi Hk Hj. unfold cyc. pose proof (Z.mod_pos_bound (index + Z.of_nat k) n). split.
  - intros ->. rewrite Z2Nat.id by lia. rewrite Zminus_mod_idemp_l.
    replace (index + Z.of_nat k - index) with (Z.of_nat k) by lia. apply Z.mod_small; lia.
  - intros E. rewrite <- E, Zplus_mod_idemp_r.
    replace (index + (Z.of_nat j - index)) with (Z.of_nat j) by lia.
    rewrite Z.mod_small; lia.
Qed.

Lemma dist_cyc n index k :
  0 <= index < n -> Z.of_nat k < n -> (Z.of_nat (cyc n index k) - index) mod n = Z.of_nat k.
Proof. intros Hi Hk. apply cyc_dist; try done. apply cyc_lt. lia. Qed.

Lemma length_order index l : length (order index l) = length l.
Proof. unfold order. rewrite length_app, length_drop, length_take. lia. Qed.

Lemma lookup_order index l k :
  0 <= index < Z.of_nat (length l) -> (k < length l)%nat ->
  order index l !! k = l !! cyc (Z.of_nat (length l)) index k.
Proof.
  intros Hi Hk. unfold order, cyc. destruct (decide (index + Z.of_nat k < Z.of_nat (length l))).
  - rewrite lookup_app_l by (rewrite length_drop; lia). rewrite lookup_drop, Z.mod_small by lia.
    f_equal. lia.
  - rewrite lookup_app_r by (rewrite length_drop; lia). rewrite length_drop.
    rewrite lookup_take_lt by lia.
    replace (index + Z.of_nat k) with
      (index + Z.of_nat k - Z.of_nat (length l) + 1 * Z.of_nat (length l)) by lia.
    rewrite Z_mod_plus_full, Z.mod_small by lia. f_equal. lia.
Qed.

Lemma length_passed index k l : length (passed index k l) = length l.
Proof. apply length_imap. Qed.

Lemma passed_0 index l : passed index 0 l = l.
Proof.
  unfold passed. apply list_eq. intros n. rewrite list_lookup_imap. destruct (l !! n) as [e|] eqn:E; cbn; [|done].
  apply lookup_lt_Some in E.
  pose proof (Z.mod_pos_bound (Z.of_nat n - index) (Z.of_nat (length l)) ltac:(lia)).
  rewrite (proj2 (Z.ltb_ge _ _)) by lia. done.
Qed.

Lemma passed_all index l : passed index (length l) l = pass <$> l.
Proof.
  unfold passed. apply list_eq. intros n.
  rewrite list_lookup_imap, list_lookup_fmap. destruct (l !! n) as [e|] eqn:E; cbn; [|done].
  apply lookup_lt_Some in E.
  pose proof (Z.mod_pos_bound (Z.of_nat n - index) (Z.of_nat (length l)) ltac:(lia)).
  destruct (Z.ltb_spec ((Z.of_nat n - index) mod Z.of_nat (length l)) (Z.of_nat (length l))); [done|lia].
Qed.

Lemma lookup_passed index k l :
  0 <= index < Z.of_nat (length l) -> (k < length l)%nat ->
  passed index k l !! cyc (Z.of_nat (length l)) index k =
    l !! cyc (Z.of_nat (length l)) index k.
Proof.
  intros Hi Hk. unfold passed. rewrite list_lookup_imap.
  rewrite dist_cyc, Z.ltb_irrefl by (done || lia). by destruct (l !! _).
Qed.

Lemma passed_S index k l e :
  0 <= index < Z.of_nat (length l) -> (k < length l)%nat ->
  l !! cyc (Z.of_nat (length l)) index k = Some e ->
  passed index (S k) l = <[cyc (Z.of_nat (length l)) index k := pass e]> (passed index k l).
Proof.
  intros Hi Hk He. apply list_eq. intros n. set (p := cyc _ index k) in *.
  destruct (decide (n = p)) as [->|Hne].
  - rewrite list_lookup_insert_eq by (rewrite length_passed; by eapply lookup_lt_Some).
    unfold passed. rewrite list_lookup_imap, He. cbn.
    unfold p. rewrite dist_cyc by (done || lia).
    destruct (Z.ltb_spec (Z.of_nat k) (Z.of_nat (S k))); [done|lia].
  - rewrite list_lookup_insert_ne by done. unfold passed. rewrite !list_lookup_imap.
    destruct (l !! n) as [e'|] eqn:E; cbn; [|done]. f_equal.
    assert ((Z.of_nat n - index) mod Z.of_nat (length l) <> Z.of_nat k) as Hd.
    { intros Hd. apply Hne. apply (cyc_dist (Z.of_nat (length l)) index k n); try done; try lia.
      apply lookup_lt_Some in E. lia. }
    zcases; done || lia.
Qed.

(** ** The loop of second chance

    [R l s]: the table the loop reads through [get] and writes through [set] is [l] in
    the state [s]. *)
Section chance.
Context {St : Type} (get : Z -> St -> res TranslationEntry)
  (set : Z -> TranslationEntry -> St -> res St) (R : list TranslationEntry -> St -> Prop).
Context (Hget : forall l s i, R l s -> get i s = zget l i).
Context (Hset : forall l s i e, R l s -> 0 <= i < Z.of_nat (length l) ->
  exists s', set i e s = Ok s' /\ R (<[Z.to_nat i := e]> l) s').

Lemma chance_stop fuel p l s e range :
  R l s -> l !! p = Some e -> busy e = false ->
  secondChance get set (S fuel) (Z.of_nat p) range s = Ok (Z.of_nat p, s).
Proof.
  intros HR He Hb. cbn. rewrite (Hget l), (Map.zget_nat _ _ e) by done. cbn.
  unfold busy in Hb. by rewrite Hb.
Qed.

Lemma chance_step fuel p l s e :
  R l s -> l !! p = Some e -> busy e = true ->
  exists s', secondChance get set (S fuel) (Z.of_nat p) (Z.of_nat (length l)) s =
    secondChance get set fuel (Z.rem (Z.of_nat p + 1) (Z.of_nat (length l))) (Z.of_nat (length l)) s' /\
    R (<[p := pass e]> l) s'.
Proof.
  intros HR He Hb. cbn. rewrite (Hget l), (Map.zget_nat _ _ e) by done. cbn.
  unfold busy in Hb. rewrite Hb. pose proof (lookup_lt_Some _ _ _ He).
  rewrite (proj2 (Z.ltb_lt _ _)) by lia. unfold pass, resident.
  destruct (physicalPage e =? NO_PHYSYCAL_PAGE) eqn:Ep; cbn.
  - exists s. split; [done|]. by rewrite list_insert_id.
  - destruct (Hset l s (Z.of_nat p) (clear_use e) HR) as (s' & -> & HR'); [lia|].
    exists s'. split; [done|]. by rewrite Nat2Z.id in HR'.
Qed.

(** Passing [k] entries in use. *)
Lemma chance_skip k fuel index l s :
  0 <= index < Z.of_nat (length l) -> R l s -> (k <= length l)%nat ->
  (forall j e, (j < k)%nat -> order index l !! j = Some e -> busy e = true) ->
  exists s',
    secondChance get set (k + fuel) index (Z.of_nat (length l)) s =
      secondChance get set fuel (Z.of_nat (cyc (Z.of_nat (length l)) index k)) (Z.of_nat (length l)) s' /\
    R (passed index k l) s'.
Proof.
  intros Hi HR. revert fuel. induction k as [|k IH]; intros fuel Hk Hb.
  - exists s. rewrite cyc_0, Z2Nat.id, passed_0 by lia. done.
  - destruct (IH (S fuel)) as (s1 & E & HR1); [lia|intros; by eapply (Hb j); [lia|]|].
    replace (S k + fuel)%nat with (k + S fuel)%nat by lia. rewrite E. clear E.
    set (p := cyc (Z.of_nat (length l)) index k) in *.
    destruct (lookup_lt_is_Some_2 l p) as [e He].
    { pose proof (cyc_lt (Z.of_nat (length l)) index k). unfold p. lia. }
    destruct (chance_step fuel p (passed index k l) s1 e HR1) as (s2 & E & HR2).
    + unfold p. by rewrite lookup_passed by (done || lia).
    + apply (Hb k); [lia|]. by rewrite lookup_order by (done || lia).
    + rewrite length_passed in E. exists s2. rewrite E, cyc_S by lia. split; [done|].
      by rewrite (passed_S _ _ _ e) by (done || lia).
Qed.

Lemma pass_pass_free l index k :
  (forall j e, (j < k)%nat -> order index l !! j = Some e -> resident e = false) ->
  0 <= index < Z.of_nat (length l) -> (k <= length l)%nat ->
  passed index k (pass <$> l) = pass <$> l.
Proof.
  intros Hr Hi Hk. apply list_eq. intros n. unfold passed.
  rewrite list_lookup_imap, list_lookup_fmap, length_fmap.
  destruct (l !! n) as [e|] eqn:E; cbn; [|done]. f_equal.
  destruct (Z.ltb_spec ((Z.of_nat n - index) mod Z.of_nat (length l)) (Z.of_nat k)) as [Hlt|]; [|done].
  pose proof (Z.mod_pos_bound (Z.of_nat n - index) (Z.of_nat (length l)) ltac:(lia)).
  set (d := Z.to_nat ((Z.of_nat n - index) mod Z.of_nat (length l))).
  assert (resident e = false) as Hf.
  { apply (Hr d); [lia|]. rewrite lookup_order by lia. rewrite <- E. f_equal. symmetry.
    apply lookup_lt_Some in E. apply cyc_dist; lia. }
  unfold pass. by rewrite Hf, Hf.
Qed.

Lemma order_fmap f index l : order index (f <$> l) = f <$> order index l.
Proof. unfold order. by rewrite fmap_app, fmap_drop, fmap_take. Qed.

(** Some entry is not in use: the first such one is taken. *)
Lemma chance_unused index l s k e :
  0 <= index < Z.of_nat (length l) -> R l s -> order index l !! k = Some e -> busy e = false ->
  (forall j e, (j < k)%nat -> order index l !! j = Some e -> busy e = true) ->
  exists s',
    secondChance get set (rounds (Z.of_nat (length l))) index (Z.of_nat (length l)) s =
      Ok (Z.of_nat (cyc (Z.of_nat (length l)) index k), s') /\
    R (passed index k l) s'.
Proof.
  intros Hi HR He Hb Hbefore. pose proof (lookup_lt_Some _ _ _ He) as Hk. rewrite length_order in Hk.
  destruct (chance_skip k (S (2 * length l - k)) index l s) as (s' & E & HR'); try done; try lia.
  exists s'. split; [|done]. unfold rounds. rewrite Nat2Z.id.
  replace (S (2 * length l)) with (k + S (2 * length l - k))%nat by lia. rewrite E.
  apply (chance_stop _ _ _ _ e _ HR'); [|done].
  rewrite lookup_passed by (done || lia). by rewrite <- lookup_order by (done || lia).
Qed.

(** All are in use: after one round the first one with a physical page is taken. *)
Lemma chance_second index l s k e :
  0 <= index < Z.of_nat (length l) -> R l s ->
  (forall j e, order index l !! j = Some e -> busy e = true) ->
  order index l !! k = Some e -> resident e = true ->
  (forall j e, (j < k)%nat -> order index l !! j = Some e -> resident e = false) ->
  exists s',
    secondChance get set (rounds (Z.of_nat (length l))) index (Z.of_nat (length l)) s =
      Ok (Z.of_nat (cyc (Z.of_nat (length l)) index k), s') /\
    R (pass <$> l) s'.
Proof.
  intros Hi HR Hbusy He Hr Hfree. pose proof (lookup_lt_Some _ _ _ He) as Hk. rewrite length_order in Hk.
  destruct (chance_skip (length l) (S (length l)) index l s) as (s1 & E1 & HR1); try done; eauto.
  rewrite passed_all in HR1. unfold rounds. rewrite Nat2Z.id.
  replace (S (2 * length l)) with (length l + S (length l))%nat by lia. rewrite E1. clear E1.
  assert (cyc (Z.of_nat (length l)) index (length l) = Z.to_nat index) as ->.
  { unfold cyc. replace (index + _) with (index + 1 * Z.of_nat (length l)) by lia.
    rewrite Z_mod_plus_full, Z.mod_small by lia. done. }
  rewrite Z2Nat.id by lia.
  destruct (chance_skip k (S (length l - k)) index (pass <$> l) s1) as (s2 & E2 & HR2);
    rewrite ?length_fmap; try done; try lia.
  { intros j e' Hj. rewrite order_fmap, list_lookup_fmap.
    destruct (order index l !! j) as [e0|] eqn:E0; [|done]. intros [= <-].
    unfold pass. rewrite (Hfree j e0) by done. by eapply Hbusy. }
  exists s2. rewrite length_fmap in E2.
  replace (k + S (length l - k))%nat with (S (length l)) in E2 by lia. rewrite E2.
  rewrite pass_pass_free in HR2 by (done || lia). split; [|done].
  apply (chance_stop _ _ _ _ (pass e) _ HR2).
  - rewrite list_lookup_fmap. rewrite <- lookup_order by (done || lia). by rewrite He.
  - unfold pass. by rewrite Hr.
Qed.

(** All are in use and none has a physical page: the loop has no end. *)
Lemma chance_never fuel index l s :
  0 <= index < Z.of_nat (length l) -> R l s ->
  Forall (fun e => busy e = true /\ resident e = false) l ->
  secondChance get set fuel index (Z.of_nat (length l)) s = NoFuel.
Proof.
  intros Hi HR Hl. rewrite Forall_lookup in Hl. revert index Hi s HR.
  induction fuel as [|fuel IH]; intros index Hi s HR; [done|].
  destruct (lookup_lt_is_Some_2 l (Z.to_nat index)) as [e He]; [lia|].
  destruct (Hl _ _ He) as [Hb Hr].
  destruct (chance_step fuel (Z.to_nat index) l s e HR He Hb) as (s' & E & HR').
  rewrite Z2Nat.id in E by lia. rewrite E. apply IH.
  - apply Z.rem_bound_pos; lia.
  - unfold pass in HR'. by rewrite Hr, list_insert_id in HR'.
Qed.

Lemma choose_None index l :
  choose index l = None <-> Forall (fun e => busy e = true /\ resident e = false) l.
Proof.
  assert (Permutation (order index l) l) as Hp.
  { unfold order. rewrite Permutation_app_comm. by rewrite take_drop. }
  unfold choose. destruct (list_find _ (order index l)) as [[k e]|] eqn:E1.
  - apply list_find_Some in E1 as (He & Hb & _). split; [done|]. intros Hl.
    rewrite <- Hp, Forall_lookup in Hl. destruct (Hl _ _ He). congruence.
  - apply list_find_None in E1. destruct (list_find _ (order index l)) as [[k e]|] eqn:E2.
    + apply list_find_Some in E2 as (He & Hb & _). split; [done|]. intros Hl.
      rewrite <- Hp, Forall_lookup in Hl. destruct (Hl _ _ He). congruence.
    + apply list_find_None in E2. split; [intros _|done]. rewrite <- Hp.
      eapply Forall_impl; [apply Forall_and; split; [exact E1|exact E2]|].
      intros e []; destruct (busy e), (resident e); done || tauto.
Qed.

Lemma choose_lt index l v l' :
  choose index l = Some (v, l') -> (v < length l)%nat /\ length l' = length l.
Proof.
  unfold choose. intros H.
  destruct (list_find _ (order index l)) as [[k e]|] eqn:E1; simplify_eq.
  - apply list_find_Some in E1 as (He & _). apply lookup_lt_Some in He. rewrite length_order in He.
    pose proof (cyc_lt (Z.of_nat (length l)) index k). rewrite length_passed. lia.
  - destruct (list_find (fun e => resident e = true) (order index l)) as [[k e]|] eqn:E2; simplify_eq.
    apply list_find_Some in E2 as (He & _). apply lookup_lt_Some in He. rewrite length_order in He.
    pose proof (cyc_lt (Z.of_nat (length l)) index k). rewrite length_fmap. lia.
Qed.

Lemma choose_chance index l s :
  0 <= index < Z.of_nat (length l) -> R l s ->
  match choose index l with
  | Some (v, l') => exists s',
      secondChance get set (rounds (Z.of_nat (length l))) index (Z.of_nat (length l)) s =
        Ok (Z.of_nat v, s') /\ R l' s'
  | None => forall fuel, secondChance get set fuel index (Z.of_nat (length l)) s = NoFuel
  end.
Proof.
  intros Hi HR. destruct (choose index l) as [[v l']|] eqn:E.
  - unfold choose in E. destruct (list_find _ (order index l)) as [[k e]|] eqn:E1; simplify_eq.
    + apply list_find_Some in E1 as (He & Hb & Hbefore). apply chance_unused with e; try done.
      intros j e' Hj He'. destruct (busy e') eqn:Eb; [done|]. by destruct (Hbefore j e' He' Hj).
    + apply list_find_None in E1. rewrite Forall_lookup in E1.
      destruct (list_find (fun e => resident e = true) (order index l)) as [[k e]|] eqn:E2; simplify_eq.
      apply list_find_Some in E2 as (He & Hr & Hbefore). apply chance_second with e; try done.
      * intros j e' He'. destruct (busy e') eqn:Eb; [done|]. by destruct (E1 j e' He').
      * intros j e' Hj He'. destruct (resident e') eqn:Eb; [|done]. by destruct (Hbefore j e' He' Hj).
  - intros fuel. apply chance_never; try done. by apply choose_None in E.
Qed.

End chance.

(** ** Page tables through pointers *)
Definition with_tables (T : gmap table_loc (list TranslationEntry)) (m : Machine) : Machine :=
  mkMachine (mainMemory m) (registers m) (tlb m) (Machine.pageTable m) (pageTableSize m)
    T (singleStep m) (runUntilTime m).

Section pointers.
Context {thread D : Type}.
Local Abbreviation World := (World (thread := thread) (D := D)).
Implicit Types w : World.

(** Only the contents of page tables differ. *)
Definition same_but_tables w w' : Prop :=
  exists T, w' = set_machine (with_tables T (machine w)) w /\
    forall a, length <$> T !! a = length <$> tables (machine w) !! a.

Lemma same_but_tables_refl w : same_but_tables w w.
Proof. exists (tables (machine w)). split; [by destruct w as [[]]|done]. Qed.

Lemma same_but_tables_trans w1 w2 w3 :
  same_but_tables w1 w2 -> same_but_tables w2 w3 -> same_but_tables w1 w3.
Proof.
  intros (T & -> & H) (T' & -> & H'). exists T'. split; [done|]. intros a.
  rewrite H'. apply H.
Qed.

Lemma get_entry_Ok p w e :
  get_entry p w = Ok e <->
  exists t, tables (machine w) !! fst p = Some t /\ 0 <= snd p /\ t !! Z.to_nat (snd p) = Some e.
Proof.
  unfold get_entry, get_table. destruct (tables (machine w) !! fst p) as [t|]; cbn.
  - rewrite zget_Ok. naive_solver.
  - naive_solver.
Qed.

Lemma set_entry_Ok p w e e0 :
  get_entry p w = Ok e0 ->
  exists w', set_entry p e w = Ok w' /\ same_but_tables w w' /\
    get_entry p w' = Ok e /\ forall q, q <> p -> get_entry q w' = get_entry q w.
Proof.
  intros (t & Ht & Hp & He)%get_entry_Ok. pose proof (lookup_lt_Some _ _ _ He).
  unfold set_entry, get_table. rewrite Ht. cbn. rewrite zset_eq by lia. cbn.
  eexists. split; [done|]. split.
  { eexists. split; [done|]. intros a. destruct (decide (a = fst p)) as [->|Hne].
    - by rewrite lookup_insert_eq, Ht; cbn; rewrite length_insert.
    - by rewrite lookup_insert_ne. }
  split.
  - apply get_entry_Ok. exists (<[Z.to_nat (snd p) := e]> t). cbn.
    split_and!; [apply lookup_insert_eq|done|]. apply list_lookup_insert_eq. lia.
  - intros q Hq. unfold get_entry, get_table. cbn. destruct (decide (fst q = fst p)) as [E|Hne].
    + rewrite E, lookup_insert_eq, Ht. cbn. unfold zget.
      destruct (Z.leb_spec 0 (snd q)); [|done]. rewrite list_lookup_insert_ne; [done|].
      intros Eq. apply Hq. destruct p, q; cbn in *. f_equal; [done|lia].
    + by rewrite lookup_insert_ne by done.
Qed.

Lemma upd_entry_Ok p f w e :
  get_entry p w = Ok e ->
  exists w', upd_entry p f w = Ok w' /\ same_but_tables w w' /\
    get_entry p w' = Ok (f e) /\ forall q, q <> p -> get_entry q w' = get_entry q w.
Proof. intros He. unfold upd_entry. rewrite He. cbn. by apply set_entry_Ok with e. Qed.

(** The entries a list of pointers reads. *)
Definition reads (ps : list entry_ptr) (l : list TranslationEntry) w : Prop :=
  Forall2 (fun p e => get_entry p w = Ok e) ps l.

Lemma reads_get ps l w i :
  reads ps l w -> (p ← zget ps i; get_entry p w) = zget l i.
Proof.
  intros H. destruct (decide (0 <= i < Z.of_nat (length ps))) as [Hi|Hi].
  - destruct (zget_is_Ok ps i Hi) as [p Hp]. rewrite Hp. cbn. apply zget_Ok in Hp as [_ Hp].
    destruct (Forall2_lookup_l _ _ _ _ _ H Hp) as (e & He & ->). symmetry. apply zget_Ok. split; [lia|done].
  - rewrite zget_UB by done. apply Forall2_length in H. by rewrite zget_UB by lia.
Qed.

Lemma reads_set ps l w i e :
  NoDup ps -> reads ps l w -> 0 <= i < Z.of_nat (length l) ->
  exists w', (p ← zget ps i; set_entry p e w) = Ok w' /\ same_but_tables w w' /\
    reads ps (<[Z.to_nat i := e]> l) w' /\
    forall q, q ∉ ps -> get_entry q w' = get_entry q w.
Proof.
  intros Hnd H Hi. pose proof (Forall2_length _ _ _ H).
  destruct (zget_is_Ok ps i) as [p Hp]; [lia|]. rewrite Hp. cbn. apply zget_Ok in Hp as [_ Hp].
  destruct (Forall2_lookup_l _ _ _ _ _ H Hp) as (e0 & He0 & Hg).
  destruct (set_entry_Ok p w e e0 Hg) as (w' & -> & Hs & Hp' & Hq).
  exists w'. split_and!; [done|done| |].
  - apply Forall2_same_length_lookup. rewrite length_insert. split; [done|].
    intros n q e1 Hn He1. destruct (decide (n = Z.to_nat i)) as [->|Hne].
    + rewrite list_lookup_insert_eq in He1 by lia. by simplify_eq.
    + rewrite list_lookup_insert_ne in He1 by done. rewrite Hq.
      * destruct (Forall2_lookup_l _ _ _ _ _ H Hn) as (e2 & ? & ?). by simplify_eq.
      * intros ->. apply Hne. by eapply NoDup_lookup.
  - intros q Hq'. apply Hq. intros ->. apply Hq'. by eapply list_elem_of_lookup_2.
Qed.

(** [secondChance] on the TLB, and on pointers to entries of page tables. *)
Lemma secondChance_tlb_choose w t :
  tlb (machine w) = Some t -> Z.of_nat (length t) = TLBSize -> 0 <= tlbIndex w < TLBSize ->
  secondChance_tlb w =
    match choose (tlbIndex w) t with
    | Some (v, t') =>
        Ok (Z.of_nat v, set_tlbIndex (Z.rem (Z.of_nat v + 1) TLBSize)
                          (set_machine (set_tlb t' (machine w)) w))
    | None => NoFuel
    end.
Proof.
  intros Ht Hl Hi. rewrite <- Hl in Hi.
  assert (w = set_machine (set_tlb t (machine w)) w) as E.
  { destruct w as [[]]; cbn in *. by subst. }
  assert (match choose (tlbIndex w) t with
    | Some (v, t') => exists s',
        secondChance get_tlb put_tlb (rounds (Z.of_nat (length t))) (tlbIndex w) (Z.of_nat (length t)) w =
          Ok (Z.of_nat v, s') /\ s' = set_machine (set_tlb t' (machine w)) w
    | None => forall fuel,
        secondChance get_tlb put_tlb fuel (tlbIndex w) (Z.of_nat (length t)) w = NoFuel
    end) as H.
  { apply (choose_chance get_tlb put_tlb (fun l w' => w' = set_machine (set_tlb l (machine w)) w));
      [by intros ? ? i ->| |done|done].
    intros l s i e -> Hi'. unfold put_tlb. cbn. rewrite zset_eq by done. by eexists. }
  unfold secondChance_tlb. rewrite <- Hl. destruct (choose (tlbIndex w) t) as [[v t']|].
  - destruct H as (s' & -> & ->). done.
  - by rewrite H.
Qed.

Lemma secondChance_table_choose w ps l :
  NoDup ps -> reads ps l w -> Z.of_nat (length ps) = NumPhysPages ->
  0 <= physicalIndex w < NumPhysPages ->
  match choose (physicalIndex w) l with
  | Some (v, l') => exists p w', ps !! v = Some p /\
      secondChance_table ps w = Ok (p, set_physicalIndex (Z.of_nat v) w') /\
      same_but_tables w w' /\ reads ps l' w' /\
      (forall q, q ∉ ps -> get_entry q w' = get_entry q w)
  | None => forall fuel,
      secondChance (get_pointed ps) (put_pointed ps) fuel (physicalIndex w) NumPhysPages w = NoFuel
  end.
Proof.
  intros Hnd H Hl Hi. pose proof (Forall2_length _ _ _ H) as Hll.
  assert (match choose (physicalIndex w) l with
    | Some (v, l') => exists s',
        secondChance (get_pointed ps) (put_pointed ps) (rounds (Z.of_nat (length l)))
          (physicalIndex w) (Z.of_nat (length l)) w = Ok (Z.of_nat v, s') /\
        same_but_tables w s' /\ reads ps l' s' /\
        (forall q, q ∉ ps -> get_entry q s' = get_entry q w)
    | None => forall fuel,
        secondChance (get_pointed ps) (put_pointed ps) fuel
          (physicalIndex w) (Z.of_nat (length l)) w = NoFuel
    end) as Hc.
  { apply (choose_chance (get_pointed ps) (put_pointed ps)
      (fun l w' => same_but_tables w w' /\ reads ps l w' /\
         (forall q, q ∉ ps -> get_entry q w' = get_entry q w)));
      [by intros ? ? i (_ & Hr & _); apply reads_get| |lia|by auto using same_but_tables_refl].
    intros l0 s i e (H1 & H2 & H3) Hi0.
    destruct (reads_set ps l0 s i e Hnd H2 Hi0) as (s' & E & H4 & H5 & H6).
    exists s'. split_and!; [done|by eapply same_but_tables_trans|done|].
    intros q Hq. by rewrite H6, H3. }
  unfold secondChance_table.
  destruct (choose (physicalIndex w) l) as [[v l']|] eqn:Ec.
  - rewrite <- Hl, Hll. destruct Hc as (s' & -> & H1 & H2 & H3). cbn. apply choose_lt in Ec as [Hv _].
    destruct (lookup_lt_is_Some_2 ps v) as [p Hp]; [lia|]. exists p, s'.
    rewrite (Map.zget_nat _ _ p) by done. done.
  - intros fuel. by rewrite <- Hl, Hll.
Qed.

(** ** Updates of many entries

    [applied f rows w w']: every entry of the tables [rows], given with the number of
    entries, was replaced by its image under [f], and nothing else. *)
Definition covered (rows : list (table_loc * Z)) (p : entry_ptr) : Prop :=
  Exists (fun r => fst p = fst r /\ 0 <= snd p < snd r) rows.

#[global] Instance covered_dec rows p : Decision (covered rows p).
Proof. unfold covered. apply _. Defined.

Definition res_map {A B} (f : A -> B) (r : res A) : res B := x ← r; Ok (f x).

Definition applied (f : TranslationEntry -> TranslationEntry) (rows : list (table_loc * Z))
    w w' : Prop :=
  same_but_tables w w' /\
  forall p, get_entry p w' =
    if decide (covered rows p) then res_map f (get_entry p w) else get_entry p w.

Lemma applied_nil f w : applied f [] w w.
Proof.
  split; [apply same_but_tables_refl|]. intros p. rewrite decide_False; [done|].
  by intros ?%Exists_nil.
Qed.

Lemma applied_app f rows1 rows2 w w1 w2 :
  (forall e, f (f e) = f e) -> applied f rows1 w w1 -> applied f rows2 w1 w2 ->
  applied f (rows1 ++ rows2) w w2.
Proof.
  intros Hf [S1 H1] [S2 H2]. split; [by eapply same_but_tables_trans|]. intros p.
  rewrite H2, H1. unfold covered. destruct (decide (Exists _ (rows1 ++ rows2))) as [Hc|Hc].
  - apply Exists_app in Hc. unfold covered. repeat case_decide; try done.
    + destruct (get_entry p w); cbn; [by rewrite Hf|done..].
    + naive_solver.
  - rewrite !decide_False; [done|..]; intros ?; apply Hc, Exists_app; auto.
Qed.

Lemma applied_row f a n w (g : Z -> World -> res World) :
  (forall i w1, same_but_tables w w1 -> g i w1 = upd_entry (a, i) f w1) ->
  (forall i, 0 <= i < Z.of_nat n -> exists e, get_entry (a, i) w = Ok e) ->
  exists w', for_range n 0 g w = Ok w' /\ applied f [(a, Z.of_nat n)] w w'.
Proof.
  intros Hg Hr. destruct (for_range_rule (fun i => applied f [(a, i)] w) n 0 g w)
    as (w' & E & H).
  - split; [apply same_but_tables_refl|]. intros p. rewrite decide_False; [done|].
    intros [[_ ?]|?%Exists_nil]%Exists_cons; cbn in *; lia.
  - intros i w1 Hi [S1 H1]. destruct (Hr i) as [e He]; [lia|].
    assert (get_entry (a, i) w1 = Ok e) as He1.
    { rewrite H1, decide_False; [done|].
      intros [[_ ?]|?%Exists_nil]%Exists_cons; cbn in *; lia. }
    destruct (upd_entry_Ok (a, i) f w1 e He1) as (w2 & E2 & S2 & Hp & Hq).
    exists w2. rewrite Hg by done. split; [done|].
    split; [by eapply same_but_tables_trans|]. intros p.
    destruct (decide (p = (a, i))) as [->|Hne].
    + rewrite Hp, decide_True, He; [done|]. apply Exists_cons_hd. cbn. lia.
    + rewrite Hq, H1 by done. apply decide_ext. unfold covered. rewrite !Exists_cons, !Exists_nil.
      destruct p as [b j]. cbn. split; [intros [?|?]; left; lia|].
      intros [[-> ?]|?]; [|done]. left. split; [done|]. assert (j <> i) by congruence. lia.
  - exists w'. split; [done|]. exact H.
Qed.

End pointers.

(** ** The address spaces of the inverted table *)
Section spaces.
Context {thread D : Type} `{EqDecision thread}.
Local Abbreviation World := (World (thread := thread) (D := D)).
Implicit Types w : World.

Definition spaces w : list AddrSpace := (Map.pairs (invertedTable w)).*2.

Definition rows w : list (table_loc * Z) := (fun s => (pageTable s, numPages s)) <$> spaces w.

(** The page table of the space exists. *)
Definition space_ok w (s : AddrSpace) : Prop :=
  exists t, tables (machine w) !! pageTable s = Some t /\ Z.of_nat (length t) = numPages s.

Record inverted_ok w : Prop := {
  inv_wf : Map.wf (invertedTable w);
  inv_keys : NoDup (Map.pairs (invertedTable w)).*1;
  inv_spaces : Forall (space_ok w) (spaces w)
}.

Lemma NoDup_assoc (l : list (thread * AddrSpace)) k s :
  NoDup l.*1 -> (k, s) ∈ l -> Map.assoc k l = Some s.
Proof.
  induction l as [|[k' s'] l IH]; cbn; [by rewrite elem_of_nil|].
  intros [Hk Hl]%NoDup_cons [E|H]%elem_of_cons; [simplify_eq; by rewrite decide_True|].
  rewrite decide_False; [by apply IH|]. intros <-. apply Hk.
  apply list_elem_of_fmap. by exists (k, s).
Qed.

Lemma space_at_Ok w i s :
  inverted_ok w -> spaces w !! i = Some s ->
  space_at (Map.pairs (invertedTable w)).*1 (Z.of_nat i) w = Ok s.
Proof.
  intros Hi Hs. unfold spaces in Hs. rewrite list_lookup_fmap in Hs.
  destruct (_ !! i) as [[k s']|] eqn:E; cbn in Hs; simplify_eq. unfold space_at.
  rewrite (Map.zget_nat _ _ k) by (by rewrite list_lookup_fmap, E). cbn.
  apply Map.at_key_pairs; [apply Hi|]. apply NoDup_assoc; [apply Hi|].
  by eapply list_elem_of_lookup_2.
Qed.

Lemma same_but_tables_ok w w' : same_but_tables w w' -> inverted_ok w -> inverted_ok w'.
Proof.
  intros (T & -> & HT) [H1 H2 H3]. split; [done|done|]. unfold spaces in *. cbn in *.
  eapply Forall_impl; [done|]. intros s (t & Ht & Hl). cbn. specialize (HT (pageTable s)).
  rewrite Ht in HT. cbn in HT. destruct (T !! pageTable s) as [t'|] eqn:E; cbn in HT; [|done].
  exists t'. cbn. split; [done|]. injection HT as HT. lia.
Qed.

Lemma same_but_tables_rows w w' : same_but_tables w w' -> rows w' = rows w.
Proof. by intros (T & -> & HT). Qed.

Lemma space_ok_entries w s i :
  space_ok w s -> 0 <= i < numPages s -> exists e, get_entry (pageTable s, i) w = Ok e.
Proof.
  intros (t & Ht & Hl) Hi. destruct (lookup_lt_is_Some_2 t (Z.to_nat i)) as [e He]; [lia|].
  exists e. apply get_entry_Ok. cbn. exists t. split_and!; [done|lia|done].
Qed.

Lemma length_spaces w : Map.wf (invertedTable w) ->
  Z.of_nat (length (spaces w)) = Map.count (invertedTable w).
Proof. intros. unfold spaces. rewrite length_fmap. by apply Map.length_pairs. Qed.

Lemma sync_entry_idemp cur e : sync_entry cur (sync_entry cur e) = sync_entry cur e.
Proof.
  unfold sync_entry. destruct (physicalPage e =? physicalPage cur) eqn:E; cbn; by rewrite E.
Qed.

(** One entry of the TLB against all the pages. *)
Definition sync_slot (keys : list thread) (it1 : Z) w : res World :=
  for_range (Z.to_nat (Map.getCount (invertedTable w))) 0 (fun it2 w =>
    space ← space_at keys it2 w;
    for_range (Z.to_nat (numPages space)) 0 (fun it3 w =>
      cur ← get_tlb it1 w;
      upd_entry (pageTable space, it3) (sync_entry cur) w) w) w.

Lemma sync_slot_applied w cur it1 t :
  inverted_ok w -> tlb (machine w) = Some t -> zget t it1 = Ok cur ->
  exists w', sync_slot (Map.pairs (invertedTable w)).*1 it1 w = Ok w' /\
    applied (sync_entry cur) (rows w) w w'.
Proof.
  intros Hok Ht Hcur. unfold sync_slot, Map.getCount.
  pose proof (length_spaces w (inv_wf w Hok)) as Hl.
  match goal with |- context [for_range ?n 0 ?body w] =>
    destruct (for_range_rule (fun i => applied (sync_entry cur) (take (Z.to_nat i) (rows w)) w)
      n 0 body w) as (w' & E & H) end.
  - apply applied_nil.
  - intros i w1 Hi Hw1.
    destruct (lookup_lt_is_Some_2 (spaces w) (Z.to_nat i)) as [s Hs]; [lia|].
    assert (inverted_ok w1) as Hok1 by (eapply same_but_tables_ok; [apply Hw1|done]).
    assert (invertedTable w1 = invertedTable w /\ tlb (machine w1) = Some t) as [Einv Et]
      by (destruct Hw1 as [(T & -> & _) _]; done).
    pose proof (space_at_Ok w1 (Z.to_nat i) s Hok1) as Hat. unfold spaces in Hat.
    rewrite Einv, Z2Nat.id in Hat by lia. rewrite (Hat Hs). cbn.
    pose proof (inv_spaces w1 Hok1) as Hf. unfold spaces in Hf. rewrite Einv, Forall_lookup in Hf.
    pose proof (Hf _ _ Hs) as Hs1.
    destruct (applied_row (sync_entry cur) (pageTable s) (Z.to_nat (numPages s)) w1
      (fun it3 w => cur ← get_tlb it1 w; upd_entry (pageTable s, it3) (sync_entry cur) w))
      as (w2 & -> & H2).
    { intros j w2 (T & -> & _). unfold get_tlb. cbn. by rewrite Et, Hcur. }
    { intros j Hj. apply space_ok_entries; [done|lia]. }
    exists w2. split; [done|]. replace (Z.to_nat (i + 1)) with (S (Z.to_nat i)) by lia.
    rewrite (take_S_r _ _ (pageTable s, numPages s)).
    + eapply applied_app; [apply sync_entry_idemp|done|]. destruct Hs1 as (t0 & _ & Hn).
      by rewrite Z2Nat.id in H2 by lia.
    + unfold rows. by rewrite list_lookup_fmap, Hs.
  - exists w'. split; [done|]. rewrite take_ge in H; [done|]. unfold rows. rewrite length_fmap. lia.
Qed.

(** The last entry of the TLB with the physical page of [e] decides its bits. *)
Definition sync (t : list TranslationEntry) (e : TranslationEntry) : TranslationEntry :=
  foldl (fun e cur => sync_entry cur e) e t.

Lemma updataPageTables_applied w t :
  inverted_ok w -> tlb (machine w) = Some t -> Z.of_nat (length t) = TLBSize ->
  exists w', updataPageTables w = Ok w' /\ same_but_tables w w' /\
    forall p, get_entry p w' =
      if decide (covered (rows w) p) then res_map (sync t) (get_entry p w) else get_entry p w.
Proof.
  intros Hok Ht Hlt. unfold updataPageTables. rewrite Map.getKeys_pairs by apply Hok.
  case_decide as Hp.
  - exists w. split_and!; [done|apply same_but_tables_refl|]. intros p.
    rewrite decide_False; [done|]. unfold covered, rows, spaces. rewrite Hp. by intros ?%Exists_nil.
  - destruct (for_range_rule (fun i w' => same_but_tables w w' /\
      forall p, get_entry p w' = if decide (covered (rows w) p)
        then res_map (sync (take (Z.to_nat i) t)) (get_entry p w) else get_entry p w)
      (Z.to_nat TLBSize) 0 (sync_slot (Map.pairs (invertedTable w)).*1) w) as (w' & E & S & H).
    + split; [apply same_but_tables_refl|]. intros p. case_decide; [|done]. by destruct (get_entry p w).
    + intros i w1 Hi [S1 H1]. destruct (zget_is_Ok t i) as [cur Hcur]; [unfold TLBSize in *; lia|].
      destruct (sync_slot_applied w1 cur i t) as (w2 & E2 & S2 & H2).
      { by eapply same_but_tables_ok. }
      { by destruct S1 as (T & -> & _). }
      { done. }
      assert (invertedTable w1 = invertedTable w) as Einv by (by destruct S1 as (T & -> & _)).
      rewrite Einv in E2. exists w2. split; [done|]. split; [by eapply same_but_tables_trans|].
      intros p. rewrite H2, (same_but_tables_rows w w1), H1 by done.
      replace (Z.to_nat (i + 1)) with (Datatypes.S (Z.to_nat i)) by lia.
      apply zget_Ok in Hcur as [_ Hcur]. rewrite (take_S_r _ _ cur) by done.
      case_decide; [|done]. destruct (get_entry p w); cbn; try done.
      unfold sync. by rewrite foldl_app.
    + exists w'. split; [done|]. split; [done|]. intros p. rewrite H.
      rewrite take_ge by (unfold TLBSize in *; lia). done.
Qed.

End spaces.

(** ** The backing store as a map from pages to their contents *)
Section store.
Context {thread D : Type} (new_keys : Z -> list entry_ptr) (new_buffers : Z -> list buffer_loc).
Context (Hkeys : forall n, 0 <= n -> Z.of_nat (length (new_keys n)) = n).
Context (Hbuffers : forall n, 0 <= n -> Z.of_nat (length (new_buffers n)) = n).
Local Abbreviation World := (World (thread := thread) (D := D)).
Implicit Types w : World.

Definition mem w : list Z := mainMemory (machine w).
Definition page w (frame : Z) : list Z := AddrSpace.page_bytes (mem w) frame.
Definition frame_ok := AddrSpace.frame_ok.

(** Everything but memory, page tables, the map of physical pages and the backing
    store. *)
Definition blank w : World :=
  set_store (Map.mkMap [] [] 0 0) ∅ (set_map (BitMap.mkBitMap 0 0 [])
    (set_machine (with_tables ∅ (set_memory [] (machine w))) w)).

Definition kept w w' : Prop :=
  blank w' = blank w /\
  (forall a, length <$> tables (machine w') !! a = length <$> tables (machine w) !! a) /\
  length (mem w') = length (mem w).

Lemma kept_refl w : kept w w.
Proof. done. Qed.

Lemma kept_trans w1 w2 w3 : kept w1 w2 -> kept w2 w3 -> kept w1 w3.
Proof.
  intros (H1 & H2 & H3) (H4 & H5 & H6). split_and!; [congruence| |congruence].
  intros a. by rewrite H5.
Qed.

(** The bytes of a page that was swapped out. *)
Definition swapped w (p : entry_ptr) : option (list Z) :=
  match Map.assoc p (Map.pairs (backingStore w)) with
  | Some b => buffers w !! b
  | None => None
  end.

Record store_ok w : Prop := {
  so_wf : Map.wf (backingStore w);
  so_buffers : Forall (fun b => exists bs, buffers w !! b = Some bs /\ Z.of_nat (length bs) = PageSize)
                 (Map.pairs (backingStore w)).*2;
  so_nodup : NoDup (Map.pairs (backingStore w)).*2
}.

Lemma write_page_part w f bs :
  Z.of_nat (length (mem w)) = MemorySize -> frame_ok f -> Z.of_nat (length bs) <= PageSize ->
  exists w', write_page f bs w = Ok w' /\ kept w w' /\
    w' = set_machine (set_memory (mem w') (machine w)) w /\
    forall f', frame_ok f' ->
      page w' f' = if decide (f' = f) then bs ++ drop (length bs) (page w f) else page w f'.
Proof.
  intros Hm Hf Hb. unfold write_page.
  assert (MemorySize = 32 * PageSize /\ NumPhysPages = 32 /\ 0 < PageSize) as (E1 & E2 & E3) by done.
  assert (0 <= f * PageSize /\ f * PageSize + Z.of_nat (length bs) <= Z.of_nat (length (mem w))) as [H1 H2].
  { unfold frame_ok, AddrSpace.frame_ok in Hf. nia. }
  fold (mem w). rewrite zcopy_Ok by done. cbn. eexists. split; [done|]. split_and!.
  - split_and!; [done|done|]. cbn. by apply length_zsplice.
  - done.
  - intros f' Hf'. unfold page. cbn.
    pose proof (AddrSpace.page_zsplice (mem w) f f' 0 bs Hm Hf Hf') as E.
    rewrite Z.add_0_r in E. by rewrite E by lia.
Qed.

Lemma write_page_Ok w f bs :
  Z.of_nat (length (mem w)) = MemorySize -> frame_ok f -> Z.of_nat (length bs) = PageSize ->
  exists w', write_page f bs w = Ok w' /\ kept w w' /\
    w' = set_machine (set_memory (mem w') (machine w)) w /\
    forall f', frame_ok f' -> page w' f' = if decide (f' = f) then bs else page w f'.
Proof.
  intros Hm Hf Hb. destruct (write_page_part w f bs Hm Hf) as (w' & E & K & R & P); [lia|].
  exists w'. split_and!; try done. intros f' Hf'. rewrite P by done. case_decide; [|done].
  rewrite drop_ge; [by rewrite app_nil_r|].
  pose proof (AddrSpace.length_page (mem w) f Hm Hf) as Hl. unfold page. rewrite Hl.
  change PageSize with 128 in Hb. lia.
Qed.

Lemma read_page_Ok w f :
  Z.of_nat (length (mem w)) = MemorySize -> frame_ok f -> read_page f w = Ok (page w f).
Proof.
  intros Hm Hf. unfold read_page, page, AddrSpace.page_bytes. fold (mem w).
  assert (MemorySize = 32 * PageSize /\ NumPhysPages = 32 /\ 0 < PageSize) as (E1 & E2 & E3) by done.
  unfold frame_ok, AddrSpace.frame_ok in Hf. apply zread_Ok; nia.
Qed.

Lemma length_frame w f :
  Z.of_nat (length (mem w)) = MemorySize -> frame_ok f -> Z.of_nat (length (page w f)) = PageSize.
Proof. intros Hm Hf. unfold page. by rewrite (AddrSpace.length_page (mem w) f Hm Hf). Qed.

Lemma save_page_Ok w p f :
  store_ok w -> Map.capacity (backingStore w) < 2 ^ 63 -> Z.of_nat (length (mem w)) = MemorySize -> frame_ok f ->
  exists b st, save_page new_keys new_buffers p f w =
      Ok (set_store st (<[b := page w f]> (buffers w)) w) /\
    buffers w !! b = None /\ Map.wf st /\
    Map.pairs st = Map.pairs (backingStore w) ++ [(p, b)] /\
    Map.capacity st <= 2 * Map.capacity (backingStore w).
Proof.
  intros Hs Hc Hm Hf. unfold save_page. rewrite read_page_Ok by done. cbn.
  set (b := fresh (dom (buffers w))).
  destruct (Map.insert_pairs new_keys new_buffers Hkeys Hbuffers (backingStore w) p b)
    as (st & -> & Hw & Hp & Hcap); [by apply Hs|done|].
  exists b, st. split_and!; [done| |done|done|].
  - apply not_elem_of_dom, is_fresh.
  - rewrite Hcap. pose proof (Map.wf_capacity _ (so_wf w Hs)). zcases; lia.
Qed.

Lemma assoc_in (l : list (entry_ptr * buffer_loc)) q b :
  Map.assoc q l = Some b -> b ∈ l.*2.
Proof.
  intros (j & H & _)%Map.assoc_first. apply list_elem_of_fmap. exists (q, b).
  split; [done|]. by eapply list_elem_of_lookup_2.
Qed.

(** Adding a page changes what is swapped only when the page had no binding. *)
Lemma swapped_save w p bs b st :
  store_ok w -> buffers w !! b = None ->
  Map.pairs st = Map.pairs (backingStore w) ++ [(p, b)] ->
  forall q, swapped (set_store st (<[b := bs]> (buffers w)) w) q =
    match swapped w q with
    | Some old => Some old
    | None => if decide (q = p) then Some bs else None
    end.
Proof.
  intros Hs Hb Hp q. unfold swapped. cbn. rewrite Hp, Map.assoc_app.
  destruct (Map.assoc q (Map.pairs (backingStore w))) as [b'|] eqn:E; cbn.
  - pose proof (so_buffers w Hs) as Hf. rewrite Forall_forall in Hf.
    destruct (Hf b' (assoc_in _ _ _ E)) as (bs' & Hbs & _).
    rewrite lookup_insert_ne by congruence. by rewrite Hbs.
  - case_decide; [by rewrite lookup_insert_eq|done].
Qed.

Lemma store_ok_save w p bs b st :
  store_ok w -> buffers w !! b = None -> Map.wf st ->
  Map.pairs st = Map.pairs (backingStore w) ++ [(p, b)] -> Z.of_nat (length bs) = PageSize ->
  store_ok (set_store st (<[b := bs]> (buffers w)) w).
Proof.
  intros Hs Hb Hw Hp Hl. pose proof (so_buffers w Hs) as Hf. rewrite Forall_forall in Hf.
  split; cbn; [done| |].
  - rewrite Hp, fmap_app. apply Forall_app. split; [|apply Forall_singleton].
    + apply Forall_forall. intros b' Hb'. destruct (Hf b' Hb') as (bs' & E & ?). exists bs'.
      split; [|done]. rewrite lookup_insert_ne; [done|congruence].
    + exists bs. by rewrite lookup_insert_eq.
  - rewrite Hp, fmap_app. apply NoDup_app. split_and!; [apply Hs| |apply NoDup_singleton].
    intros b' Hb' ->%list_elem_of_singleton. destruct (Hf b Hb') as (? & ? & _). congruence.
Qed.

Lemma same_kept w w' :
  same_but_tables w w' -> kept w w' /\ mem w' = mem w /\ physicalPageMap w' = physicalPageMap w /\
    backingStore w' = backingStore w /\ buffers w' = buffers w.
Proof. by intros (T & -> & HT). Qed.

Lemma store_ok_same w w' :
  backingStore w' = backingStore w -> buffers w' = buffers w -> store_ok w -> store_ok w'.
Proof. intros E1 E2 [H1 H2 H3]. split; rewrite ?E1, ?E2; done. Qed.

Lemma swapped_same w w' p :
  backingStore w' = backingStore w -> buffers w' = buffers w -> swapped w' p = swapped w p.
Proof. intros E1 E2. unfold swapped. by rewrite E1, E2. Qed.

(** The entry of a page that left memory. *)
Definition evicted (e : TranslationEntry) : TranslationEntry :=
  use_and_valid (set_physicalPage NO_PHYSYCAL_PAGE e).

(** What is swapped after [p] with the bytes [bs] was saved. *)
Definition saved w (p : entry_ptr) (bs : list Z) (q : entry_ptr) : option (list Z) :=
  match swapped w q with
  | Some old => Some old
  | None => if decide (q = p) then Some bs else None
  end.

(** Setting the fields of an evicted entry. *)
Lemma evict_entry w p e :
  get_entry p w = Ok e ->
  exists w', (w ← upd_entry p (set_physicalPage NO_PHYSYCAL_PAGE) w; upd_entry p use_and_valid w) = Ok w' /\
    same_but_tables w w' /\ get_entry p w' = Ok (evicted e) /\
    forall q, q <> p -> get_entry q w' = get_entry q w.
Proof.
  intros He. destruct (upd_entry_Ok p (set_physicalPage NO_PHYSYCAL_PAGE) w e He) as (w1 & -> & S1 & E1 & H1).
  destruct (upd_entry_Ok p use_and_valid w1 _ E1) as (w2 & E & S2 & E2 & H2). cbn. exists w2.
  split_and!; [done|by eapply same_but_tables_trans|done|]. intros q Hq. by rewrite H2, H1.
Qed.

Lemma pageOut_Ok w p e :
  store_ok w -> Map.capacity (backingStore w) < 2 ^ 63 -> Z.of_nat (length (mem w)) = MemorySize ->
  BitMap.wf (physicalPageMap w) -> BitMap.numBits (physicalPageMap w) = NumPhysPages ->
  get_entry p w = Ok e -> frame_ok (physicalPage e) ->
  exists w', pageOut new_keys new_buffers p w = Ok w' /\ kept w w' /\
    get_entry p w' = Ok (evicted e) /\ (forall q, q <> p -> get_entry q w' = get_entry q w) /\
    (BitMap.wf (physicalPageMap w') /\ BitMap.numBits (physicalPageMap w') = NumPhysPages /\
     BitMap.abs (physicalPageMap w') =
       <[Z.to_nat (physicalPage e) := false]> (BitMap.abs (physicalPageMap w))) /\
    (forall f, frame_ok f -> page w' f =
       if bool_decide (f = physicalPage e) && negb (readOnly e) then zero_page else page w f) /\
    (forall q, swapped w' q =
       if readOnly e then swapped w q else saved w p (page w (physicalPage e)) q) /\
    store_ok w' /\ Map.capacity (backingStore w') <= 2 * Map.capacity (backingStore w).
Proof.
  intros Hs Hc Hm Hmap Hbits He Hf. unfold pageOut. rewrite He. cbn -[upd_entry].
  destruct (BitMap.Clear_abs (physicalPageMap w) (physicalPage e) Hmap) as (b' & -> & Hb' & Hn' & Hab).
  { unfold frame_ok, AddrSpace.frame_ok in Hf. lia. }
  cbn -[upd_entry]. destruct (evict_entry (set_map b' w) p e He) as (w1 & E1 & S1 & P1 & Q1).
  destruct (upd_entry p _ (set_map b' w)) as [w0| | | |]; try done. cbn -[upd_entry] in *. rewrite E1.
  cbn. rewrite P1. cbn. destruct (same_kept _ _ S1) as (K1 & M1 & B1 & St1 & Bu1).
  assert (kept w w1) as K by (eapply kept_trans; [|exact K1]; done).
  assert (store_ok w1) as Hs1 by (by apply (store_ok_same w w1 St1 Bu1)).
  pose proof (Map.wf_capacity _ (so_wf w Hs)).
  destruct (readOnly e); cbn -[upd_entry].
  - exists w1. rewrite B1, St1. split_and!; try done; try (cbn; congruence); [| |cbn; lia].
    + intros f _. rewrite andb_false_r. unfold page. by rewrite M1.
    + intros q. by apply swapped_same.
  - destruct (save_page_Ok w1 p (physicalPage e)) as (b & st & -> & Hb & Hst & Hps & Hcap); try done.
    { by rewrite St1. }
    { by rewrite M1. }
    cbn. set (w2 := set_store _ _ _).
    destruct (write_page_Ok w2 (physicalPage e) zero_page) as (w3 & E3 & K3 & R3 & Hpg); try done.
    { cbn. unfold mem. cbn. fold (mem w1). by rewrite M1. }
    exists w3. rewrite E3. split_and!; try done.
    + eapply kept_trans; [exact K|]. eapply kept_trans; [|exact K3]. done.
    + by rewrite R3.
    + intros q Hq. rewrite R3. by apply Q1.
    + rewrite R3. cbn. by rewrite B1.
    + rewrite R3. cbn. rewrite B1. cbn. by rewrite Hn'.
    + rewrite R3. cbn. by rewrite B1.
    + intros f Hf'. rewrite Hpg, andb_true_r by done. case_bool_decide; rewrite ?decide_True, ?decide_False by done; [done|].
      unfold page. cbn. unfold mem. cbn. fold (mem w1). by rewrite M1.
    + intros q. rewrite (swapped_same w2 w3) by (by rewrite R3).
      unfold w2. rewrite (swapped_save w1 p _ b st Hs1 Hb Hps). unfold saved.
      rewrite (swapped_same w w1) by done. unfold page. by rewrite M1.
    + eapply store_ok_same; [| |apply (store_ok_save w1 p (page w1 (physicalPage e)) b st)]; try done.
      * by rewrite R3.
      * by rewrite R3.
      * apply length_frame; [by rewrite M1|done].
    + rewrite R3. cbn. rewrite St1 in Hcap. done.
Qed.

(** The binding of [pin] is taken out, with its buffer. *)
Lemma take_binding w pin src bs st :
  store_ok w -> Map.assoc pin (Map.pairs (backingStore w)) = Some src ->
  buffers w !! src = Some bs -> Map.wf st ->
  Map.pairs st = Map.without pin (Map.pairs (backingStore w)) ->
  let w' := set_store st (delete src (buffers w)) w in
  store_ok w' /\ forall q, q <> pin -> swapped w' q = swapped w q.
Proof.
  intros Hs Ha Hb Hst Hp. cbn. pose proof (Map.without_objects _ _ _ Ha) as Hperm.
  pose proof (so_nodup w Hs) as Hnd. pose proof (so_buffers w Hs) as Hf.
  rewrite Hperm in Hnd, Hf. apply NoDup_cons in Hnd as [Hsrc Hnd]. apply Forall_cons in Hf as [_ Hf].
  split.
  - split; cbn; [done| |by rewrite Hp]. rewrite Hp. rewrite Forall_forall in *.
    intros b Hin. destruct (Hf b Hin) as (bs' & E & ?). exists bs'. split; [|done].
    rewrite lookup_delete_ne; [done|]. by intros ->.
  - intros q Hq. unfold swapped. cbn. rewrite Hp, Map.assoc_without_ne by done.
    destruct (Map.assoc q _) as [b|] eqn:E; [|done]. rewrite lookup_delete_ne; [done|].
    intros ->. apply Hsrc. apply assoc_in with q. by rewrite Map.assoc_without_ne.
Qed.

Lemma remove_Ok w pin src :
  store_ok w -> Map.assoc pin (Map.pairs (backingStore w)) = Some src ->
  exists st, Map.at_key pin (backingStore w) = Ok src /\ Map.remove pin (backingStore w) = Ok st /\
    Map.wf st /\ Map.pairs st = Map.without pin (Map.pairs (backingStore w)) /\
    Map.capacity st = Map.capacity (backingStore w).
Proof.
  intros Hs Ha. destruct (Map.remove_pairs _ _ _ (so_wf w Hs) Ha) as (st & E & H1 & H2 & H3).
  exists st. split_and!; try done. apply Map.at_key_pairs; [apply Hs|done].
Qed.

(** The four assignments to the fields of the two entries. *)
Lemma exchange_entries w pin pout ein eout f :
  pin <> pout -> get_entry pin w = Ok ein -> get_entry pout w = Ok eout ->
  exists w',
    (w ← upd_entry pin (set_physicalPage f) w;
     w ← upd_entry pout (set_physicalPage NO_PHYSYCAL_PAGE) w;
     w ← upd_entry pout use_and_valid w;
     upd_entry pin use_and_valid w) = Ok w' /\
    same_but_tables w w' /\ get_entry pin w' = Ok (use_and_valid (set_physicalPage f ein)) /\
    get_entry pout w' = Ok (evicted eout) /\
    forall q, q <> pin -> q <> pout -> get_entry q w' = get_entry q w.
Proof.
  intros Hne Hin Hout.
  destruct (upd_entry_Ok pin (set_physicalPage f) w ein Hin) as (w1 & -> & S1 & E1 & Q1).
  cbn -[upd_entry]. assert (get_entry pout w1 = Ok eout) as O1 by (by rewrite Q1).
  destruct (evict_entry w1 pout eout O1) as (w2 & E2 & S2 & O2 & Q2).
  destruct (upd_entry pout _ w1) as [w1'| | | |]; try done. cbn -[upd_entry] in *. rewrite E2.
  cbn -[upd_entry]. assert (get_entry pin w2 = Ok (set_physicalPage f ein)) as I2 by (by rewrite Q2).
  destruct (upd_entry_Ok pin use_and_valid w2 _ I2) as (w3 & -> & S3 & E3 & Q3).
  exists w3. split_and!; [done| |done| |].
  - eapply same_but_tables_trans; [done|]. by eapply same_but_tables_trans.
  - by rewrite Q3.
  - intros q H1 H2. by rewrite Q3, Q2, Q1.
Qed.

Lemma save_unless_readOnly w p f (ro : bool) :
  store_ok w -> Map.capacity (backingStore w) < 2 ^ 63 -> Z.of_nat (length (mem w)) = MemorySize ->
  frame_ok f ->
  exists w', (if negb ro then save_page new_keys new_buffers p f w else Ok w) = Ok w' /\
    w' = set_store (backingStore w') (buffers w') w /\ store_ok w' /\
    Map.capacity (backingStore w') <= 2 * Map.capacity (backingStore w) /\
    forall q, swapped w' q = if ro then swapped w q else saved w p (page w f) q.
Proof.
  intros Hs Hc Hm Hf. pose proof (Map.wf_capacity _ (so_wf w Hs)). destruct ro; cbn -[save_page].
  - exists w. split_and!; [done|by destruct w|done|lia|done].
  - destruct (save_page_Ok w p f) as (b & st & -> & Hb & Hst & Hps & Hcap); try done.
    eexists. split_and!; [done|done| |done|].
    + apply store_ok_save with p; try done. by apply length_frame.
    + by apply (swapped_save w p _ b st Hs Hb Hps).
Qed.

Lemma pageIn_Ok w pin pout ein eout bs :
  store_ok w -> Map.capacity (backingStore w) < 2 ^ 63 -> Z.of_nat (length (mem w)) = MemorySize ->
  pin <> pout -> get_entry pin w = Ok ein -> get_entry pout w = Ok eout ->
  frame_ok (physicalPage eout) -> swapped w pin = Some bs ->
  exists w', pageIn new_keys new_buffers pin pout w = Ok w' /\ kept w w' /\
    get_entry pin w' = Ok (use_and_valid (set_physicalPage (physicalPage eout) ein)) /\
    get_entry pout w' = Ok (evicted eout) /\
    (forall q, q <> pin -> q <> pout -> get_entry q w' = get_entry q w) /\
    physicalPageMap w' = physicalPageMap w /\
    (forall f, frame_ok f -> page w' f = if decide (f = physicalPage eout) then bs else page w f) /\
    (forall q, q <> pin -> swapped w' q =
       if readOnly eout then swapped w q else saved w pout (page w (physicalPage eout)) q) /\
    store_ok w' /\ Map.capacity (backingStore w') <= 2 * Map.capacity (backingStore w).
Proof.
  intros Hs Hc Hm Hne Hin Hout Hf Hbs. unfold pageIn. rewrite Hout. cbn -[upd_entry].
  destruct (exchange_entries w pin pout ein eout (physicalPage eout) Hne Hin Hout)
    as (w1 & E1 & S1 & I1 & O1 & Q1).
  destruct (upd_entry pin _ w) as [wa| | | |]; try done. cbn -[upd_entry] in *.
  destruct (upd_entry pout _ wa) as [wb| | | |]; try done. cbn -[upd_entry] in *.
  destruct (upd_entry pout _ wb) as [wc| | | |]; try done. cbn -[upd_entry] in *.
  rewrite E1. cbn -[save_page]. rewrite O1. cbn -[save_page].
  destruct (same_kept _ _ S1) as (K1 & M1 & B1 & St1 & Bu1).
  assert (store_ok w1) as Hs1 by (by apply (store_ok_same w w1 St1 Bu1)).
  pose proof (Map.wf_capacity _ (so_wf w Hs)).
  destruct (save_unless_readOnly w1 pout (physicalPage eout) (readOnly eout))
    as (w2 & E2 & R2 & Hs2 & Hc2 & Hsw2'); rewrite ?St1, ?M1; try done.
  assert (forall q, swapped w2 q =
    if readOnly eout then swapped w q else saved w pout (page w (physicalPage eout)) q) as Hsw2.
  { intros q. rewrite Hsw2'. unfold saved, page. by rewrite (swapped_same w w1), M1. }
  rewrite E2. cbn -[write_page]. clear E2.
  assert (swapped w2 pin = Some bs) as Hsw.
  { rewrite Hsw2. unfold saved. rewrite Hbs. by destruct (readOnly eout). }
  unfold swapped in Hsw. destruct (Map.assoc pin _) as [src|] eqn:Ha; [|done].
  destruct (remove_Ok w2 pin src Hs2 Ha) as (st & -> & Er & Hst & Hps & Hcap). cbn -[write_page].
  assert (Z.of_nat (length bs) = PageSize) as Hlb.
  { pose proof (so_buffers w2 Hs2) as Hf2. rewrite Forall_forall in Hf2.
    destruct (Hf2 src (assoc_in _ _ _ Ha)) as (bs' & E & ?). congruence. }
  destruct (write_page_Ok w2 (physicalPage eout) zero_page) as (w3 & -> & K3 & R3 & P3); try done.
  { rewrite R2. cbn. unfold mem. cbn. fold (mem w1). by rewrite M1. }
  cbn -[write_page]. assert (buffers w3 !! src = Some bs) as -> by (by rewrite R3).
  destruct (write_page_Ok w3 (physicalPage eout) bs) as (w4 & -> & K4 & R4 & P4); try done.
  { rewrite (proj2 (proj2 K3)), R2. unfold mem. cbn. fold (mem w1). by rewrite M1. }
  cbn. assert (backingStore w4 = backingStore w2 /\ buffers w4 = buffers w2) as [E4 E4']
    by (by rewrite R4, R3).
  rewrite E4, Er. cbn. rewrite E4'.
  destruct (take_binding w4 pin src bs st) as [Hs5 Hsw5]; rewrite ?E4, ?E4'; try done.
  { by apply (store_ok_same w2 w4). }
  eexists. split; [done|]. rewrite E4' in Hs5, Hsw5. split_and!.
  - eapply kept_trans; [exact K1|]. eapply (kept_trans _ w2); [by rewrite R2|].
    eapply kept_trans; [exact K3|]. eapply kept_trans; [exact K4|]. done.
  - rewrite R4, R3, R2. done.
  - rewrite R4, R3, R2. done.
  - intros q H1 H2. rewrite R4, R3, R2. by apply Q1.
  - rewrite R4, R3, R2. done.
  - intros f Hff. change (page w4 f = if decide (f = physicalPage eout) then bs else page w f).
    rewrite P4, P3 by done. case_decide; [done|]. rewrite R2. unfold page, mem. cbn.
    fold (mem w1). by rewrite M1.
  - intros q Hq. rewrite Hsw5, (swapped_same w2 w4) by done. apply Hsw2.
  - done.
  - cbn. rewrite Hcap, <- St1. done.
Qed.

End store.

(** ** The table of the resident pages *)
Section resident_pages.
Context {thread D : Type} `{EqDecision thread} (new_pointers : list entry_ptr).
Local Abbreviation World := (World (thread := thread) (D := D)).
Implicit Types w : World.

Definition in_memory w (p : entry_ptr) : bool :=
  match get_entry p w with Ok e => resident e | _ => false end.

(** The entries of one table that are in memory, and those of all the tables. *)
Definition resident_row w (r : table_loc * Z) : list entry_ptr :=
  filter (fun p => in_memory w p = true) (pair (fst r) <$> seqZ 0 (snd r)).

Definition residents w : list entry_ptr := concat (resident_row w <$> rows w).

(** The array after the pointers [l] were written to its front. *)
Definition filled (l : list entry_ptr) : list entry_ptr * Z :=
  (l ++ drop (length l) new_pointers, Z.of_nat (length l)).

Lemma zset_filled l p :
  (length l < length new_pointers)%nat ->
  zset (fst (filled l)) (snd (filled l)) p = Ok (fst (filled (l ++ [p]))).
Proof.
  intros Hl. unfold filled. cbn. rewrite zset_eq by (rewrite length_app, length_drop; lia). f_equal.
  rewrite Nat2Z.id, insert_app_r_alt, Nat.sub_diag by lia. rewrite length_app, <- app_assoc. cbn.
  f_equal. destruct (lookup_lt_is_Some_2 new_pointers (length l) Hl) as [x Hx].
  rewrite (drop_S _ x) by done. cbn. by rewrite Nat.add_1_r.
Qed.

Lemma resident_row_split w a i k :
  0 <= i -> 0 <= k ->
  resident_row w (a, i + k) =
    resident_row w (a, i) ++ filter (fun p => in_memory w p = true) (pair a <$> seqZ i k).
Proof. intros. unfold resident_row. cbn. by rewrite seqZ_app, fmap_app, filter_app. Qed.

Definition collect_row (table : list TranslationEntry) (a : table_loc) (j : Z)
    (s : list entry_ptr * Z) : res (list entry_ptr * Z) :=
  let '(ppt, iterator) := s in
  e ← zget table j;
  if negb (physicalPage e =? NO_PHYSYCAL_PAGE) then
    ppt ← zset ppt iterator (a, j); Ok (ppt, iterator + 1)
  else Ok (ppt, iterator).

Lemma collect_row_Ok w a n table l :
  tables (machine w) !! a = Some table -> Z.of_nat (length table) = Z.of_nat n ->
  (length (l ++ resident_row w (a, Z.of_nat n)) <= length new_pointers)%nat ->
  for_range n 0 (collect_row table a) (filled l) =
    Ok (filled (l ++ resident_row w (a, Z.of_nat n))).
Proof.
  intros Ht Hn Hlen.
  destruct (for_range_rule (fun i s => s = filled (l ++ resident_row w (a, i))) n 0
    (collect_row table a) (filled l)) as (s' & E & ->).
  - cbn. by rewrite app_nil_r.
  - intros i s Hi ->. destruct (zget_is_Ok table i) as [e He]; [lia|].
    assert (in_memory w (a, i) = resident e) as Hm.
    { unfold in_memory. replace (get_entry (a, i) w) with (Ok e); [done|].
      symmetry. apply get_entry_Ok. exists table. apply zget_Ok in He as [? ?]. done. }
    assert (resident_row w (a, i + 1) = resident_row w (a, i) ++ (if resident e then [(a, i)] else [])) as Er.
    { rewrite resident_row_split by lia. f_equal.
      rewrite seqZ_cons, seqZ_nil by lia. rewrite fmap_cons, filter_cons, Hm.
      by destruct (resident e). }
    unfold collect_row. cbn. rewrite He. cbn. unfold resident in *.
    rewrite Er. destruct (negb (physicalPage e =? NO_PHYSYCAL_PAGE)) eqn:En.
    + pose proof (zset_filled (l ++ resident_row w (a, i)) (a, i)) as Hz. cbn in Hz. rewrite Hz.
      * cbn. eexists. split; [done|]. rewrite app_assoc. unfold filled. f_equal.
        rewrite (length_app _ [_]). cbn. lia.
      * replace (Z.of_nat n) with (i + 1 + (Z.of_nat n - (i + 1))) in Hlen by lia.
        rewrite resident_row_split, Er, !length_app in Hlen by lia. cbn in Hlen.
        rewrite length_app. lia.
    + eexists. split; [done|]. by rewrite app_nil_r.
  - exact E.
Qed.

Lemma getPhysicalPageTable_Ok w :
  inverted_ok w -> (length (residents w) <= length new_pointers)%nat ->
  getPhysicalPageTable new_pointers w =
    Ok (residents w ++ drop (length (residents w)) new_pointers).
Proof.
  intros Hok Hlen. unfold getPhysicalPageTable, Map.getCount.
  rewrite Map.getKeys_pairs by apply Hok.
  assert (default [] (if decide (Map.pairs (invertedTable w) = []) then None
    else Some (Map.pairs (invertedTable w)).*1) = (Map.pairs (invertedTable w)).*1) as ->.
  { case_decide as E; [by rewrite E|done]. }
  pose proof (length_spaces w (inv_wf w Hok)) as Hl.
  match goal with |- context [for_range ?n 0 ?body ?s0] =>
    destruct (for_range_rule
      (fun i s => s = filled (concat (resident_row w <$> take (Z.to_nat i) (rows w))))
      n 0 body s0) as (s' & E & H) end.
  - done.
  - intros i s Hi ->. destruct (lookup_lt_is_Some_2 (spaces w) (Z.to_nat i)) as [sp Hs]; [lia|].
    pose proof (space_at_Ok w (Z.to_nat i) sp Hok Hs) as Hat. rewrite Z2Nat.id in Hat by lia.
    rewrite Hat. cbn. pose proof (inv_spaces w Hok) as Hf. rewrite Forall_lookup in Hf.
    destruct (Hf _ _ Hs) as (table & Ht & Hn). unfold get_table. rewrite Ht. cbn.
    assert (rows w !! Z.to_nat i = Some (pageTable sp, numPages sp)) as Hrow
      by (unfold rows; by rewrite list_lookup_fmap, Hs).
    replace (Z.to_nat (i + 1)) with (S (Z.to_nat i)) by lia.
    rewrite (take_S_r _ _ _ Hrow), fmap_app, concat_app. cbn. rewrite app_nil_r.
    assert (numPages sp = Z.of_nat (length table)) as En by lia. rewrite En.
    eexists. split; [|done]. rewrite Nat2Z.id. apply (collect_row_Ok w); [done|done|].
    unfold residents in Hlen. rewrite <- (take_drop_middle _ _ _ Hrow), fmap_app, concat_app in Hlen.
    cbn in Hlen. rewrite En in Hlen. rewrite !length_app in *. lia.
  - rewrite take_ge in H by (unfold rows; rewrite length_fmap; lia).
    fold (residents w) in H. subst s'.
    match goal with |- context [for_range ?n 0 ?body ?s0] =>
      replace (for_range n 0 body s0) with (Ok (filled (residents w))) by (symmetry; exact E) end.
    done.
Qed.

Lemma elem_of_residents w p :
  p ∈ residents w <-> in_memory w p = true /\ covered (rows w) p.
Proof.
  unfold residents, covered. rewrite Exists_exists. induction (rows w) as [|r rs IH]; cbn.
  - rewrite elem_of_nil. split; [done|]. intros (_ & r & Hr & _). by apply elem_of_nil in Hr.
  - rewrite elem_of_app, IH. unfold resident_row. rewrite list_elem_of_filter, list_elem_of_fmap.
    split.
    + intros [(Hm & i & -> & Hi%elem_of_seqZ)|(Hm & r' & Hr & H)]; (split; [done|]).
      * exists r. split; [apply list_elem_of_here|]. cbn. lia.
      * exists r'. split; [by apply list_elem_of_further|done].
    + intros (Hm & r' & [->|Hr]%elem_of_cons & H1 & H2).
      * left. split; [done|]. exists (snd p). split; [destruct p; cbn in *; congruence|].
        apply elem_of_seqZ. lia.
      * right. eauto.
Qed.

Lemma residents_entries w :
  exists l, reads (residents w) l w /\ Forall (fun e => resident e = true) l.
Proof.
  assert (forall ps, (forall p, p ∈ ps -> in_memory w p = true) ->
    exists l, reads ps l w /\ Forall (fun e => resident e = true) l) as H.
  { induction ps as [|p ps IH]; intros Hp.
    - exists []. split; constructor.
    - destruct IH as (l & Hl & Hr); [intros; apply Hp; by apply list_elem_of_further|].
      pose proof (Hp p (list_elem_of_here _ _)) as Hin. unfold in_memory in Hin.
      destruct (get_entry p w) as [e| | | |] eqn:E1; try done. exists (e :: l). by split; constructor. }
  apply H. intros p Hp. by apply elem_of_residents in Hp as [? _].
Qed.

Lemma NoDup_residents w : NoDup (pageTable <$> spaces w) -> NoDup (residents w).
Proof.
  unfold residents, rows. induction (spaces w) as [|s l IH]; cbn; [constructor|].
  intros [Hs Hl]%NoDup_cons. apply NoDup_app. split_and!; [| |by apply IH].
  - unfold resident_row. cbn. apply NoDup_filter. apply NoDup_fmap_2; [|apply NoDup_seqZ].
    intros i j [= ->]. done.
  - intros p [_ (i & -> & _)%list_elem_of_fmap]%list_elem_of_filter. cbn. intros Hq. apply Hs.
    clear - Hq. induction l as [|s' l IH]; cbn in *; [by apply elem_of_nil in Hq|].
    apply elem_of_app in Hq as [Hq|Hq].
    + apply list_elem_of_filter in Hq as [_ (j & [= -> _] & _)%list_elem_of_fmap].
      apply list_elem_of_here.
    + apply list_elem_of_further, IH, Hq.
Qed.

Lemma residents_covered w p :
  p ∈ residents w -> covered (rows w) p /\ exists e, get_entry p w = Ok e /\ resident e = true.
Proof.
  rewrite elem_of_residents. intros [Hm Hc]. split; [done|]. unfold in_memory in Hm.
  destruct (get_entry _ w) as [e| | | |]; try done. by exists e.
Qed.

End resident_pages.

(** ** Page faults *)

(** The TLB holds no valid entry for the page: the lookup after an entry for it was
    put at [i]. *)
Lemma find_tlb_put vpn (l : list TranslationEntry) (i : nat) k e :
  find_tlb vpn l k = None -> (i < length l)%nat -> valid e = true -> virtualPage e = s32 vpn ->
  find_tlb vpn (<[i := e]> l) k = Some (k + Z.of_nat i, e).
Proof.
  intros H Hi Hv He. revert i k H Hi. induction l as [|e0 l IH]; intros [|i] k; cbn; try lia.
  - intros _ _. rewrite Hv, He, Z.eqb_refl. cbn. do 2 f_equal. lia.
  - intros H Hi. destruct (valid e0 && (virtualPage e0 =? s32 vpn)); [done|].
    rewrite (IH i) by (done || lia). do 2 f_equal. lia.
Qed.

(** Second chance touches only use bits. *)
Definition same_but_use (e e' : TranslationEntry) : Prop :=
  virtualPage e' = virtualPage e /\ physicalPage e' = physicalPage e /\ valid e' = valid e /\
  readOnly e' = readOnly e /\ dirty e' = dirty e.

Lemma pass_same e : same_but_use e (pass e).
Proof. unfold pass. by destruct (resident e). Qed.

Lemma choose_same index l v l' : choose index l = Some (v, l') -> Forall2 same_but_use l l'.
Proof.
  unfold choose. intros H. destruct (list_find _ (order index l)) as [[k e]|] eqn:E1; simplify_eq.
  - apply Forall2_same_length_lookup. rewrite length_passed. split; [done|].
    intros n e1 e2 H1 H2. unfold passed in H2. rewrite list_lookup_imap, H1 in H2. cbn in H2.
    simplify_eq. case_match; [apply pass_same|done].
  - destruct (list_find (fun e => resident e = true) (order index l)) as [[k e]|] eqn:E2; simplify_eq.
    apply Forall2_fmap_r. apply Forall_Forall2_diag, Forall_true. intros. apply pass_same.
Qed.

Lemma find_tlb_same vpn l l' k :
  Forall2 same_but_use l l' -> find_tlb vpn l k = None -> find_tlb vpn l' k = None.
Proof.
  intros H. revert k. induction H as [|e e' l l' (E1 & _ & E2 & _) H IH]; intros k; cbn; [done|].
  rewrite E1, E2. destruct (valid e && (virtualPage e =? s32 vpn)); [done|]. apply IH.
Qed.

Section faults.
Context {thread : Type} `{EqDecision thread}.
Context {E D : Type} `{!Executable E D}.
Context (read_header : list Z -> AddrSpace.NoffHeader) (sizeof_header NOFFMAGIC : Z).
Context (fileSystem_Open : list Z -> D -> res (option E * D)).
Context (new_pointers : list entry_ptr).
Context (new_threads : Z -> list thread) (new_keys : Z -> list entry_ptr)
  (new_buffers : Z -> list buffer_loc) (new_spaces : Z -> list AddrSpace).
Context (Hkeys : forall n, 0 <= n -> Z.of_nat (length (new_keys n)) = n).
Context (Hbuffers : forall n, 0 <= n -> Z.of_nat (length (new_buffers n)) = n).
Context (Hpointers : Z.of_nat (length new_pointers) = NumPhysPages).
Context (Hheader : 0 < sizeof_header < 2 ^ 31).
Local Abbreviation World := (World (thread := thread) (D := D)).
Local Abbreviation PageFault :=
  (PageFaultException read_header sizeof_header fileSystem_Open new_pointers new_keys new_buffers).
Implicit Types w : World.

Record vm_ok w : Prop := {
  vm_inverted : inverted_ok w;
  vm_tables : NoDup (pageTable <$> spaces w);
  vm_store : store_ok w;
  vm_room : Map.capacity (backingStore w) < 2 ^ 63;
  vm_mem : Z.of_nat (length (mem w)) = MemorySize;
  vm_registers : Z.of_nat (length (registers (machine w))) = NumTotalRegs;
  vm_map : BitMap.wf (physicalPageMap w);
  vm_bits : BitMap.numBits (physicalPageMap w) = NumPhysPages;
  vm_frames p e : covered (rows w) p -> get_entry p w = Ok e -> resident e = true ->
    frame_ok (physicalPage e);
  vm_tlbIndex : 0 <= tlbIndex w < TLBSize;
  vm_physicalIndex : 0 <= physicalIndex w < NumPhysPages
}.

(** The TLB: an entry that is valid has a physical page. *)
Definition tlb_ok w (t : list TranslationEntry) : Prop :=
  tlb (machine w) = Some t /\ Z.of_nat (length t) = TLBSize /\
  Forall (fun e => valid e = true -> resident e = true) t.

(** The page that faults, and its number. *)
Definition vpn_of w : Z := u32 (default 0 (registers (machine w) !! Z.to_nat BadVAddrReg)) / PageSize.

(** An entry of the page tables after the TLB was copied to them: the pages of the spaces
    take the bits of the entries of the TLB with their frame. *)
Definition synced w (t : list TranslationEntry) (q : entry_ptr) : res TranslationEntry :=
  if decide (covered (rows w) q) then res_map (sync t) (get_entry q w) else get_entry q w.

(** The state after the TLB was copied to the page tables and one of its entries was
    chosen. *)
Definition started w (t : list TranslationEntry) (slot : Z) (t' : list TranslationEntry) w2 : Prop :=
  (0 <= slot < TLBSize /\ choose (tlbIndex w) t = Some (Z.to_nat slot, t')) /\ Forall2 same_but_use t t' /\
  (exists T i, w2 = set_tlbIndex i (set_machine (set_tlb t' (with_tables T (machine w))) (count_fault w)) /\
    0 <= i < TLBSize /\
    forall a, length <$> T !! a = length <$> tables (machine w) !! a) /\
  forall p, get_entry p w2 = synced w t p.

Lemma ReadRegister_BadVAddr (m : Machine) :
  Z.of_nat (length (registers m)) = NumTotalRegs ->
  ReadRegister BadVAddrReg m = Ok (default 0 (registers m !! Z.to_nat BadVAddrReg)).
Proof.
  intros Hr. destruct (zget_is_Ok (registers m) BadVAddrReg) as [x Hx]; [rewrite Hr; done|].
  assert (ReadRegister BadVAddrReg m = zget (registers m) BadVAddrReg) as -> by done.
  rewrite Hx. apply zget_Ok in Hx as [_ ->]. done.
Qed.

Lemma fault_start this w t :
  vm_ok w -> tlb_ok w t ->
  exists slot t' w2, started w t slot t' w2 /\
    PageFault this w =
      (let pin := (pageTable this, vpn_of w) in
       e ← get_entry pin w2;
       w3 ← (if physicalPage e =? NO_PHYSYCAL_PAGE then
              if valid e && dirty e && negb (readOnly e)
              then swap_in new_pointers new_keys new_buffers pin w2
              else
                '(availablePage, w3) ← take_frame new_pointers new_keys new_buffers w2;
                load_fault read_header sizeof_header fileSystem_Open this (vpn_of w) pin availablePage w3
            else Ok w2);
       w4 ← upd_entry pin use_and_valid w3;
       e ← get_entry pin w4;
       put_tlb slot e w4).
Proof.
  intros Hok (Ht & Hlt & Hres).
  destruct (updataPageTables_applied w t (vm_inverted w Hok) Ht Hlt) as (w1 & E1 & (T & R1 & HT) & G1).
  pose proof (secondChance_tlb_choose (count_fault w1) t) as H2.
  rewrite R1 in H2. specialize (H2 Ht Hlt (vm_tlbIndex w Hok)). cbn in H2.
  destruct (choose (tlbIndex w) t) as [[v t']|] eqn:Ec.
  2:{ apply choose_None in Ec. rewrite Forall_forall in Ec, Hres.
      destruct t as [|e0 t0]; [done|]. destruct (Ec e0 (list_elem_of_here _ _)) as [Hb Hr].
      unfold busy in Hb. apply andb_true_iff in Hb as [_ Hv].
      rewrite (Hres e0 (list_elem_of_here _ _) Hv) in Hr. done. }
  pose proof (choose_lt _ _ _ _ Ec) as [Hv Hl']. pose proof (choose_same _ _ _ _ Ec) as Hsame.
  exists (Z.of_nat v), t', (set_tlbIndex (Z.rem (Z.of_nat v + 1) TLBSize)
    (set_machine (set_tlb t' (with_tables T (machine w))) (count_fault w))). split; cycle 1.
  - unfold PageFaultException. rewrite E1. cbn -[secondChance_tlb upd_entry ReadRegister].
    rewrite R1. cbn -[secondChance_tlb upd_entry ReadRegister].
    assert (ReadRegister BadVAddrReg (with_tables T (machine w)) =
      Ok (default 0 (registers (machine w) !! Z.to_nat BadVAddrReg))) as ->.
    { apply (ReadRegister_BadVAddr (with_tables T (machine w))). exact (vm_registers w Hok). }
    cbn -[secondChance_tlb upd_entry]. fold (vpn_of w). rewrite H2. cbn. reflexivity.
  - split_and!; [lia|unfold TLBSize in *; lia|by rewrite Nat2Z.id|done| |].
    + do 2 eexists. split; [reflexivity|]. split; [|done].
      apply Z.rem_bound_pos; unfold TLBSize in *; lia.
    + intros p. unfold synced. rewrite <- G1, R1. done.
Qed.

(** What [started] leaves as it was. *)
Lemma started_same w t slot t' w2 :
  started w t slot t' w2 ->
  mem w2 = mem w /\ physicalPageMap w2 = physicalPageMap w /\ backingStore w2 = backingStore w /\
  buffers w2 = buffers w /\ disk w2 = disk w /\ invertedTable w2 = invertedTable w /\
  physicalIndex w2 = physicalIndex w /\ tlb (machine w2) = Some t' /\
  length t' = length t.
Proof. intros (_ & Hs & (T & i & -> & _) & _). split_and!; try done. symmetry. by eapply Forall2_length. Qed.

Lemma sync_physicalPage t e : physicalPage (sync t e) = physicalPage e /\ virtualPage (sync t e) = virtualPage e.
Proof.
  unfold sync. revert e. induction t as [|cur t IH]; intros e; cbn; [done|].
  destruct (IH (sync_entry cur e)) as [-> ->]. unfold sync_entry. by case_match.
Qed.

Lemma started_residents w t slot t' w2 :
  started w t slot t' w2 -> rows w2 = rows w /\ residents w2 = residents w.
Proof.
  intros (Hs & Hu & (T & i & Ew & Hi) & Hg). assert (rows w2 = rows w) as Er by (by subst).
  split; [done|]. unfold residents. rewrite Er. f_equal. apply list_fmap_ext. intros _ r _.
  unfold resident_row. apply list_filter_iff. intros p. unfold in_memory. rewrite Hg. unfold synced.
  case_decide; [|done]. destruct (get_entry p w) as [e| | | |]; cbn; try done.
  unfold resident. by rewrite (proj1 (sync_physicalPage t e)).
Qed.

Lemma started_inverted w t slot t' w2 :
  started w t slot t' w2 -> inverted_ok w -> inverted_ok w2.
Proof.
  intros (Hs & Hu & (T & i & -> & Hi & HT) & Hg) Hok.
  apply (same_but_tables_ok w (set_machine (with_tables T (machine w)) w)) in Hok;
    [|by exists T]. destruct Hok as [H1 H2 H3]. split; done.
Qed.

(** The end of the handler: the entry is copied to the TLB. *)
Lemma fault_finish w pin e slot t :
  get_entry pin w = Ok e -> tlb (machine w) = Some t -> 0 <= slot < Z.of_nat (length t) ->
  exists w' T, (w4 ← upd_entry pin use_and_valid w; e ← get_entry pin w4; put_tlb slot e w4) = Ok w' /\
    w' = set_machine (set_tlb (<[Z.to_nat slot := use_and_valid e]> t) (with_tables T (machine w))) w /\
    get_entry pin w' = Ok (use_and_valid e) /\
    forall q, q <> pin -> get_entry q w' = get_entry q w.
Proof.
  intros He Ht Hs. destruct (upd_entry_Ok pin use_and_valid w e He) as (w1 & -> & (T & R & HT) & E1 & Q1).
  cbn. rewrite E1. subst w1. cbn. unfold put_tlb. cbn. rewrite Ht, zset_eq by done. cbn.
  exists (set_machine (set_tlb (<[Z.to_nat slot := use_and_valid e]> t) (with_tables T (machine w))) w), T.
  split_and!; [done|done|exact E1|exact Q1].
Qed.

(** The page is mapped by the entry [e'] in the page table and in the TLB, where the
    retried instruction finds it. *)
Definition resumed (this : AddrSpace) w (t : list TranslationEntry) w' (e' : TranslationEntry) : Prop :=
  get_entry (pageTable this, vpn_of w) w' = Ok e' /\
  exists slot t', 0 <= slot < TLBSize /\ choose (tlbIndex w) t = Some (Z.to_nat slot, t') /\
    Forall2 same_but_use t t' /\ tlb (machine w') = Some (<[Z.to_nat slot := e']> t') /\
    (find_tlb (vpn_of w) t 0 = None -> virtualPage e' = s32 (vpn_of w) ->
     lookup_entry (vpn_of w) (machine w') = Ok (inr (InTLB slot, e'))).

Lemma resumed_intro this w t slot t' w' T w3 e :
  Z.of_nat (length t) = TLBSize -> 0 <= slot < TLBSize /\ choose (tlbIndex w) t = Some (Z.to_nat slot, t') ->
  Forall2 same_but_use t t' ->
  w' = set_machine (set_tlb (<[Z.to_nat slot := use_and_valid e]> t') (with_tables T (machine w3))) w3 ->
  get_entry (pageTable this, vpn_of w) w' = Ok (use_and_valid e) ->
  resumed this w t w' (use_and_valid e).
Proof.
  intros Hl [Hs Hch] Hu -> He. split; [done|]. exists slot, t'. split_and!; [lia..|done|done|done|].
  intros Hf Hv. unfold lookup_entry. cbn -[take find_tlb].
  pose proof (Forall2_length _ _ _ Hu). rewrite take_ge by (rewrite length_insert; unfold TLBSize in *; lia).
  rewrite (find_tlb_put _ _ _ _ _ (find_tlb_same _ _ _ _ Hu Hf)) by (done || unfold TLBSize in *; lia).
  cbn. by rewrite Z2Nat.id by lia.
Qed.

(** The page is in memory already. *)
Lemma fault_resident this w t e :
  vm_ok w -> tlb_ok w t -> covered (rows w) (pageTable this, vpn_of w) ->
  get_entry (pageTable this, vpn_of w) w = Ok e -> resident e = true ->
  exists w', PageFault this w = Ok w' /\ resumed this w t w' (use_and_valid (sync t e)) /\
    mem w' = mem w /\ physicalPageMap w' = physicalPageMap w /\ disk w' = disk w /\
    (forall q, swapped w' q = swapped w q) /\
    (forall q, q <> (pageTable this, vpn_of w) -> get_entry q w' = synced w t q).
Proof.
  intros Hok Htlb Hc He Hr. destruct (fault_start this w t Hok Htlb) as (slot & t' & w2 & Hst & ->).
  destruct (started_same _ _ _ _ _ Hst) as (M & B & S & Bu & Dk & _ & _ & T' & Hl).
  destruct Hst as (Hs & Hu & _ & Hgs). destruct Htlb as (Ht & Hlt & _).
  pose proof (Hgs (pageTable this, vpn_of w)) as Hg. unfold synced in Hg. rewrite decide_True, He in Hg by done.
  cbn in Hg. cbn zeta.
  rewrite Hg. cbn -[upd_entry]. rewrite (proj1 (sync_physicalPage t e)).
  unfold resident in Hr. apply negb_true_iff in Hr. rewrite Hr. cbn -[upd_entry].
  destruct (fault_finish w2 _ _ slot t' Hg T') as (w' & T & -> & Ew & He' & Hq); [lia|].
  exists w'. split; [done|]. split; [by eapply resumed_intro|]. split_and!; try (by subst w').
  - intros q. subst w'. by apply swapped_same.
  - intros q Hne. by rewrite Hq.
Qed.

(** The bytes a page of the executable [bytes] starts with; the rest of the page, and
    the pages of the stack, are zero. *)
Definition page_source (bytes : list Z) (vpn : Z) : list Z :=
  let hd := read_header (take (Z.to_nat sizeof_header) bytes) in
  if vpn <? divRoundUp (s32 (AddrSpace.size (AddrSpace.code hd) + AddrSpace.size (AddrSpace.initData hd))) PageSize
  then take (Z.to_nat PageSize)
         (drop (Z.to_nat (AddrSpace.inFileAddr (AddrSpace.code hd) + vpn * PageSize)) bytes)
  else [].

Definition fresh_page (bytes : list Z) (vpn : Z) : list Z :=
  page_source bytes vpn ++ drop (length (page_source bytes vpn)) zero_page.

(** The offset of the page in the file is one [ReadAt] takes. *)
Definition offset_ok (bytes : list Z) (vpn : Z) : Prop :=
  let hd := read_header (take (Z.to_nat sizeof_header) bytes) in
  0 <= AddrSpace.inFileAddr (AddrSpace.code hd) + vpn * PageSize < 2 ^ 31 - PageSize.

Lemma zslice_min {A} (l : list A) pos n :
  0 <= pos -> 0 <= n ->
  zslice pos (Z.max 0 (Z.min n (Z.of_nat (length l) - pos))) l = take (Z.to_nat n) (drop (Z.to_nat pos) l).
Proof.
  intros Hp Hn. unfold zslice. destruct (decide (Z.to_nat pos < length l)%nat).
  - destruct (decide (n <= Z.of_nat (length l) - pos)).
    + do 2 f_equal. lia.
    + rewrite !(take_ge (drop _ _)) by (rewrite length_drop; lia). done.
  - rewrite drop_ge by lia. by rewrite !take_nil.
Qed.

(** The file of the space opens, to an executable with these bytes. *)
Definition executable_of (this : AddrSpace) (d : D) (bytes : list Z) : Prop :=
  exists exe d', fileSystem_Open (file this) d = Ok (Some exe, d') /\ exe_ok exe d' /\
    exe_bytes exe d' = bytes.

Lemma read_noff_Ok exe w :
  exe_ok exe (disk w) ->
  exists d n, read_noff read_header sizeof_header exe w =
      Ok (read_header (take (Z.to_nat sizeof_header) (exe_bytes exe (disk w))), set_disk n d w) /\
    exe_ok exe d /\ exe_bytes exe d = exe_bytes exe (disk w).
Proof.
  intros He. destruct (exe_law sizeof_header 0 exe (disk w) He) as (d & E1 & He' & Eb); [lia..|].
  unfold read_noff. rewrite E1, zslice_min by lia. cbn [bind drop]. do 2 eexists.
  split_and!; [reflexivity|done|done].
Qed.

Lemma load_page_Ok exe f pos w :
  exe_ok exe (disk w) -> 0 <= pos < 2 ^ 31 - PageSize ->
  Z.of_nat (length (mem w)) = MemorySize -> frame_ok f ->
  let bs := take (Z.to_nat PageSize) (drop (Z.to_nat pos) (exe_bytes exe (disk w))) in
  exists d n w', load_page exe f pos w = Ok w' /\
    w' = set_machine (set_memory (mem w') (machine w)) (set_disk n d w) /\
    length (mem w') = length (mem w) /\
    forall f', frame_ok f' ->
      page w' f' = if decide (f' = f) then bs ++ drop (length bs) (page w f) else page w f'.
Proof.
  intros He Hp Hm Hf bs. assert (PageSize = 128) as HP by done.
  destruct (exe_law PageSize pos exe (disk w) He) as (d & E1 & _ & _); [lia..|].
  unfold load_page. rewrite E1, zslice_min by lia. cbn [bind]. fold bs.
  set (n := s32 (numDiskReads w + _)).
  destruct (write_page_part (set_disk n d w) f bs) as (w' & -> & K & R & P); [done|done| |].
  { unfold bs. rewrite length_take. lia. }
  exists d, n, w'. split_and!; [done|done|apply K|done].
Qed.

(** Filling the frame of the page that faults. *)
Lemma load_fault_Ok this vpn pin f w e bytes :
  executable_of this (disk w) bytes -> offset_ok bytes vpn ->
  Z.of_nat (length (mem w)) = MemorySize -> frame_ok f -> get_entry pin w = Ok e ->
  exists w', load_fault read_header sizeof_header fileSystem_Open this vpn pin f w = Ok w' /\
    (exists T n d, w' = set_machine (set_memory (mem w') (with_tables T (machine w))) (set_disk n d w)) /\
    length (mem w') = length (mem w) /\
    get_entry pin w' = Ok (set_physicalPage f e) /\
    (forall q, q <> pin -> get_entry q w' = get_entry q w) /\
    forall f', frame_ok f' ->
      page w' f' = if decide (f' = f) then fresh_page bytes vpn else page w f'.
Proof.
  intros (exe & d & Ho & He & Eb) Hoff Hm Hf Hget. unfold load_fault. rewrite Ho. cbn [bind].
  destruct (read_noff_Ok exe (set_disk (numDiskReads w) d w) He) as (d1 & n1 & -> & He1 & Eb1).
  cbn [bind disk set_disk]. rewrite Eb in *.
  set (hd := read_header _) in *. set (wd := set_disk n1 d1 _).
  destruct (upd_entry_Ok pin (set_physicalPage f) wd e Hget) as (w1 & -> & (T & R1 & HT) & G1 & Q1).
  cbn [bind]. destruct (write_page_Ok w1 f zero_page) as (w2 & -> & K2 & R2 & P2); try done.
  { rewrite R1. done. }
  cbn [bind].
  assert (forall f', frame_ok f' -> page w2 f' = if decide (f' = f) then zero_page else page w f') as Hz.
  { intros f' Hf'. rewrite P2 by done. case_decide; [done|]. by rewrite R1. }
  assert (length (mem w2) = length (mem w)) as Hl2 by (rewrite (proj2 (proj2 K2)), R1; done).
  unfold offset_ok in Hoff. fold hd in Hoff.
  rewrite (s32_id (_ + vpn * PageSize)) by (change PageSize with 128 in *; unfold is_s32; lia).
  unfold fresh_page, page_source. fold hd.
  destruct (vpn <? divRoundUp _ PageSize).
  - destruct (load_page_Ok exe f (AddrSpace.inFileAddr (AddrSpace.code hd) + vpn * PageSize) w2)
      as (d3 & n3 & w3 & -> & R3 & L3 & P3); try done.
    { by rewrite R2, R1. }
    { by rewrite Hl2. }
    assert (exe_bytes exe (disk w2) = bytes) as Eb2 by (rewrite R2, R1; exact (eq_trans Eb1 Eb)).
    rewrite Eb2 in P3. exists w3. split_and!; [done| |congruence| | |].
    + exists T, n3, d3. rewrite R3 at 1. by rewrite R2, R1.
    + rewrite R3, R2. exact G1.
    + intros q Hq. rewrite R3, R2. by apply Q1.
    + intros f' Hf'. rewrite P3, !Hz by done. case_decide; [|done]. by rewrite decide_True.
  - exists w2. split_and!; [done| |done| | |].
    + exists T, n1, d1. rewrite R2 at 1. by rewrite R1.
    + rewrite R2. exact G1.
    + intros q Hq. rewrite R2. by apply Q1.
    + intros f' Hf'. by rewrite Hz.
Qed.

(** ** The victim *)
(** Second chance on a full memory: [choose] takes one of the resident pages, whose entries
    are [l] before and [l'] after it; only use bits change. *)
Definition victim w (p : entry_ptr) (l : list TranslationEntry) (v : nat) (l' : list TranslationEntry) : Prop :=
  reads (residents w) l w /\ choose (physicalIndex w) l = Some (v, l') /\ residents w !! v = Some p.

Lemma victim_Ok w :
  inverted_ok w -> NoDup (pageTable <$> spaces w) -> 0 <= physicalIndex w < NumPhysPages ->
  Z.of_nat (length (residents w)) = NumPhysPages ->
  exists p e w',
    (table ← getPhysicalPageTable new_pointers w; secondChance_table table w) = Ok (p, w') /\
    p ∈ residents w /\ get_entry p w' = Ok e /\
    (exists T i, w' = set_physicalIndex i (set_machine (with_tables T (machine w)) w) /\
       0 <= i < NumPhysPages) /\
    (forall q eq, get_entry q w = Ok eq ->
       exists eq', get_entry q w' = Ok eq' /\ same_but_use eq eq') /\
    exists l v l', victim w p l v l' /\ physicalIndex w' = Z.of_nat v /\ reads (residents w) l' w' /\
      forall q, q ∉ residents w -> get_entry q w' = get_entry q w.
Proof.
  intros Hok Hnd Hi Hlen. rewrite getPhysicalPageTable_Ok by (done || lia).
  rewrite drop_ge, app_nil_r by lia. cbn [bind].
  destruct (residents_entries w) as (l & Hl & Hres). pose proof (Forall2_length _ _ _ Hl) as Hll.
  pose proof (secondChance_table_choose w (residents w) l (NoDup_residents w Hnd) Hl Hlen Hi) as Hc.
  destruct (choose (physicalIndex w) l) as [[v l']|] eqn:Ec.
  2:{ apply choose_None in Ec. rewrite Forall_forall in Ec, Hres. destruct l as [|e0 l0].
      - cbn in Hll. rewrite Hll in Hlen. done.
      - destruct (Ec e0 (list_elem_of_here _ _)) as [_ Hr]. by rewrite Hres in Hr by apply list_elem_of_here. }
  destruct Hc as (p & w' & Hp & -> & (T & R & HT) & Hl' & Hq).
  pose proof (choose_lt _ _ _ _ Ec) as [Hv Hll']. pose proof (choose_same _ _ _ _ Ec) as Hsame.
  destruct (Forall2_lookup_l _ _ _ _ _ Hl' Hp) as (e & _ & He).
  exists p, e, (set_physicalIndex (Z.of_nat v) w'). split_and!; [done| |exact He| | |].
  - by eapply list_elem_of_lookup_2.
  - exists T, (Z.of_nat v). split; [by rewrite R|]. lia.
  - intros q eq Heq. destruct (decide (q ∈ residents w)) as [Hin|Hout].
    + apply list_elem_of_lookup in Hin as (n & Hn).
      destruct (Forall2_lookup_l _ _ _ _ _ Hl Hn) as (e1 & Hn1 & He1).
      destruct (Forall2_lookup_l _ _ _ _ _ Hl' Hn) as (e2 & Hn2 & He2).
      exists e2. split; [exact He2|]. assert (eq = e1) as -> by congruence.
      by eapply Forall2_lookup_lr.
    + exists eq. split; [|done]. rewrite <- Heq. exact (Hq q Hout).
  - exists l, v, l'. by split_and!.
Qed.

(** ** Taking a frame *)
Local Abbreviation bits w := (BitMap.abs (physicalPageMap w)).

Lemma take_frame_free w n :
  BitMap.wf (physicalPageMap w) -> BitMap.numBits (physicalPageMap w) = NumPhysPages ->
  first_clear (bits w) = Some n ->
  exists b, take_frame new_pointers new_keys new_buffers w = Ok (Z.of_nat n, set_map b w) /\
    BitMap.abs b = <[n := true]> (bits w) /\ frame_ok (Z.of_nat n).
Proof.
  intros Hb Hn Hf. pose proof (BitMap.Find_spec _ Hb) as H. rewrite Hf in H.
  destruct H as (b & Hfind & _ & _ & Hlt & Hab). exists b. unfold take_frame, FindPage.
  rewrite Hfind. cbn [bind]. assert ((Z.of_nat n =? NO_PHYSYCAL_PAGE) = false) as E0
    by (apply Z.eqb_neq; unfold NO_PHYSYCAL_PAGE; lia).
  rewrite E0. cbn [bind]. rewrite E0. split_and!; [done|done|].
  unfold frame_ok, AddrSpace.frame_ok. lia.
Qed.

(** No frame is free: a resident page leaves memory, and its frame is clear in the map
    of physical pages. *)
Lemma take_frame_full w :
  inverted_ok w -> NoDup (pageTable <$> spaces w) -> 0 <= physicalIndex w < NumPhysPages ->
  Z.of_nat (length (residents w)) = NumPhysPages ->
  store_ok w -> Map.capacity (backingStore w) < 2 ^ 63 -> Z.of_nat (length (mem w)) = MemorySize ->
  BitMap.wf (physicalPageMap w) -> BitMap.numBits (physicalPageMap w) = NumPhysPages ->
  (forall p e, p ∈ residents w -> get_entry p w = Ok e -> frame_ok (physicalPage e)) ->
  first_clear (bits w) = None ->
  exists p e w', take_frame new_pointers new_keys new_buffers w = Ok (physicalPage e, w') /\
    p ∈ residents w /\ get_entry p w = Ok e /\ frame_ok (physicalPage e) /\
    (exists i, blank w' = blank (set_physicalIndex i w) /\ 0 <= i < NumPhysPages) /\
    length (mem w') = length (mem w) /\
    (exists e', get_entry p w' = Ok (evicted e') /\ same_but_use e e') /\
    (forall q eq, q <> p -> get_entry q w = Ok eq ->
       exists eq', get_entry q w' = Ok eq' /\ same_but_use eq eq') /\
    BitMap.wf (physicalPageMap w') /\ BitMap.numBits (physicalPageMap w') = NumPhysPages /\
    bits w' = <[Z.to_nat (physicalPage e) := false]> (bits w) /\
    (forall f, frame_ok f -> f <> physicalPage e -> page w' f = page w f) /\
    (forall q, swapped w' q =
       if readOnly e then swapped w q else saved w p (page w (physicalPage e)) q).
Proof.
  intros Hok Hnd Hi Hlen Hs Hroom Hm Hb Hn Hfr Hf. pose proof (BitMap.Find_spec _ Hb) as H.
  rewrite Hf in H. unfold take_frame, FindPage. rewrite H. cbn [bind].
  assert (set_map (physicalPageMap w) w = w) as -> by (by destruct w).
  change (-1 =? NO_PHYSYCAL_PAGE) with true. cbn iota.
  destruct (victim_Ok w Hok Hnd Hi Hlen) as (p & e' & w1 & E1 & Hp & He' & (T & i & R1 & Hi') & Huse & _).
  destruct (getPhysicalPageTable new_pointers w) as [table| | | |]; try done. cbn [bind] in *.
  rewrite E1. cbn [bind]. change (-1 =? NO_PHYSYCAL_PAGE) with true. cbn iota. rewrite He'. cbn [bind].
  destruct (residents_covered w p Hp) as (_ & e & He & Hr).
  destruct (Huse p e He) as (e'' & He'' & Hsame). assert (e'' = e') as -> by congruence.
  assert (physicalPage e' = physicalPage e /\ readOnly e' = readOnly e) as [Ep Er]
    by (destruct Hsame as (_ & ? & _ & ? & _); done).
  destruct (pageOut_Ok new_keys new_buffers Hkeys Hbuffers w1 p e')
    as (w2 & -> & (K1 & K2 & K3) & G2 & Q2 & (B1 & B2 & B3) & P2 & S2 & _ & _);
    try (by rewrite R1); try done.
  { rewrite R1. by apply (store_ok_same w). }
  { rewrite Ep. by eapply Hfr. }
  cbn [bind]. exists p, e, w2. rewrite Ep, Er in *. split_and!; try done.
  - by eapply Hfr.
  - exists i. split; [|done]. rewrite K1, R1. done.
  - rewrite K3, R1. done.
  - eauto.
  - intros q eq Hq Heq. rewrite Q2 by done. by apply Huse.
  - rewrite B3, R1. done.
  - intros f Hf1 Hf2. rewrite P2, bool_decide_false by done. by rewrite R1.
  - intros q. rewrite S2. by rewrite R1.
Qed.

(** The page is to be read from the backing store. *)
Definition in_swap (e : TranslationEntry) : bool := valid e && dirty e && negb (readOnly e).

(** The handler on a page that is not in memory, up to the end. *)
Lemma fault_absent this w t e :
  vm_ok w -> tlb_ok w t -> covered (rows w) (pageTable this, vpn_of w) ->
  get_entry (pageTable this, vpn_of w) w = Ok e -> resident e = false ->
  exists slot t' w2, started w t slot t' w2 /\
    get_entry (pageTable this, vpn_of w) w2 = Ok (sync t e) /\
    forall w3 e3,
    (if in_swap (sync t e) then swap_in new_pointers new_keys new_buffers (pageTable this, vpn_of w) w2
     else
       '(availablePage, w3) ← take_frame new_pointers new_keys new_buffers w2;
       load_fault read_header sizeof_header fileSystem_Open this (vpn_of w)
         (pageTable this, vpn_of w) availablePage w3) = Ok w3 ->
    get_entry (pageTable this, vpn_of w) w3 = Ok e3 -> tlb (machine w3) = Some t' ->
    exists w', PageFault this w = Ok w' /\ resumed this w t w' (use_and_valid e3) /\
      mem w' = mem w3 /\ physicalPageMap w' = physicalPageMap w3 /\
      (forall q, swapped w' q = swapped w3 q) /\
      (forall q, q <> (pageTable this, vpn_of w) -> get_entry q w' = get_entry q w3) /\
      physicalIndex w' = physicalIndex w3.
Proof.
  intros Hok Htlb Hc He Hr. destruct (fault_start this w t Hok Htlb) as (slot & t' & w2 & Hst & E0).
  exists slot, t', w2. split; [done|].
  destruct (started_same _ _ _ _ _ Hst) as (_ & _ & _ & _ & _ & _ & _ & _ & Hl).
  destruct Hst as (Hs & Hu & _ & Hg). destruct Htlb as (Ht & Hlt & _).
  specialize (Hg (pageTable this, vpn_of w)). unfold synced in Hg. rewrite decide_True, He in Hg by done.
  cbn in Hg. split; [done|]. intros w3 e3 E3 G3 T3. rewrite E0. cbn zeta. rewrite Hg. cbn [bind].
  rewrite (proj1 (sync_physicalPage t e)). unfold resident in Hr. apply negb_false_iff in Hr.
  rewrite Hr. fold (in_swap (sync t e)). rewrite E3. cbn [bind].
  destruct (fault_finish w3 _ _ slot t' G3 T3) as (w' & T & -> & Ew & He' & Hq); [lia|].
  exists w'. split; [done|]. split; [by eapply resumed_intro|]. subst w'. split_and!; try done.
Qed.

(** The page is not in memory nor in the backing store, and a frame is free. *)
Lemma fault_free this w t e n bytes :
  vm_ok w -> tlb_ok w t -> covered (rows w) (pageTable this, vpn_of w) ->
  get_entry (pageTable this, vpn_of w) w = Ok e -> resident e = false ->
  in_swap (sync t e) = false -> first_clear (bits w) = Some n ->
  executable_of this (disk w) bytes -> offset_ok bytes (vpn_of w) ->
  exists w', PageFault this w = Ok w' /\
    resumed this w t w' (use_and_valid (set_physicalPage (Z.of_nat n) (sync t e))) /\
    (forall f, frame_ok f -> page w' f =
       if decide (f = Z.of_nat n) then fresh_page bytes (vpn_of w) else page w f) /\
    bits w' = <[n := true]> (bits w) /\
    (forall q, swapped w' q = swapped w q) /\
    (forall q, q <> (pageTable this, vpn_of w) -> get_entry q w' = synced w t q).
Proof.
  intros Hok Htlb Hc He Hr Hsw Hfree Hexe Hoff.
  destruct (fault_absent this w t e Hok Htlb Hc He Hr) as (slot & t' & w2 & Hst & G2 & Hend).
  destruct (started_same _ _ _ _ _ Hst) as (M & B & S & Bu & Dk & Inv & Pi & T' & Hl).
  destruct (take_frame_free w2 n) as (b & Etake & Hab & Hfr); rewrite ?B; try apply Hok; [done|].
  destruct (load_fault_Ok this (vpn_of w) (pageTable this, vpn_of w) (Z.of_nat n) (set_map b w2)
    (sync t e) bytes) as (w3 & E3 & (T & k & d & R3) & L3 & G3 & Q3 & P3); try done.
  { cbn. by rewrite Dk. }
  { change (mem (set_map b w2)) with (mem w2). rewrite M. apply Hok. }
  rewrite Hsw, Etake in Hend. cbn [bind] in Hend.
  destruct (Hend w3 _ E3 G3) as (w' & E' & Hres & M' & B' & Sw & Q' & _); [by rewrite R3|].
  exists w'. split_and!; [done|done| | | |].
  - intros f Hf. unfold page. rewrite M'. fold (page w3 f). rewrite P3 by done.
    unfold page. change (mem (set_map b w2)) with (mem w2). by rewrite M.
  - rewrite B', R3. cbn. by rewrite Hab, B.
  - intros q. rewrite Sw, R3. by apply swapped_same.
  - intros q Hq. rewrite Q', Q3 by done. apply Hst.
Qed.

Lemma first_clear_full (l : list bool) n :
  first_clear l = None -> (n < length l)%nat -> first_clear (<[n := false]> l) = Some n.
Proof.
  revert n. induction l as [|[] l IH]; intros [|n]; cbn; intros H Hn; try done; try lia.
  rewrite IH; [done| |lia]. by destruct (first_clear l).
Qed.

(** What the lemmas on the victim need, after the handler has started. *)
Lemma started_victim w t slot t' w2 :
  vm_ok w -> started w t slot t' w2 ->
  inverted_ok w2 /\ NoDup (pageTable <$> spaces w2) /\ 0 <= physicalIndex w2 < NumPhysPages /\
  store_ok w2 /\ Map.capacity (backingStore w2) < 2 ^ 63 /\
  Z.of_nat (length (mem w2)) = MemorySize /\
  BitMap.wf (physicalPageMap w2) /\ BitMap.numBits (physicalPageMap w2) = NumPhysPages /\
  (forall p e, p ∈ residents w2 -> get_entry p w2 = Ok e ->
     frame_ok (physicalPage e) /\ exists e1, get_entry p w = Ok e1 /\ e = sync t e1).
Proof.
  intros Hok Hst. destruct (started_same _ _ _ _ _ Hst) as (M & B & S & Bu & Dk & Inv & Pi & T' & Hl).
  destruct (started_residents _ _ _ _ _ Hst) as [Hrows Hres].
  assert (spaces w2 = spaces w) as Hsp by (unfold spaces; by rewrite Inv).
  rewrite Hsp, Pi, S, M, B, Hres. split_and!; try apply Hok.
  - by eapply started_inverted, Hok.
  - apply (store_ok_same w w2 S Bu), Hok.
  - intros p e Hp He. destruct (residents_covered w p Hp) as (Hc & e1 & He1 & Hr).
    destruct Hst as (_ & _ & _ & Hg). rewrite Hg in He. unfold synced in He. rewrite decide_True, He1 in He by done.
    cbn in He. injection He as <-. rewrite (proj1 (sync_physicalPage t e1)).
    split; [by eapply (vm_frames w Hok)|by exists e1].
Qed.

Lemma same_but_use_valid e e' f :
  same_but_use e e' ->
  use_and_valid (set_physicalPage f e') = use_and_valid (set_physicalPage f e).
Proof. intros (E1 & _ & _ & E2 & E3). unfold use_and_valid, set_physicalPage. cbn. by rewrite E1, E2, E3. Qed.

(** The page is neither in memory nor in the backing store, and no frame is free. *)
Lemma fault_full this w t e bytes :
  vm_ok w -> tlb_ok w t -> covered (rows w) (pageTable this, vpn_of w) ->
  get_entry (pageTable this, vpn_of w) w = Ok e -> resident e = false ->
  in_swap (sync t e) = false -> first_clear (bits w) = None ->
  Z.of_nat (length (residents w)) = NumPhysPages ->
  executable_of this (disk w) bytes -> offset_ok bytes (vpn_of w) ->
  exists w' p ev, PageFault this w = Ok w' /\ p ∈ residents w /\ get_entry p w = Ok ev /\
    frame_ok (physicalPage ev) /\
    resumed this w t w' (use_and_valid (set_physicalPage (physicalPage ev) (sync t e))) /\
    (exists ev', get_entry p w' = Ok (evicted ev') /\ same_but_use (sync t ev) ev') /\
    (forall f, frame_ok f -> page w' f =
       if decide (f = physicalPage ev) then fresh_page bytes (vpn_of w) else page w f) /\
    (forall q, swapped w' q =
       if readOnly (sync t ev) then swapped w q else saved w p (page w (physicalPage ev)) q) /\
    BitMap.wf (physicalPageMap w') /\ BitMap.numBits (physicalPageMap w') = NumPhysPages /\
    bits w' = <[Z.to_nat (physicalPage ev) := false]> (bits w).
Proof.
  intros Hok Htlb Hc He Hr Hsw Hfull Hlen Hexe Hoff.
  destruct (fault_absent this w t e Hok Htlb Hc He Hr) as (slot & t' & w2 & Hst & G2 & Hend).
  destruct (started_same _ _ _ _ _ Hst) as (M & B & S & Bu & Dk & Inv & Pi & T' & Hl).
  destruct (started_residents _ _ _ _ _ Hst) as [Hrows Hres].
  destruct (started_victim _ _ _ _ _ Hok Hst) as (V1 & V2 & V3 & V4 & V5 & V6 & V7 & V8 & V9).
  destruct (take_frame_full w2 V1 V2 V3) as (p & ev2 & w3 & Etake & Hp & Hev2 & Hf & (i & K3 & Hi) & L3 & Gp & Gq & B3 & N3 & A3 & P3 & S3);
    try done.
  { by rewrite Hres. }
  { intros p e1 Hp He1. by eapply V9. }
  { by rewrite B. }
  rewrite Hres in Hp. destruct (V9 p ev2) as [_ (ev & Hev & ->)]; [by rewrite Hres|done|].
  rewrite (proj1 (sync_physicalPage t ev)) in *.
  assert (p <> (pageTable this, vpn_of w)) as Hne.
  { intros ->. apply residents_covered in Hp as (_ & e1 & He1 & Hr1). congruence. }
  destruct (Gq _ _ (not_eq_sym Hne) G2) as (e3 & G3 & Hs3).
  destruct (load_fault_Ok this (vpn_of w) (pageTable this, vpn_of w) (physicalPage ev) w3 e3 bytes)
    as (w4 & E4 & (T & k & d & R4) & L4 & G4 & Q4 & P4); try done.
  { apply (f_equal disk) in K3. cbn in K3. by rewrite K3, Dk. }
  { by rewrite L3, M, (vm_mem w Hok). }
  rewrite Hsw, Etake in Hend. cbn [bind] in Hend.
  destruct (Hend w4 _ E4 G4) as (w' & E' & Hresu & M' & B' & Sw & Q' & _).
  { rewrite R4. cbn. apply (f_equal (fun w => tlb (machine w))) in K3. cbn in K3. by rewrite K3, T'. }
  exists w', p, ev. split_and!; try done.
  - by rewrite <- (same_but_use_valid _ _ _ Hs3).
  - destruct Gp as (e' & He' & Hs'). exists e'. split; [|done]. by rewrite Q', Q4.
  - intros f Hf'. unfold page. rewrite M'. fold (page w4 f). rewrite P4 by done.
    case_decide; [done|]. rewrite P3 by done. unfold page. by rewrite M.
  - intros q. rewrite Sw, R4. change (swapped w3 q =
      if readOnly (sync t ev) then swapped w q else saved w p (page w (physicalPage ev)) q).
    rewrite S3. unfold saved, page. by rewrite !(swapped_same w w2), M.
  - by rewrite B', R4.
  - by rewrite B', R4.
  - rewrite B', R4. cbn. by rewrite A3, B.
Qed.

(** The victim [p] of a fault: the choice among the resident pages, once these have the bits
    of the TLB. *)
Definition chosen w (t : list TranslationEntry) (p : entry_ptr) (l : list TranslationEntry) (v : nat)
    (l' : list TranslationEntry) : Prop :=
  Forall2 (fun q e => synced w t q = Ok e) (residents w) l /\
  choose (physicalIndex w) l = Some (v, l') /\ residents w !! v = Some p.

(** The page is in the backing store: it changes places with a resident page. *)
Lemma fault_swap this w t e bs :
  vm_ok w -> tlb_ok w t -> covered (rows w) (pageTable this, vpn_of w) ->
  get_entry (pageTable this, vpn_of w) w = Ok e -> resident e = false ->
  in_swap (sync t e) = true -> swapped w (pageTable this, vpn_of w) = Some bs ->
  Z.of_nat (length (residents w)) = NumPhysPages ->
  exists w' p ev, PageFault this w = Ok w' /\ p ∈ residents w /\ get_entry p w = Ok ev /\
    frame_ok (physicalPage ev) /\
    resumed this w t w' (use_and_valid (set_physicalPage (physicalPage ev) (sync t e))) /\
    (exists ev', get_entry p w' = Ok (evicted ev') /\ same_but_use (sync t ev) ev') /\
    (forall f, frame_ok f -> page w' f =
       if decide (f = physicalPage ev) then bs else page w f) /\
    (forall q, q <> (pageTable this, vpn_of w) -> swapped w' q =
       if readOnly (sync t ev) then swapped w q else saved w p (page w (physicalPage ev)) q) /\
    physicalPageMap w' = physicalPageMap w /\
    exists l v l', chosen w t p l v l' /\ physicalIndex w' = Z.of_nat v /\
      (ev' ← zget l' (Z.of_nat v); Ok (evicted ev')) = get_entry p w' /\
      (forall i q x, residents w !! i = Some q -> q <> p -> l' !! i = Some x -> get_entry q w' = Ok x) /\
      forall q, q ∉ residents w -> q <> (pageTable this, vpn_of w) -> get_entry q w' = synced w t q.
Proof.
  intros Hok Htlb Hc He Hr Hsw Hbs Hlen.
  destruct (fault_absent this w t e Hok Htlb Hc He Hr) as (slot & t' & w2 & Hst & G2 & Hend).
  destruct (started_same _ _ _ _ _ Hst) as (M & B & S & Bu & Dk & Inv & Pi & T' & Hl).
  destruct (started_residents _ _ _ _ _ Hst) as [Hrows Hres].
  destruct (started_victim _ _ _ _ _ Hok Hst) as (V1 & V2 & V3 & V4 & V5 & V6 & V7 & V8 & V9).
  destruct (victim_Ok w2 V1 V2 V3)
    as (p & ev3 & w3 & Evic & Hp & Hev3 & (T & i & R3 & Hi) & Huse & l & v & l' & Hvic & Hv & Hl' & Hout);
    [by rewrite Hres|].
  destruct (residents_covered w2 p Hp) as (_ & ev2 & Hev2 & _).
  destruct (V9 p ev2 Hp Hev2) as [Hf (ev & Hev & ->)].
  destruct (Huse p _ Hev2) as (ev3' & Hev3' & Hsv). assert (ev3' = ev3) as -> by congruence.
  assert (physicalPage ev3 = physicalPage ev /\ readOnly ev3 = readOnly (sync t ev)) as [Ep Er].
  { destruct Hsv as (_ & -> & _ & -> & _). by rewrite (proj1 (sync_physicalPage t ev)). }
  rewrite (proj1 (sync_physicalPage t ev)) in Hf. rewrite Hres in Hp.
  assert (p <> (pageTable this, vpn_of w)) as Hne.
  { intros ->. apply residents_covered in Hp as (_ & e1 & He1 & Hr1). congruence. }
  destruct (Huse _ _ G2) as (e3 & G3 & Hs3).
  destruct (pageIn_Ok new_keys new_buffers Hkeys Hbuffers w3 (pageTable this, vpn_of w) p e3 ev3 bs)
    as (w4 & E4 & (K4 & _ & L4) & I4 & O4 & Q4 & B4 & P4 & S4 & _ & _); try done; try (by rewrite R3).
  { rewrite R3. by apply (store_ok_same w2). }
  { by rewrite Ep. }
  { rewrite R3. change (swapped w2 (pageTable this, vpn_of w) = Some bs). by rewrite (swapped_same w w2). }
  rewrite Ep, Er in *. rewrite Hsw in Hend. unfold swap_in in Hend.
  destruct (getPhysicalPageTable new_pointers w2) as [table| | | |]; try done. cbn [bind] in *.
  rewrite Evic in Hend. cbn [bind] in Hend.
  destruct (Hend w4 _ E4 I4) as (w' & E' & Hresu & M' & B' & Sw & Q' & Ph).
  { apply (f_equal (fun w => tlb (machine w))) in K4. cbn in K4. by rewrite K4, R3. }
  exists w', p, ev. split_and!; try done.
  - by rewrite <- (same_but_use_valid _ _ _ Hs3).
  - exists ev3. split; [|done]. by rewrite Q'.
  - intros f Hff. unfold page. rewrite M'. fold (page w4 f). rewrite P4 by done.
    case_decide; [done|]. rewrite R3. change (page w2 f = page w f). unfold page. by rewrite M.
  - intros q Hq. rewrite Sw, S4 by done. rewrite R3. unfold saved.
    change (swapped (set_physicalIndex i (set_machine (with_tables T (machine w2)) w2)) q) with (swapped w2 q).
    rewrite (swapped_same w w2) by done.
    change (page (set_physicalIndex i (set_machine (with_tables T (machine w2)) w2))
      (physicalPage ev)) with (page w2 (physicalPage ev)). unfold page. by rewrite M.
  - rewrite B', B4, R3. exact B.
  - exists l, v, l'. destruct Hvic as (Hrd & Hch & Hpv). rewrite Hres, Pi in *.
    assert (forall q, q <> (pageTable this, vpn_of w) -> q <> p -> get_entry q w' = get_entry q w3) as Hoth
      by (intros q H1 H2; rewrite Q', Q4 by done; done).
    assert (forall i q, residents w !! i = Some q -> q <> (pageTable this, vpn_of w)) as Hnp.
    { intros k q Hk ->. apply list_elem_of_lookup_2, residents_covered in Hk as (_ & e1 & He1 & Hr1). congruence. }
    split; [split_and!; [|done|done]|].
    { eapply Forall2_impl; [exact Hrd|]. intros q x Hx. rewrite <- Hx. symmetry. apply Hst. }
    destruct (Forall2_lookup_l _ _ _ _ _ Hl' Hpv) as (x & Hx & Hxp). split_and!.
    + rewrite Ph. apply (f_equal physicalIndex) in K4. cbn in K4. by rewrite K4.
    + rewrite Q', O4 by (by eapply Hnp). rewrite (Map.zget_nat _ _ x) by done. cbn. congruence.
    + intros k q y Hk Hq Hy. rewrite Hoth by (done || by eapply Hnp).
      destruct (Forall2_lookup_l _ _ _ _ _ Hl' Hk) as (y' & Hy' & Hg). congruence.
    + intros q Hq Hqn. rewrite Hoth, Hout; [apply Hst|done|done|].
      intros ->. apply Hq. by eapply list_elem_of_lookup_2.
Qed.

(** C22: a page fault on a page that needs no replacement.  When the page is in memory
    already, the handler only maps it; when it was never loaded (or left memory
    unmodified) and a frame is free, the first free frame is marked and filled with
    the page of the executable, padded with zeros, or with zeros past the code and
    data, and no other frame and nothing in the backing store changes.  The entries of
    all other pages are as the copy of the TLB to the page tables makes them: those whose
    frame is in the TLB take its valid and dirty bits, the others keep theirs.  In both
    cases the handler returns with the entry, valid and in use, in the page table
    and in the TLB slot that second chance chose, and the retried instruction
    finds it there. *)
Theorem page_fault_loads this w t e :
  vm_ok w -> tlb_ok w t -> covered (rows w) (pageTable this, vpn_of w) ->
  get_entry (pageTable this, vpn_of w) w = Ok e ->
  (resident e = true ->
   exists w', PageFault this w = Ok w' /\ resumed this w t w' (use_and_valid (sync t e)) /\
     mem w' = mem w /\ bits w' = bits w /\ (forall q, swapped w' q = swapped w q) /\
     (forall q, q <> (pageTable this, vpn_of w) -> get_entry q w' = synced w t q)) /\
  (forall n bytes, resident e = false -> in_swap (sync t e) = false ->
   first_clear (bits w) = Some n ->
   executable_of this (disk w) bytes -> offset_ok bytes (vpn_of w) ->
   exists w', PageFault this w = Ok w' /\
     resumed this w t w' (use_and_valid (set_physicalPage (Z.of_nat n) (sync t e))) /\
     (forall f, frame_ok f -> page w' f =
        if decide (f = Z.of_nat n) then fresh_page bytes (vpn_of w) else page w f) /\
     bits w' = <[n := true]> (bits w) /\
     (forall q, swapped w' q = swapped w q) /\
     (forall q, q <> (pageTable this, vpn_of w) -> get_entry q w' = synced w t q)).
Proof.
  intros Hok Htlb Hc He. split.
  - intros Hr. destruct (fault_resident this w t e Hok Htlb Hc He Hr) as (w' & E' & R & M & B & _ & S).
    exists w'. by rewrite B.
  - intros. by apply fault_free.
Qed.

(** C29: a page fault on a modified page that was swapped out, with the memory full.  The
    victim is the resident page that second chance chooses by the use and valid bits, after
    the copy of the TLB to the page tables; the clock hand is left on it and the other
    resident pages lose the use bits that it cleared.  The faulting page gets the frame of
    the victim, with the bytes that the backing store holds for it, and is mapped so that
    the retried instruction finds it; unless it is read only, the bytes of the victim are in
    the backing store afterwards (an older copy of the victim, if there was one, stays the
    visible one).  No other frame, entry or copy, and not the map of physical pages,
    changes. *)
Theorem page_fault_swaps_in this w t e bs :
  vm_ok w -> tlb_ok w t -> covered (rows w) (pageTable this, vpn_of w) ->
  get_entry (pageTable this, vpn_of w) w = Ok e -> resident e = false ->
  in_swap (sync t e) = true -> swapped w (pageTable this, vpn_of w) = Some bs ->
  Z.of_nat (length (residents w)) = NumPhysPages ->
  exists w' p ev, PageFault this w = Ok w' /\ p ∈ residents w /\ get_entry p w = Ok ev /\
    resumed this w t w' (use_and_valid (set_physicalPage (physicalPage ev) (sync t e))) /\
    (forall f, frame_ok f -> page w' f =
       if decide (f = physicalPage ev) then bs else page w f) /\
    (forall q, q <> (pageTable this, vpn_of w) -> swapped w' q =
       if readOnly (sync t ev) then swapped w q else saved w p (page w (physicalPage ev)) q) /\
    bits w' = bits w /\
    exists l v l', chosen w t p l v l' /\ physicalIndex w' = Z.of_nat v /\
      (ev' ← zget l' (Z.of_nat v); Ok (evicted ev')) = get_entry p w' /\
      (forall i q x, residents w !! i = Some q -> q <> p -> l' !! i = Some x -> get_entry q w' = Ok x) /\
      forall q, q ∉ residents w -> q <> (pageTable this, vpn_of w) -> get_entry q w' = synced w t q.
Proof.
  intros Hok Htlb Hc He Hr Hsw Hbs Hlen.
  destruct (fault_swap this w t e bs Hok Htlb Hc He Hr Hsw Hbs Hlen)
    as (w' & p & ev & E' & Hp & Hev & _ & R & (ev' & Hev' & _) & P & S & B & Hx).
  exists w', p, ev. rewrite B. split_and!; done.
Qed.

(** C38: a page fault that loads a page into a full memory leaves the frame it used
    marked as free.  The victim is swapped out and the page is loaded into its
    frame, as it should be, but [BackingStore::pageOut] clears the frame in the map
    of physical pages and nothing marks it again.  The next fault that needs a
    frame gets that same frame, without any eviction, while the first page is still
    mapped to it: two pages then share the frame. *)
Theorem evicted_frame_stays_free this w t e bytes :
  vm_ok w -> tlb_ok w t -> covered (rows w) (pageTable this, vpn_of w) ->
  get_entry (pageTable this, vpn_of w) w = Ok e -> resident e = false ->
  in_swap (sync t e) = false -> first_clear (bits w) = None ->
  Z.of_nat (length (residents w)) = NumPhysPages ->
  executable_of this (disk w) bytes -> offset_ok bytes (vpn_of w) ->
  exists w' p ev, PageFault this w = Ok w' /\ p ∈ residents w /\ get_entry p w = Ok ev /\
    (exists ev', get_entry p w' = Ok (evicted ev')) /\
    resumed this w t w' (use_and_valid (set_physicalPage (physicalPage ev) (sync t e))) /\
    (forall f, frame_ok f -> page w' f =
       if decide (f = physicalPage ev) then fresh_page bytes (vpn_of w) else page w f) /\
    (forall q, swapped w' q =
       if readOnly (sync t ev) then swapped w q else saved w p (page w (physicalPage ev)) q) /\
    bits w' !! Z.to_nat (physicalPage ev) = Some false /\
    exists b, take_frame new_pointers new_keys new_buffers w' = Ok (physicalPage ev, set_map b w').
Proof.
  intros Hok Htlb Hc He Hr Hsw Hfull Hlen Hexe Hoff.
  destruct (fault_full this w t e bytes Hok Htlb Hc He Hr Hsw Hfull Hlen Hexe Hoff)
    as (w' & p & ev & E' & Hp & Hev & Hf & R & (ev' & Hev' & _) & P & S & B1 & B2 & B).
  assert (Z.to_nat (physicalPage ev) < length (bits w))%nat as Hlt.
  { rewrite BitMap.length_abs, (vm_bits w Hok). unfold frame_ok, AddrSpace.frame_ok in Hf. lia. }
  exists w', p, ev. split_and!; try done.
  - by exists ev'.
  - rewrite B. by apply list_lookup_insert_eq.
  - destruct (take_frame_free w' (Z.to_nat (physicalPage ev)) B1 B2) as (b & Hb & _).
    + rewrite B. by apply first_clear_full.
    + exists b. rewrite Z2Nat.id in Hb by apply Hf. done.
Qed.

End faults.

(** ** Properties of the parts *)
Section properties.
Context {thread D : Type}.
Local Abbreviation World := (World (thread := thread) (D := D)).
Implicit Types w : World.

(** C24: the second chance replacement, in both versions, ends with the choice of
    [choose] and with the use bits it leaves, and changes nothing else: the first
    entry from the clock hand on that is not both in use and valid, or else the
    first one with a physical page after all of these lost their use bit.  The
    version on the TLB moves the hand past the choice, the version on pointers
    leaves it there; its array must hold 32 different pointers to entries, as it does when
    memory is full.  There is no choice exactly when every entry is in use and
    valid but has no physical page, and then the loop never ends. *)
Theorem second_chance_correct w :
  (forall t, tlb (machine w) = Some t -> Z.of_nat (length t) = TLBSize -> 0 <= tlbIndex w < TLBSize ->
     match choose (tlbIndex w) t with
     | Some (v, t') =>
         secondChance_tlb w =
           Ok (Z.of_nat v, set_tlbIndex ((Z.of_nat v + 1) mod TLBSize)
                             (set_machine (set_tlb t' (machine w)) w))
     | None => forall fuel, secondChance get_tlb put_tlb fuel (tlbIndex w) TLBSize w = NoFuel
     end) /\
  (forall ps l, NoDup ps -> reads ps l w -> Z.of_nat (length ps) = NumPhysPages ->
     0 <= physicalIndex w < NumPhysPages ->
     match choose (physicalIndex w) l with
     | Some (v, l') => exists p w', ps !! v = Some p /\
         secondChance_table ps w = Ok (p, set_physicalIndex (Z.of_nat v) w') /\
         same_but_tables w w' /\ reads ps l' w' /\
         (forall q, q ∉ ps -> get_entry q w' = get_entry q w)
     | None => forall fuel,
         secondChance (get_pointed ps) (put_pointed ps) fuel (physicalIndex w) NumPhysPages w = NoFuel
     end) /\
  (forall index l,
     choose index l = None <-> Forall (fun e => busy e = true /\ resident e = false) l).
Proof.
  split_and!.
  - intros t Ht Hl Hi. pose proof (secondChance_tlb_choose w t Ht Hl Hi) as H.
    destruct (choose (tlbIndex w) t) as [[v t']|] eqn:Ec.
    + rewrite H, Z.rem_mod_nonneg by (unfold TLBSize; lia). done.
    + intros fuel. rewrite <- Hl. apply choose_None in Ec.
      eapply (chance_never get_tlb put_tlb (fun l w' => w' = set_machine (set_tlb l (machine w)) w));
        [by intros ? ? i ->| |lia| |exact Ec].
      * intros l s i e -> Hi'. unfold put_tlb. cbn. rewrite zset_eq by done. by eexists.
      * destruct w as [[]]; cbn in *. by subst.
  - intros ps l. apply secondChance_table_choose.
  - apply choose_None.
Qed.

Context (new_keys : Z -> list entry_ptr) (new_buffers : Z -> list buffer_loc).
Context (Hkeys : forall n, 0 <= n -> Z.of_nat (length (new_keys n)) = n).
Context (Hbuffers : forall n, 0 <= n -> Z.of_nat (length (new_buffers n)) = n).

(** C23: a page that goes to the backing store and comes back.  [pageOut] takes the
    page out of its frame, which is zeroed and marked free; [pageIn] gives it the
    frame of another page, which is saved in turn.  The page then holds the bytes it
    left with, provided that the backing store had no copy of it; a copy that was
    there already, which a page that is evicted unmodified leaves behind, wins over
    the newer one, and the old bytes come back. *)
Theorem swap_roundtrip w p q ep eq :
  store_ok w -> Map.capacity (backingStore w) < 2 ^ 62 -> Z.of_nat (length (mem w)) = MemorySize ->
  BitMap.wf (physicalPageMap w) -> BitMap.numBits (physicalPageMap w) = NumPhysPages ->
  p <> q -> get_entry p w = Ok ep -> get_entry q w = Ok eq ->
  frame_ok (physicalPage ep) -> frame_ok (physicalPage eq) ->
  physicalPage eq <> physicalPage ep -> readOnly ep = false ->
  exists w1 w2,
    pageOut new_keys new_buffers p w = Ok w1 /\ pageIn new_keys new_buffers p q w1 = Ok w2 /\
    get_entry p w1 = Ok (evicted ep) /\ page w1 (physicalPage ep) = zero_page /\
    BitMap.abs (physicalPageMap w1) =
      <[Z.to_nat (physicalPage ep) := false]> (BitMap.abs (physicalPageMap w)) /\
    get_entry p w2 = Ok (use_and_valid (set_physicalPage (physicalPage eq) ep)) /\
    get_entry q w2 = Ok (evicted eq) /\
    page w2 (physicalPage eq) = default (page w (physicalPage ep)) (swapped w p) /\
    (readOnly eq = false ->
     swapped w2 q = Some (default (page w (physicalPage eq)) (swapped w q))) /\
    store_ok w2.
Proof.
  intros Hs Hc Hm Hb Hn Hne Hp Hq Hfp Hfq Hff Hro.
  destruct (pageOut_Ok new_keys new_buffers Hkeys Hbuffers w p ep)
    as (w1 & E1 & (K1 & _ & L1) & G1 & Q1 & (B1 & B2 & B3) & P1 & S1 & Hs1 & Hc1); try done; [lia|].
  assert (swapped w1 p = Some (default (page w (physicalPage ep)) (swapped w p))) as Hsw.
  { rewrite S1, Hro. unfold saved. rewrite decide_True by done. by destruct (swapped w p). }
  destruct (pageIn_Ok new_keys new_buffers Hkeys Hbuffers w1 p q (evicted ep) eq
    (default (page w (physicalPage ep)) (swapped w p)))
    as (w2 & E2 & _ & G2 & O2 & _ & _ & P2 & S2 & Hs2 & _); try done.
  { lia. }
  { by rewrite L1. }
  { by rewrite Q1. }
  exists w1, w2. split_and!; try done.
  - rewrite P1, bool_decide_true, Hro by done. done.
  - by rewrite P2, decide_True.
  - intros Hro'. rewrite S2, Hro' by done. unfold saved. rewrite S1, Hro. unfold saved.
    rewrite (decide_False (P := q = p)), decide_True by congruence. rewrite P1, bool_decide_false by done.
    by destruct (swapped w q).
Qed.

End properties.

(** [updataPageTables] copies the valid and dirty bits of the TLB to the page
    tables of all the address spaces: every page whose frame is that of some entry
    of the TLB gets the bits of the last such entry, whether this is valid or not,
    and all other fields and pages, and all other state, are as before. *)
Theorem updataPageTables_correct {thread D : Type} `{EqDecision thread}
    (w : World (thread := thread) (D := D)) t :
  inverted_ok w -> tlb (machine w) = Some t -> Z.of_nat (length t) = TLBSize ->
  exists w', updataPageTables w = Ok w' /\ same_but_tables w w' /\
    forall p e, get_entry p w = Ok e ->
      exists e', get_entry p w' = Ok e' /\
        e' = (if decide (covered (rows w) p) then
                match last (filter (fun cur => physicalPage cur = physicalPage e) t) with
                | Some cur => mkEntry (virtualPage e) (physicalPage e) (valid cur) (readOnly e)
                                (use e) (dirty cur)
                | None => e
                end
              else e).
Proof.
  intros Hok Ht Hl. destruct (updataPageTables_applied w t Hok Ht Hl) as (w' & E & S & H).
  exists w'. split_and!; [done|done|]. intros p e He. rewrite H, He.
  case_decide; [|by eexists]. cbn. eexists. split; [done|]. clear.
  induction t as [|cur t IH] using rev_ind; [done|]. unfold sync in *.
  rewrite foldl_app, filter_app, filter_cons, filter_nil. cbn [foldl].
  pose proof (sync_physicalPage t e) as [Hp _]. unfold sync in Hp.
  set (x := foldl _ e t) in *. unfold sync_entry. rewrite Hp.
  destruct (Z.eqb_spec (physicalPage e) (physicalPage cur)) as [E0|E0].
  - rewrite decide_True, last_snoc, IH by done. by destruct (last _).
  - rewrite decide_False by congruence. by rewrite app_nil_r.
Qed.

(** ** Witnesses *)
Module Sample.

(** Thread 7 runs a space of 40 pages; the first 32 are in memory, and page 39 was
    modified and swapped out. *)
Definition space0 : AddrSpace := mkSpace 1 40 1 [97].

Definition table0 (n : Z) : list TranslationEntry :=
  (fun i => if i <? n then mkEntry i i true false false false
            else mkEntry i (-1) (i =? 39) false false (i =? 39)) <$> seqZ 0 40.

Definition tlb0 : list TranslationEntry := replicate 4 (mkEntry 0 0 false false false false).

Definition machine0 (n vpn : Z) : Machine :=
  mkMachine (replicate (Z.to_nat MemorySize) 3)
    (<[39%nat := vpn * 128 + 5]> (replicate (Z.to_nat NumTotalRegs) 0))
    (Some tlb0) None 0 {[ 1%positive := table0 n ]} false 0.

Definition swap0 : list Z := replicate 128 8.

(** [n] pages are in memory, and the page [vpn] faults. *)
Definition world0 (n vpn : Z) : World (thread := nat) (D := unit) :=
  mkWorld (machine0 n vpn) (BitMap.mkBitMap 32 1 [2 ^ n - 1]) 0 0 tt
    (Map.mkMap (7%nat :: replicate 299 0%nat) (replicate 300 space0) 300 1)
    (Map.mkMap ((1%positive, 39) :: replicate 299 (1%positive, 0)) (replicate 300 4%positive) 300 1)
    {[ 4%positive := swap0 ]} 0 0.

Definition pointers0 : list entry_ptr := replicate 32 (1%positive, 0).
Definition new_keys0 (n : Z) : list entry_ptr := replicate (Z.to_nat n) (1%positive, 0).
Definition new_buffers0 (n : Z) : list buffer_loc := replicate (Z.to_nat n) 1%positive.
Definition open0 (name : list Z) (d : unit) : res (option (list Z) * unit) :=
  Ok (Some AddrSpace.program, d).

#[local] Existing Instance AddrSpace.list_Executable.

Lemma keys0 n : 0 <= n -> Z.of_nat (length (new_keys0 n)) = n.
Proof. intros. unfold new_keys0. rewrite length_replicate. lia. Qed.
Lemma buffers0 n : 0 <= n -> Z.of_nat (length (new_buffers0 n)) = n.
Proof. intros. unfold new_buffers0. rewrite length_replicate. lia. Qed.

Lemma executable0 : executable_of (E := list Z) open0 space0 tt AddrSpace.program.
Proof.
  exists AddrSpace.program, tt. split_and!; [done| |done].
  apply (bool_decide_unpack (Forall is_byte AddrSpace.program)). by vm_compute.
Qed.

(** Every entry of the table. *)
Lemma entries0 n vpn p e : get_entry p (world0 n vpn) = Ok e -> e ∈ table0 n.
Proof.
  intros (t & Ht & _ & He)%get_entry_Ok. cbn in Ht.
  apply lookup_singleton_Some in Ht as [_ <-]. by eapply list_elem_of_lookup_2.
Qed.

Lemma frames0 n : n = 9 \/ n = 32 ->
  Forall (fun e => resident e = false \/ 0 <= physicalPage e < 32) (table0 n).
Proof. intros [-> | ->]; apply (bool_decide_unpack _); by vm_compute. Qed.

Lemma length_table0 n : Z.of_nat (length (table0 n)) = 40.
Proof. unfold table0. by rewrite length_fmap, length_seqZ. Qed.

Lemma store0_ok n vpn : store_ok (world0 n vpn).
Proof.
  assert (Map.pairs (backingStore (world0 n vpn)) = [((1%positive, 39), 4%positive)]) as E by done.
  split; [by split| |]; rewrite E; cbn.
  - constructor; [|done]. exists swap0. by rewrite lookup_singleton_eq.
  - apply NoDup_singleton.
Qed.

Lemma vm_world0_ok n vpn : n = 9 \/ n = 32 -> vm_ok (world0 n vpn).
Proof.
  intros Hn.
  assert (Map.pairs (invertedTable (world0 n vpn)) = [(7%nat, space0)]) as E by done.
  assert (spaces (world0 n vpn) = [space0]) as Es by (unfold spaces; by rewrite E).
  split; try done.
  - split; [by split|rewrite E; apply NoDup_singleton|]. rewrite Es. constructor; [|done].
    exists (table0 n). split; [apply lookup_singleton_eq|apply length_table0].
  - rewrite Es. apply NoDup_singleton.
  - apply store0_ok.
  - split; try done. destruct Hn as [-> | ->]; repeat constructor; done.
  - intros p e _ He%entries0 Hr. pose proof (frames0 n Hn) as Hf. rewrite Forall_forall in Hf.
    destruct (Hf e He) as [?|?]; [congruence|]. done.
Qed.

Lemma tlb0_ok n vpn : tlb_ok (world0 n vpn) tlb0.
Proof. split_and!; [done|done|]. by repeat constructor. Qed.

Lemma covered0 n vpn i : 0 <= i < 40 -> covered (rows (world0 n vpn)) (1%positive, i).
Proof.
  intros Hi. assert (rows (world0 n vpn) = [(1%positive, 40)]) as -> by done.
  apply Exists_cons_hd. done.
Qed.

Local Abbreviation Fault := (PageFaultException AddrSpace.noff 40 open0 pointers0 new_keys0 new_buffers0).

Lemma header0 : 0 < 40 < 2 ^ 31.
Proof. done. Qed.

(** Nine pages in memory: page 1 is mapped again, page 20 is a page of the stack. *)
Lemma page_fault_loads_witness :
  (exists w', Fault space0 (world0 9 1) = Ok w' /\
     get_entry (1%positive, 1) w' = Ok (mkEntry 1 1 true false true false)) /\
  exists w', Fault space0 (world0 9 20) = Ok w' /\ page w' 9 = zero_page /\
    page w' 8 = page (world0 9 20) 8.
Proof.
  split.
  - destruct (page_fault_loads AddrSpace.noff 40 open0 pointers0 new_keys0 new_buffers0 header0
      space0 (world0 9 1) tlb0 (mkEntry 1 1 true false false false)
      (vm_world0_ok 9 1 (or_introl eq_refl)) (tlb0_ok 9 1) (covered0 9 1 1 ltac:(done)) eq_refl) as [H _].
    destruct (H eq_refl) as (w' & E & (G & _) & _). exists w'. split; [exact E|exact G].
  - destruct (page_fault_loads AddrSpace.noff 40 open0 pointers0 new_keys0 new_buffers0 header0
      space0 (world0 9 20) tlb0 (mkEntry 20 (-1) false false false false)
      (vm_world0_ok 9 20 (or_introl eq_refl)) (tlb0_ok 9 20) (covered0 9 20 20 ltac:(done)) eq_refl) as [_ H].
    destruct (H 9%nat AddrSpace.program eq_refl eq_refl eq_refl executable0 ltac:(done))
      as (w' & E & _ & P & _).
    exists w'. split; [exact E|]. clear E. split; [rewrite P by done; by vm_compute|].
    by rewrite P by done.
Defined.

(** All frames are taken: page 39 comes back from the backing store. *)
Lemma page_fault_swaps_in_witness :
  exists w' ev, Fault space0 (world0 32 39) = Ok w' /\ page w' (physicalPage ev) = swap0.
Proof.
  destruct (page_fault_swaps_in AddrSpace.noff 40 open0 pointers0 new_keys0 new_buffers0
    keys0 buffers0 eq_refl space0 (world0 32 39) tlb0 (mkEntry 39 (-1) true false false true) swap0
    (vm_world0_ok 32 39 (or_intror eq_refl)) (tlb0_ok 32 39) (covered0 32 39 39 ltac:(done))
    eq_refl eq_refl eq_refl ltac:(by vm_compute) ltac:(by vm_compute))
    as (w' & p & ev & E & Hp & Hev & _ & P & _).
  exists w', ev. split; [exact E|]. clear E. rewrite P, decide_True; [reflexivity|reflexivity|].
  apply residents_covered in Hp as (Hc & e & He & Hr). assert (e = ev) as -> by congruence.
  exact (vm_frames _ (vm_world0_ok 32 39 (or_intror eq_refl)) p ev Hc He Hr).
Defined.

(** Page 33 takes the frame of another page, which stays free in the map. *)
Lemma evicted_frame_stays_free_witness :
  exists w' f b, Fault space0 (world0 32 33) = Ok w' /\
    get_entry (1%positive, 33) w' = Ok (mkEntry 33 f true false true false) /\
    take_frame pointers0 new_keys0 new_buffers0 w' = Ok (f, set_map b w').
Proof.
  destruct (evicted_frame_stays_free AddrSpace.noff 40 open0 pointers0 new_keys0 new_buffers0
    keys0 buffers0 eq_refl header0 space0 (world0 32 33) tlb0 (mkEntry 33 (-1) false false false false)
    AddrSpace.program (vm_world0_ok 32 33 (or_intror eq_refl)) (tlb0_ok 32 33)
    (covered0 32 33 33 ltac:(done)) eq_refl eq_refl eq_refl ltac:(by vm_compute) ltac:(by vm_compute)
    executable0 ltac:(done)) as (w' & p & ev & E & _ & _ & _ & (G & _) & _ & _ & _ & b & T).
  exists w', (physicalPage ev), b. split; [exact E|]. split; [exact G|exact T].
Defined.

Lemma second_chance_correct_witness :
  secondChance_tlb (world0 9 1) = Ok (0, set_tlbIndex 1 (world0 9 1)).
Proof.
  destruct (second_chance_correct (world0 9 1)) as [H _].
  exact (H tlb0 eq_refl eq_refl (conj (Z.le_refl 0) eq_refl)).
Defined.

(** Page 3 goes out, and comes back to the frame of page 4. *)
Lemma swap_roundtrip_witness :
  exists w1 w2, pageOut new_keys0 new_buffers0 (1%positive, 3) (world0 9 1) = Ok w1 /\
    pageIn new_keys0 new_buffers0 (1%positive, 3) (1%positive, 4) w1 = Ok w2 /\
    page w2 4 = page (world0 9 1) 3.
Proof.
  destruct (swap_roundtrip new_keys0 new_buffers0 keys0 buffers0 (world0 9 1)
    (1%positive, 3) (1%positive, 4) (mkEntry 3 3 true false false false)
    (mkEntry 4 4 true false false false) (store0_ok 9 1) ltac:(done) eq_refl
    (vm_map _ (vm_world0_ok 9 1 (or_introl eq_refl))) eq_refl ltac:(done) eq_refl eq_refl
    ltac:(done) ltac:(done) ltac:(done) eq_refl)
    as (w1 & w2 & E1 & E2 & _ & _ & _ & _ & _ & P & _).
  exists w1, w2. split; [exact E1|]. split; [exact E2|]. exact P.
Defined.

Lemma updataPageTables_correct_witness :
  exists w', updataPageTables (world0 9 1) = Ok w' /\
    get_entry (1%positive, 0) w' = Ok (mkEntry 0 0 false false false false).
Proof.
  destruct (updataPageTables_correct (world0 9 1) tlb0
    (vm_inverted _ (vm_world0_ok 9 1 (or_introl eq_refl))) eq_refl eq_refl) as (w' & E & _ & H).
  exists w'. split; [exact E|].
  destruct (H (1%positive, 0) (mkEntry 0 0 true false false false) eq_refl) as (e' & He & Ee).
  rewrite He, Ee. by vm_compute.
Defined.

End Sample.

End VM.
