(* ===== verification/Monitor.v ===== *)
(** Code that is protected by a lock, as clients of the kernel of [Synch].

    Module [Monitor] is the rule for code between [Acquire] and [Release] of one
    lock: the state it protects satisfies an invariant while nobody holds the lock,
    and each piece of the code that runs with the lock keeps its precondition until
    it runs, under any interleaving. *)

From S2P Require Import Prelude Interrupt Synch.

Module Monitor.

Import Interrupt.Interrupt Threads.

(** What is shared: a part of the state of the clients that interrupts may change, the
    semaphore (if any) that the holder of the lock waits on, and what holds of that part
    of the state at all times. *)
Record Shared (K Prot : Type) := mkShared {
  sh_prot : K -> Prot;
  sh_irq : K -> nat -> K -> Prop;
  sh_sem : option nat;
  sh_always : Prot -> Prop
}.
Arguments mkShared {K Prot}. Arguments sh_prot {K Prot}. Arguments sh_irq {K Prot}.
Arguments sh_sem {K Prot}. Arguments sh_always {K Prot}.

Section assertions.
Context {K Prot : Type} (sh : Shared K Prot).

(** What a [V] on the semaphore [s] does to the value of that semaphore. *)
Definition bump (s : nat) (v : Z) : Z := if decide (sh_sem sh = Some s) then s32 (v + 1) else v.

(** Of the protected state and the value of the semaphore; interrupts keep it. *)
Record Assertion := mkAssertion {
  holds :> Prot -> Z -> Prop;
  stable x s x' v : sh_irq sh x s x' -> holds (sh_prot sh x) v -> holds (sh_prot sh x') (bump s v);
  always x v : holds x v -> sh_always sh x
}.

(** The lock; what holds of the protected state while nobody has it; the pieces of the
    clients' code that need it, with their conditions before and after; the other pieces
    that take it. *)
Record Rules (L : Type) := mkRules {
  r_lock : nat;
  r_inv : Assertion;
  r_protected : L -> Prop;
  r_nested : L -> Prop;
  r_pre : L -> Prot -> Z -> Prop;
  r_post : L -> Assertion
}.

End assertions.

Arguments holds {K Prot sh}. Arguments mkAssertion {K Prot sh}. Arguments stable {K Prot sh}.
Arguments always {K Prot sh}.
Arguments mkRules {K Prot sh L}. Arguments r_lock {K Prot sh L}. Arguments r_inv {K Prot sh L}.
Arguments r_protected {K Prot sh L}. Arguments r_nested {K Prot sh L}.
Arguments r_pre {K Prot sh L}. Arguments r_post {K Prot sh L}.

Section monitor.
Context {K L Prot : Type} (sh : Shared K Prot) (R : Rules sh L).

Local Abbreviation Kernel := (Threads.Kernel K L).
Local Abbreviation prot := (sh_prot sh).
Local Abbreviation irq := (sh_irq sh).
Local Abbreviation osem := (sh_sem sh).
Local Abbreviation bump := (bump sh).
Local Abbreviation Assertion := (Assertion sh).
Local Abbreviation l := (r_lock R).
Local Abbreviation I := (r_inv R).
Local Abbreviation protected := (r_protected R).
Local Abbreviation nested := (r_nested R).
Local Abbreviation pre := (r_pre R).
Local Abbreviation post := (r_post R).
Implicit Types k : Kernel.
Implicit Types A B : Assertion.

Definition sem_value k : Z := match osem with Some s => value (sems k s) | None => 0 end.

(** ** The proof rules

    What holds between two calls of a thread: [None] when it does not hold the lock,
    [Some A] when it holds it and the protected state satisfies [A]. *)
Definition assertion : Type := option Assertion.

Definition entails (S S' : assertion) : Prop :=
  match S, S' with
  | None, None => True
  | Some A, Some B => forall x v, A x v -> B x v
  | Some A, None => forall x v, ~ A x v       (* code that is not reached *)
  | None, Some _ => False
  end.

Definition neutral (u : ucall L) : Prop :=
  match u with
  | Acquire l' | Release l' | Wait _ l' => l' <> l
  | P s | V s | Join _ s => osem <> Some s
  | New q _ | Delete q => q <> QLock l /\ forall s, osem = Some s -> q <> QSem s
  | Fork _ _ | Call _ | Finish => False
  | _ => True
  end.

Inductive triple : assertion -> ucall L -> assertion -> Prop :=
  | triple_acquire : triple None (Acquire l) (Some I)
  | triple_release (A : Assertion) : (forall x v, A x v -> I x v) -> triple (Some A) (Release l) None
  | triple_wait (A : Assertion) c : (forall x v, A x v -> I x v) -> triple (Some A) (Wait c l) (Some I)
  | triple_P (A B : Assertion) s :
      osem = Some s -> (forall x v, A x v -> v <> 0 -> B x (s32 (v - 1))) ->
      triple (Some A) (P s) (Some B)
  | triple_call (A : Assertion) p : protected p -> (forall x v, A x v -> pre p x v) ->
      triple (Some A) (Call p) (Some (post p))
  | triple_free S p : ~ protected p -> (nested p -> S = None) -> triple S (Call p) S
  | triple_fork S t body : triples None body None -> triple S (Fork t body) S
  | triple_finish : triple None Finish None
  | triple_other S u : neutral u -> triple S u S
with triples : assertion -> list (ucall L) -> assertion -> Prop :=
  | triples_nil S : triples S [] S
  | triples_cons S u S' us S'' : triple S u S' -> triples S' us S'' -> triples S (u :: us) S''
  | triples_weaken S S' us S'' : entails S S' -> triples S' us S'' -> triples S us S''.

(** The same for the points inside calls. *)
Inductive triple_op : assertion -> op L -> assertion -> Prop :=
  | op_do S u S' : triple S u S' -> triple_op S (Do u) S'
  | op_acquire old : triple_op None (Acquire_loop l old) (Some I)
  | op_wait c old : triple_op None (Wait_loop c l old) (Some I)
  | op_P (A B : Assertion) s old :
      osem = Some s -> (forall x v, A x v -> v <> 0 -> B x (s32 (v - 1))) ->
      triple_op (Some A) (P_loop s old) (Some B)
  | op_finish : triple_op None Finish_loop None
  | op_other S o :
      match o with
      | Do _ | Finish_loop => False
      | Acquire_loop l' _ | Wait_loop _ l' _ => l' <> l
      | P_loop s _ => osem <> Some s
      | _ => True
      end -> triple_op S o S.

(** The rest of the code of a thread; it ends without the lock. *)
Inductive code_ok : assertion -> list (op L) -> Prop :=
  | code_nil : code_ok None []
  | code_cons S o S' c : triple_op S o S' -> code_ok S' c -> code_ok S (o :: c)
  | code_weaken S S' c : entails S S' -> code_ok S' c -> code_ok S c.

Lemma entails_refl S : entails S S.
Proof. destruct S; cbn; auto. Qed.

Lemma code_app S us S' c : triples S us S' -> code_ok S' c -> code_ok S (map Do us ++ c).
Proof.
  intros H Hc. induction H as [S|S u S' us S'' Hu _ IH|S S' us S'' He _ IH]; cbn; [done|..].
  - eapply code_cons; [by apply op_do|auto].
  - eapply code_weaken; [done|auto].
Qed.

Lemma code_inv S o c :
  code_ok S (o :: c) -> exists S1 S', entails S S1 /\ triple_op S1 o S' /\ code_ok S' c.
Proof.
  intros H. remember (o :: c) as c0 eqn:Ec. revert o c Ec.
  induction H as [|S o S' c Ho Hc _|S S' c He H IH]; intros o1 c1 Ec; simplify_eq.
  - exists S, S'. auto using entails_refl.
  - destruct (IH o1 c1 eq_refl) as (S1 & S2 & He1 & H1 & H2). exists S1, S2. split_and!; try done.
    destruct S, S', S1; cbn in *; naive_solver.
Qed.

Lemma code_nil_inv S : code_ok S [] -> entails S None.
Proof.
  intros H. remember [] as c eqn:Ec. induction H as [|S o S' c Ho Hc _|S S' c He H IH]; [done..|].
  specialize (IH Ec). destruct S, S'; cbn in *; naive_solver.
Qed.

(** ** The invariant of the kernel *)
Definition held (lk : Lock) (t : nat) : bool :=
  negb (available lk) && bool_decide (owner lk = Some t).

Definition thread_ok (h : bool) (x : Prot) (v : Z) (c : list (op L)) : Prop :=
  if h then exists A : Assertion, A x v /\ code_ok (Some A) c else code_ok None c.

Definition codes k (t : nat) : option (list (op L)) := code <$> threads k !! t.

(** On the code of the threads, the lock and the protected state. *)
Record inv (cs : nat -> option (list (op L))) (lk : Lock) (x : Prot) (v : Z) : Prop := {
  inv_thread t c : cs t = Some c -> thread_ok (held lk t) x v c;
  inv_free : available lk = true -> I x v;
  inv_owner : available lk = false -> exists t, owner lk = Some t /\ is_Some (cs t)
}.

(** No thread is joined with the semaphore. *)
Definition joins_ok k : Prop :=
  forall t th j, threads k !! t = Some th -> semaphore th = Some j -> osem <> Some j.

Definition monitor_ok k : Prop :=
  inv (codes k) (locks k l) (prot (client k)) (sem_value k) /\ joins_ok k.

Definition set_code (t : nat) (o : option (list (op L))) (cs : nat -> option (list (op L))) :=
  fun u : nat => if decide (u = t) then o else cs u.

Lemma set_code_eq t o cs : set_code t o cs t = o.
Proof. unfold set_code. by rewrite decide_True. Qed.
Lemma set_code_ne t o cs u : u <> t -> set_code t o cs u = cs u.
Proof. intros. unfold set_code. by rewrite decide_False. Qed.

Lemma held_unique lk t u : held lk t = true -> held lk u = true -> t = u.
Proof.
  unfold held. rewrite !andb_true_iff, !bool_decide_eq_true. intros [_ H1] [_ H2]. congruence.
Qed.

Lemma held_locked lk t : held lk t = true -> available lk = false /\ owner lk = Some t.
Proof. unfold held. rewrite andb_true_iff, bool_decide_eq_true. intros [H1 H2]. by destruct (available lk). Qed.

Lemma inv_always cs lk x v : inv cs lk x v -> sh_always sh x.
Proof.
  intros [H1 H2 H3]. destruct (available lk) eqn:Ha; [by eapply always, H2|].
  destruct (H3 eq_refl) as (t & Ho & c & Hc). apply H1 in Hc.
  assert (held lk t = true) as E by (unfold held; by rewrite Ha, Ho, bool_decide_true).
  rewrite E in Hc. destruct Hc as (A & HA & _). by eapply always.
Qed.

Lemma inv_ext cs cs' lk x v : (forall t, cs' t = cs t) -> inv cs lk x v -> inv cs' lk x v.
Proof.
  intros E [H1 H2 H3]. split; [|done|].
  - intros t c. rewrite E. apply H1.
  - intros Ha. destruct (H3 Ha) as (t & Ho & Ht). exists t. by rewrite E.
Qed.

Lemma inv_goto cs lk x v t c0 c :
  inv cs lk x v -> cs t = Some c0 ->
  (thread_ok (held lk t) x v c0 -> thread_ok (held lk t) x v c) -> inv (set_code t (Some c) cs) lk x v.
Proof.
  intros [H1 H2 H3] Ht Hc. split; [|done|].
  - intros u cu. destruct (decide (u = t)) as [->|Hne].
    + rewrite set_code_eq. intros [= <-]. by apply Hc, H1.
    + rewrite set_code_ne by done. apply H1.
  - intros Ha. destruct (H3 Ha) as (u & Ho & Hu). exists u. split; [done|].
    destruct (decide (u = t)) as [->|Hne]; [by rewrite set_code_eq|by rewrite set_code_ne].
Qed.

Lemma inv_acquire cs lk x v t c0 c :
  inv cs lk x v -> cs t = Some c0 -> available lk = true -> code_ok (Some I) c ->
  inv (set_code t (Some c) cs) (mkLock false (Some t)) x v.
Proof.
  intros [H1 H2 H3] Ht Ha Hc. split; [|done|].
  - intros u cu. destruct (decide (u = t)) as [->|Hne].
    + rewrite set_code_eq. intros [= <-]. unfold held. cbn. rewrite bool_decide_true by done.
      exists I. split; [by apply H2|done].
    + rewrite set_code_ne by done. intros Hu. apply H1 in Hu.
      assert (held lk u = false) as E by (unfold held; by rewrite Ha). rewrite E in Hu.
      unfold held. cbn. by rewrite bool_decide_false by congruence.
  - intros _. exists t. by rewrite set_code_eq.
Qed.

Lemma inv_release cs lk x v t c0 c o :
  inv cs lk x v -> cs t = Some c0 -> held lk t = true -> I x v -> code_ok None c ->
  inv (set_code t (Some c) cs) (mkLock true o) x v.
Proof.
  intros [H1 H2 H3] Ht Hh Hx Hc. split; [|done|done].
  intros u cu. destruct (decide (u = t)) as [->|Hne].
  - rewrite set_code_eq. by intros [= <-].
  - rewrite set_code_ne by done. intros Hu. apply H1 in Hu. destruct (held lk u) eqn:E; [|done].
    by destruct Hne; eapply held_unique.
Qed.

Lemma inv_call cs lk x v x' v' t c0 c A :
  inv cs lk x v -> cs t = Some c0 -> held lk t = true -> A x' v' -> code_ok (Some A) c ->
  inv (set_code t (Some c) cs) lk x' v'.
Proof.
  intros [H1 H2 H3] Ht Hh Hx Hc. destruct (held_locked _ _ Hh) as [Ha Ho]. split.
  - intros u cu. destruct (decide (u = t)) as [->|Hne].
    + rewrite set_code_eq. intros [= <-]. rewrite Hh. by exists A.
    + rewrite set_code_ne by done. intros Hu. apply H1 in Hu. destruct (held lk u) eqn:E; [|done].
      by destruct Hne; eapply held_unique.
  - congruence.
  - intros _. exists t. by rewrite set_code_eq.
Qed.

Lemma inv_fork cs lk x v t c :
  inv cs lk x v -> cs t = None -> code_ok None c -> inv (set_code t (Some c) cs) lk x v.
Proof.
  intros [H1 H2 H3] Ht Hc.
  assert (held lk t = false) as Hh.
  { destruct (held lk t) eqn:E; [|done]. destruct (held_locked _ _ E) as [Ha Ho].
    destruct (H3 Ha) as (u & Hu & [c' Hc']). congruence. }
  split; [|done|].
  - intros u cu. destruct (decide (u = t)) as [->|Hne].
    + rewrite set_code_eq. intros [= <-]. by rewrite Hh.
    + rewrite set_code_ne by done. apply H1.
  - intros Ha. destruct (H3 Ha) as (u & Ho & Hu). exists u. split; [done|].
    destruct (decide (u = t)) as [->|Hne]; [by rewrite set_code_eq|by rewrite set_code_ne].
Qed.

Lemma inv_delete cs lk x v t :
  inv cs lk x v -> (forall c A, cs t = Some c -> code_ok (Some A) c -> ~ A x v) ->
  inv (set_code t None cs) lk x v.
Proof.
  intros [H1 H2 H3] Ht. split; [|done|].
  - intros u cu. destruct (decide (u = t)) as [->|Hne]; [by rewrite set_code_eq|].
    rewrite set_code_ne by done. apply H1.
  - intros Ha. destruct (H3 Ha) as (u & Ho & [c Hu]). exists u. split; [done|].
    destruct (decide (u = t)) as [->|Hne]; [|by rewrite set_code_ne].
    specialize (H1 t c Hu). assert (held lk t = true) as E.
    { unfold held. by rewrite Ha, Ho, bool_decide_true. }
    rewrite E in H1. destruct H1 as (A & HA & Hc). by destruct (Ht c A Hu Hc).
Qed.

(** ** The operations of the kernel on that part of the state

    What the code of the clients must do for the rules to be sound. *)
Record Sound (SaveState RestoreState : nat -> K -> K)
    (call : L -> nat -> K -> res (K * list (ucall L))) (removeResources : nat -> K -> res K)
    : Prop := mkSound {
  so_remove t x x' : removeResources t x = Ok x' -> prot x' = prot x;
  so_save t x : prot (SaveState t x) = prot x;
  so_restore t x : prot (RestoreState t x) = prot x;
  so_protected p t x x' us v :
    protected p -> pre p (prot x) v -> call p t x = Ok (x', us) ->
    exists A, A (prot x') v /\ triples (Some A) us (Some (post p));
  so_free p t x x' us :
    ~ protected p -> sh_always sh (prot x) -> call p t x = Ok (x', us) ->
    prot x' = prot x /\ forall S, (nested p -> S = None) -> triples S us S
}.

Context (SaveState RestoreState : nat -> K -> K) (call : L -> nat -> K -> res (K * list (ucall L)))
  (removeResources : nat -> K -> res K).
Context (Hsound : Sound SaveState RestoreState call removeResources).

Record view (cs : nat -> option (list (op L))) (lk : Lock) (x : Prot) (v : Z) (cur : nat) k : Prop := {
  vw_codes t : codes k t = cs t;
  vw_lock : locks k l = lk;
  vw_prot : prot (client k) = x;
  vw_value : sem_value k = v;
  vw_current : currentThread k = cur;
  vw_joins : joins_ok k
}.

Lemma view_self k : joins_ok k -> view (codes k) (locks k l) (prot (client k)) (sem_value k) (currentThread k) k.
Proof. done. Qed.

Lemma view_inv cs lk x v cur k : view cs lk x v cur k -> inv cs lk x v -> monitor_ok k.
Proof. intros [H1 H2 H3 H4 _ H5] Hi. split; [|done]. rewrite H2, H3, H4. by eapply inv_ext. Qed.

Lemma view_frame cs lk x v cur k k' :
  (forall t, codes k' t = codes k t) -> locks k' l = locks k l -> prot (client k') = prot (client k) ->
  sem_value k' = sem_value k -> currentThread k' = currentThread k -> (joins_ok k -> joins_ok k') ->
  view cs lk x v cur k -> view cs lk x v cur k'.
Proof.
  intros E1 E2 E3 E4 E5 E6 [H1 H2 H3 H4 H5 H6]. split; [intros t; by rewrite E1|congruence..|auto].
Qed.

Lemma joins_insert t th ths k :
  joins_ok k -> (forall j, semaphore th = Some j -> osem <> Some j) -> ths = <[t := th]> (threads k) ->
  joins_ok (set_threads ths k).
Proof.
  intros Hk Hth -> u thu j. cbn. destruct (decide (u = t)) as [->|].
  - rewrite lookup_insert_eq. intros [= <-]. apply Hth.
  - rewrite lookup_insert_ne by done. apply Hk.
Qed.

Lemma goto_view c cs lk x v cur k k' :
  view cs lk x v cur k -> goto c k = Ok k' -> view (set_code cur (Some c) cs) lk x v cur k'.
Proof.
  intros [H1 H2 H3 H4 H5 H6] H. unfold goto, get_thread in H.
  destruct (threads k !! currentThread k) as [th|] eqn:E; [|done]. cbn in H. injection H as <-.
  split; try done; [|eapply joins_insert; [done| |reflexivity]; intros j; apply (H6 _ _ _ E)].
  intros t. unfold codes, set_code. cbn. subst cur. case_decide as Ht.
  - subst t. by rewrite lookup_insert_eq.
  - rewrite lookup_insert_ne by done. apply H1.
Qed.

Lemma setStatus_view t st cs lk x v cur k k' :
  view cs lk x v cur k -> setStatus t st k = Ok k' -> view cs lk x v cur k'.
Proof.
  intros Hv H. unfold setStatus, get_thread in H. destruct (threads k !! t) as [th|] eqn:E; [|done].
  cbn in H. injection H as <-.
  eapply view_frame, Hv; [|done..|
    intros HJ; eapply joins_insert; [done| |reflexivity]; intros j; apply (HJ _ _ _ E)].
  intros u. unfold codes. cbn. destruct (decide (u = t)) as [->|].
  - by rewrite lookup_insert_eq, E.
  - by rewrite lookup_insert_ne.
Qed.

Lemma ReadyToRun_view t cs lk x v cur k k' :
  view cs lk x v cur k -> ReadyToRun t k = Ok k' -> view cs lk x v cur k'.
Proof.
  unfold ReadyToRun. intros Hv H. res_inv. subst. apply (setStatus_view _ _ _ _ _ _ _ _ _ Hv) in Ha.
  by eapply view_frame, Ha.
Qed.

Lemma wake_one_view q cs lk x v cur k k' :
  view cs lk x v cur k -> wake_one q k = Ok k' -> view cs lk x v cur k'.
Proof.
  unfold wake_one. intros Hv H. destruct (queue k q); [by simplify_eq|].
  eapply ReadyToRun_view, H. by eapply view_frame, Hv.
Qed.

Lemma wake_n_view n q cs lk x v cur k k' :
  view cs lk x v cur k -> wake_n n q k = Ok k' -> view cs lk x v cur k'.
Proof.
  revert k. induction n as [|n IH]; simpl; intros k Hv H; [by simplify_eq|].
  res_inv. eapply IH, H. by eapply wake_one_view.
Qed.

Lemma Sleep_view c cs lk x v cur k k' :
  view cs lk x v cur k -> Sleep c k = Ok k' -> view (set_code cur (Some (Sleep_loop :: c)) cs) lk x v cur k'.
Proof.
  unfold Sleep. intros Hv H. res_inv. eapply goto_view, H. by eapply setStatus_view.
Qed.

Lemma Run_view n c cs lk x v cur k k' :
  view cs lk x v cur k -> Run SaveState n c k = Ok k' ->
  view (set_code cur (Some (Run_end :: c)) cs) lk x v n k'.
Proof.
  unfold Run. intros Hv H. res_inv.
  assert (view cs lk x v cur (set_client (SaveState (currentThread k) (client k)) k)) as Hv1
    by (eapply view_frame, Hv; done || apply (so_save _ _ _ _ Hsound)).
  apply (goto_view _ _ _ _ _ _ _ _ Hv1) in Ha. eapply setStatus_view, H.
  destruct Ha as [H1 H2 H3 H4 H5 H6]. by split.
Qed.

Lemma v_body_bump s cs lk x v cur k k' :
  view cs lk x v cur k -> v_body s k = Ok k' -> view cs lk x (bump s v) cur k'.
Proof.
  unfold v_body. intros Hv H. res_inv. subst. apply (wake_one_view _ _ _ _ _ _ _ _ Hv) in Ha.
  destruct Ha as [H1 H2 H3 H4 H5 H6]. split; try done.
  rewrite <- H4. unfold bump, sem_value. destruct osem as [s'|]; cbn; [|done]. unfold upd.
  destruct (decide (s' = s)) as [->|]; [by rewrite decide_True|by rewrite decide_False by congruence].
Qed.

Lemma v_body_view s cs lk x v cur k k' :
  osem <> Some s -> view cs lk x v cur k -> v_body s k = Ok k' -> view cs lk x v cur k'.
Proof.
  intros Hs Hv H. eapply v_body_bump in H; [|done]. unfold bump in H. by rewrite decide_False in H.
Qed.

Lemma signal_body_view c l' cs lk x v cur k k' :
  view cs lk x v cur k -> signal_body c l' k = Ok k' -> view cs lk x v cur k'.
Proof.
  unfold signal_body. intros Hv H. destruct (isHeldByCurrentThread l' k); [|by simplify_eq].
  destruct (queue k (QCond c)); [by simplify_eq|]. res_inv. subst.
  apply (wake_one_view _ _ _ _ _ _ _ _ Hv) in Ha. by eapply view_frame, Ha.
Qed.

Lemma release_body_view l' cs lk x v cur k k' :
  view cs lk x v cur k -> release_body l' k = Ok k' ->
  view cs (if decide (l' = l) then mkLock true (owner lk) else lk) x v cur k'.
Proof.
  unfold release_body. intros Hv H. res_inv. subst. apply (wake_one_view _ _ _ _ _ _ _ _ Hv) in Ha.
  destruct Ha as [H1 H2 H3 H4 H5 H6]. split; try done. cbn. unfold upd.
  destruct (decide (l' = l)) as [->|Hne].
  - by rewrite decide_True, H2.
  - by rewrite decide_False by congruence.
Qed.

Lemma fork_view t body cs lk x v cur k k' :
  view cs lk x v cur k -> fork t body k = Ok k' ->
  cs t = None /\ view (set_code t (Some (map Do (Enable :: body))) cs) lk x v cur k'.
Proof.
  unfold fork. intros [H1 H2 H3 H4 H5 H6] H. destruct (threads k !! t) eqn:E; [done|]. split.
  - rewrite <- H1. unfold codes. by rewrite E.
  - eapply ReadyToRun_view, H. split; try done; [|by eapply joins_insert; [done| |reflexivity]]. intros u.
    unfold codes, set_code. cbn. case_decide as Hu; [subst; by rewrite lookup_insert_eq|].
    rewrite lookup_insert_ne by done. apply H1.
Qed.

Lemma fork_code body : triples None body None -> code_ok None (map Do (Enable :: body)).
Proof.
  intros H. cbn [map]. eapply code_cons; [by apply op_do, triple_other|].
  rewrite <- (app_nil_r (map Do body)). eapply code_app; [done|]. apply code_nil.
Qed.

Lemma semaphore_codes t th s k :
  get_thread t k = Ok th ->
  forall u, codes (set_threads (<[t := mkThread (status th) (code th) s]> (threads k)) k) u = codes k u.
Proof.
  unfold get_thread. destruct (threads k !! t) eqn:Ht; [|done]. intros [= ->] u. unfold codes. cbn.
  destruct (decide (u = t)) as [->|].
  - by rewrite lookup_insert_eq, Ht.
  - by rewrite lookup_insert_ne.
Qed.

Lemma construct_view q z cs lk x v cur k :
  (q <> QLock l /\ forall s, osem = Some s -> q <> QSem s) ->
  view cs lk x v cur k -> view cs lk x v cur (construct q z k).
Proof.
  intros [Hq Hs] Hv. eapply view_frame, Hv; destruct q; try done; cbn.
  - unfold upd. by rewrite decide_False by congruence.
  - unfold sem_value. destruct osem as [s'|]; [|done]. cbn. unfold upd.
    rewrite decide_False; [done|]. intros ->. by destruct (Hs s).
Qed.

Lemma set_client_view x' cs lk x v cur k :
  view cs lk x v cur k -> view cs lk (prot x') v cur (set_client x' k).
Proof. by intros [H1 H2 H3 H4 H5 H6]. Qed.

Lemma set_sem_view s z cs lk x v cur k :
  view cs lk x v cur k -> osem <> Some s -> view cs lk x v cur (set_sem s z k).
Proof.
  intros Hv Hs. eapply view_frame, Hv; try done. unfold sem_value.
  destruct osem as [s'|]; [|done]. cbn. unfold upd. by rewrite decide_False by congruence.
Qed.

Lemma sem_taken_view s z cs lk x v cur k :
  view cs lk x v cur k -> osem = Some s -> view cs lk x z cur (set_sem s (mkSem z) k).
Proof.
  intros [H1 H2 H3 H4 H5 H6] Hs. split; try done. unfold sem_value. rewrite Hs. cbn. unfold upd.
  by rewrite decide_True.
Qed.

Lemma acquired_view cs cur k x v lk lk' :
  view cs lk x v cur k -> view cs lk' x v cur (set_lock l lk' k).
Proof. intros [H1 H2 H3 H4 H5 H6]. split; try done. cbn. unfold upd. by rewrite decide_True. Qed.

Lemma other_lock_view l' lk' cs lk x v cur k :
  view cs lk x v cur k -> l' <> l -> view cs lk x v cur (set_lock l' lk' k).
Proof.
  intros Hv Hne. eapply view_frame, Hv; try done. cbn. unfold upd. by rewrite decide_False by congruence.
Qed.

Lemma joined_ok t th j k :
  joins_ok k -> get_thread t k = Ok th -> semaphore th = Some j -> osem <> Some j.
Proof. unfold get_thread. intros HJ H. destruct (threads k !! t) eqn:E; simplify_eq. by eapply HJ. Qed.

(** ** A step of the kernel *)

(** The assertion that holds at the next call of a thread. *)
Definition sat (h : bool) (x : Prot) (v : Z) (S : assertion) : Prop :=
  match S with None => h = false | Some A => h = true /\ A x v end.

Lemma thread_ok_sat h x v c : thread_ok h x v c <-> exists S, sat h x v S /\ code_ok S c.
Proof.
  unfold thread_ok, sat. destruct h; split.
  - intros (A & HA & Hc). by exists (Some A).
  - intros ([A|] & HS & Hc); [|done]. exists A. by destruct HS.
  - intros Hc. by exists None.
  - intros ([A|] & HS & Hc); [by destruct HS|done].
Qed.

Lemma sat_entails h x v S S' : entails S S' -> sat h x v S -> sat h x v S'.
Proof. destruct S, S'; cbn; naive_solver. Qed.

Lemma inv_move cs lk x v t c0 c S :
  inv cs lk x v -> cs t = Some c0 -> sat (held lk t) x v S -> code_ok S c ->
  inv (set_code t (Some c) cs) lk x v.
Proof. intros Hi Ht HS Hc. eapply inv_goto; [done..|]. intros _. apply thread_ok_sat. eauto. Qed.

(** A device interrupt. *)
Lemma inv_irq cs lk y s y' v : irq y s y' -> inv cs lk (prot y) v -> inv cs lk (prot y') (bump s v).
Proof.
  intros Hy [H1 H2 H3]. split; [|intros Ha; by eapply stable, H2|done].
  intros t c Hc. apply H1 in Hc. unfold thread_ok in *. destruct (held lk t); [|done].
  destruct Hc as (A & HA & Hc). exists A. split; [by eapply stable|done].
Qed.

Ltac view_chain :=
  lazymatch goal with
  | H : view _ _ _ _ _ ?k |- view _ _ _ _ _ ?k => exact H
  | H : goto _ _ = Ok ?k' |- view _ _ _ _ _ ?k' => eapply goto_view, H; view_chain
  | H : Sleep _ _ = Ok ?k' |- view _ _ _ _ _ ?k' => eapply Sleep_view, H; view_chain
  | H : Run _ _ _ _ = Ok ?k' |- view _ _ _ _ _ ?k' => eapply Run_view, H; view_chain
  | H : wake_one _ _ = Ok ?k' |- view _ _ _ _ _ ?k' => eapply wake_one_view, H; view_chain
  | H : wake_n _ _ _ = Ok ?k' |- view _ _ _ _ _ ?k' => eapply wake_n_view, H; view_chain
  | H : ReadyToRun _ _ = Ok ?k' |- view _ _ _ _ _ ?k' => eapply ReadyToRun_view, H; view_chain
  | H : v_body _ _ = Ok ?k' |- view _ _ _ _ _ ?k' => eapply v_body_view, H; [eassumption|view_chain]
  | H : signal_body _ _ _ = Ok ?k' |- view _ _ _ _ _ ?k' => eapply signal_body_view, H; view_chain
  | H : release_body _ _ = Ok ?k' |- view _ _ _ _ _ ?k' => eapply release_body_view, H; view_chain
  | |- view _ _ _ _ _ (set_level _ ?x) => apply (view_frame _ _ _ _ _ x); [done..|view_chain]
  | |- view _ _ _ _ _ (set_queue _ _ ?x) => apply (view_frame _ _ _ _ _ x); [done..|view_chain]
  | |- view _ _ _ _ _ (enqueue _ ?x) => apply (view_frame _ _ _ _ _ x); [done..|view_chain]
  | |- view _ _ _ _ _ (set_ready _ ?x) => apply (view_frame _ _ _ _ _ x); [done..|view_chain]
  | |- view _ _ _ _ _ (set_dead _ ?x) => apply (view_frame _ _ _ _ _ x); [done..|view_chain]
  | |- view _ _ _ _ _ (set_cond _ _ ?x) => apply (view_frame _ _ _ _ _ x); [done..|view_chain]
  | |- view _ _ _ _ _ (set_mutex _ _ ?x) => apply (view_frame _ _ _ _ _ x); [done..|view_chain]
  | |- view _ _ _ _ _ (set_barrier _ _ ?x) => apply (view_frame _ _ _ _ _ x); [done..|view_chain]
  | |- view _ _ _ _ _ (set_sem _ _ _) => eapply set_sem_view; [view_chain|eassumption]
  | |- view _ _ _ _ _ (set_lock _ _ _) => eapply other_lock_view; [view_chain|eassumption]
  end.

Ltac ok_code :=
  repeat first
    [ assumption
    | eapply code_cons; [first [by apply op_other | by apply op_do, triple_other]|] ].

(** The current thread moves on inside code with the same assertion. *)
Ltac moves :=
  eapply view_inv; [view_chain|]; eapply inv_move; [eassumption..|ok_code].

Ltac operation :=
  cbn [exec exec_call] in *;
  unfold Semaphore_P, Semaphore_P_loop, Semaphore_V, Semaphore_Destroy, Lock_Acquire,
    Lock_Acquire_loop, Lock_Release, Condition_Wait, Condition_Wait_loop, Condition_Signal,
    Condition_Broadcast, Condition_Broadcast_loop, Mutex_Lock, Mutex_Lock_loop, Mutex_Unlock,
    Barrier_Wait, Thread_Yield, Thread_Sleep_loop, Thread_Finish, Thread_Finish_loop,
    Thread_Fork, Thread_Join, Object_new, Object_delete in *; cbv zeta in *.

Lemma held_is_held k : held (locks k l) (currentThread k) = true -> isHeldByCurrentThread l k = true.
Proof. intros H. unfold isHeldByCurrentThread. apply held_locked in H as [_ H]. by apply bool_decide_true. Qed.

(** The thread that [Run] destroys after SWITCH does not have the lock. *)
Lemma dying_code k t c A :
  wf k -> threadToBeDestroyed k = Some t -> codes k t = Some c ->
  code_ok (Some A) c -> forall x v, ~ A x v.
Proof.
  intros [W _ _ _] Ht Hc Hok. unfold codes in Hc. specialize (W t).
  destruct (threads k !! t) as [th|]; [|done]. injection Hc as <-. destruct W as [_ W].
  assert (finished (Threads.code th)) as Hf.
  { destruct (status th); [done|by destruct W as (_ & _ & _ & _ & [])|
      by destruct W as (_ & _ & _ & [])|]. by apply W. }
  destruct Hf as [Hf|Hf]; rewrite Hf in Hok;
    apply code_inv in Hok as (S1 & S' & He & Ho & Hn); inversion Ho; subst;
    apply code_nil_inv in Hn; destruct S'; cbn in *; naive_solver.
Qed.

Lemma reaped_view t x' cs lk x v cur k :
  view cs lk x v cur k -> prot x' = prot (client k) ->
  view (set_code t None cs) lk x v cur
    (set_client x' (set_dead None (set_threads (delete t (threads k)) k))).
Proof.
  intros [H1 H2 H3 H4 H5 H6] Hx. split; try done; [|by rewrite <- H3|].
  - intros u. unfold codes, set_code. cbn. case_decide as Hu.
    + subst u. by rewrite lookup_delete_eq.
    + rewrite lookup_delete_ne by done. apply H1.
  - intros u th j. cbn. intros Hl. apply lookup_delete_Some in Hl as [_ Hl]. by eapply H6.
Qed.

Lemma sem_value_eq k s : osem = Some s -> value (sems k s) = sem_value k.
Proof. unfold sem_value. by intros ->. Qed.

(** The state before a step: the current thread has the code [c0] and is at a call
    with the assertion [S]. *)
Section current.
Context (k : Kernel) (c0 : list (op L)).
Context (Hi : inv (codes k) (locks k l) (prot (client k)) (sem_value k)) (Hj : joins_ok k).
Context (Hc : codes k (currentThread k) = Some c0).

Local Abbreviation sat_now S :=
  (sat (held (locks k l) (currentThread k)) (prot (client k)) (sem_value k) S).

Let Hv := view_self k Hj.

(** The current thread gives the lock up. *)
Lemma release_monitor k1 k' c A :
  sat_now (Some A) -> (forall x v, A x v -> I x v) ->
  code_ok None c -> release_body l (set_level IntOff k) = Ok k1 -> goto c k1 = Ok k' ->
  monitor_ok k'.
Proof.
  intros [Hh HA] HI Hco H1 H2.
  assert (view (codes k) (mkLock true (owner (locks k l))) (prot (client k)) (sem_value k)
    (currentThread k) k1) as Hv1.
  { eapply release_body_view in H1; [|view_chain]. by rewrite decide_True in H1. }
  eapply view_inv; [view_chain|]. eapply inv_release; eauto.
Qed.

(** Calls that have nothing to do with the lock. *)
Lemma exec_neutral u rest es k' S :
  sat_now S -> neutral u -> code_ok S rest ->
  exec_call SaveState call removeResources u rest k = Ok (es, k') -> monitor_ok k'.
Proof.
  intros HS Hn Hrest H. destruct u; cbn [neutral] in Hn; try done; operation.
  - res_inv; subst; moves.
  - res_inv; subst; moves.
  - res_inv; subst; moves.
  - res_inv; subst; moves.
  - res_inv; subst. eapply view_inv; [view_chain|]. rewrite decide_False by done.
    eapply inv_move; [eassumption..|ok_code].
  - destruct (isHeldByCurrentThread _ _); res_inv; subst; [|moves].
    eapply view_inv; [view_chain|]. rewrite decide_False by done.
    eapply inv_move; [eassumption..|ok_code].
  - res_inv; subst; moves.
  - destruct (isHeldByCurrentThread _ _); res_inv; subst; moves.
  - res_inv; subst; moves.
  - res_inv; subst; moves.
  - destruct (_ <? _); [|res_inv; destruct (_ <? _)]; res_inv; subst; moves.
  - unfold FindNextToRun in H. destruct (readyList (set_level IntOff k)); res_inv; subst; moves.
  - res_inv; subst; moves.
  - apply bind_Ok in H as (th & Hth & H). destruct (semaphore th) as [j|] eqn:Ej; res_inv; subst.
    + assert (osem <> Some j) as Hn' by (by eapply joined_ok). moves.
    + destruct (queue _ _); [|done]. res_inv; subst.
      assert (view (codes k) (locks k l) (prot (client k)) (sem_value k) (currentThread k)
        (set_threads (<[t := mkThread (status th) (code th) (Some s)]> (threads k)) k)) as Hv1.
      { eapply view_frame, Hv; try done; [by apply semaphore_codes|]. intros _.
        eapply joins_insert; [done| |reflexivity]. by intros j [= <-]. }
      apply (construct_view (QSem s) 0) in Hv1; [moves|]. split; [done|]. by intros s' Hs' [= ->].
  - destruct (queue _ _); [|done]; res_inv; subst.
    pose proof (construct_view q v _ _ _ _ _ _ Hn Hv) as Hv1. moves.
  - apply bind_Ok in H as ([] & _ & H). res_inv; subst. moves.
Qed.

(** The call of the current thread with the rule for it. *)
Lemma exec_call_monitor u rest es k' S S' :
  sat_now S -> triple S u S' -> code_ok S' rest ->
  exec_call SaveState call removeResources u rest k = Ok (es, k') -> monitor_ok k'.
Proof.
  intros HS Hu Hrest H.
  destruct Hu as [|A HA|A c HA|A B s Hs HA|A p Hp HA|S p Hp Hn|S t body Hb| |S u Hu];
    [..|by eapply exec_neutral]; operation.
  - res_inv; subst. eapply view_inv; [view_chain|]. eapply inv_move; [eassumption..|].
    eapply code_cons; [apply op_acquire|done].
  - res_inv; subst. eapply release_monitor; [done..| |done|done]. ok_code.
  - change (isHeldByCurrentThread l (set_level IntOff k)) with (isHeldByCurrentThread l k) in H.
    rewrite held_is_held in H by apply HS. res_inv; subst.
    eapply release_monitor; [done..| |done|done]. eapply code_cons; [apply op_wait|done].
  - res_inv; subst. eapply view_inv; [view_chain|]. eapply inv_move; [eassumption..|].
    eapply code_cons; [by apply op_P|done].
  - apply bind_Ok in H as ([x us] & Ha & H). res_inv; subst. destruct HS as [Hh HS].
    destruct (so_protected _ _ _ _ Hsound _ _ _ _ _ _ Hp (HA _ _ HS) Ha) as (B & HB & Hus).
    eapply view_inv; [eapply goto_view; [eapply set_client_view, Hv|done]|].
    eapply inv_call; eauto. by eapply code_app.
  - apply bind_Ok in H as ([x us] & Ha & H). res_inv; subst.
    destruct (so_free _ _ _ _ Hsound _ _ _ _ _ Hp (inv_always _ _ _ _ Hi) Ha) as [E Hus].
    eapply view_inv; [eapply goto_view; [eapply set_client_view, Hv|done]|].
    rewrite E. eapply inv_move; [done..|]. eapply code_app; eauto.
  - res_inv; subst. eapply fork_view in Ha as [Hn Hv1]; [|view_chain].
    eapply view_inv; [view_chain|]. eapply inv_move; [| |done|done].
    + apply inv_fork; [done..|]. by apply fork_code.
    + rewrite set_code_ne by congruence. exact Hc.
  - res_inv; subst.
    assert (view (codes k) (locks k l) (prot (client k)) (sem_value k) (currentThread k)
      (set_client a (set_level IntOff k))) as Hv1
      by (eapply view_frame, Hv; first [done|by eapply (so_remove _ _ _ _ Hsound)]).
    eapply view_inv; [view_chain|]. eapply inv_move; [eassumption..|].
    eapply code_cons; [apply op_finish|apply code_nil].
Qed.

(** A point inside a call, with the rule for it. *)
Lemma exec_point_monitor o rest es k' S S' :
  sat_now S -> triple_op S o S' -> code_ok S' rest ->
  exec SaveState RestoreState call removeResources o rest k = Ok (es, k') -> o <> Run_end ->
  monitor_ok k'.
Proof.
  intros HS Ho Hrest H Hrun.
  destruct Ho as [S u S' Hu|old|c old|A B s old Hs HA| |S o Ho]; [by eapply exec_call_monitor|..];
    operation.
  - destruct (available (locks k l)) eqn:Ha; cbn [negb] in H; res_inv; subst.
    + eapply view_inv; [eapply goto_view; [eapply acquired_view, Hv|done]|].
      eapply inv_acquire; [done..|]. ok_code.
    + eapply view_inv; [view_chain|]. eapply inv_move; [eassumption..|].
      eapply code_cons; [by apply op_other|]. eapply code_cons; [apply op_acquire|done].
  - destruct (isBusy _); res_inv; subst.
    + eapply view_inv; [view_chain|]. eapply inv_move; [eassumption..|].
      eapply code_cons; [by apply op_other|]. eapply code_cons; [apply op_wait|done].
    + eapply view_inv; [view_chain|]. eapply inv_move; [eassumption..|].
      eapply code_cons; [apply op_do, triple_acquire|ok_code].
  - pose proof HS as [Hh HA0]. destruct (Z.eqb_spec (value (sems k s)) 0) as [E|E]; res_inv; subst.
    + eapply view_inv; [view_chain|]. eapply inv_move; [eassumption..|].
      eapply code_cons; [by apply op_other|]. eapply code_cons; [by apply op_P|done].
    + eapply view_inv; [eapply goto_view; [by eapply sem_taken_view|done]|].
      eapply (inv_call _ _ _ _ _ _ _ _ _ B); [done..| |ok_code]. rewrite (sem_value_eq _ _ Hs) in *. auto.
  - apply bind_Ok in H as (th & Hth & H). destruct (semaphore th) as [j|] eqn:Ej.
    + assert (osem <> Some j) as Hn' by (by eapply joined_ok).
      destruct (_ =? _); res_inv; subst; (eapply view_inv; [view_chain|]);
        (eapply inv_move; [eassumption..|]).
      * eapply code_cons; [by apply op_other|apply code_nil].
      * eapply code_cons; [apply op_finish|apply code_nil].
    + res_inv; subst. eapply view_inv; [view_chain|]. eapply inv_move; [eassumption..|].
      eapply code_cons; [by apply op_other|apply code_nil].
  - destruct o; try done; operation.
    + destruct (_ =? _); res_inv; subst; moves.
    + destruct (negb _); res_inv; subst; moves.
    + destruct (isBusy _); res_inv; subst; moves.
    + destruct (bool_decide _); res_inv; subst; moves.
    + destruct (negb _); res_inv; subst; moves.
    + res_inv; subst; moves.
    + unfold FindNextToRun in H. destruct (readyList k); res_inv; subst; [done|moves].
    + res_inv; subst; moves.
Qed.

(** [Run] after SWITCH. *)
Lemma finish_Run_monitor rest k1 k' S :
  wf k -> sat_now S -> code_ok S rest ->
  finish_Run RestoreState k = Ok k1 -> goto rest k1 = Ok k' -> monitor_ok k'.
Proof.
  intros Hw HS Hrest H1 H2. unfold finish_Run in H1.
  destruct (threadToBeDestroyed k) as [t|] eqn:Ht; res_inv; subst.
  - assert (t <> currentThread k) as Hne by (intros ->; by rewrite Nat.eqb_refl in *).
    eapply view_inv; [eapply goto_view, H2; apply (reaped_view t); [exact Hv|apply (so_restore _ _ _ _ Hsound)]|].
    eapply inv_move; [| |done..].
    + apply inv_delete; [done|]. intros c A Hcc Hok. by eapply dying_code.
    + by rewrite set_code_ne.
  - eapply view_inv; [eapply goto_view, H2; eapply view_frame, Hv; try done; cbn; apply (so_restore _ _ _ _ Hsound)|].
    by eapply inv_move.
Qed.

End current.

Lemma current_sat k c :
  monitor_ok k -> codes k (currentThread k) = Some c ->
  exists S, sat (held (locks k l) (currentThread k)) (prot (client k)) (sem_value k) S /\ code_ok S c.
Proof. intros [Hi _] Hc. by apply thread_ok_sat, (inv_thread _ _ _ _ Hi). Qed.

Lemma current_codes k th :
  get_thread (currentThread k) k = Ok th -> codes k (currentThread k) = Some (Threads.code th).
Proof. unfold get_thread, codes. destruct (threads k !! _); intros; simplify_eq. done. Qed.

Lemma step_monitor k es k' :
  wf k -> monitor_ok k -> step SaveState RestoreState call removeResources k = Ok (es, k') ->
  monitor_ok k'.
Proof.
  intros Hw Hm H. apply bind_Ok in H as (th & Hth & H). apply current_codes in Hth.
  destruct (current_sat _ _ Hm Hth) as (S & HS & Hok). destruct Hm as [Hi Hj].
  destruct (Threads.code th) as [|o rest].
  - apply code_nil_inv in Hok. eapply sat_entails in HS; [|done].
    apply (exec_call_monitor k [] Hi Hj Hth Finish [] es k' None None); try done; constructor.
  - apply code_inv in Hok as (S1 & S' & He & Ho & Hrest). eapply sat_entails in HS; [|done].
    assert (o = Run_end \/ o <> Run_end) as [->|Hrun] by (destruct o; auto; by right).
    + cbn [exec] in H. res_inv; subst. inversion Ho; subst.
      by eapply finish_Run_monitor.
    + by eapply exec_point_monitor.
Qed.

Lemma sys_step_monitor k es k' :
  wf k -> monitor_ok k -> sys_step SaveState RestoreState call removeResources irq k es k' ->
  monitor_ok k'.
Proof.
  intros Hw Hm H. revert Hw Hm.
  destruct H as [k es k' H|k th k' Hl Hth H|k s x k' Hl Hx H]; intros Hw Hm; [by eapply step_monitor|..];
    pose proof (view_self k (proj2 Hm)) as Hv.
  - assert (codes k (currentThread k) = Some (Threads.code th)) as Hc by (unfold codes; by rewrite Hth).
    destruct (current_sat _ _ Hm Hc) as (S & HS & Hok). destruct Hm as [Hi Hj].
    eapply view_inv; [view_chain|]. eapply inv_move; [done..|]. ok_code.
  - eapply view_inv; [eapply v_body_bump; [eapply set_client_view, Hv|done]|].
    eapply inv_irq; [done|apply Hm].
Qed.

Lemma runs_monitor k0 es k :
  wf k0 -> monitor_ok k0 -> runs SaveState RestoreState call removeResources irq k0 es k ->
  monitor_ok k.
Proof.
  intros Hw Hi Hr. assert (wf k /\ monitor_ok k) as [_ ?]; [|done].
  induction Hr as [|k1 es1 k2 es2 k3 _ IH Hs]; [done|]. destruct IH as [Hw2 Hi2]; [done..|].
  split; [by eapply sys_step_wf|by eapply sys_step_monitor].
Qed.

Lemma boot_monitor main x ss ls cs ms bs :
  available (ls l) = true -> I (prot x) (match osem with Some s => value (ss s) | None => 0 end) ->
  triples None main None -> monitor_ok (boot main x ss ls cs ms bs).
Proof.
  intros Ha HI Hm. split; [split; cbn; [|done|congruence]|].
  - intros t c. unfold codes. cbn. destruct (decide (t = 0%nat)) as [->|Hne].
    + rewrite lookup_singleton_eq. intros [= <-]. unfold held. rewrite Ha. cbn.
      rewrite <- (app_nil_r (map Do main)). eapply code_app; [done|apply code_nil].
    + by rewrite lookup_singleton_ne.
  - intros t th j. cbn. intros H. by apply lookup_singleton_Some in H as [_ <-].
Qed.

(** A piece that needs the lock runs with the lock and with its condition. *)
Lemma monitor_pre k p c :
  monitor_ok k -> protected p -> codes k (currentThread k) = Some (Do (Call p) :: c) ->
  held (locks k l) (currentThread k) = true /\ pre p (prot (client k)) (sem_value k).
Proof.
  intros Hi Hp Hc. destruct (current_sat _ _ Hi Hc) as (S & HS & Hok).
  apply code_inv in Hok as (S1 & S' & He & Ho & _). eapply sat_entails in HS; [|done].
  inversion Ho as [? ? ? Hu| | | | |]; subst; [|done]. inversion Hu; subst; try done.
  destruct HS as [Hh HA]. auto.
Qed.

(** Executions from the start of the system. *)
Lemma boot_runs_monitor main x ss ls cs ms bs es k :
  available (ls l) = true -> I (prot x) (match osem with Some s => value (ss s) | None => 0 end) ->
  triples None main None ->
  runs SaveState RestoreState call removeResources irq (boot main x ss ls cs ms bs) es k ->
  monitor_ok k.
Proof. intros Ha HI Hm Hr. eapply runs_monitor, Hr; [apply boot_wf|by apply boot_monitor]. Qed.

(** The lock is released with the invariant. *)
Lemma monitor_release k c :
  monitor_ok k -> codes k (currentThread k) = Some (Do (Release l) :: c) ->
  I (prot (client k)) (sem_value k).
Proof.
  intros Hi Hc. destruct (current_sat _ _ Hi Hc) as (S & HS & Hok).
  apply code_inv in Hok as (S1 & S' & He & Ho & _). eapply sat_entails in HS; [|done].
  inversion Ho as [? ? ? Hu| | | | |]; subst; [|done]. inversion Hu; subst; try done.
  destruct HS as [Hh HA]. auto.
Qed.

Lemma monitor_always k : monitor_ok k -> sh_always sh (prot (client k)).
Proof. intros [Hi _]. by eapply inv_always. Qed.

Lemma monitor_free k :
  monitor_ok k -> available (locks k l) = true -> I (prot (client k)) (sem_value k).
Proof. intros [Hi _]. apply Hi. Qed.

End monitor.

(** When interrupts do not change the protected state, and no semaphore is shared. *)
Definition quiet {K Prot} (sh : Shared K Prot) : Prop :=
  sh_sem sh = None /\ forall x s x', sh_irq sh x s x' -> sh_prot sh x' = sh_prot sh x.

Program Definition plain {K Prot} {sh : Shared K Prot} (Hq : quiet sh) (A : Prot -> Prop) : Assertion sh :=
  mkAssertion (fun x _ => sh_always sh x /\ A x) _ _.
Next Obligation. intros K Prot sh [_ Hq] A x s x' v Hx. by rewrite (Hq _ _ _ Hx). Qed.
Next Obligation. by intros K Prot sh Hq A x v []. Qed.

(** Sequences of calls. *)
Lemma triples_app {K L Prot} {sh : Shared K Prot} (R : Rules sh L) us us' S1 S2 S3 :
  triples sh R S1 us S2 -> triples sh R S2 us' S3 -> triples sh R S1 (us ++ us') S3.
Proof.
  intros H1 H2. induction H1 as [S|S u S' us S'' Hu _ IH|S S' us S'' He _ IH]; cbn; [done|..].
  - eapply triples_cons; [done|auto].
  - eapply triples_weaken; [done|auto].
Qed.

Lemma triples_concat {K L Prot} {sh : Shared K Prot} (R : Rules sh L) S uss :
  Forall (fun us => triples sh R S us S) uss -> triples sh R S (concat uss) S.
Proof. induction 1 as [|us uss H _ IH]; cbn; [apply triples_nil|by eapply triples_app]. Qed.

(** Calls that have nothing to do with the lock. *)
Definition calm {K L Prot} {sh : Shared K Prot} (R : Rules sh L) (u : ucall L) : Prop :=
  neutral sh R u \/ exists p, u = Call p /\ ~ r_protected R p /\ ~ r_nested R p.

Lemma calm_triples {K L Prot} {sh : Shared K Prot} (R : Rules sh L) S us :
  Forall (calm R) us -> triples sh R S us S.
Proof.
  induction 1 as [|u us [Hu|(p & -> & H1 & H2)] _ IH]; [apply triples_nil|..];
    (eapply triples_cons; [|exact IH]); [by apply triple_other|]. by apply triple_free.
Qed.

(** ** Programs

    Threads that do operations [A], yield, and fork other threads. *)
#[local] Set Warnings "-register-all".

Inductive prog (A : Type) :=
  | Op (a : A)
  | ThenYield
  | ForkOf (t : nat) (body : list (prog A)).
Arguments Op {A}. Arguments ThenYield {A}. Arguments ForkOf {A}.

Section programs.
Context {A K L Prot : Type} {sh : Shared K Prot} (R : Rules sh L) (code : A -> list (ucall L)).

Fixpoint compile (p : prog A) : list (ucall L) :=
  match p with
  | Op a => code a
  | ThenYield => [Yield]
  | ForkOf t body => [Fork t (flat_map compile body)]
  end.

(** Every operation of the program satisfies [P]. *)
Fixpoint all_ops (P : A -> Prop) (p : prog A) : Prop :=
  match p with
  | Op a => P a
  | ThenYield => True
  | ForkOf _ body => (fix all ps := match ps with [] => True | p :: ps => all_ops P p /\ all ps end) body
  end.

Lemma compile_ok P p :
  (forall a, P a -> triples sh R None (code a) None) -> all_ops P p ->
  triples sh R None (compile p) None.
Proof.
  intros HP. revert p. fix IH 1. intros [a| |t body]; cbn [compile all_ops].
  - apply HP.
  - intros _. eapply triples_cons; [by apply triple_other|apply triples_nil].
  - intros Hb. eapply triples_cons; [apply triple_fork|apply triples_nil].
    induction body as [|p body IHb]; cbn; [apply triples_nil|]. destruct Hb as [Hp Hb].
    eapply triples_app; [by apply IH|by apply IHb].
Qed.

Lemma program_ok P ps :
  (forall a, P a -> triples sh R None (code a) None) -> Forall (all_ops P) ps ->
  triples sh R None (flat_map compile ps) None.
Proof.
  intros HP Hps. rewrite flat_map_concat_map. apply triples_concat, Forall_map.
  eapply Forall_impl; [done|]. intros p. by apply compile_ok.
Qed.

Lemma all_ops_true p : all_ops (fun _ => True) p.
Proof.
  revert p. fix IH 1. intros [a| |t body]; cbn; [done..|].
  induction body as [|p body IHb]; [done|]. by split.
Qed.

End programs.

(** Code that is not reached. *)
Program Definition never {K Prot} {sh : Shared K Prot} : Assertion sh := mkAssertion (sh := sh) (fun _ _ => False) _ _.
Next Obligation. done. Qed.
Next Obligation. done. Qed.

Lemma triples_never {K L Prot} {sh : Shared K Prot} (R : Rules sh L) S us S' :
  triples sh R S us (Some never) -> triples sh R S us S'.
Proof.
  intros H. rewrite <- (app_nil_r us). eapply triples_app; [exact H|].
  eapply triples_weaken; [|apply triples_nil]. destruct S'; cbn; by intros x v [].
Qed.

(** A thread that has the lock from the start of the system. *)
Lemma boot_owner_monitor {K L Prot} (sh : Shared K Prot) (R : Rules sh L) (A : Assertion sh)
    main x ss ls cs ms bs :
  ls (r_lock R) = mkLock false (Some 0%nat) ->
  A (sh_prot sh x) (match sh_sem sh with Some s => value (ss s) | None => 0 end) ->
  triples sh R (Some A) main None -> monitor_ok sh R (boot main x ss ls cs ms bs).
Proof.
  intros Hl HA Hm. split; [split|].
  - intros t c. unfold codes. cbn. destruct (decide (t = 0%nat)) as [->|Hne].
    + rewrite lookup_singleton_eq. intros [= <-]. rewrite Hl. exists A. split; [exact HA|].
      rewrite <- (app_nil_r (map Do main)). eapply code_app; [done|apply code_nil].
    + by rewrite lookup_singleton_ne.
  - cbn. by rewrite Hl.
  - intros _. exists 0%nat. cbn. rewrite Hl. split; [done|]. unfold codes. cbn. by rewrite lookup_singleton_eq.
  - intros t th j. cbn. intros H. by apply lookup_singleton_Some in H as [_ <-].
Qed.

(** ** Sample runs *)
Definition idleb {K L} (k : Kernel K L) : bool :=
  match readyList k, threads k !! currentThread k with
  | [], Some th => is_sleeping (Threads.code th)
  | _, _ => false
  end.

Lemma idleb_idle {K L} (k : Kernel K L) : idleb k = true -> idle k.
Proof.
  unfold idleb, idle. destruct (readyList k); [|done]. destruct (threads k !! _) as [th|] eqn:E; [|done].
  destruct (Threads.code th) as [|[] c] eqn:Ec; try done. intros _. split; [done|]. by eexists th, c.
Qed.

(** An interrupt of the devices, which comes when nothing runs. *)
Definition interrupted {K L} (r : res (nat * K)) (k : Kernel K L) : res (list event * Kernel K L) :=
  ASSERT (idleb k);;
  '(s, x) ← r;
  k ← v_body s (set_client x k);
  Ok ([EvV s], k).

Section sample_runs.
Context {K L A : Type} (SaveState RestoreState : nat -> K -> K)
  (call : L -> nat -> K -> res (K * list (ucall L))) (removeResources : nat -> K -> res K)
  (irq : K -> nat -> K -> Prop).
(** The interrupt that a move of the script makes, and the bound on the steps up to it. *)
Context (interrupt : A -> K -> res (nat * K)) (bound : nat).
Context (Hirq : forall a x s x', interrupt a x = Ok (s, x') -> irq x s x').
Implicit Types k : Kernel K L.

Local Abbreviation runs := (runs SaveState RestoreState call removeResources irq).

Fixpoint until_idle (n : nat) k : res (list event * Kernel K L) :=
  match n with
  | O => Ok ([], k)
  | S n => if idleb k then Ok ([], k) else
      '(es, k) ← step SaveState RestoreState call removeResources k;
      '(es', k) ← until_idle n k; Ok (es ++ es', k)
  end.

Fixpoint simulate (l : list A) k : res (list event * Kernel K L) :=
  '(es, k) ← until_idle bound k;
  match l with
  | [] => Ok (es, k)
  | a :: l =>
      '(es1, k) ← interrupted (interrupt a (client k)) k;
      '(es2, k) ← simulate l k; Ok (es ++ es1 ++ es2, k)
  end.

Lemma until_idle_runs n k es k' : until_idle n k = Ok (es, k') -> runs k es k'.
Proof.
  revert k es. induction n as [|n IH]; intros k es; cbn [until_idle]; [intros [= <- <-]; constructor|].
  destruct (idleb k); [intros [= <- <-]; constructor|].
  intros H. apply bind_Ok in H as ([es1 k1] & H1 & H). apply bind_Ok in H as ([es2 k2] & H2 & H).
  simplify_eq. apply IH in H2. eapply runs_step_l; [by apply step_run|exact H2].
Qed.

Lemma interrupted_step a k es k' :
  interrupted (interrupt a (client k)) k = Ok (es, k') ->
  sys_step SaveState RestoreState call removeResources irq k es k'.
Proof.
  intros H. apply bind_Ok in H as ([] & Ha & H). apply ASSERT_Ok in Ha.
  apply bind_Ok in H as ([s x] & Hx & H). apply bind_Ok in H as (k1 & Hv & H).
  apply Ok_inj, pair_equal_spec in H as [<- <-].
  apply (step_interrupt _ _ _ _ _ _ s x); [right; by apply idleb_idle| |done]. by eapply Hirq.
Qed.

Lemma runs_app k1 es1 k2 es2 k3 : runs k1 es1 k2 -> runs k2 es2 k3 -> runs k1 (es1 ++ es2) k3.
Proof.
  intros H1 H2. induction H2 as [|k2 es2 k3 es3 k4 _ IH Hs]; [by rewrite app_nil_r|].
  rewrite app_assoc. eapply runs_step; [by apply IH|exact Hs].
Qed.

Lemma simulate_runs l k es k' : simulate l k = Ok (es, k') -> runs k es k'.
Proof.
  revert k es. induction l as [|a l IH]; intros k es; cbn [simulate]; intros H;
    apply bind_Ok in H as ([es0 k0] & H0 & H); apply until_idle_runs in H0.
  - by apply Ok_inj, pair_equal_spec in H as [<- <-].
  - apply bind_Ok in H as ([es1 k1] & H1 & H). apply bind_Ok in H as ([es2 k2] & H2 & H).
    apply Ok_inj, pair_equal_spec in H as [<- <-]. apply IH in H2.
    eapply runs_app; [exact H0|]. eapply runs_step_l; [by eapply interrupted_step|exact H2].
Qed.

(** What the state of the clients shows after a script. *)
Definition shown {B} (f : K -> B) (r : res (list event * Kernel K L)) : option B :=
  match r with Ok (_, k) => Some (f (client k)) | _ => None end.

Lemma shown_inv {B} (f : K -> B) r y :
  shown f r = Some y -> exists es k, r = Ok (es, k) /\ f (client k) = y.
Proof.
  unfold shown. destruct r as [[es k]| | | |]; [|done..]. intros E. exists es, k. by apply (inj Some) in E.
Qed.

End sample_runs.

End Monitor.
