(* ===== verification/SynchList.v ===== *)
(** threads/synchlist.h: a list that several threads share, and the consumers and
    producers that use it.

    Module [SynchList] has the three operations as code for the kernel of [Synch]: the
    calls of the lock and the condition, and the pieces of the list in between.  The
    list is the sequence that LinkedList.v refines.  [appended] and [removed] are not
    in the code: they record the order of the operations. *)

From S2P Require Import Prelude Interrupt Synch Monitor.

Module SynchList.

Import Interrupt.Interrupt Threads Monitor.

(** ** Data

    [world] is what the functions given to [Apply] work on. *)
Record State (Item O : Type) := mkState {
  list : Datatypes.list Item;
  world : O;
  appended : Datatypes.list Item;
  removed : Datatypes.list (nat * Item)    (* with the thread that got it *)
}.
Arguments mkState {Item O}. Arguments list {Item O}. Arguments world {Item O}.
Arguments appended {Item O}. Arguments removed {Item O}.

(** The pieces of the code that use the list. *)
Inductive piece (Item O : Type) :=
  | ListAppend (item : Item)
  | WhileIsEmpty
  | ListRemove
  | ListApply (func : Item -> O -> O).
Arguments ListAppend {Item O}. Arguments WhileIsEmpty {Item O}.
Arguments ListRemove {Item O}. Arguments ListApply {Item O}.

Definition empty {Item O} (w : O) : State Item O := mkState [] w [] [].

Section code.
Context {Item O L : Type} (inj : piece Item O -> L) (lock listEmpty : nat).

(** [SynchList::SynchList] *)
Definition new (w : O) : State Item O * Datatypes.list (ucall L) :=
  (empty w, [New (QLock lock) 0; New (QCond listEmpty) 0]).

Definition delete : Datatypes.list (ucall L) := [Delete (QLock lock); Delete (QCond listEmpty)].

Definition Append (item : Item) : Datatypes.list (ucall L) :=
  [Acquire lock; Call (inj (ListAppend item)); Signal listEmpty lock; Release lock].

Definition Remove : Datatypes.list (ucall L) :=
  [Acquire lock; Call (inj WhileIsEmpty); Call (inj ListRemove); Release lock].

Definition Apply (func : Item -> O -> O) : Datatypes.list (ucall L) :=
  [Acquire lock; Call (inj (ListApply func)); Release lock].

(** What the pieces do: the new list, and the calls they make.  [List::Remove] of an empty
    list returns [Item()], here [null]. *)
Definition run (null : Item) (p : piece Item O) (t : nat) (x : State Item O)
    : res (State Item O * Datatypes.list (ucall L)) :=
  match p with
  | ListAppend item =>
      Ok (mkState (list x ++ [item]) (world x) (appended x ++ [item]) (removed x), [])
  | WhileIsEmpty =>
      match list x with
      | [] => Ok (x, [Wait listEmpty lock; Call (inj WhileIsEmpty)])
      | _ => Ok (x, [])
      end
  | ListRemove =>
      Ok (mkState (tail (list x)) (world x) (appended x)
            (removed x ++ [(t, default null (head (list x)))]), [])
  | ListApply func =>
      Ok (mkState (list x) (fold_left (fun w item => func item w) (list x) (world x))
            (appended x) (removed x), [])
  end.

End code.

(** ** The rules of the list *)

(** What was appended is what was removed and what is still in the list, in this order. *)
Definition fifo {Item O} (x : State Item O) : Prop := appended x = map snd (removed x) ++ list x.

Section rules.
Context {Item O K L : Type} (inj : piece Item O -> L) (lock listEmpty : nat) (null : Item).
Context (prot : K -> State Item O) (irq : K -> nat -> K -> Prop) (nested : L -> Prop).
Context (ok : Item -> Prop).   (* the items that are appended *)
Context (Hirq : forall x s x', irq x s x' -> prot x' = prot x).
Context (Hinj : forall p q, inj p = inj q -> p = q).

Definition good (x : State Item O) : Prop := fifo x /\ Forall ok (appended x).

Definition shared : Shared K (State Item O) := mkShared prot irq None good.

Lemma list_quiet : quiet shared.
Proof. by split. Qed.

(** [list->Remove()] runs when the list is not empty. *)
Definition rules : Rules shared L :=
  mkRules lock (plain list_quiet (fun _ => True)) (fun p => exists q, p = inj q) nested
    (fun p x _ => good x /\ (p = inj ListRemove -> list x <> []) /\
       (forall item, p = inj (ListAppend item) -> ok item))
    (fun p => plain list_quiet (fun x => p = inj WhileIsEmpty -> list x <> [])).

Lemma list_piece (A : Assertion shared) q :
  (q = ListRemove -> forall x v, A x v -> list x <> []) ->
  (forall item, q = ListAppend item -> ok item) ->
  triple shared rules (Some A) (Call (inj q)) (Some (r_post rules (inj q))).
Proof.
  intros H Hok. apply triple_call; [by exists q|]. intros x v HA. split; [by apply (always A x v)|].
  split; [intros E%Hinj; by eapply H|]. intros item E%Hinj. by eapply Hok.
Qed.

Lemma list_release (A : Assertion shared) : triple shared rules (Some A) (Release lock) None.
Proof. apply (triple_release shared rules). intros x v HA. split; [by apply (always A x v)|done]. Qed.

Ltac piece := eapply triples_cons; [apply list_piece; [done|congruence]|].
Ltac last := eapply triples_cons; [apply list_release|apply triples_nil].

Lemma Append_ok item : ok item -> triples shared rules None (Append inj lock listEmpty item) None.
Proof.
  intros Hok. eapply triples_cons; [apply triple_acquire|]. piece.
  eapply triples_cons; [by apply triple_other|]. last.
Qed.

Lemma Apply_ok func : triples shared rules None (Apply inj lock func) None.
Proof. eapply triples_cons; [apply triple_acquire|]. piece. last. Qed.

Lemma Remove_ok : triples shared rules None (Remove inj lock) None.
Proof.
  eapply triples_cons; [apply triple_acquire|]. piece.
  eapply triples_cons; [apply list_piece; [intros _ x v [_ H]; by apply H|done]|]. last.
Qed.

(** The pieces keep the order of the items. *)
Lemma run_ok q t x x' us v :
  r_pre rules (inj q) x v -> run inj lock listEmpty null q t x = Ok (x', us) ->
  exists A : Assertion shared, A x' v /\ triples shared rules (Some A) us (Some (r_post rules (inj q))).
Proof.
  intros (Hg & Hpre & Hok) H. pose proof Hg as [Hf Hall]. unfold fifo in Hf.
  destruct q as [item| | |func]; cbn in H; [|destruct (list x) as [|y ys] eqn:E|..]; simplify_eq.
  - eexists. split; [|apply triples_nil]. split; [|by intros E%Hinj].
    split; [unfold fifo; cbn; by rewrite Hf, <- app_assoc|].
    apply Forall_app. split; [done|]. constructor; [by apply Hok|done].
  - exists (plain list_quiet (fun _ => True)). split; [done|].
    eapply triples_cons; [by apply triple_wait|]. piece. apply triples_nil.
  - eexists. split; [|apply triples_nil]. split; [done|]. intros _. cbn. by rewrite E.
  - eexists. split; [|apply triples_nil]. split; [|by intros E%Hinj].
    destruct (list x) as [|y ys] eqn:E; [by destruct Hpre|]. split; [|done].
    unfold fifo. cbn. by rewrite Hf, ?E, map_app, <- app_assoc.
  - eexists. split; [|apply triples_nil]. split; [done|by intros E%Hinj].
Qed.

End rules.

(** ** Programs of producers and consumers *)
Section system.
Context {Item O : Type} (lock listEmpty : nat) (null : Item).
Local Abbreviation piece := (piece Item O).
Local Abbreviation State := (State Item O).

Inductive action :=
  | DoAppend (item : Item) | DoRemove | DoApply (func : Item -> O -> O).

Definition code (a : action) : Datatypes.list (ucall piece) :=
  match a with
  | DoAppend item => Append id lock listEmpty item
  | DoRemove => Remove id lock
  | DoApply func => Apply id lock func
  end.

Definition saved (t : nat) (x : State) : State := x.
Definition removeResources (t : nat) (x : State) : res State := Ok x.
Definition irq (x : State) (s : nat) (x' : State) : Prop := x' = x.
Definition call : piece -> nat -> State -> res (State * Datatypes.list (ucall piece)) :=
  run id lock listEmpty null.

Lemma irq_same x s x' : irq x s x' -> id x' = id x.
Proof. by intros ->. Qed.

Local Abbreviation sh := (shared id irq (fun _ => True)).
Local Abbreviation R := (rules id lock id irq (fun _ => False) (fun _ => True) irq_same).

Lemma code_triples a : triples sh R None (code a) None.
Proof. destruct a; [by apply Append_ok|by apply Remove_ok|by apply Apply_ok]. Qed.

Lemma list_sound : Sound sh R saved saved call removeResources.
Proof.
  split; [by intros t x x' [= ->]|done|done| |].
  - intros p t x x' us v _. by apply (run_ok id lock listEmpty null id irq (fun _ => False) (fun _ => True) irq_same).
  - intros p t x x' us []. by exists p.
Qed.

Lemma program_monitor main w ss ls cs ms bs es k :
  available (ls lock) = true ->
  runs saved saved call removeResources irq (boot (flat_map (compile code) main) (empty w) ss ls cs ms bs) es k ->
  monitor_ok sh R k.
Proof.
  intros Ha. apply (boot_runs_monitor sh R _ _ _ _ list_sound); [done|by repeat split|].
  apply (program_ok R code (fun _ => True)); [auto using code_triples|].
  apply Forall_true, all_ops_true.
Qed.

End system.
Arguments action : clear implicits.

(** ** Theorems *)

(** C13: in every execution of threads that append to the list, remove from it and apply
    functions to it, in any interleaving, the items appended are, in this order, the items
    removed and the items still in the list; a thread uses the list only while it has the
    lock; and whenever a thread is about to take the first item the list is not empty, so
    [Remove] returns an item that was appended and never [Item()]. *)
Theorem synchlist_correct {Item O} lock listEmpty (null : Item) (w : O) (main : Datatypes.list (prog (action Item O))) ss ls cs ms bs es k :
  available (ls lock) = true ->
  runs saved saved (call lock listEmpty null) removeResources irq
    (boot (flat_map (compile (code lock listEmpty)) main) (empty w) ss ls cs ms bs) es k ->
  appended (client k) = map snd (removed (client k)) ++ list (client k) /\
  (forall p rest, codes k (currentThread k) = Some (Do (Call p) :: rest) ->
    available (locks k lock) = false /\ owner (locks k lock) = Some (currentThread k)) /\
  (forall rest, codes k (currentThread k) = Some (Do (Call ListRemove) :: rest) ->
    exists item items, list (client k) = item :: items /\
      call lock listEmpty null ListRemove (currentThread k) (client k) =
        Ok (mkState items (world (client k)) (appended (client k))
              (removed (client k) ++ [(currentThread k, item)]), [])).
Proof.
  intros Ha Hr. apply program_monitor in Hr; [|done].
  split; [by apply (monitor_always _ _ _ Hr)|]. split.
  - intros p rest Hc. apply held_locked. eapply (monitor_pre _ _ _ _ _ Hr); [by exists p|done].
  - intros rest Hc. apply (monitor_pre _ _ _ _ _ Hr) in Hc as (_ & _ & Hne & _); [|by exists ListRemove].
    cbn in *. destruct (list (client k)) as [|item items] eqn:E; [by destruct Hne|].
    exists item, items. done.
Qed.

(** ** A sample program

    Two consumers; the producer appends two items without giving up the processor. *)
Definition consumers : Datatypes.list (prog (action Z unit)) :=
  [ForkOf 1 [Op DoRemove]; ForkOf 2 [Op DoRemove]; ThenYield; Op (DoAppend 5); Op (DoAppend 7)].

Definition start : Kernel (State Z unit) (piece Z unit) :=
  boot (flat_map (compile (code 0 0)) consumers) (empty tt) (fun _ => new_Semaphore 0) (fun _ => new_Lock)
    (fun _ => new_Condition) (fun _ => new_Mutex) (fun _ => new_Barrier 2).

Definition after (n : nat) : Datatypes.list event * Kernel (State Z unit) (piece Z unit) :=
  outcome saved saved (call 0 0 0) removeResources n start.

Lemma list_runs n :
  completes saved saved (call 0 0 0) removeResources n start = true ->
  runs saved saved (call 0 0 0) removeResources irq start (after n).1 (after n).2.
Proof. apply outcome_runs. Qed.

(** C39: a wake-up is lost: after two items are appended while two threads wait in [Remove], the
    first thread takes an item and the second, although [Signal] woke it too, sleeps again in
    [Wait]; the system is idle with an item in the list and a thread that waits for one. *)
Theorem lost_item :
  exists es k, runs saved saved (call 0 0 0) removeResources irq start es k /\
    idle k /\ list (client k) = [7] /\ removed (client k) = [(1%nat, 5)] /\
    queue k (QCond 0) = [2%nat] /\ available (locks k 0%nat) = true /\
    codes k 2 = Some [Sleep_loop; Wait_loop 0 0 IntOn; Do (Call WhileIsEmpty);
                      Do (Call ListRemove); Do (Release 0)].
Proof.
  exists (after 60).1, (after 60).2. split; [apply list_runs; by vm_compute|].
  split_and!; [|by vm_compute..]. split; [by vm_compute|].
  exists (mkThread BLOCKED [Sleep_loop; Wait_loop 0 0 IntOn; Do (Call WhileIsEmpty);
                            Do (Call ListRemove); Do (Release 0)] None).
  eexists. split; [by vm_compute|done].
Qed.

(** After sixty steps two items were appended and one was removed. *)
Lemma synchlist_correct_witness :
  appended (client (after 60).2) = [5; 7] /\
  [5; 7] = map snd (removed (client (after 60).2)) ++ list (client (after 60).2).
Proof.
  destruct (synchlist_correct 0 0 0 tt consumers (fun _ => new_Semaphore 0) (fun _ => new_Lock)
    (fun _ => new_Condition) (fun _ => new_Mutex) (fun _ => new_Barrier 2) (after 60).1 (after 60).2)
    as (H & _); [done|apply list_runs; by vm_compute|].
  assert (appended (client (after 60).2) = [5; 7]) as E by (by vm_compute).
  split; [exact E|]. rewrite <- E. exact H.
Defined.

End SynchList.
