(* ===== verification/DiningPh.v ===== *)
(** threads/diningph.h, threads/diningph.cc and the test of threads/threadtest.cc: the
    dining philosophers.

    Module [DiningPh] has [pickup], [putdown] and [print] as code for the kernel of
    [Synch]: the calls of the lock and the conditions, and the pieces in between, which
    work on the array [state].  [print] reads the array without the lock, an element at a
    time.  The test program is run as it is, except for the text of its messages and the
    pauses of the host. *)

From S2P Require Import Prelude Interrupt Synch Monitor.

Module DiningPh.

Import Interrupt.Interrupt Threads Monitor.

Inductive phase := Thinking | Hungry | Eating.

#[export] Instance phase_eq_dec : EqDecision phase.
Proof. solve_decision. Defined.

(** The array [state[5]]. *)
#[local] Abbreviation State := (list phase).

(** The parts of the code between the synchronization calls. *)
Inductive piece :=
  | SetHungry (who : nat)
  | SetThinking (who : nat)
  | Test (i : nat)
  | IfHungry (who : nat)
  | Print (i : nat).

(** The lock [dp] and the conditions [self[i]]. *)
Definition dp : nat := 0.
Definition self (i : nat) : nat := i.

Definition new : State * list (ucall piece) :=
  (replicate 5 Thinking, New (QLock dp) 0 :: map (fun i => New (QCond (self i)) 0) (seq 0 5)).

Definition pickup (who : nat) : list (ucall piece) :=
  [Acquire dp; Call (SetHungry who); Call (Test who); Call (IfHungry who); Release dp].

Definition putdown (who : nat) : list (ucall piece) :=
  [Acquire dp; Call (SetThinking who); Call (Test ((who + 4) mod 5)); Call (Test ((who + 1) mod 5));
   Release dp].

(** [DiningPh::print] does not take the lock. *)
Definition print : list (ucall piece) := map (fun i => Call (Print i)) (seq 0 5).

Definition get (i : nat) (x : State) : res phase :=
  match x !! i with Some p => Ok p | None => UB end.
Definition put (i : nat) (p : phase) (x : State) : res State :=
  match x !! i with Some _ => Ok (<[i := p]> x) | None => UB end.

(** [DiningPh::test]; [&&] stops at the first condition that is false. *)
Definition test (i : nat) (x : State) : res (State * list (ucall piece)) :=
  l ← get ((i + 4) mod 5) x;
  if bool_decide (l = Eating) then Ok (x, []) else
  s ← get i x;
  if bool_decide (s <> Hungry) then Ok (x, []) else
  r ← get ((i + 1) mod 5) x;
  if bool_decide (r = Eating) then Ok (x, []) else
  x ← put i Eating x;
  Ok (x, [Signal (self i) dp]).

Definition call (p : piece) (t : nat) (x : State) : res (State * list (ucall piece)) :=
  match p with
  | SetHungry who => x ← put who Hungry x; Ok (x, [])
  | SetThinking who => x ← put who Thinking x; Ok (x, [])
  | Test i => test i x
  | IfHungry who =>
      s ← get who x;
      Ok (x, if bool_decide (s = Hungry) then [Wait (self who) dp] else [])
  | Print i => s ← get i x; Ok (x, [])
  end.

(** ** threadtest.cc *)
Definition Philo (who : nat) : list (ucall piece) :=
  Yield :: concat (replicate 10 (pickup who ++ print ++ [Yield] ++ putdown who ++ [Yield])).

Definition ThreadTest : list (ucall piece) :=
  map (fun k => Fork (S k) (Philo k)) (seq 0 5).

Definition saved (t : nat) (x : State) : State := x.
Definition removeResources (t : nat) (x : State) : res State := Ok x.
Definition irq (x : State) (s : nat) (x' : State) : Prop := x' = x.

(** ** The invariant *)

(** No philosopher eats while a neighbour eats. *)
Definition apart (x : State) : Prop :=
  length x = 5%nat /\
  forall i, (i < 5)%nat -> x !! i = Some Eating -> x !! ((i + 1) mod 5)%nat <> Some Eating.

Lemma apart_set who p x : apart x -> p <> Eating -> apart (<[who := p]> x).
Proof.
  intros [Hl H] Hp. split; [by rewrite length_insert|]. intros i Hi H1 H2.
  rewrite list_lookup_insert in H1, H2. repeat case_decide; try congruence. by eapply H.
Qed.

Lemma get_lookup i x p : get i x = Ok p -> x !! i = Some p.
Proof. unfold get. destruct (x !! i); congruence. Qed.

Lemma put_ok i p x : apart x -> (i < 5)%nat -> put i p x = Ok (<[i := p]> x).
Proof. intros [Hl _] Hi. unfold put. destruct (x !! i) eqn:E; [done|]. apply lookup_ge_None in E. lia. Qed.

Lemma put_eq i p x x' : put i p x = Ok x' -> x' = <[i := p]> x.
Proof. unfold put. destruct (x !! i); congruence. Qed.

(** Before [i] and after [i]. *)
Lemma neighbour i j : (i < 5)%nat -> (j < 5)%nat -> ((j + 1) mod 5)%nat = i -> j = ((i + 4) mod 5)%nat.
Proof. intros Hi Hj <-. do 5 (destruct j as [|j]; [done|]). lia. Qed.

Lemma test_apart i x x' us : apart x -> (i < 5)%nat -> test i x = Ok (x', us) -> apart x'.
Proof.
  intros [Hl H] Hi Ht. unfold test in Ht.
  apply bind_Ok in Ht as (l & Hg & Ht). apply get_lookup in Hg. case_bool_decide as Hle; [by simplify_eq|].
  apply bind_Ok in Ht as (s & Hg' & Ht). case_bool_decide; [by simplify_eq|].
  apply bind_Ok in Ht as (r & Hr & Ht). apply get_lookup in Hr. case_bool_decide as Hre; [by simplify_eq|].
  apply bind_Ok in Ht as (y & Hp & Ht). apply put_eq in Hp as ->. simplify_eq.
  split; [by rewrite length_insert|]. intros j Hj H1 H2. rewrite list_lookup_insert in H1, H2.
  destruct (decide (i = j /\ (i < length x)%nat)) as [[-> _]|Hij].
  - case_decide as E; [destruct E as [E _]|congruence].
    do 5 (destruct j as [|j]; [done|]). lia.
  - case_decide as E; [destruct E as [E _]|by eapply H].
    rewrite (neighbour i j Hi Hj (eq_sym E)) in H1. congruence.
Qed.

(** The pieces of one philosopher. *)
Definition in_range (p : piece) : Prop :=
  match p with SetHungry i | SetThinking i | Test i | IfHungry i | Print i => (i < 5)%nat end.

Lemma call_apart p t x x' us :
  apart x -> in_range p -> call p t x = Ok (x', us) -> apart x'.
Proof.
  intros Hx Hp H. destruct p as [i|i|i|i|i]; cbn in *.
  - rewrite put_ok in H by done. simplify_eq/=. by apply apart_set.
  - rewrite put_ok in H by done. simplify_eq/=. by apply apart_set.
  - by eapply test_apart.
  - apply bind_Ok in H as (s & _ & H). by simplify_eq.
  - apply bind_Ok in H as (s & _ & H). by simplify_eq.
Qed.

Lemma get_ok i x : apart x -> (i < 5)%nat -> exists p, get i x = Ok p.
Proof.
  intros [Hl _] Hi. unfold get. destruct (x !! i) eqn:E; [by eexists|]. apply lookup_ge_None in E. lia.
Qed.

(** No index is out of the array. *)
Lemma call_ok p t x : apart x -> in_range p -> exists x' us, call p t x = Ok (x', us).
Proof.
  intros Hx Hp. assert (forall n, (n mod 5 < 5)%nat) as Hm by (intros n; by apply Nat.mod_upper_bound).
  destruct p as [i|i|i|i|i]; cbn in *; [rewrite put_ok by done; by eexists _, _..| | |].
  - unfold test. destruct (get_ok ((i + 4) mod 5) x Hx (Hm _)) as [l ->]. cbn [bind].
    case_bool_decide; [by eexists _, _|]. destruct (get_ok i x Hx Hp) as [s ->]. cbn [bind].
    case_bool_decide; [by eexists _, _|]. destruct (get_ok ((i + 1) mod 5) x Hx (Hm _)) as [r ->].
    cbn [bind]. case_bool_decide; [by eexists _, _|]. rewrite put_ok by done. by eexists _, _.
  - destruct (get_ok i x Hx Hp) as [s ->]. by eexists _, _.
  - destruct (get_ok i x Hx Hp) as [s ->]. by eexists _, _.
Qed.

(** ** The rules of the lock [dp] *)
Definition shared : Shared State State := mkShared id irq None apart.

Lemma dining_quiet : quiet shared.
Proof. split; [done|]. by intros x s x' ->. Qed.

(** All pieces need the lock but the reads of [print], which need an index of the array. *)
Definition locked (p : piece) : Prop :=
  match p with Print i => ~ (i < 5)%nat | _ => True end.

Definition rules : Rules shared piece :=
  mkRules dp (plain dining_quiet (fun _ => True)) locked (fun _ => False)
    (fun p x _ => apart x /\ in_range p) (fun _ => plain dining_quiet (fun _ => True)).

Lemma dining_piece (A : Assertion shared) p :
  in_range p -> locked p ->
  triple shared rules (Some A) (Call p) (Some (plain dining_quiet (fun _ => True))).
Proof.
  intros Hp Hl. apply (triple_call shared rules A p); [done|]. intros x v HA. split; [|done].
  by apply (always A x v).
Qed.

Lemma dining_release (A : Assertion shared) : triple shared rules (Some A) (Release dp) None.
Proof. apply (triple_release shared rules). intros x v HA. split; [by apply (always A x v)|done]. Qed.

Ltac piece := eapply triples_cons; [apply dining_piece; cbn [in_range locked]; first [done|by apply Nat.mod_upper_bound]|].
Ltac last := eapply triples_cons; [apply dining_release|apply triples_nil].

Lemma pickup_ok who : (who < 5)%nat -> triples shared rules None (pickup who) None.
Proof. intros Hw. eapply triples_cons; [apply triple_acquire|]. do 3 piece. last. Qed.

Lemma putdown_ok who : (who < 5)%nat -> triples shared rules None (putdown who) None.
Proof.
  intros Hw. eapply triples_cons; [apply triple_acquire|]. do 3 piece. last.
Qed.

Lemma print_ok : triples shared rules None print None.
Proof.
  assert (forall js, Forall (fun i => i < 5)%nat js ->
    triples shared rules None (map (fun i => Call (Print i)) js) None) as H.
  { induction 1 as [|i js Hi _ IH]; cbn [map]; [apply triples_nil|].
    eapply triples_cons; [|exact IH]. apply triple_free; [by intros []|done]. }
  apply H. apply Forall_forall. intros i Hi. apply elem_of_seq in Hi. lia.
Qed.

Lemma yield_ok us : triples shared rules None us None -> triples shared rules None (Yield :: us) None.
Proof. intros H. eapply triples_cons; [by apply triple_other|done]. Qed.

Lemma Philo_ok who : (who < 5)%nat -> triples shared rules None (Philo who) None.
Proof.
  intros Hw. apply yield_ok, triples_concat, Forall_replicate.
  eapply triples_app; [by apply pickup_ok|].
  eapply triples_app; [apply print_ok|]. apply (yield_ok (putdown who ++ [Yield])).
  eapply triples_app; [by apply putdown_ok|]. apply yield_ok, triples_nil.
Qed.

Lemma ThreadTest_ok : triples shared rules None ThreadTest None.
Proof.
  assert (forall ks, Forall (fun k => k < 5)%nat ks ->
    triples shared rules None (map (fun k => Fork (S k) (Philo k)) ks) None) as H.
  { induction 1 as [|k ks Hk _ IH]; cbn [map]; [apply triples_nil|].
    eapply triples_cons; [by apply triple_fork, Philo_ok|done]. }
  apply H. apply Forall_forall. intros k Hk. apply elem_of_seq in Hk. lia.
Qed.

Lemma dining_sound : Sound shared rules saved saved call removeResources.
Proof.
  split; [by intros t x x' [= ->]|done|done| |].
  2: { intros p t x x' us Hp _ H. destruct p as [i|i|i|i|i]; try by destruct Hp. cbn in H.
    apply bind_Ok in H as (s & _ & H). simplify_eq. split; [done|]. intros S _. apply triples_nil. }
  intros p t x x' us v _ [Hx Hp] H. exists (plain dining_quiet (fun _ => True)).
  split; [split; [by eapply call_apart|done]|].
  destruct p as [i|i|i|i|i]; cbn in H.
  - apply bind_Ok in H as (y & _ & H). simplify_eq. apply triples_nil.
  - apply bind_Ok in H as (y & _ & H). simplify_eq. apply triples_nil.
  - unfold test in H. repeat (apply bind_Ok in H as (? & _ & H); case_bool_decide; [simplify_eq; apply triples_nil|]).
    apply bind_Ok in H as (y & _ & H). simplify_eq.
    eapply triples_cons; [by apply triple_other|apply triples_nil].
  - apply bind_Ok in H as (y & _ & H). simplify_eq. case_bool_decide; [|apply triples_nil].
    eapply triples_cons; [apply (triple_wait shared rules); by intros z v' Hz|apply triples_nil].
  - apply bind_Ok in H as (y & _ & H). simplify_eq. apply triples_nil.
Qed.

(** ** Theorems *)

(** C30: in every execution of the test program, whatever the time slices, two neighbours never
    eat at the same time; no piece of the code fails or leaves the array; a philosopher
    tests and changes the array only while it has the lock, and what runs without the lock,
    the reads of [print], changes nothing. *)
Theorem dining_correct ss ls cs ms bs es k :
  available (ls dp) = true ->
  runs saved saved call removeResources irq (boot ThreadTest new.1 ss ls cs ms bs) es k ->
  (forall i, (i < 5)%nat -> client k !! i = Some Eating ->
     client k !! ((i + 1) mod 5)%nat <> Some Eating) /\
  (forall p rest, codes k (currentThread k) = Some (Do (Call p) :: rest) ->
     exists x us, call p (currentThread k) (client k) = Ok (x, us) /\
       ((exists i, (i < 5)%nat /\ p = Print i) /\ x = client k /\ us = [] \/
        available (locks k dp) = false /\ owner (locks k dp) = Some (currentThread k))).
Proof.
  intros Ha Hr.
  assert (apart new.1) as H0.
  { split; [done|]. intros i Hi. by do 5 (destruct i as [|i]; [done|]); lia. }
  apply (boot_runs_monitor shared rules _ _ _ _ dining_sound) in Hr;
    [|done|by split|apply ThreadTest_ok].
  pose proof (monitor_always _ _ _ Hr) as [Hl Hx]. split; [exact Hx|].
  intros p rest Hc. assert (locked p \/ exists i, (i < 5)%nat /\ p = Print i) as [Hp|(i & Hi & ->)].
  { destruct p as [i|i|i|i|i]; try by left. destruct (decide (i < 5)%nat); [right; by exists i|by left]. }
  - apply (monitor_pre _ _ _ _ _ Hr) in Hc as [Hh [Hap Hin]]; [|done].
    destruct (call_ok p (currentThread k) (client k) Hap Hin) as (x & us & E). exists x, us.
    split; [done|]. right. by apply held_locked.
  - cbn. destruct (get_ok i (client k)) as [s ->]; [by split|done|]. cbn [bind].
    eexists _, _. split; [done|]. left. by split; [exists i|].
Qed.

Definition start : Kernel State piece :=
  boot ThreadTest new.1 (fun _ => new_Semaphore 0) (fun _ => new_Lock)
    (fun _ => new_Condition) (fun _ => new_Mutex) (fun _ => new_Barrier 2).

Definition after (n : nat) : list event * Kernel State piece :=
  outcome saved saved call removeResources n start.

Lemma dining_runs n :
  completes saved saved call removeResources n start = true ->
  runs saved saved call removeResources irq start (after n).1 (after n).2.
Proof. apply outcome_runs. Qed.

(** Without time slices the test program ends: all philosophers finish their ten rounds,
    nobody is left waiting, all think and the lock is free. *)
Theorem dining_ends :
  exists es k, runs saved saved call removeResources irq start es k /\ idle k /\
    threads k = {[ 4%nat := mkThread BLOCKED [Sleep_loop] None ]} /\
    client k = replicate 5 Thinking /\ map (fun i => queue k (QCond (self i))) (seq 0 5) = replicate 5 [] /\
    available (locks k dp) = true.
Proof.
  exists (after 3000).1, (after 3000).2.
  assert (threads (after 3000).2 = {[ 4%nat := mkThread BLOCKED [Sleep_loop] None ]}) as E
    by (vm_compute; reflexivity).
  split; [apply dining_runs; vm_compute; reflexivity|].
  split; [split; [vm_compute; reflexivity|]|].
  - exists (mkThread BLOCKED [Sleep_loop] None), []. rewrite E. split; vm_compute; reflexivity.
  - split; [exact E|]. clear E. split_and!; vm_compute; reflexivity.
Qed.

Lemma dining_correct_witness :
  client (after 700).2 = [Hungry; Hungry; Eating; Hungry; Eating] /\
  client (after 700).2 !! 3%nat <> Some Eating.
Proof.
  assert (client (after 700).2 = [Hungry; Hungry; Eating; Hungry; Eating]) as E by (by vm_compute).
  split; [exact E|].
  destruct (dining_correct (fun _ => new_Semaphore 0) (fun _ => new_Lock)
    (fun _ => new_Condition) (fun _ => new_Mutex) (fun _ => new_Barrier 2) (after 700).1 (after 700).2)
    as [H _]; [done|apply dining_runs; by vm_compute|].
  apply (H 2%nat); [lia|]. by rewrite E.
Defined.

End DiningPh.
