(* ===== verification/SynchDisk.v ===== *)
(** filesys/synchdisk.h, synchdisk.cc: the disk that threads share.

    Module [SynchDisk] has [ReadSector] and [WriteSector] as code for the kernel of
    [Synch]: the lock, the request to the device of [Disk], and the wait for its interrupt
    on a semaphore.  The interrupt may come at any time after the request.  [log] is not in
    the code: it records the requests and what they put into the caller's buffer. *)

From S2P Require Import Prelude LinkedList Interrupt Disk Synch Monitor.

Module SynchDisk.

Import Interrupt.Stats Interrupt.Interrupt Threads Monitor Disk.DiskWorld.

(** ** Data *)
Inductive request :=
  | Read (sectorNumber : Z)
  | Write (sectorNumber : Z) (data : list Z).

Record State := mkState {
  world : DiskWorld;                        (* the device and the simulator *)
  log : list (nat * request * list Z)       (* with the thread, and the bytes it got *)
}.

Section code.
Context (lock semaphore : nat).

(** [SynchDisk::SynchDisk]; the disk is opened by [Disk::Disk]. *)
Definition new (existing : option (list Z)) : res (State * list (ucall request)) :=
  d ← Disk.new existing;
  Ok (mkState (boot d) [], [New (QSem semaphore) 0; New (QLock lock) 0]).

Definition delete : list (ucall request) := [Delete (QLock lock); Delete (QSem semaphore)].

Definition ReadSector (sectorNumber : Z) : list (ucall request) :=
  [Acquire lock; Call (Read sectorNumber); P semaphore; Release lock].

Definition WriteSector (sectorNumber : Z) (data : list Z) : list (ucall request) :=
  [Acquire lock; Call (Write sectorNumber data); P semaphore; Release lock].

(** The request to the device. *)
Definition call (r : request) (t : nat) (x : State) : res (State * list (ucall request)) :=
  match r with
  | Read n =>
      '(data, d, w) ← Disk.ReadRequest tt n (kernel (world x)) (world x);
      Ok (mkState (set_kernel d w) (log x ++ [(t, r, data)]), [])
  | Write n data =>
      '(d, w) ← Disk.WriteRequest tt n data (kernel (world x)) (world x);
      Ok (mkState (set_kernel d w) (log x ++ [(t, r, [])]), [])
  end.

(** [RequestDone] is the handler of the interrupt that is pending: the device is no longer
    active, and the semaphore gets a [V]. *)
Definition RequestDone (x : State) : res (nat * State) :=
  match pending (interrupt (world x)) with
  | [] => UB
  | (_, p) :: rest =>
      w ← run_handler (handler p) (set_pending rest (world x));
      Ok (semaphore, mkState w (log x))
  end.

(** Time passes while other threads and devices run. *)
Definition at_time (st : Statistics) (x : State) : State := mkState (set_stats st (world x)) (log x).

Definition irq (x : State) (s : nat) (x' : State) : Prop :=
  exists st, is_s32 (totalTicks st) /\
    (RequestDone (at_time st x) = Ok (s, x') \/ (s <> semaphore /\ x' = at_time st x)).

End code.

Definition saved (t : nat) (x : State) : State := x.
Definition removeResources (t : nat) (x : State) : res State := Ok x.

(** ** The contract: an array of sectors *)
Definition serve (m : Z -> list Z) (r : request) : list Z * (Z -> list Z) :=
  match r with
  | Read n => (m n, m)
  | Write n data => ([], fun k => if k =? n then data else m k)
  end.

(** The sectors after the requests of a log, and that each of them got what it should. *)
Fixpoint contents (m : Z -> list Z) (l : list (nat * request * list Z)) : Z -> list Z :=
  match l with
  | [] => m
  | (_, r, _) :: l => contents (serve m r).2 l
  end.

Fixpoint served (m : Z -> list Z) (l : list (nat * request * list Z)) : Prop :=
  match l with
  | [] => True
  | (_, r, data) :: l => data = (serve m r).1 /\ served (serve m r).2 l
  end.

Lemma contents_app m l1 l2 : contents m (l1 ++ l2) = contents (contents m l1) l2.
Proof. revert m. induction l1 as [|[[t r] data] l1 IH]; intros m; cbn; [done|apply IH]. Qed.

Lemma served_app m l1 l2 : served m (l1 ++ l2) <-> served m l1 /\ served (contents m l1) l2.
Proof.
  revert m. induction l1 as [|[[t r] data] l1 IH]; intros m; cbn; [tauto|]. rewrite IH. tauto.
Qed.

Definition valid (r : request) : Prop :=
  match r with Read n => is_sector n | Write n data => is_sector n /\ is_block data end.

(** ** The rules of the lock *)
Section rules.
Context (lock semaphore : nat) (m0 : Z -> list Z).

(** The device holds the sectors that the log describes. *)
Record good (x : State) : Prop := {
  good_wf : Disk.wf (kernel (world x));
  good_time : is_s32 (totalTicks (stats (world x)));
  good_sectors k : is_sector k -> Disk.sector_bytes k (kernel (world x)) = contents m0 (log x) k;
  good_log : served m0 (log x)
}.

Definition free (x : State) : Prop :=
  Disk.active (kernel (world x)) = false /\ pending (interrupt (world x)) = [].

(** Nobody uses the device; a request waits for its interrupt, or had it. *)
Definition at_rest (x : State) (v : Z) : Prop := good x /\ free x /\ v = 0.
Definition waiting (x : State) (v : Z) : Prop :=
  good x /\ ((v = 1 /\ free x) \/ (v = 0 /\ exists t p, pending (interrupt (world x)) = [(t, p)])).

Definition shared : Shared State State := mkShared id (irq semaphore) (Some semaphore) good.

Lemma at_time_good st x : is_s32 (totalTicks st) -> good x -> good (at_time st x).
Proof. by intros Ht [H1 H2 H3 H4]. Qed.

Lemma RequestDone_good x s x' :
  good x -> RequestDone semaphore x = Ok (s, x') ->
  s = semaphore /\ good x' /\
  exists t p, pending (interrupt (world x)) = (t, p) :: pending (interrupt (world x')) /\
    Disk.active (kernel (world x')) = false.
Proof.
  intros [H1 H2 H3 H4] H. unfold RequestDone in H.
  destruct (pending _) as [|[t p] rest] eqn:E; [done|]. cbn in H. simplify_eq.
  split; [done|]. split; [|by eexists t, p]. split; try done. cbn. by apply wf_set_active.
Qed.

Lemma bump_same : bump shared semaphore 0 = 1.
Proof. unfold bump. cbn. by rewrite decide_True. Qed.

Lemma bump_other s v : s <> semaphore -> bump shared s v = v.
Proof. intros H. unfold bump. cbn. by rewrite decide_False by congruence. Qed.

Lemma at_rest_stable x s x' v : irq semaphore x s x' -> at_rest x v -> at_rest x' (bump shared s v).
Proof.
  intros (st & Ht & H) (Hg & [Ha Hp] & Hv). apply (at_time_good st) in Hg; [|done].
  destruct H as [H|[Hs ->]].
  - apply RequestDone_good in H as (_ & _ & t & p & E & _); [|done]. cbn in E. congruence.
  - by rewrite bump_other.
Qed.

Lemma at_rest_good x v : at_rest x v -> good x.
Proof. by intros []. Qed.

Definition at_rest_inv : Assertion shared := mkAssertion (sh := shared) at_rest at_rest_stable at_rest_good.

Lemma waiting_stable x s x' v : irq semaphore x s x' -> waiting x v -> waiting x' (bump shared s v).
Proof.
  intros (st & Ht & H) (Hg & Hw). apply (at_time_good st) in Hg; [|done].
  destruct H as [H|[Hs ->]]; [|by rewrite bump_other].
  apply RequestDone_good in H as (-> & Hg' & t & p & E & Ha); [|done]. cbn in E.
  split; [done|]. destruct Hw as [[_ [_ Hp]]|[-> (t' & p' & Hp)]]; [congruence|].
  left. split; [apply bump_same|]. split; [done|]. rewrite Hp in E. by injection E.
Qed.

Lemma waiting_good x v : waiting x v -> good x.
Proof. by intros []. Qed.

Definition waiting_inv : Assertion shared := mkAssertion (sh := shared) waiting waiting_stable waiting_good.

Definition rules : Rules shared request :=
  mkRules lock at_rest_inv (fun _ => True) (fun _ => False) (fun r x v => valid r /\ at_rest x v) (fun _ => waiting_inv).

Lemma P_triple : triple shared rules (Some waiting_inv) (P semaphore) (Some at_rest_inv).
Proof.
  apply (triple_P shared rules waiting_inv at_rest_inv semaphore); [done|].
  intros x v (Hg & [[-> Hf]|[-> _]]) Hv; [|done]. by split_and!.
Qed.

Lemma request_ok r :
  valid r -> triples shared rules None [Acquire lock; Call r; P semaphore; Release lock] None.
Proof.
  intros Hr. eapply triples_cons; [apply triple_acquire|].
  eapply triples_cons; [apply (triple_call shared rules (r_inv rules) r); [done|by intros x v Hx]|].
  eapply triples_cons; [apply P_triple|].
  eapply triples_cons; [by apply (triple_release shared rules at_rest_inv)|]. apply triples_nil.
Qed.

(** A request on the device at rest is served, and waits for its interrupt. *)
Lemma disk_call_ok r t x v :
  valid r -> at_rest x v ->
  exists x' data, call r t x = Ok (x', []) /\ log x' = log x ++ [(t, r, data)] /\ waiting x' v.
Proof.
  intros Hr ([H1 H2 H3 H4] & [Ha Hp] & ->). destruct r as [n|n bs]; cbn [valid] in Hr.
  - unfold call. rewrite Disk.ReadRequest_spec by done. cbn [bind]. eexists _, _. split; [done|].
    split; [done|]. split; [split|right; split; [done|]]; cbn [log world kernel set_kernel].
    + by apply Disk.UpdateLast_wf; [|apply wf_set_active].
    + exact H2.
    + intros k Hk. rewrite contents_app. cbn [contents serve snd]. rewrite <- H3 by done.
      apply sector_bytes_same. etrans; [apply Disk.UpdateLast_file|done].
    + apply served_app. split; [done|]. cbn. by rewrite <- H3.
    + cbn. rewrite Hp. by eexists _, _.
  - destruct Hr as [Hn Hbs]. unfold call. rewrite Disk.WriteRequest_spec by done. cbn [bind].
    eexists _, _. split; [done|]. split; [done|].
    split; [split|right; split; [done|]]; cbn [log world kernel set_kernel].
    + by apply Disk.UpdateLast_wf; [|apply wf_set_active, Disk.file_write_wf].
    + exact H2.
    + intros k Hk. rewrite contents_app. cbn [contents serve snd].
      rewrite (Disk.sector_bytes_write n k bs (kernel (world x)) _ H1 Hn Hk Hbs)
        by (etrans; [apply Disk.UpdateLast_file|done]).
      case_match; [done|]. by apply H3.
    + apply served_app. split; [done|]. by cbn.
    + cbn. rewrite Hp. by eexists _, _.
Qed.

Lemma disk_sound : Sound shared rules saved saved call removeResources.
Proof.
  split; [by intros t x x' [= ->]|done|done| |].
  - intros r t x x' us v _ [Hr Hx] H. destruct (disk_call_ok r t x v Hr Hx) as (y & data & E & _ & Hw).
    rewrite E in H. simplify_eq. exists waiting_inv. split; [done|apply triples_nil].
  - by intros r t x x' us [].
Qed.

End rules.

(** ** Programs that use the disk *)

Definition code (lock semaphore : nat) (r : request) : list (ucall request) :=
  match r with
  | Read n => ReadSector lock semaphore n
  | Write n data => WriteSector lock semaphore n data
  end.

Lemma disk_code_triples lock semaphore m0 r :
  valid r -> triples (shared semaphore m0) (rules lock semaphore m0) None (code lock semaphore r) None.
Proof. intros Hr. destruct r; by apply request_ok. Qed.

Definition start (lock semaphore : nat) (ps : list (prog request)) (d : Disk.Disk) ss ls cs ms bs
    : Kernel State request :=
  Threads.boot (flat_map (compile (code lock semaphore)) ps) (mkState (boot d) []) ss ls cs ms bs.

(** C14: threads that read and write sectors through a synchronized disk see an array of sectors,
    under any interleaving and however late the interrupts come: the requests take effect one
    after the other, each read gives the bytes of the last write to its sector before it, and
    the device holds the sectors that result; the device never refuses a request; and a call
    gives back the lock, before it returns, only when the device is done with its request. *)
Theorem synchdisk_correct lock semaphore ps d ss ls cs ms bs es k :
  Disk.wf d -> Disk.active d = false -> Forall (all_ops valid) ps ->
  available (ls lock) = true -> value (ss semaphore) = 0 ->
  runs saved saved call removeResources (irq semaphore) (start lock semaphore ps d ss ls cs ms bs) es k ->
  let m0 := fun n => Disk.sector_bytes n d in
  let x := client k in
  served m0 (log x) /\
  (forall n, is_sector n -> Disk.sector_bytes n (kernel (world x)) = contents m0 (log x) n) /\
  (forall r rest, codes k (currentThread k) = Some (Do (Call r) :: rest) ->
     exists x' data, call r (currentThread k) x = Ok (x', []) /\
       log x' = log x ++ [(currentThread k, r, data)]) /\
  (forall rest, codes k (currentThread k) = Some (Do (Release lock) :: rest) ->
     Disk.active (kernel (world x)) = false /\ pending (interrupt (world x)) = []).
Proof.
  intros Hd Ha Hps Hl Hs Hr m0 x.
  apply (boot_runs_monitor (shared semaphore m0) (rules lock semaphore m0) _ _ _ _
    (disk_sound lock semaphore m0)) in Hr; [|done| |].
  - destruct (monitor_always _ _ _ Hr) as [_ _ H3 H4]. split; [exact H4|]. split; [exact H3|]. split.
    + intros r rest Hc. apply (monitor_pre _ _ _ _ _ Hr) in Hc as [_ [Hv Hx]]; [|done].
      destruct (disk_call_ok m0 r (currentThread k) x _ Hv Hx) as (x' & data & H1 & H2 & _). by exists x', data.
    + intros rest Hc. apply (monitor_release _ _ _ _ Hr) in Hc as (_ & Hf & _). exact Hf.
  - cbn. rewrite Hs. split; [|done]. by split.
  - eapply program_ok; [|exact Hps]. intros r. apply disk_code_triples.
Qed.

(** ** A sample run *)
Definition answer (semaphore : nat) (_ : unit) (x : State) : res (nat * State) :=
  RequestDone semaphore (at_time Stats.new x).

Lemma answer_irq semaphore a x s x' : answer semaphore a x = Ok (s, x') -> irq semaphore x s x'.
Proof. intros H. exists Stats.new. split; [done|by left]. Qed.

(** One thread writes sector 3 while the other waits to read it. *)
Definition writer_reader : list (prog request) :=
  [ForkOf 1 [Op (Write 3 (replicate 128 9))]; ThenYield; Op (Read 3)].

Definition blank : Disk.Disk := Disk.mkDisk (replicate (Z.to_nat Disk.DiskSize) 0) false 0 0.

Definition sample (n : nat) : res (list event * Kernel State request) :=
  simulate saved saved call removeResources (answer 0) 100 (replicate n tt)
    (start 0 0 writer_reader blank (fun _ => new_Semaphore 0) (fun _ => new_Lock)
      (fun _ => new_Condition) (fun _ => new_Mutex) (fun _ => new_Barrier 2)).

Lemma blank_wf : Disk.wf blank.
Proof.
  destruct (boot_disk_ok (replicate (Z.to_nat Disk.DiskSize) 0)) as [H _ _ _ _ _]; [| |exact H].
  - by rewrite length_replicate, Z2Nat.id.
  - by apply Forall_replicate.
Qed.

Lemma writer_reader_valid : Forall (all_ops valid) writer_reader.
Proof.
  assert (is_sector 3) as H3 by (by unfold is_sector).
  assert (is_block (replicate 128 9)) as Hb by (split; [done|by apply Forall_replicate]).
  apply Forall_cons; split; [split; [by split|done]|]. by repeat (apply Forall_cons; split).
Qed.

Lemma synchdisk_correct_witness :
  exists es k, sample 2 = Ok (es, k) /\
    log (client k) = [(1%nat, Write 3 (replicate 128 9), []); (0%nat, Read 3, replicate 128 9)] /\
    served (fun n => Disk.sector_bytes n blank) (log (client k)).
Proof.
  destruct (shown_inv log (sample 2)
    [(1%nat, Write 3 (replicate 128 9), []); (0%nat, Read 3, replicate 128 9)]) as (es & k & E & El);
    [vm_compute; reflexivity|].
  exists es, k. split; [exact E|]. split; [exact El|].
  destruct (synchdisk_correct 0 0 writer_reader blank (fun _ => new_Semaphore 0) (fun _ => new_Lock)
    (fun _ => new_Condition) (fun _ => new_Mutex) (fun _ => new_Barrier 2) es k) as (H & _);
    [apply blank_wf|reflexivity|apply writer_reader_valid|reflexivity|reflexivity|
     apply (simulate_runs saved saved call removeResources (irq 0) (answer 0) 100 (answer_irq 0) (replicate 2 tt));
     exact E|exact H].
Defined.

End SynchDisk.
