(* ===== verification/Network.v ===== *)
(** machine/network.h, network.cc: the network device.

    A machine has a socket of the host, a queue of datagrams; one packet that arrived is
    kept in the device until [Receive] takes it.  Sockets, the random number that decides
    whether a packet is lost and the arithmetic of [double] are parameters. *)

From S2P Require Import Prelude LinkedList Interrupt.

Module Network.

Import Interrupt.Stats Interrupt.Interrupt.

Definition MaxWireSize : Z := 64.
Definition sizeof_PacketHeader : Z := 12.
Definition MaxPacketSize : Z := MaxWireSize - sizeof_PacketHeader.

(** ** Data *)
Record PacketHeader := mkPacketHeader {
  to : Z;          (* int *)
  from : Z;        (* int *)
  length : Z       (* unsigned *)
}.

Definition set_length (n : Z) (h : PacketHeader) : PacketHeader := mkPacketHeader (to h) (from h) n.

(** Three words in memory, for the headers of the network and of the post office. *)
Definition words (a b c : Z) : list Z := le_bytes 4 a ++ le_bytes 4 b ++ le_bytes 4 c.
Definition word (i : Z) (bs : list Z) : Z := le_value (zslice (4 * i) 4 bs).

(** [*(PacketHeader * )buffer] *)
Definition put_header (h : PacketHeader) : list Z := words (to h) (from h) (length h).
Definition get_header (bs : list Z) : PacketHeader :=
  mkPacketHeader (s32 (word 0 bs)) (s32 (word 1 bs)) (word 2 bs).

Record Network (Double : Type) := mkNetwork {
  ident : Z;
  chanceToWork : Double;
  sock : list (list Z);        (* the datagrams that wait in the socket *)
  sendBusy : bool;
  inHdr : PacketHeader;
  inbox : list Z
}.
Arguments mkNetwork {Double}. Arguments ident {Double}. Arguments chanceToWork {Double}.
Arguments sock {Double}. Arguments sendBusy {Double}. Arguments inHdr {Double}.
Arguments inbox {Double}.

(** [stats->numPacketsSent++], [stats->numPacketsRecvd++] *)
Definition count_packet_sent (s : Statistics) : Statistics :=
  mkStats (totalTicks s) (idleTicks s) (systemTicks s) (userTicks s) (numDiskReads s)
    (numDiskWrites s) (numConsoleCharsRead s) (numConsoleCharsWritten s) (numPageFaults s)
    (s32 (numPacketsSent s + 1)) (numPacketsRecvd s).
Definition count_packet_received (s : Statistics) : Statistics :=
  mkStats (totalTicks s) (idleTicks s) (systemTicks s) (userTicks s) (numDiskReads s)
    (numDiskWrites s) (numConsoleCharsRead s) (numConsoleCharsWritten s) (numPageFaults s)
    (numPacketsSent s) (s32 (numPacketsRecvd s + 1)).

Section network.
Context {K H Double : Type}.
(** The comparisons of the constructor, and [Random() % 100 >= chanceToWork * 100]. *)
Context (zero one : Double) (negative above_one : Double -> bool) (loses : Z -> Double -> bool).
(** The static functions with this device as their argument. *)
Context (NetworkReadPoll NetworkSendDone : H).
(** Whether the host takes a datagram for an address. *)
Context (sendto : Z -> list Z -> bool).
Implicit Types w : World K H.
Implicit Types net : Network Double.

Definition set_sock x net := mkNetwork (ident net) (chanceToWork net) x (sendBusy net) (inHdr net) (inbox net).
Definition set_busy b net := mkNetwork (ident net) (chanceToWork net) (sock net) b (inHdr net) (inbox net).
Definition set_inHdr h net := mkNetwork (ident net) (chanceToWork net) (sock net) (sendBusy net) h (inbox net).
Definition set_inbox x net := mkNetwork (ident net) (chanceToWork net) (sock net) (sendBusy net) (inHdr net) x.

(** [Network::Network]; [h0] and [box0] are what the memory holds before. *)
Definition new (addr : Z) (reliability : Double) (h0 : PacketHeader) (box0 : list Z) w
    : res (Network Double * World K H) :=
  let chance :=
    if negative reliability then zero
    else if above_one reliability then one else reliability in
  w ← Schedule NetworkReadPoll NetworkTime NetworkRecvInt w;
  Ok (mkNetwork addr chance [] false (set_length 0 h0) box0, w).

(** [CheckPktAvail]; [readHandler] runs when a packet came. *)
Definition CheckPktAvail (readHandler : World K H -> res (World K H)) net w
    : res (Network Double * World K H) :=
  w ← Schedule NetworkReadPoll NetworkTime NetworkRecvInt w;
  if negb (length (inHdr net) =? 0) then Ok (net, w) else
  match sock net with
  | [] => Ok (net, w)
  | g :: gs =>
      ASSERT (MaxWireSize <=? Z.of_nat (List.length g));;
      let net := set_sock gs net in
      let buffer := zslice 0 MaxWireSize g in
      let hdr := get_header buffer in
      let net := set_inHdr hdr net in
      ASSERT ((to hdr =? ident net) && (length hdr <=? MaxPacketSize));;
      bytes ← zread sizeof_PacketHeader (length hdr) buffer;
      box ← zcopy 0 bytes (inbox net);
      let net := set_inbox box net in
      let w := set_stats (count_packet_received (stats w)) w in
      w ← readHandler w;
      Ok (net, w)
  end.

Definition SendDone (writeHandler : World K H -> res (World K H)) net w
    : res (Network Double * World K H) :=
  let net := set_busy false net in
  let w := set_stats (count_packet_sent (stats w)) w in
  w ← writeHandler w;
  Ok (net, w).

(** [Send]: the datagram, if there is one, with the address it goes to.  [r] is the random
    number, [junk] what the buffer holds after the packet. *)
Definition Send (hdr : PacketHeader) (data : list Z) (r : Z) (junk : list Z) net w
    : res (option (Z * list Z) * World K H) :=
  ASSERT (negb (sendBusy net) && (0 <? length hdr) && (length hdr <=? MaxPacketSize)
          && (from hdr =? ident net));;
  w ← Schedule NetworkSendDone NetworkTime NetworkSendInt w;
  if loses r (chanceToWork net) then Ok (None, w) else
  bytes ← zread 0 (length hdr) data;
  let buffer := zslice 0 MaxWireSize (put_header hdr ++ bytes ++ junk) in
  ASSERT (sendto (to hdr) buffer);;
  Ok (Some (to hdr, buffer), w).

(** [Receive] into the buffer [data]. *)
Definition Receive (data : list Z) net : res (PacketHeader * list Z * Network Double) :=
  let hdr := inHdr net in
  let net := set_inHdr (set_length 0 hdr) net in
  if negb (length hdr =? 0) then
    bytes ← zread 0 (length hdr) (inbox net);
    data ← zcopy 0 bytes data;
    Ok (hdr, data, net)
  else Ok (hdr, data, net).

End network.

(** ** What goes over the wire *)
Definition ok_header (h : PacketHeader) : Prop :=
  is_s32 (to h) /\ is_s32 (from h) /\ is_u32 (length h).

Lemma length_words a b c : Z.of_nat (List.length (words a b c)) = 12.
Proof. unfold words. by rewrite !length_app, !length_le_bytes. Qed.

Lemma word_words a b c rest :
  word 0 (words a b c ++ rest) = u32 a /\ word 1 (words a b c ++ rest) = u32 b /\
  word 2 (words a b c ++ rest) = u32 c.
Proof. rewrite <- !le_value_u32. done. Qed.

Lemma s32_of_u32 z : is_s32 z -> s32 (u32 z) = z.
Proof. intros Hz. rewrite s32_u32. by apply s32_id. Qed.

(** A header is read back from memory, as the values its fields hold. *)
Lemma get_header_words a b c rest :
  get_header (words a b c ++ rest) = mkPacketHeader (s32 (u32 a)) (s32 (u32 b)) (u32 c).
Proof. unfold get_header. by destruct (word_words a b c rest) as (-> & -> & ->). Qed.

Lemma get_put_header h rest : ok_header h -> get_header (put_header h ++ rest) = h.
Proof.
  intros (H1 & H2 & H3). unfold put_header. rewrite get_header_words, !s32_of_u32, u32_id by done.
  by destruct h.
Qed.

Definition wire (hdr : PacketHeader) (bytes junk : list Z) : list Z :=
  zslice 0 MaxWireSize (put_header hdr ++ bytes ++ junk).

Section device.
Context {K H Double : Type} (loses : Z -> Double -> bool) (NetworkReadPoll NetworkSendDone : H)
  (sendto : Z -> list Z -> bool).
Implicit Types w : World K H.
Implicit Types net : Network Double.

Definition scheduled (h : H) (ty : IntType) w : World K H :=
  set_pending (sorted_insert (mkPending h (s32 (totalTicks (stats w) + NetworkTime)) ty)
    (s32 (totalTicks (stats w) + NetworkTime)) (pending (interrupt w))) w.

Lemma Schedule_network h ty w : Schedule h NetworkTime ty w = Ok (scheduled h ty w).
Proof. done. Qed.

(** [Send] schedules the interrupt, whether the packet is lost or not. *)
Lemma Send_spec hdr data r junk net w :
  sendBusy net = false -> 0 < length hdr <= MaxPacketSize -> from hdr = ident net ->
  length hdr <= Z.of_nat (List.length data) ->
  Send loses NetworkSendDone sendto hdr data r junk net w =
    if loses r (chanceToWork net) then Ok (None, scheduled NetworkSendDone NetworkSendInt w)
    else
      let g := wire hdr (zslice 0 (length hdr) data) junk in
      if sendto (to hdr) g then Ok (Some (to hdr, g), scheduled NetworkSendDone NetworkSendInt w)
      else Abort.
Proof.
  intros Hb Hl Hf Hd. unfold Send. rewrite Hb, Hf, Z.eqb_refl.
  rewrite (ASSERT_true (_ && _)) by (zcases; done || lia). cbn [bind].
  rewrite Schedule_network. cbn [bind]. destruct (loses _ _); [done|].
  rewrite zread_Ok by lia. cbn [bind]. fold (wire hdr (zslice 0 (length hdr) data) junk).
  by destruct (sendto _ _).
Qed.

(** What [Send] gives to the host. *)
Lemma Send_sent hdr data r junk net w a g w' :
  Send loses NetworkSendDone sendto hdr data r junk net w = Ok (Some (a, g), w') ->
  sendBusy net = false /\ 0 < length hdr <= MaxPacketSize /\ from hdr = ident net /\ a = to hdr /\
  g = wire hdr (zslice 0 (length hdr) data) junk /\ w' = scheduled NetworkSendDone NetworkSendInt w.
Proof.
  intros E. apply bind_Ok in E as ([] & HA & E). apply ASSERT_Ok in HA.
  rewrite !andb_true_iff, negb_true_iff, Z.ltb_lt, Z.leb_le, Z.eqb_eq in HA.
  rewrite Schedule_network in E. cbn [bind] in E. destruct (loses _ _); [done|].
  apply bind_Ok in E as (bytes & Hb & E). apply zread_inv in Hb as (_ & _ & _ & ->).
  apply bind_Ok in E as ([] & _ & E). injection E as <- <- <-. tauto.
Qed.

(** [Send] only schedules. *)
Lemma Send_frame hdr data r junk net w d w' :
  Send loses NetworkSendDone sendto hdr data r junk net w = Ok (d, w') ->
  w' = scheduled NetworkSendDone NetworkSendInt w.
Proof.
  intros E. apply bind_Ok in E as ([] & _ & E). rewrite Schedule_network in E. cbn [bind] in E.
  destruct (loses _ _); [by injection E|]. apply bind_Ok in E as (bytes & _ & E).
  apply bind_Ok in E as ([] & _ & E). by injection E.
Qed.

Lemma wire_shape hdr bytes junk :
  Z.of_nat (List.length bytes) = length hdr -> 0 <= length hdr <= MaxPacketSize ->
  MaxWireSize <= sizeof_PacketHeader + length hdr + Z.of_nat (List.length junk) ->
  Z.of_nat (List.length (wire hdr bytes junk)) = MaxWireSize /\
  exists j, wire hdr bytes junk = put_header hdr ++ bytes ++ j.
Proof.
  intros Hb Hl Hj. unfold wire, MaxPacketSize, MaxWireSize, sizeof_PacketHeader in *.
  pose proof (length_words (to hdr) (from hdr) (length hdr)) as Hw. fold (put_header hdr) in Hw. split.
  - rewrite length_zslice; [done|lia..|]. rewrite !length_app. lia.
  - unfold zslice. rewrite drop_0. exists (take (Z.to_nat 64 - 12 - List.length bytes) junk).
    rewrite !take_app, !(take_ge (_ : list Z)) by lia. do 3 f_equal; lia.
Qed.

Lemma wire_payload hdr bytes junk :
  Z.of_nat (List.length bytes) = length hdr -> 0 <= length hdr <= MaxPacketSize ->
  MaxWireSize <= sizeof_PacketHeader + length hdr + Z.of_nat (List.length junk) ->
  zslice sizeof_PacketHeader (length hdr) (wire hdr bytes junk) = bytes.
Proof.
  intros Hb Hl Hj. destruct (wire_shape hdr bytes junk Hb Hl Hj) as (_ & j & ->).
  apply zslice_app; [|done]. apply length_words.
Qed.

Lemma wire_header hdr bytes junk :
  ok_header hdr -> Z.of_nat (List.length bytes) = length hdr -> 0 <= length hdr <= MaxPacketSize ->
  MaxWireSize <= sizeof_PacketHeader + length hdr + Z.of_nat (List.length junk) ->
  get_header (wire hdr bytes junk) = hdr.
Proof.
  intros Hh Hb Hl Hj. destruct (wire_shape hdr bytes junk Hb Hl Hj) as (_ & j & ->).
  by apply get_put_header.
Qed.

(** [CheckPktAvail] keeps a packet until it is taken, and waits for one in the socket. *)
Lemma CheckPktAvail_quiet handler net w :
  length (inHdr net) <> 0 \/ sock net = [] ->
  CheckPktAvail NetworkReadPoll handler net w = Ok (net, scheduled NetworkReadPoll NetworkRecvInt w).
Proof.
  intros Hq. unfold CheckPktAvail. rewrite Schedule_network. cbn [bind].
  destruct (Z.eqb_spec (length (inHdr net)) 0); [|done]. destruct Hq as [?| ->]; done.
Qed.

(** What a poll leaves as it was. *)
Lemma CheckPktAvail_frame net w net' w' :
  CheckPktAvail NetworkReadPoll (fun w => Ok w) net w = Ok (net', w') ->
  interrupt w' = interrupt (scheduled NetworkReadPoll NetworkRecvInt w) /\
  ident net' = ident net /\ sendBusy net' = sendBusy net.
Proof.
  unfold CheckPktAvail. rewrite Schedule_network. cbn [bind]. intros Heq.
  destruct (negb _); [by simplify_eq|]. destruct (sock net) as [|g gs]; [by simplify_eq|].
  cbv zeta in Heq. res_inv. by simplify_eq.
Qed.

(** The device after it read the datagram of a packet. *)
Definition arrived (hdr : PacketHeader) (bytes : list Z) (gs : list (list Z)) net : Network Double :=
  set_inbox (zsplice 0 bytes (inbox net)) (set_inHdr hdr (set_sock gs net)).

Lemma CheckPktAvail_datagram handler g gs net w :
  Z.of_nat (List.length g) = MaxWireSize -> to (get_header g) = ident net ->
  0 <= length (get_header g) <= MaxPacketSize ->
  length (inHdr net) = 0 -> sock net = g :: gs -> Z.of_nat (List.length (inbox net)) = MaxPacketSize ->
  CheckPktAvail NetworkReadPoll handler net w =
    '(w) ← handler (set_stats (count_packet_received (stats w)) (scheduled NetworkReadPoll NetworkRecvInt w));
    Ok (arrived (get_header g) (zslice sizeof_PacketHeader (length (get_header g)) g) gs net, w).
Proof.
  intros Hg Hto Hl H0 Hs Hbox.
  unfold CheckPktAvail. rewrite Schedule_network. cbn [bind]. rewrite H0, Hs, Hg. cbn [Z.eqb negb].
  rewrite ASSERT_true by (by apply Z.leb_refl). cbn [bind].
  assert (zslice 0 MaxWireSize g = g) as -> by (unfold zslice; rewrite drop_0; apply take_ge; lia).
  rewrite ASSERT_true by (cbn [ident set_sock set_inHdr]; rewrite Hto, Z.eqb_refl; apply Z.leb_le; lia).
  cbn [bind]. assert (sizeof_PacketHeader + MaxPacketSize = MaxWireSize) as Hsz by done.
  assert (0 <= sizeof_PacketHeader) as H12 by done.
  rewrite zread_Ok by lia. cbn [bind].
  rewrite zcopy_Ok; [done|lia|]. cbn [inbox set_inHdr set_sock]. rewrite length_zslice; lia.
Qed.

Lemma Receive_spec data net :
  0 <= length (inHdr net) <= Z.of_nat (List.length (inbox net)) ->
  length (inHdr net) <= Z.of_nat (List.length data) ->
  Receive data net =
    Ok (inHdr net, zsplice 0 (zslice 0 (length (inHdr net)) (inbox net)) data,
        set_inHdr (set_length 0 (inHdr net)) net).
Proof.
  intros Hl Hd. unfold Receive. destruct (Z.eqb_spec (length (inHdr net)) 0) as [E|E]; cbn [negb].
  - rewrite E, zslice_0, zsplice_nil. done.
  - cbn [inbox set_inHdr]. rewrite zread_Ok by lia. cbn [bind]. rewrite zcopy_Ok; [done|lia|].
    rewrite length_zslice by lia. lia.
Qed.

End device.

(** ** Theorems *)

(** C25: a packet that is sent and not lost arrives: the datagram that [Send] gives the host for
    the machine [to hdr], once it is first in the socket of that machine, is read by the next
    [CheckPktAvail], kept by later ones however many more datagrams wait, and [Receive] gives
    exactly the header and the bytes of the packet and makes room for the next one. *)
Theorem packet_roundtrip {K H K' H' Double} (loses : Z -> Double -> bool) (poll : H) (done_int : H')
    (sendto : Z -> list Z -> bool) (hdr : PacketHeader) (data junk : list Z) r
    (net : Network Double) (w : World K' H') addr g w' (gs : list (list Z))
    (net2 : Network Double) (w2 : World K H) handler w2' buffer :
  ok_header hdr -> length hdr <= Z.of_nat (List.length data) ->
  MaxWireSize <= sizeof_PacketHeader + length hdr + Z.of_nat (List.length junk) ->
  Send loses done_int sendto hdr data r junk net w = Ok (Some (addr, g), w') ->
  ident net2 = to hdr -> length (inHdr net2) = 0 -> sock net2 = g :: gs ->
  Z.of_nat (List.length (inbox net2)) = MaxPacketSize ->
  handler (set_stats (count_packet_received (stats w2)) (scheduled poll NetworkRecvInt w2)) = Ok w2' ->
  length hdr <= Z.of_nat (List.length buffer) ->
  exists net3, addr = to hdr /\
    CheckPktAvail poll handler net2 w2 = Ok (net3, w2') /\ sock net3 = gs /\
    (forall more handler' (w3 : World K H), CheckPktAvail poll handler' (set_sock more net3) w3 =
       Ok (set_sock more net3, scheduled poll NetworkRecvInt w3)) /\
    exists net4, Receive buffer net3 = Ok (hdr, zsplice 0 (zslice 0 (length hdr) data) buffer, net4) /\
      length (inHdr net4) = 0.
Proof.
  intros Hh Hd Hj HS Hid H0 Hs Hbox Hhandler Hbuf.
  apply Send_sent in HS as (_ & Hl & _ & -> & -> & _).
  assert (Z.of_nat (List.length (zslice 0 (length hdr) data)) = length hdr) as Hlen
    by (apply length_zslice; lia).
  exists (arrived hdr (zslice 0 (length hdr) data) gs net2). split; [done|]. split.
  { assert (0 <= length hdr <= MaxPacketSize) as Hl' by lia.
    destruct (wire_shape hdr (zslice 0 (length hdr) data) junk) as [Hw _]; [done..|].
    assert (get_header (wire hdr (zslice 0 (length hdr) data) junk) = hdr) as Eh by (by apply wire_header).
    rewrite (CheckPktAvail_datagram poll handler (wire hdr (zslice 0 (length hdr) data) junk) gs)
      by (rewrite ?Eh; done).
    by rewrite Hhandler, Eh, wire_payload. }
  split; [done|]. split.
  { intros more handler' w3. apply CheckPktAvail_quiet. left. cbn. lia. }
  exists (set_inHdr (set_length 0 hdr) (arrived hdr (zslice 0 (length hdr) data) gs net2)).
  split; [|done]. rewrite Receive_spec; cbn [inHdr arrived set_inbox set_inHdr inbox set_sock].
  - pose proof (zslice_zsplice 0 (zslice 0 (length hdr) data) (inbox net2)) as E.
    rewrite Hlen in E. rewrite E by lia. done.
  - rewrite length_zsplice by lia. lia.
  - done.
Qed.

(** ** Witness: machine 1 sends three bytes to machine 2 *)
Module Sample.

Definition hdr : PacketHeader := mkPacketHeader 2 1 3.
Definition at_boot : World unit unit := mkWorld None Interrupt.new Stats.new tt.
Definition device (addr : Z) (gs : list (list Z)) : Network unit :=
  mkNetwork addr tt gs false (mkPacketHeader 0 0 0) (replicate 52 0).
Definition datagram : list Z := wire hdr [7; 8; 9] (replicate 49 0).

Lemma packet_roundtrip_witness :
  exists net3 w3 net4,
    CheckPktAvail tt (fun w => Ok w) (device 2 [datagram]) at_boot = Ok (net3, w3) /\
    Receive (replicate 4 1) net3 = Ok (hdr, [7; 8; 9; 1], net4).
Proof.
  destruct (packet_roundtrip (fun _ _ => false) tt tt (fun _ _ => true) hdr [7; 8; 9] (replicate 49 0) 0
    (device 1 []) at_boot 2 datagram (scheduled tt NetworkSendInt at_boot) [] (device 2 [datagram]) at_boot
    (fun w => Ok w) (set_stats (count_packet_received (stats at_boot)) (scheduled tt NetworkRecvInt at_boot))
    (replicate 4 1)) as (net3 & _ & H1 & _ & _ & net4 & H2 & _);
    [by unfold ok_header, is_s32, is_u32|done|done|done|done|done|done|done|done|done|].
  exists net3, (set_stats (count_packet_received (stats at_boot)) (scheduled tt NetworkRecvInt at_boot)), net4.
  split; [exact H1|exact H2].
Defined.

End Sample.

End Network.
