(* ===== verification/Post.v ===== *)
(** network/post.h, post.cc: mail boxes on top of the network device.

    Module [Post] is the post office as code for the kernel of [Synch]: threads that send
    and receive mail, the postal worker that takes packets from the device and puts them
    into the mail boxes, and the two interrupts of the device.  Each mail box is a
    synchronized list ([SynchList]).  [sent], [came] and [taken] are not in the code: they
    record the datagrams given to the host and got from it, and the mail given to the
    callers of [Receive].  Any datagrams can come. *)

From S2P Require Import Prelude LinkedList Interrupt Synch Monitor SynchList Network.

Module Post.

Import Interrupt.Stats Interrupt.Interrupt Threads Monitor Network.

(** ** Data *)
Definition sizeof_MailHeader : Z := 12.
Definition MaxMailSize : Z := MaxPacketSize - sizeof_MailHeader.

Record MailHeader := mkMailHeader {
  to_box : Z;        (* int to *)
  from_box : Z;      (* int from *)
  mail_length : Z    (* unsigned length *)
}.

Record Mail := mkMail {
  pktHdr : PacketHeader;
  mailHdr : MailHeader;
  data : list Z
}.

Definition put_mail_header (h : MailHeader) : list Z := words (to_box h) (from_box h) (mail_length h).
Definition get_mail_header (bs : list Z) : MailHeader :=
  mkMailHeader (s32 (word 0 bs)) (s32 (word 1 bs)) (word 2 bs).

(** [Mail::Mail]; [junk] is what the memory holds before. *)
Definition new_Mail (pktH : PacketHeader) (mailH : MailHeader) (msgData junk : list Z) : res Mail :=
  ASSERT (mail_length mailH <=? MaxMailSize);;
  bytes ← zread 0 (mail_length mailH) msgData;
  d ← zcopy 0 bytes junk;
  Ok (mkMail pktH mailH d).

(** The handlers of the device, with the post office as their argument. *)
Inductive handler := NetworkReadPoll | NetworkSendDone.

#[export] Instance handler_eq_dec : EqDecision handler.
Proof. solve_decision. Defined.

#[local] Abbreviation MailBox := (SynchList.State (option Mail) unit).

Record Office (Double : Type) := mkOffice {
  world : World (Network Double) handler;   (* with the device *)
  netAddr : Z;
  numBoxes : Z;
  boxes : nat -> MailBox;
  buffer : list Z;                          (* of the postal worker *)
  draws : nat;                              (* random numbers used *)
  sent : list (Z * list Z);
  came : list (list Z);
  taken : list (nat * (PacketHeader * MailHeader * list Z))
}.
Arguments mkOffice {Double}. Arguments world {Double}. Arguments netAddr {Double}.
Arguments numBoxes {Double}. Arguments boxes {Double}. Arguments buffer {Double}.
Arguments draws {Double}. Arguments sent {Double}. Arguments came {Double}. Arguments taken {Double}.

(** The pieces of the code between the calls of the kernel. *)
Inductive piece :=
  | StartSend (pkt : PacketHeader) (mail : MailHeader) (data : list Z)
  | NetSend (pkt : PacketHeader) (buffer : list Z)
  | StartReceive (box : Z)
  | TakeMail (box : nat)
  | Deliver
  | InBox (box : nat) (p : SynchList.piece (option Mail) unit).

(** The names of the objects. *)
Definition messageAvailable : nat := 0.
Definition messageSent : nat := 1.
Definition sendLock : nat := 0.
Definition boxLock (b : nat) : nat := 2 + b.
Definition boxEmpty (b : nat) : nat := b.

Section code.
Context {Double : Type} (zero one : Double) (negative above_one : Double -> bool).
Context (loses : Z -> Double -> bool) (sendto : Z -> list Z -> bool) (Random : nat -> Z).
(** Memory that is not initialized: a packet buffer, a wire buffer, a mail. *)
Context (junk52 junk64 junk40 : list Z).
Implicit Types po : Office Double.

Definition network po : Network Double := kernel (world po).

Definition set_world (y : World (Network Double) handler) po :=
  mkOffice y (netAddr po) (numBoxes po) (boxes po) (buffer po) (draws po) (sent po) (came po) (taken po).
Definition set_network net po := set_world (set_kernel net (world po)) po.
Definition set_box b l po :=
  mkOffice (world po) (netAddr po) (numBoxes po) (upd b l (boxes po)) (buffer po) (draws po) (sent po) (came po) (taken po).
Definition set_buffer bs po :=
  mkOffice (world po) (netAddr po) (numBoxes po) (boxes po) bs (draws po) (sent po) (came po) (taken po).
Definition set_sent n s po :=
  mkOffice (world po) (netAddr po) (numBoxes po) (boxes po) (buffer po) n s (came po) (taken po).
Definition set_taken g po :=
  mkOffice (world po) (netAddr po) (numBoxes po) (boxes po) (buffer po) (draws po) (sent po) (came po) g.
Definition set_came l po :=
  mkOffice (world po) (netAddr po) (numBoxes po) (boxes po) (buffer po) (draws po) (sent po) l (taken po).

(** *** MailBox *)
Definition Put (b : nat) (pkt : PacketHeader) (mail : MailHeader) (bytes : list Z)
    : res (list (ucall piece)) :=
  m ← new_Mail pkt mail bytes junk40;
  Ok (SynchList.Append (InBox b) (boxLock b) (boxEmpty b) (Some m)).

(** [Remove], then the copy of what it returns. *)
Definition Get (b : nat) : list (ucall piece) :=
  SynchList.Remove (InBox b) (boxLock b) ++ [Call (TakeMail b)].

(** What the last [Remove] of the thread returned. *)
Definition returned (t : nat) (l : list (nat * option Mail)) : option Mail :=
  match last (filter (fun p => p.1 = t) l) with Some (_, m) => m | None => None end.

(** *** PostOffice *)
Definition PostalDelivery : list (ucall piece) := [P messageAvailable; Call Deliver].

Definition PostalHelper : list (ucall piece) := PostalDelivery.

(** The constructor: the office, and the calls that make its objects and its thread [t]. *)
Definition new (addr : Z) (reliability : Double) (nBoxes : Z) (t : nat) (h0 : PacketHeader)
    (inbox0 buf0 : list Z) (w : World unit handler)
    : res (Office Double * list (ucall piece)) :=
  '(net, w) ← Network.new zero one negative above_one NetworkReadPoll addr reliability h0 inbox0 w;
  Ok (mkOffice (mkWorld (machine w) (interrupt w) (stats w) net) addr nBoxes
        (fun _ => SynchList.empty tt) buf0 0 [] [] [],
      [New (QSem messageAvailable) 0; New (QSem messageSent) 0; New (QLock sendLock) 0] ++
      concat (map (fun b => [New (QLock (boxLock b)) 0; New (QCond (boxEmpty b)) 0])
                (seq 0 (Z.to_nat nBoxes))) ++
      [Fork t PostalHelper]).

(** [Send] up to the lock, and from the lock on. *)
Definition Send (pkt : PacketHeader) (mail : MailHeader) (bytes : list Z) po
    : res (Office Double * list (ucall piece)) :=
  ASSERT (mail_length mail <=? MaxMailSize);;
  ASSERT ((0 <=? to_box mail) && (to_box mail <? numBoxes po));;
  let pkt := mkPacketHeader (to pkt) (netAddr po) (u32 (mail_length mail + sizeof_MailHeader)) in
  buf ← zcopy 0 (put_mail_header mail) junk52;
  body ← zread 0 (mail_length mail) bytes;
  buf ← zcopy sizeof_MailHeader body buf;
  Ok (po, [Acquire sendLock; Call (NetSend pkt buf); P messageSent; Release sendLock]).

Definition network_Send (pkt : PacketHeader) (buf : list Z) po : res (Office Double) :=
  '(d, w) ← Network.Send loses NetworkSendDone sendto pkt buf (Random (draws po)) junk64
              (network po) (world po);
  Ok (set_sent (S (draws po)) (sent po ++ option_list d) (set_world w po)).

(** [Receive] up to the mail box; the rest is [TakeMail]. *)
Definition Receive (box : Z) po : res (Office Double * list (ucall piece)) :=
  ASSERT ((0 <=? box) && (box <? numBoxes po));;
  Ok (po, Get (Z.to_nat box)).

(** [MailBox::Get] after [Remove], and the end of [Receive]: what the caller gets. *)
Definition take_mail (b t : nat) po : res (Office Double) :=
  match returned t (SynchList.removed (boxes po b)) with
  | None => UB
  | Some m =>
      bytes ← zread 0 (mail_length (mailHdr m)) (data m);
      ASSERT (mail_length (mailHdr m) <=? MaxMailSize);;
      Ok (set_taken (taken po ++ [(t, (pktHdr m, mailHdr m, bytes))]) po)
  end.

(** One round of the postal worker after [messageAvailable->P()]. *)
Definition deliver po : res (Office Double * list (ucall piece)) :=
  '(pkt, buf, net) ← Network.Receive (buffer po) (network po);
  let mail := get_mail_header buf in
  ASSERT ((0 <=? to_box mail) && (to_box mail <? numBoxes po));;
  ASSERT (mail_length mail <=? MaxMailSize);;
  put ← Put (Z.to_nat (to_box mail)) pkt mail (drop (Z.to_nat sizeof_MailHeader) buf);
  Ok (set_buffer buf (set_network net po), put ++ PostalDelivery).

Definition call (p : piece) (t : nat) po : res (Office Double * list (ucall piece)) :=
  match p with
  | StartSend pkt mail bytes => Send pkt mail bytes po
  | NetSend pkt buf => po ← network_Send pkt buf po; Ok (po, [])
  | StartReceive box => Receive box po
  | TakeMail b => po ← take_mail b t po; Ok (po, [])
  | Deliver => deliver po
  | InBox b q =>
      '(l, us) ← SynchList.run (InBox b) (boxLock b) (boxEmpty b) None q t (boxes po b);
      Ok (set_box b l po, us)
  end.

(** *** The interrupts of the device

    [PacketSent] is a [V] of [messageSent], [IncomingPacket] of [messageAvailable]; a poll
    that finds no packet changes nothing but its own schedule. *)
Definition remove_pending (l : list (Z * PendingInterrupt handler)) po : Office Double :=
  set_world (set_pending l (world po)) po.

Definition fire (p : PendingInterrupt handler) po : res (nat * Office Double) :=
  match Interrupt.Interrupt.handler p with
  | NetworkSendDone =>
      '(net, w) ← Network.SendDone (fun w => Ok w) (network po) (world po);
      Ok (messageSent, set_network net (set_world w po))
  | NetworkReadPoll =>
      '(net, w) ← Network.CheckPktAvail NetworkReadPoll (fun w => Ok w) (network po) (world po);
      Ok (messageAvailable, set_network net (set_world w po))
  end.

(** The datagrams that a post office with [n] boxes on the machine [addr] expects; the
    device and the worker stop the system at others. *)
Definition payload (g : list Z) : list Z := zslice sizeof_PacketHeader (length (get_header g)) g.

Record is_mail (n addr : Z) (g : list Z) : Prop := {
  im_size : Z.of_nat (List.length g) = MaxWireSize;
  im_to : to (get_header g) = addr;
  im_length : length (get_header g) = mail_length (get_mail_header (payload g)) + sizeof_MailHeader;
  im_mail : 0 <= mail_length (get_mail_header (payload g)) <= MaxMailSize;
  im_box : 0 <= to_box (get_mail_header (payload g)) < n
}.

Lemma is_mail_more n n' addr g : n <= n' -> is_mail n addr g -> is_mail n' addr g.
Proof. intros Hn []. split; try done. lia. Qed.

(** Some time later, with more datagrams in the socket. *)
Definition later (st : Statistics) (more : list (list Z)) po : Office Double :=
  let po := set_came (came po ++ more) (set_world (set_stats st (world po)) po) in
  set_network (set_sock (sock (network po) ++ more) (network po)) po.

(** A poll that finds a packet. *)
Definition packet_waits po : Prop := length (inHdr (network po)) = 0 /\ sock (network po) <> [].

Definition irq po (s : nat) (po' : Office Double) : Prop :=
  exists st more,
    let y := later st more po in
    (exists l1 t p l2, pending (interrupt (world y)) = l1 ++ (t, p) :: l2 /\
       (Interrupt.Interrupt.handler p = NetworkReadPoll -> packet_waits y) /\
       fire p (remove_pending (l1 ++ l2) y) = Ok (s, po')) \/
    (s <> messageAvailable /\ s <> messageSent /\ po' = y).

Definition saved (t : nat) po : Office Double := po.
Definition removeResources (t : nat) po : res (Office Double) := Ok po.

(** ** Code that has nothing to do with a lock *)
Section calm.
Context {Prot : Type} {sh : Shared (Office Double) Prot} (R : Rules sh piece) (b : nat).
Context (Hl : r_lock R <> boxLock b) (Hp : forall q, ~ r_protected R (InBox b q))
  (Hn : forall q, ~ r_nested R (InBox b q)).

Lemma box_piece q : calm R (Call (InBox b q)).
Proof. right. by exists (InBox b q). Qed.

Local Ltac calm_list :=
  repeat (apply Forall_cons; split); first [done|apply box_piece|by left; cbn -[boxLock]; first [done|congruence]].

Lemma Append_calm m : Forall (calm R) (SynchList.Append (InBox b) (boxLock b) (boxEmpty b) m).
Proof. calm_list. Qed.

Lemma Remove_calm : Forall (calm R) (SynchList.Remove (InBox b) (boxLock b)).
Proof. calm_list. Qed.

Lemma run_calm q t l l' us :
  SynchList.run (InBox b) (boxLock b) (boxEmpty b) None q t l = Ok (l', us) -> Forall (calm R) us.
Proof.
  intros H. destruct q; cbn in H; [|destruct (SynchList.list l)|..]; simplify_eq; try done.
  calm_list.
Qed.
End calm.

(** ** Mail in memory *)
Lemma get_mail_header_words a b c rest :
  get_mail_header (words a b c ++ rest) = mkMailHeader (s32 (u32 a)) (s32 (u32 b)) (u32 c).
Proof. unfold get_mail_header. by destruct (word_words a b c rest) as (-> & -> & ->). Qed.

(** Only the first twelve bytes matter. *)
Lemma word_zslice i k bs : 0 <= i -> 4 * i + 4 <= k -> word i (zslice 0 k bs) = word i bs.
Proof.
  intros Hi Hk. unfold word, zslice. rewrite drop_0, !take_drop_commute, take_take.
  do 3 f_equal. lia.
Qed.

Lemma get_mail_header_zslice k bs :
  sizeof_MailHeader <= k -> get_mail_header (zslice 0 k bs) = get_mail_header bs.
Proof. unfold sizeof_MailHeader. intros. unfold get_mail_header. by rewrite !word_zslice by lia. Qed.

(** [PostOffice::Send] concatenates the mail header and the data. *)
Lemma packet_buffer w (bytes junk : list Z) :
  Z.of_nat (List.length w) = sizeof_MailHeader ->
  sizeof_MailHeader + Z.of_nat (List.length bytes) <= Z.of_nat (List.length junk) ->
  zsplice sizeof_MailHeader bytes (zsplice 0 w junk) =
    w ++ bytes ++ drop (List.length bytes) (drop (List.length w) junk).
Proof.
  unfold sizeof_MailHeader. intros Hw Hl. rewrite zsplice_0. unfold zsplice.
  change (Z.to_nat 12) with 12%nat. assert (List.length w = 12%nat) as E by lia.
  rewrite take_app_le, take_ge by lia. f_equal. f_equal.
  rewrite drop_app_ge, E, drop_drop by lia. rewrite drop_drop. f_equal. lia.
Qed.

(** ** Sending

    What a sender depends on: the interrupts that announce the end of a transmission, the
    address of the device and of the office, and the device's flag. *)
Definition sends (l : list (Z * PendingInterrupt handler)) : nat := pending_of NetworkSendDone l.

Record send_view := mkSend {
  in_flight : nat;
  device : Z;
  office : Z;
  busy : bool;
  nboxes : Z;
  out : list (Z * list Z)
}.

Definition send_part po : send_view :=
  mkSend (sends (pending (interrupt (world po)))) (ident (network po)) (netAddr po)
    (sendBusy (network po)) (numBoxes po) (sent po).

Lemma sends_scheduled {K} h ty (w : World K handler) :
  sends (pending (interrupt (scheduled h ty w))) =
    if decide (h = NetworkSendDone) then S (sends (pending (interrupt w))) else sends (pending (interrupt w)).
Proof.
  apply pending_of_insert.
Qed.

Lemma fire_done p po s po' :
  Interrupt.Interrupt.handler p = NetworkSendDone -> fire p po = Ok (s, po') ->
  s = messageSent /\
  po' = set_network (set_busy false (network po))
          (set_world (set_stats (count_packet_sent (stats (world po))) (world po)) po).
Proof. unfold fire. intros ->. cbn. intros H. by simplify_eq. Qed.

Lemma fire_poll p po s po' :
  Interrupt.Interrupt.handler p = NetworkReadPoll -> fire p po = Ok (s, po') ->
  s = messageAvailable /\ send_part po' = send_part po /\
  exists net w, CheckPktAvail NetworkReadPoll (fun w => Ok w) (network po) (world po) = Ok (net, w) /\
    po' = set_network net (set_world w po).
Proof.
  unfold fire. intros -> H. apply bind_Ok in H as ([net w] & Hc & H). simplify_eq.
  split; [done|]. split; [|by eexists _, _].
  apply CheckPktAvail_frame in Hc as (E1 & E2 & E3). unfold send_part. cbn. rewrite E1, E2, E3.
  f_equal. apply (sends_scheduled NetworkReadPoll NetworkRecvInt (world po)).
Qed.

(** What the interrupts do to that part. *)
Definition send_step (x : send_view) (s : nat) (x' : send_view) : Prop :=
  (s <> messageSent /\ x' = x) \/
  (s = messageSent /\ exists n, in_flight x = S n /\
     x' = mkSend n (device x) (office x) false (nboxes x) (out x)).

Lemma irq_send po s po' :
  irq po s po' -> send_step (send_part po) s (send_part po').
Proof.
  intros (st & more & [(l1 & t & p & l2 & Hp & _ & H)|(_ & H & ->)]); [|by left].
  change (send_part po) with (send_part (later st more po)). revert H Hp.
  generalize (later st more po). clear. intros po H Hp.
  assert (sends (pending (interrupt (world po))) = pending_of NetworkSendDone ((t, p) :: l1 ++ l2)) as En
    by (unfold sends; rewrite Hp; apply pending_of_middle).
  rewrite pending_of_cons in En. destruct (Interrupt.Interrupt.handler p) eqn:Eh.
  - left. rewrite decide_False in En by (cbn; congruence).
    apply fire_poll in H as (-> & -> & _); [|done]. split; [done|]. unfold send_part. by rewrite En.
  - right. rewrite decide_True in En by done. apply fire_done in H as (-> & ->); [|done].
    split; [done|]. eexists. split; [exact En|]. done.
Qed.

(** The rules of the lock [sendLock]: one message at a time. *)
Section sending.
Context (addr n : Z) (Hn : is_s32 n) (Hj52 : Z.of_nat (List.length junk52) = MaxPacketSize)
  (Hj64 : MaxPacketSize <= Z.of_nat (List.length junk64)).

Record send_always (x : send_view) : Prop := {
  sa_device : device x = addr;
  sa_office : office x = addr;
  sa_busy : busy x = false;
  sa_boxes : nboxes x = n;
  sa_flight : (in_flight x <= 1)%nat;
  sa_out : Forall (fun d => is_mail n (s32 d.1) d.2) (out x)
}.

Definition send_free (x : send_view) (v : Z) : Prop := send_always x /\ in_flight x = 0%nat /\ v = 0.
Definition send_busy (x : send_view) (v : Z) : Prop :=
  send_always x /\ ((in_flight x = 0%nat /\ v = 1) \/ (in_flight x = 1%nat /\ v = 0)).

Definition send_shared : Shared (Office Double) send_view :=
  mkShared send_part irq (Some messageSent) send_always.

Lemma send_bump s v :
  bump send_shared s v = if decide (s = messageSent) then s32 (v + 1) else v.
Proof. unfold bump. cbn. repeat case_decide; congruence. Qed.

Lemma send_free_stable po s po' v :
  irq po s po' -> send_free (send_part po) v -> send_free (send_part po') (bump send_shared s v).
Proof.
  intros H%irq_send Hf. rewrite send_bump. pose proof Hf as (Ha & H0 & ->).
  destruct H as [[Hs ->]|[_ (m & H & _)]]; [by rewrite decide_False|congruence].
Qed.

Lemma send_busy_stable po s po' v :
  irq po s po' -> send_busy (send_part po) v -> send_busy (send_part po') (bump send_shared s v).
Proof.
  intros H%irq_send Hb. rewrite send_bump. destruct H as [[Hs ->]|[-> (m & E & ->)]]; [by rewrite decide_False|].
  rewrite decide_True by done. destruct Hb as [Ha [[? _]|[H1 ->]]]; [congruence|].
  split; [|left; split; [cbn; congruence|done]]. destruct Ha. split; cbn; by try lia.
Qed.

Lemma send_free_always x v : send_free x v -> send_always x.
Proof. by intros []. Qed.
Lemma send_busy_always x v : send_busy x v -> send_always x.
Proof. by intros []. Qed.

Definition send_free_inv : Assertion send_shared :=
  mkAssertion (sh := send_shared) send_free send_free_stable send_free_always.
Definition send_busy_inv : Assertion send_shared :=
  mkAssertion (sh := send_shared) send_busy send_busy_stable send_busy_always.

(** A packet that [network->Send] accepts, with a mail in it. *)
Definition sendable (pkt : PacketHeader) (buf : list Z) : Prop :=
  from pkt = addr /\ length pkt = mail_length (get_mail_header buf) + sizeof_MailHeader /\
  0 <= mail_length (get_mail_header buf) <= MaxMailSize /\ 0 <= to_box (get_mail_header buf) < n /\
  Z.of_nat (List.length buf) = MaxPacketSize.

Definition send_rules : Rules send_shared piece :=
  mkRules sendLock send_free_inv (fun p => exists pkt buf, p = NetSend pkt buf)
    (fun p => exists pkt mail bytes, p = StartSend pkt mail bytes)
    (fun p x v => send_free x v /\ forall pkt buf, p = NetSend pkt buf -> sendable pkt buf)
    (fun _ => send_busy_inv).

(** [PostOffice::Send] prepares such a packet. *)
Lemma Send_packet pkt mail bytes po po' us :
  Send pkt mail bytes po = Ok (po', us) ->
  po' = po /\ 0 <= to_box mail < numBoxes po /\ 0 <= mail_length mail <= MaxMailSize /\
  Z.of_nat (List.length (zslice 0 (mail_length mail) bytes)) = mail_length mail /\
  exists junk,
    let buf := put_mail_header mail ++ zslice 0 (mail_length mail) bytes ++ junk in
    us = [Acquire sendLock;
          Call (NetSend (mkPacketHeader (to pkt) (netAddr po) (mail_length mail + sizeof_MailHeader)) buf);
          P messageSent; Release sendLock] /\
    Z.of_nat (List.length buf) = MaxPacketSize.
Proof.
  intros H. unfold Send in H. apply bind_Ok in H as ([] & H1 & H).
  apply bind_Ok in H as ([] & H2 & H). cbv zeta in H.
  apply bind_Ok in H as (b1 & Hb1 & H). apply bind_Ok in H as (body & Hbody & H).
  apply bind_Ok in H as (buf & Hbuf & H). apply Ok_inj, pair_equal_spec in H as [<- <-].
  apply ASSERT_Ok in H1, H2. rewrite andb_true_iff in H2. destruct H2 as [H2 H3].
  apply Z.leb_le in H1, H2. apply Z.ltb_lt in H3.
  apply zread_inv in Hbody as (_ & Hm & Hlen & ->). apply zcopy_inv in Hb1 as (_ & _ & ->).
  pose proof (length_words (to_box mail) (from_box mail) (mail_length mail)) as Hw.
  assert (Z.of_nat (List.length (zslice 0 (mail_length mail) bytes)) = mail_length mail) as Hl
    by (by apply length_zslice).
  assert (sizeof_MailHeader + MaxMailSize = MaxPacketSize) as Hsz by done.
  apply zcopy_inv in Hbuf as (_ & _ & ->).
  rewrite (packet_buffer (put_mail_header mail)) by (done || lia).
  rewrite u32_id by (unfold is_u32, MaxMailSize, MaxPacketSize, MaxWireSize, sizeof_PacketHeader, sizeof_MailHeader in *; lia).
  split_and!; [done..|]. eexists. split; [done|].
  rewrite !length_app, !length_drop. fold (put_mail_header mail) in Hw. unfold sizeof_MailHeader in *. lia.
Qed.

(** The mail header is read back. *)
Lemma get_put_mail_header mail rest :
  is_s32 (to_box mail) -> is_s32 (from_box mail) -> is_u32 (mail_length mail) ->
  get_mail_header (put_mail_header mail ++ rest) = mail.
Proof.
  intros H1 H2 H3. unfold put_mail_header. rewrite get_mail_header_words, !s32_of_u32, u32_id by done.
  by destruct mail.
Qed.

Lemma Send_inv pkt mail bytes po po' us :
  netAddr po = addr -> numBoxes po = n -> Send pkt mail bytes po = Ok (po', us) ->
  po' = po /\ exists pkt' buf,
    us = [Acquire sendLock; Call (NetSend pkt' buf); P messageSent; Release sendLock] /\
    sendable pkt' buf.
Proof.
  intros Ha Hb H. apply Send_packet in H as (-> & Ht & Hm & _ & junk & -> & Hbuf). split; [done|].
  eexists _, _. split; [done|]. unfold sendable. rewrite Hb in Ht.
  unfold put_mail_header in *. rewrite get_mail_header_words. cbn [from length to_box mail_length].
  rewrite s32_of_u32 by (unfold is_s32 in *; lia).
  rewrite u32_id by (unfold is_u32, MaxMailSize, MaxPacketSize, MaxWireSize, sizeof_PacketHeader, sizeof_MailHeader in *; lia).
  split_and!; try done; lia.
Qed.

(** The datagram of such a packet is what the other machine expects. *)
Lemma wire_is_mail pkt buf :
  sendable pkt buf ->
  is_mail n (s32 (to pkt)) (wire pkt (zslice 0 (length pkt) buf) junk64).
Proof.
  intros (Hf & Hl & Hm & Hb & Hlen).
  assert (sizeof_MailHeader + MaxMailSize = MaxPacketSize) as Hsz by done.
  assert (sizeof_PacketHeader + MaxPacketSize = MaxWireSize) as Hsz' by done.
  assert (0 <= sizeof_PacketHeader /\ 0 <= sizeof_MailHeader) as [Hp Hq] by done.
  assert (Z.of_nat (List.length (zslice 0 (length pkt) buf)) = length pkt) as Hbytes
    by (apply length_zslice; lia).
  assert (0 <= length pkt <= MaxPacketSize) as Hl' by lia.
  destruct (wire_shape pkt (zslice 0 (length pkt) buf) junk64) as (Hw & j & E); [done|done|lia|].
  assert (get_header (wire pkt (zslice 0 (length pkt) buf) junk64) =
    mkPacketHeader (s32 (u32 (to pkt))) (s32 (u32 (from pkt))) (length pkt)) as Eh.
  { rewrite E. unfold put_header. rewrite get_header_words, (u32_id (length pkt)); [done|].
    unfold is_u32, MaxPacketSize, MaxWireSize, sizeof_PacketHeader in *. lia. }
  assert (payload (wire pkt (zslice 0 (length pkt) buf) junk64) = zslice 0 (length pkt) buf) as Ep.
  { unfold payload. rewrite Eh. cbn [length]. apply wire_payload; [done|done|lia]. }
  assert (get_mail_header (zslice 0 (length pkt) buf) = get_mail_header buf) as Em.
  { apply get_mail_header_zslice; unfold sizeof_MailHeader in *; lia. }
  split; [done|rewrite Eh; apply s32_u32|by rewrite Ep, Em, Eh|by rewrite Ep, Em|by rewrite Ep, Em].
Qed.

(** [network->Send] never fails an assertion; the host may refuse the datagram. *)
Lemma network_Send_ok pkt buf po po' v :
  send_free (send_part po) v -> sendable pkt buf -> network_Send pkt buf po = Ok po' ->
  send_busy (send_part po') v.
Proof.
  intros ([Hdev Hoff Hbusy Hbox _ Hout] & Hfl & ->) Hs H. cbn in Hdev, Hoff, Hbusy, Hbox, Hout, Hfl.
  pose proof (wire_is_mail pkt buf Hs) as Hmail.
  destruct Hs as (Hf & Hl & Hm & Hb & Hlen).
  assert (sizeof_MailHeader + MaxMailSize = MaxPacketSize /\ 0 < sizeof_MailHeader) as [Hsz Hq] by done.
  unfold network_Send in H. rewrite Send_spec in H by (congruence || lia).
  assert (sends (pending (interrupt (scheduled NetworkSendDone NetworkSendInt (world po)))) = 1%nat) as E1.
  { rewrite sends_scheduled. by rewrite decide_True, Hfl. }
  destruct (loses _ _).
  - injection H as <-. split; [|by right]. split; try done; [exact (Nat.eq_le_incl _ _ E1)|]. cbn. by rewrite app_nil_r.
  - cbv zeta in H. destruct (sendto _ _); [|done]. injection H as <-. split; [|by right].
    split; try done; [exact (Nat.eq_le_incl _ _ E1)|]. cbn. apply Forall_app. split; [done|]. by constructor.
Qed.

Lemma Send_ok pkt mail bytes po po' us :
  send_always (send_part po) -> Send pkt mail bytes po = Ok (po', us) ->
  po' = po /\ triples send_shared send_rules None us None.
Proof.
  intros [_ Ha _ Hb _ _] H. apply Send_inv in H as (-> & pkt' & buf & -> & Hs); [|done..]. split; [done|].
  eapply triples_cons; [apply triple_acquire|]. eapply triples_cons.
  { apply triple_call; [by eexists _, _|]. intros x v Hf. split; [exact Hf|]. by intros ? ? [= <- <-]. }
  eapply triples_cons; [|eapply triples_cons; [|apply triples_nil]].
  - apply (triple_P send_shared send_rules _ send_free_inv); [done|].
    intros x v (Hx & [[H0 ->]|[_ ->]]) Hv; [|done]. by split.
  - apply (triple_release send_shared send_rules). by intros x v H.
Qed.

(** The worker leaves the sending side alone. *)
Lemma Receive_inv (bs bs' : list Z) h (net net' : Network Double) :
  Network.Receive bs net = Ok (h, bs', net') -> net' = set_inHdr (set_length 0 (inHdr net)) net.
Proof. unfold Network.Receive. intros H. destruct (negb _); res_inv; by simplify_eq. Qed.

Definition taken_net po : Network Double := set_inHdr (set_length 0 (inHdr (network po))) (network po).

Lemma deliver_inv po po' us :
  deliver po = Ok (po', us) ->
  exists h buf m b, Network.Receive (buffer po) (network po) = Ok (h, buf, taken_net po) /\
    po' = set_buffer buf (set_network (taken_net po) po) /\
    us = SynchList.Append (InBox b) (boxLock b) (boxEmpty b) (Some m) ++ PostalDelivery /\
    new_Mail h (get_mail_header buf) (drop (Z.to_nat sizeof_MailHeader) buf) junk40 = Ok m.
Proof.
  intros H. apply bind_Ok in H as ([[h buf] net] & Hr & H). pose proof (Receive_inv _ _ _ _ _ Hr) as ->.
  cbv zeta in H. apply bind_Ok in H as ([] & _ & H). apply bind_Ok in H as ([] & _ & H).
  apply bind_Ok in H as (put & Hput & H). apply bind_Ok in Hput as (m & Hm & Hput).
  apply Ok_inj in Hput as <-. apply Ok_inj, pair_equal_spec in H as [<- <-].
  by exists h, buf, m, (Z.to_nat (to_box (get_mail_header buf))).
Qed.

Lemma send_sound : Sound send_shared send_rules saved saved call removeResources.
Proof.
  split; [by intros t x x' [= ->]|done|done| |].
  - intros p t x x' us v (pkt & buf & ->) [Hf Hs] H. cbn in H. apply bind_Ok in H as (po' & H & E).
    injection E as <- <-. exists send_busy_inv. split; [|apply triples_nil].
    by eapply network_Send_ok; [|apply Hs|].
  - intros p t x x' us Hp Ha H. destruct p as [pkt mail bytes|pkt buf|box|b| |b q]; cbn in H.
    + apply Send_ok in H as [-> H]; [|done]. split; [done|]. intros S HS.
      rewrite (HS ltac:(by eexists _, _, _)). exact H.
    + destruct Hp. by eexists _, _.
    + unfold Receive in H. apply bind_Ok in H as ([] & _ & H). injection H as <- <-. split; [done|].
      intros S _. apply calm_triples, Forall_app. split; [|by apply Forall_singleton; right; eexists; split_and!; [done|naive_solver..]].
      apply Remove_calm; [done|naive_solver..].
    + apply bind_Ok in H as (po & H & E). injection E as <- <-. unfold take_mail in H.
      destruct (returned _ _); [|done]. res_inv. subst. split; [done|]. intros S _. apply triples_nil.
    + apply deliver_inv in H as (h & buf & m & b & _ & -> & -> & _). split; [done|].
      intros S _. apply calm_triples, Forall_app. split; [apply Append_calm; [done|naive_solver..]|].
      apply Forall_cons. split; [by left; cbn|]. apply Forall_singleton. right. eexists. split_and!; [done|naive_solver..].
    + apply bind_Ok in H as ([l us'] & H & E). injection E as <- <-. split; [done|].
      intros S _. apply calm_triples. eapply run_calm; [done|naive_solver..|exact H].
Qed.

End sending.
(** ** The mail boxes *)
Section box.
Context (b : nat) (Hj40 : Z.of_nat (List.length junk40) = MaxMailSize).

(** What is put into the boxes. *)
Definition good_mail (o : option Mail) : Prop :=
  exists m, o = Some m /\ 0 <= mail_length (mailHdr m) <= MaxMailSize /\
    Z.of_nat (List.length (data m)) = MaxMailSize.

Lemma new_Mail_good h mh bytes m : new_Mail h mh bytes junk40 = Ok m -> good_mail (Some m).
Proof.
  intros H. apply bind_Ok in H as ([] & H1 & H). apply bind_Ok in H as (bs & H2 & H).
  apply bind_Ok in H as (d & H3 & H). injection H as <-. eexists. split; [done|].
  apply ASSERT_Ok, Z.leb_le in H1. apply zread_inv in H2 as (_ & H2 & _ & _).
  apply zcopy_inv in H3 as (H4 & H5 & ->). cbn. split; [done|]. by rewrite length_zsplice.
Qed.

Lemma fire_boxes p po s po' : fire p po = Ok (s, po') -> boxes po' = boxes po.
Proof.
  unfold fire. destruct (Interrupt.Interrupt.handler p); intros H;
    apply bind_Ok in H as ([net w] & _ & H); by injection H as _ <-.
Qed.

Lemma irq_boxes po s po' : irq po s po' -> boxes po' b = boxes po b.
Proof.
  intros (st & more & [(l1 & t & p & l2 & _ & _ & H)|(_ & _ & ->)]); [|done].
  apply fire_boxes in H. by rewrite H.
Qed.

Definition takes (p : piece) : Prop := (exists z, p = StartReceive z) \/ p = Deliver.

Lemma InBox_inj p q : InBox b p = InBox b q -> p = q.
Proof. by intros [= ->]. Qed.

Local Abbreviation bsh := (SynchList.shared (fun po => boxes po b) irq good_mail).
Local Abbreviation brules :=
  (SynchList.rules (InBox b) (boxLock b) (fun po => boxes po b) irq takes good_mail irq_boxes).

Lemma PostalDelivery_ok {Prot} {sh : Shared (Office Double) Prot} (R : Rules sh piece) :
  sh_sem sh <> Some messageAvailable -> ~ r_protected R Deliver -> triples sh R None PostalDelivery None.
Proof.
  intros H1 H2. eapply triples_cons; [by apply triple_other|].
  eapply triples_cons; [by apply triple_free|apply triples_nil].
Qed.

Lemma box_sound : Sound bsh brules saved saved call removeResources.
Proof.
  split; [by intros t x x' [= ->]|done|done| |].
  - intros p t x x' us v (q & ->) Hpre H. apply bind_Ok in H as ([l us'] & H & E).
    apply Ok_inj, pair_equal_spec in E as [<- <-].
    assert (sh_prot bsh (set_box b l x) = l) as ->.
    { cbn [SynchList.shared sh_prot]. unfold set_box. cbn [boxes]. rewrite upd_lookup. by rewrite decide_True. }
    eapply (SynchList.run_ok _ _ _ _ _ _ _ _ _ InBox_inj); [exact Hpre|exact H].
  - intros p t x x' us Hp Ha H. destruct p as [pkt mail bytes|pkt buf|box|b'| |b' q]; cbn in H.
    + apply bind_Ok in H as ([] & _ & H). apply bind_Ok in H as ([] & _ & H).
      apply bind_Ok in H as (b1 & _ & H). apply bind_Ok in H as (b2 & _ & H).
      apply bind_Ok in H as (b3 & _ & H). apply Ok_inj, pair_equal_spec in H as [<- <-]. split; [done|].
      intros S _. apply calm_triples. repeat (apply Forall_cons; split); try (by left; cbn).
      right. eexists. split_and!; [done|naive_solver|]. by intros [[]|].
    + apply bind_Ok in H as (po & H & E). apply Ok_inj, pair_equal_spec in E as [<- <-].
      apply bind_Ok in H as ([d w] & _ & H). apply Ok_inj in H as <-. split; [done|].
      intros S _. apply triples_nil.
    + apply bind_Ok in H as ([] & _ & H). apply Ok_inj, pair_equal_spec in H as [<- <-]. split; [done|].
      intros S HS. rewrite HS by (left; by eexists). unfold Get. eapply triples_app.
      * destruct (decide (Z.to_nat box = b)) as [->|Hne]; [apply SynchList.Remove_ok, InBox_inj|].
        apply calm_triples, Remove_calm; [cbn; congruence|naive_solver|]. by intros q [[]|].
      * eapply triples_cons; [|apply triples_nil]. apply triple_free; [naive_solver|done].
    + apply bind_Ok in H as (po & H & E). apply Ok_inj, pair_equal_spec in E as [<- <-]. unfold take_mail in H.
      destruct (returned _ _); [|done]. res_inv. subst. split; [done|]. intros S _. apply triples_nil.
    + apply deliver_inv in H as (h & buf & m & b' & _ & -> & -> & Hm). split; [done|].
      intros S HS. rewrite HS by (by right). eapply triples_app; [|apply PostalDelivery_ok; [done|naive_solver]].
      destruct (decide (b' = b)) as [->|Hne].
      * apply SynchList.Append_ok; [apply InBox_inj|]. by eapply new_Mail_good.
      * apply calm_triples, Append_calm; [cbn; congruence|naive_solver|]. by intros q [[]|].
    + apply bind_Ok in H as ([l us'] & H & E). apply Ok_inj, pair_equal_spec in E as [<- <-].
      assert (b' <> b) as Hne by (intros ->; apply Hp; by eexists). split.
      * cbn [SynchList.shared sh_prot]. unfold set_box. cbn [boxes]. by rewrite upd_lookup, decide_False by congruence.
      * intros S _. apply calm_triples. apply (run_calm brules b') in H; [exact H|cbn; congruence|naive_solver|by intros ? [[]|]].
Qed.

End box.

(** ** The postal worker *)
Section worker.
Context (addr n : Z) (Hj40 : Z.of_nat (List.length junk40) = MaxMailSize).

(** What the worker depends on: the device's side of an arrival, and its own buffer. *)
Record in_view := mkIn {
  in_hdr : PacketHeader;
  in_sock : list (list Z);
  in_box : list Z;
  in_addr : Z;
  in_buffer : list Z;
  in_boxes : Z;
  in_came : list (list Z)
}.

Definition in_part po : in_view :=
  mkIn (inHdr (network po)) (sock (network po)) (inbox (network po)) (ident (network po)) (buffer po)
    (numBoxes po) (came po).

Record in_ok (x : in_view) : Prop := {
  ia_sock : Forall (is_mail n addr) (in_sock x);
  ia_box : Z.of_nat (List.length (in_box x)) = MaxPacketSize;
  ia_buffer : Z.of_nat (List.length (in_buffer x)) = MaxPacketSize;
  ia_addr : in_addr x = addr;
  ia_boxes : in_boxes x = n
}.

(** As long as what came is what the office expects. *)
Definition expected (x : in_view) : Prop := Forall (is_mail n addr) (in_came x).
Definition in_always (x : in_view) : Prop := expected x -> in_ok x.

(** The device holds the packet of the datagram [g]. *)
Definition loaded (x : in_view) : Prop :=
  exists g, is_mail n addr g /\ in_hdr x = get_header g /\
    zslice 0 (length (in_hdr x)) (in_box x) = payload g.

Lemma loaded_length x : loaded x -> sizeof_MailHeader <= length (in_hdr x) <= MaxPacketSize.
Proof.
  intros (g & [_ _ Hl Hm _] & -> & _).
  assert (sizeof_MailHeader + MaxMailSize = MaxPacketSize) as Hsz by done. lia.
Qed.

Lemma later_in st more po :
  expected (in_part (later st more po)) -> in_ok (in_part po) -> in_ok (in_part (later st more po)).
Proof.
  intros Hm [H1 H2 H3 H4 H5]. apply Forall_app in Hm as [_ Hm]. split; try done. by apply Forall_app.
Qed.

Lemma fire_came p po s po' : fire p po = Ok (s, po') -> came po' = came po.
Proof.
  unfold fire. destruct (Interrupt.Interrupt.handler p); intros H;
    apply bind_Ok in H as ([net w] & _ & H); by injection H as _ <-.
Qed.

Lemma irq_came po s po' : irq po s po' -> exists more, came po' = came po ++ more.
Proof.
  intros (st & more & [(l1 & t & p & l2 & _ & _ & H)|(_ & _ & ->)]); exists more; [|done].
  by rewrite (fire_came _ _ _ _ H).
Qed.

Lemma irq_expected po s po' : irq po s po' -> expected (in_part po') -> expected (in_part po).
Proof.
  intros (more & E)%irq_came H. unfold expected in *. cbn in *. rewrite E in H. by apply Forall_app in H as [H _].
Qed.

(** A poll that finds an expected packet does not fail, and loads it. *)
Lemma poll_datagram g gs po :
  is_mail n addr g -> sock (network po) = g :: gs -> ident (network po) = addr ->
  length (inHdr (network po)) = 0 -> Z.of_nat (List.length (inbox (network po))) = MaxPacketSize ->
  exists w,
    let net := arrived (get_header g) (payload g) gs (network po) in
    CheckPktAvail NetworkReadPoll (fun w => Ok w) (network po) (world po) = Ok (net, w) /\
    Z.of_nat (List.length (inbox net)) = MaxPacketSize /\
    zslice 0 (length (get_header g)) (inbox net) = payload g.
Proof.
  intros Hg Eg Hid H0 Hbox. pose proof Hg as [G1 G2 G3 G4 G5].
  assert (sizeof_MailHeader + MaxMailSize = MaxPacketSize /\ 0 <= sizeof_MailHeader) as [Hsz Hp] by done.
  assert (sizeof_PacketHeader + MaxPacketSize = MaxWireSize /\ 0 <= sizeof_PacketHeader) as [Hsz' Hp'] by done.
  assert (Z.of_nat (List.length (payload g)) = length (get_header g)) as Hl
    by (unfold payload; apply length_zslice; lia).
  eexists _. cbv zeta.
  split; [apply (CheckPktAvail_datagram NetworkReadPoll (fun w => Ok w) g gs); [done|congruence|lia|done|done|done]|].
  cbn [arrived set_inbox inbox]. split; [rewrite length_zsplice; [done|lia|lia]|].
  rewrite <- Hl. apply zslice_zsplice; lia.
Qed.

Lemma poll_ok po :
  in_ok (in_part po) -> packet_waits po ->
  exists net w, CheckPktAvail NetworkReadPoll (fun w => Ok w) (network po) (world po) = Ok (net, w) /\
    let po' := set_network net (set_world w po) in
    in_ok (in_part po') /\ loaded (in_part po').
Proof.
  intros [H1 H2 H3 H4 H5] [H0 Hs]. cbn in H1, H2, H3, H4, H5.
  destruct (sock (network po)) as [|g gs] eqn:Eg; [done|]. apply Forall_cons in H1 as [Hg Hgs].
  destruct (poll_datagram g gs po) as (w & E & Hb & Hp); [done..|].
  eexists _, w. split; [exact E|]. split; [by split|]. exists g. by split_and!.
Qed.

Lemma irq_in po s po' :
  irq po s po' -> expected (in_part po') -> in_ok (in_part po) ->
  in_ok (in_part po') /\
  ((s <> messageAvailable /\ in_hdr (in_part po') = in_hdr (in_part po) /\ in_box (in_part po') = in_box (in_part po)) \/
   (s = messageAvailable /\ length (in_hdr (in_part po)) = 0 /\ loaded (in_part po'))).
Proof.
  intros (st & more & H) Hx Ha. apply (later_in st more) in Ha.
  2: { destruct H as [(l1 & t & p & l2 & _ & _ & H)|(_ & _ & ->)]; [|done].
    unfold expected in *. cbn in Hx. by rewrite (fire_came _ _ _ _ H) in Hx. }
  clear Hx.
  change (in_hdr (in_part po)) with (in_hdr (in_part (later st more po))).
  change (in_box (in_part po)) with (in_box (in_part (later st more po))).
  revert H Ha. cbv zeta. generalize (later st more po). clear po more. intros po H Ha.
  destruct H as [(l1 & t & p & l2 & Hp & Hw & H)|(H & _ & ->)]; [|by split; [|left]].
  unfold fire in H. destruct (Interrupt.Interrupt.handler p).
  - destruct (poll_ok (remove_pending (l1 ++ l2) po)) as (net & w & E & Ha' & Hl); [done|by apply Hw|].
    rewrite E in H. apply Ok_inj, pair_equal_spec in H as [<- <-]. split; [exact Ha'|].
    right. split; [done|]. split; [by apply Hw|exact Hl].
  - apply Ok_inj, pair_equal_spec in H as [<- <-]. split; [by destruct Ha|by left].
Qed.

(** *** The rules

    No lock protects the worker's side of the device: only the worker uses it.  Its
    exclusive use is a lock that no code names and that the worker always has. *)
Definition postman : nat := 1.

Definition in_shared : Shared (Office Double) in_view :=
  mkShared in_part irq (Some messageAvailable) in_always.

Definition at_rest (x : in_view) (v : Z) : Prop :=
  expected x -> in_ok x /\ ((length (in_hdr x) = 0 /\ v = 0) \/ (loaded x /\ v = 1)).
Definition ready (x : in_view) (v : Z) : Prop := expected x -> in_ok x /\ loaded x /\ v = 0.

Lemma in_bump s v : bump in_shared s v = if decide (s = messageAvailable) then s32 (v + 1) else v.
Proof. unfold bump. cbn. repeat case_decide; congruence. Qed.

Lemma loaded_same x x' : in_hdr x' = in_hdr x -> in_box x' = in_box x -> loaded x -> loaded x'.
Proof. unfold loaded. by intros -> ->. Qed.

Lemma in_rest_stable po s po' v :
  irq po s po' -> at_rest (in_part po) v -> at_rest (in_part po') (bump in_shared s v).
Proof.
  intros Hi Hr Hx. destruct Hr as [Ha Hv]; [by eapply irq_expected|].
  apply irq_in in Hi as [Ha' Hi]; [|done..]. split; [done|]. rewrite in_bump.
  destruct Hi as [(Hs & E1 & E2)|(-> & H0 & Hl)].
  - rewrite decide_False by done. destruct Hv as [[H0 ->]|[Hl ->]]; [left; by rewrite E1|right].
    split; [by eapply loaded_same|done].
  - rewrite decide_True by done. destruct Hv as [[_ ->]|[Hl' _]]; [by right|].
    apply loaded_length in Hl'. unfold sizeof_MailHeader in Hl'. lia.
Qed.

Lemma ready_stable po s po' v :
  irq po s po' -> ready (in_part po) v -> ready (in_part po') (bump in_shared s v).
Proof.
  intros Hi Hr Hx. destruct Hr as (Ha & Hl & ->); [by eapply irq_expected|].
  apply irq_in in Hi as [Ha' Hi]; [|done..]. rewrite in_bump.
  destruct Hi as [(Hs & E1 & E2)|(-> & H0 & _)].
  - rewrite decide_False by done. split_and!; [done|by eapply loaded_same|done].
  - apply loaded_length in Hl. unfold sizeof_MailHeader in Hl. lia.
Qed.

Lemma at_rest_always x v : at_rest x v -> in_always x.
Proof. intros H Hx. by apply H. Qed.
Lemma ready_always x v : ready x v -> in_always x.
Proof. intros H Hx. by apply H. Qed.

Definition at_rest_inv : Assertion in_shared :=
  mkAssertion (sh := in_shared) at_rest in_rest_stable at_rest_always.
Definition ready_inv : Assertion in_shared :=
  mkAssertion (sh := in_shared) ready ready_stable ready_always.
Definition in_rules : Rules in_shared piece :=
  mkRules postman at_rest_inv (fun p => p = Deliver) (fun _ => False) (fun _ => ready) (fun _ => never).

(** The mail that a datagram carries. *)
Definition mail_in (g : list Z) : Mail :=
  let mh := get_mail_header (payload g) in
  mkMail (get_header g) mh (zsplice 0 (zslice sizeof_MailHeader (mail_length mh) (payload g)) junk40).

Definition box_of (g : list Z) : nat := Z.to_nat (to_box (get_mail_header (payload g))).

(** One round of the worker: it passes the checks, and puts the mail into its box. *)
Lemma deliver_ok po :
  Z.of_nat (List.length (inbox (network po))) = MaxPacketSize ->
  Z.of_nat (List.length (buffer po)) = MaxPacketSize -> numBoxes po = n -> loaded (in_part po) ->
  exists g buf, is_mail n addr g /\ in_hdr (in_part po) = get_header g /\
    zslice 0 (length (get_header g)) (in_box (in_part po)) = payload g /\
    Z.of_nat (List.length buf) = MaxPacketSize /\
    deliver po = Ok (set_buffer buf (set_network (taken_net po) po),
      SynchList.Append (InBox (box_of g)) (boxLock (box_of g)) (boxEmpty (box_of g)) (Some (mail_in g))
        ++ PostalDelivery).
Proof.
  intros H2 H3 H5 (g & Hg & Eh & Ep). pose proof Hg as [G1 G2 G3 G4 G5].
  assert (sizeof_MailHeader + MaxMailSize = MaxPacketSize /\ 0 < sizeof_MailHeader) as [Hsz Hp] by done.
  cbn [in_part in_hdr in_box in_buffer in_boxes in_addr in_sock] in *. rewrite Eh in Ep.
  set (buf := zsplice 0 (payload g) (buffer po)).
  assert (Z.of_nat (List.length (payload g)) = length (get_header g)) as Hl
    by (rewrite <- Ep; apply length_zslice; lia).
  assert (Z.of_nat (List.length buf) = MaxPacketSize) as Hbuf by (unfold buf; rewrite length_zsplice; lia).
  assert (zslice 0 (length (get_header g)) buf = payload g) as Eb.
  { unfold buf. rewrite <- Hl. apply zslice_zsplice; lia. }
  assert (get_mail_header buf = get_mail_header (payload g)) as Em.
  { rewrite <- Eb. symmetry. apply get_mail_header_zslice. lia. }
  assert (new_Mail (get_header g) (get_mail_header (payload g)) (drop (Z.to_nat sizeof_MailHeader) buf) junk40
    = Ok (mail_in g)) as Enew.
  { unfold new_Mail. rewrite ASSERT_true by (apply Z.leb_le; lia). cbn [bind].
    assert (zread 0 (mail_length (get_mail_header (payload g))) (drop (Z.to_nat sizeof_MailHeader) buf) =
      Ok (zslice sizeof_MailHeader (mail_length (get_mail_header (payload g))) (payload g))) as ->.
    { rewrite zread_Ok by (rewrite ?length_drop; lia). f_equal. revert G3 G4.
      generalize (mail_length (get_mail_header (payload g))). intros ml G3 G4. rewrite <- Eb.
      rewrite zslice_zslice by lia. done. }
    cbn [bind]. rewrite zcopy_Ok; [done|lia|]. rewrite length_zslice; lia. }
  exists g, buf. split_and!; [done..|]. unfold deliver.
  rewrite Receive_spec by (rewrite ?Eh; lia). rewrite Eh, Ep. cbn [bind]. fold buf. rewrite Em.
  rewrite ASSERT_true by (rewrite H5; apply andb_true_iff; split; [apply Z.leb_le|apply Z.ltb_lt]; lia).
  cbn [bind]. rewrite ASSERT_true by (apply Z.leb_le; lia). cbn [bind]. unfold Put. rewrite Enew. cbn [bind].
  unfold taken_net. by rewrite Eh.
Qed.

Lemma network_Send_in pkt buf po po' : network_Send pkt buf po = Ok po' -> in_part po' = in_part po.
Proof.
  intros H. apply bind_Ok in H as ([d w] & Hs & H). apply Send_frame in Hs as ->. by apply Ok_inj in H as <-.
Qed.

Lemma in_sound : Sound in_shared in_rules saved saved call removeResources.
Proof.
  split; [by intros t x x' [= ->]|done|done| |].
  - intros p t x x' us v Hp Hr H. cbn in Hp. subst p. cbn [call] in H.
    pose proof (deliver_inv _ _ _ H) as (h & buf & m & b & _ & -> & -> & _). exists at_rest_inv. split.
    + intros Hx. destruct (Hr Hx) as (Ha & Hl & ->).
      destruct (deliver_ok x) as (g & buf' & _ & _ & _ & Hbuf & E); [by destruct Ha..|exact Hl|]. rewrite E in H.
      apply Ok_inj, pair_equal_spec in H as [H _]. injection H as H. rewrite H in Hbuf.
      split; [destruct Ha; by split|by left].
    + eapply triples_app; [apply calm_triples, Append_calm; [done|by intros ? [=]|by intros ? []]|].
      eapply triples_cons; [|eapply triples_cons; [|apply triples_nil]].
      * apply (triple_P in_shared in_rules _ ready_inv); [done|].
        intros x0 v1 Hrest Hv1 Hx. destruct (Hrest Hx) as (Hok & [[_ ->]|[Hl ->]]); [done|by split].
      * by apply triple_call.
  - intros p t x x' us Hp Ha H. destruct p as [pkt mail bytes|pkt buf|box|b| |b q]; cbn in H.
    + apply bind_Ok in H as ([] & _ & H). apply bind_Ok in H as ([] & _ & H).
      apply bind_Ok in H as (b1 & _ & H). apply bind_Ok in H as (b2 & _ & H).
      apply bind_Ok in H as (b3 & _ & H). apply Ok_inj, pair_equal_spec in H as [<- <-]. split; [done|].
      intros S _. apply calm_triples. repeat (apply Forall_cons; split); try (by left; cbn).
      right. eexists. split_and!; [done|by intros [=]|by intros []].
    + apply bind_Ok in H as (po & H & E). apply Ok_inj, pair_equal_spec in E as [<- <-].
      split; [by eapply network_Send_in|]. intros S _. apply triples_nil.
    + apply bind_Ok in H as ([] & _ & H). apply Ok_inj, pair_equal_spec in H as [<- <-]. split; [done|].
      intros S _. apply calm_triples, Forall_app. split; [apply Remove_calm; [done|by intros ? [=]|by intros ? []]|].
      apply Forall_singleton. right. eexists. split_and!; [done|by intros [=]|by intros []].
    + apply bind_Ok in H as (po & H & E). apply Ok_inj, pair_equal_spec in E as [<- <-]. unfold take_mail in H.
      destruct (returned _ _); [|done]. res_inv. subst. split; [done|]. intros S _. apply triples_nil.
    + by destruct Hp.
    + apply bind_Ok in H as ([l us'] & H & E). apply Ok_inj, pair_equal_spec in E as [<- <-]. split; [done|].
      intros S _. apply calm_triples. apply (run_calm in_rules b) in H; [done|done|by intros ? [=]|by intros ? []].
Qed.

End worker.

(** ** Programs that send and receive mail

    The objects are as the constructor makes them, and its thread is started. *)
Inductive action :=
  | SendMail (pkt : PacketHeader) (mail : MailHeader) (data : list Z)
  | ReceiveMail (box : Z).

Definition code (a : action) : list (ucall piece) :=
  match a with
  | SendMail pkt mail bytes => [Call (StartSend pkt mail bytes)]
  | ReceiveMail box => [Call (StartReceive box)]
  end.

Definition worker_thread : nat := 1.

Definition office_locks (l : nat) : Lock :=
  if decide (l = postman) then mkLock false (Some worker_thread) else new_Lock.

Definition opened (ps : list (prog action)) po : Kernel (Office Double) piece :=
  boot (Fork worker_thread PostalHelper :: flat_map (compile code) ps) po
    (fun _ => new_Semaphore 0) office_locks (fun _ => new_Condition) (fun _ => new_Mutex)
    (fun _ => new_Barrier 2).

Definition start (ps : list (prog action)) po : Kernel (Office Double) piece :=
  match step saved saved call removeResources (opened ps po) with
  | Ok (_, k) => k
  | _ => opened ps po
  end.

Lemma start_step ps po :
  step saved saved call removeResources (opened ps po) = Ok ([], start ps po).
Proof.
  unfold start. assert (exists k, step saved saved call removeResources (opened ps po) = Ok ([], k)) as [k ->]; [|done].
  vm_compute. by eexists.
Qed.

Lemma start_wf ps po : wf (start ps po).
Proof.
  eapply (sys_step_wf saved saved call removeResources irq); [apply boot_wf|].
  apply step_run, start_step.
Qed.

Lemma start_threads ps po t :
  threads (start ps po) !! t =
    if decide (t = 0%nat) then Some (mkThread RUNNING (map Do (flat_map (compile code) ps)) None)
    else if decide (t = worker_thread) then Some (mkThread READY (map Do (Enable :: PostalHelper)) None)
    else None.
Proof.
  change (threads (start ps po)) with
    (<[0%nat := mkThread RUNNING (map Do (flat_map (compile code) ps)) None]>
      (<[worker_thread := mkThread READY (map Do (Enable :: PostalHelper)) None]>
        (<[worker_thread := mkThread JUST_CREATED (map Do (Enable :: PostalHelper)) None]>
          (threads (opened ps po))))).
  destruct (decide (t = 0%nat)) as [->|H0]; [by rewrite lookup_insert_eq|].
  rewrite lookup_insert_ne by done. destruct (decide (t = worker_thread)) as [->|H1]; [by rewrite lookup_insert_eq|].
  rewrite !lookup_insert_ne by done. cbn. by rewrite lookup_singleton_ne.
Qed.

Lemma start_codes ps po t :
  codes (start ps po) t =
    if decide (t = 0%nat) then Some (map Do (flat_map (compile code) ps))
    else if decide (t = worker_thread) then Some (map Do (Enable :: PostalHelper)) else None.
Proof. unfold codes. rewrite start_threads. by repeat case_decide. Qed.

(** The three sets of rules hold at the start, so they hold in every state. *)
Lemma start_monitor {Prot} (sh : Shared (Office Double) Prot) (R : Rules sh piece) ps po es k :
  sh_irq sh = irq -> Sound sh R saved saved call removeResources ->
  r_lock R <> postman -> sh_sem sh <> Some messageAvailable -> ~ r_protected R Deliver ->
  r_inv R (sh_prot sh po) 0 -> (forall a, triples sh R None (code a) None) ->
  runs saved saved call removeResources irq (start ps po) es k -> monitor_ok sh R k.
Proof.
  intros <- Hs Hl Hsem Hd HI Hc Hr.
  eapply (runs_monitor sh R _ _ _ _ Hs); [apply start_wf| |exact Hr].
  eapply (sys_step_monitor sh R _ _ _ _ Hs); [apply boot_wf| |apply step_run, start_step].
  apply boot_monitor.
  - cbn. unfold office_locks. by rewrite decide_False.
  - by destruct (sh_sem sh).
  - eapply triples_cons; [apply triple_fork; by apply PostalDelivery_ok|].
    apply (program_ok R code (fun _ => True)); [auto|]. apply Forall_true, all_ops_true.
Qed.

Lemma worker_monitor addr n ps po es k
    (Hj40 : Z.of_nat (List.length junk40) = MaxMailSize) :
  at_rest addr n (in_part po) 0 ->
  runs saved saved call removeResources irq (start ps po) es k ->
  monitor_ok (in_shared addr n) (in_rules addr n) k.
Proof.
  intros Hpo Hr. eapply (runs_monitor _ _ _ _ _ _ (in_sound addr n Hj40)); [apply start_wf| |exact Hr].
  split.
  - split.
    + intros t c. rewrite start_codes. change (locks (start ps po) postman) with (mkLock false (Some worker_thread)).
      destruct (decide (t = 0%nat)) as [->|H0]; [|destruct (decide (t = worker_thread)) as [->|H1]; [|done]];
        intros E; apply (inj Some) in E as <-.
      * rewrite <- (app_nil_r (map _ _)). eapply code_app; [|apply code_nil].
        apply (program_ok _ code (fun _ => True)); [|apply Forall_true, all_ops_true].
        intros a _. apply calm_triples. destruct a; apply Forall_singleton; right;
          eexists; (split_and!; [done|by intros [=]|by intros []]).
      * exists (at_rest_inv addr n). split; [exact Hpo|]. rewrite <- (app_nil_r (map Do (_ :: _))).
        eapply code_app; [|apply code_nil]. eapply triples_cons; [by apply triple_other|].
        eapply triples_cons; [apply (triple_P (in_shared addr n) (in_rules addr n) _ (ready_inv addr n)); [done|]|].
        { intros x0 v1 Hrest Hv1 Hx. destruct (Hrest Hx) as (Hok & [[_ ->]|[Hld ->]]); [done|by split]. }
        apply triples_never. eapply triples_cons; [by apply triple_call|apply triples_nil].
    + done.
    + intros _. exists worker_thread. split; [done|]. rewrite start_codes. done.
  - intros t th j. rewrite start_threads. repeat case_decide; intros E; [..|done]; by apply (inj Some) in E as <-.
Qed.

(** What the constructor makes. *)
Lemma new_inv addr reliability n t h0 inbox0 buf0 w po us :
  new addr reliability n t h0 inbox0 buf0 w = Ok (po, us) ->
  send_part po = mkSend (sends (pending (interrupt w))) addr addr false n [] /\
  in_part po = mkIn (set_length 0 h0) [] inbox0 addr buf0 n [] /\
  forall b, boxes po b = SynchList.empty tt.
Proof.
  intros H. apply bind_Ok in H as ([net w'] & Hn & H). apply Ok_inj, pair_equal_spec in H as [<- _].
  apply bind_Ok in Hn as (w1 & Hw & Hn). apply Ok_inj, pair_equal_spec in Hn as [<- <-].
  rewrite Schedule_network in Hw. apply Ok_inj in Hw as <-. split; [|done].
  unfold send_part. f_equal. apply (sends_scheduled NetworkReadPoll NetworkRecvInt w).
Qed.

(** ** Theorems *)


(** C17: the sending side works in every execution, whenever the interrupts come: at most one
    packet is on its way, so [Network::Send] finds the device free and its packet well formed
    and fails no assertion (it can only fail when the host refuses the datagram); every
    datagram sent is what a post office with at least as many boxes, on the machine it is
    for, expects; and [Send] gives back its lock only when the interrupt for its packet
    came.  (The sender checks the box against its own number of boxes: a post office with
    fewer boxes may stop at the datagram.) *)
Theorem mail_sending_correct addr reliability n h0 inbox0 buf0 w po us ps es k :
  Z.of_nat (List.length junk52) = MaxPacketSize -> MaxPacketSize <= Z.of_nat (List.length junk64) ->
  is_s32 n -> sends (pending (interrupt w)) = 0%nat ->
  new addr reliability n worker_thread h0 inbox0 buf0 w = Ok (po, us) ->
  runs saved saved call removeResources irq (start ps po) es k ->
  let x := client k in
  let t := currentThread k in
  (sends (pending (interrupt (world x))) <= 1)%nat /\
  (forall n', n <= n' -> Forall (fun d => is_mail n' (s32 d.1) d.2) (sent x)) /\
  (forall pkt buf rest, codes k t = Some (Do (Call (NetSend pkt buf)) :: rest) ->
     available (locks k sendLock) = false /\ owner (locks k sendLock) = Some t /\
     sends (pending (interrupt (world x))) = 0%nat /\
     let d := (to pkt, wire pkt (zslice 0 (length pkt) buf) junk64) in
     if loses (Random (draws x)) (chanceToWork (network x)) then
       exists x', call (NetSend pkt buf) t x = Ok (x', []) /\ sent x' = sent x
     else if sendto d.1 d.2 then
       exists x', call (NetSend pkt buf) t x = Ok (x', []) /\ sent x' = sent x ++ [d]
     else call (NetSend pkt buf) t x = Abort) /\
  (forall rest, codes k t = Some (Do (Release sendLock) :: rest) ->
     sends (pending (interrupt (world x))) = 0%nat /\ value (sems k messageSent) = 0).
Proof.
  intros H52 H64 Hn Hw Hnew Hr. apply new_inv in Hnew as (Esend & _ & _). rewrite Hw in Esend.
  assert (monitor_ok (send_shared addr n) (send_rules addr n) k) as Hm.
  { eapply start_monitor; [done|by apply send_sound|done|done|naive_solver| | |exact Hr].
    - cbn. rewrite Esend. split; [by split; cbn; try lia|done].
    - intros a. destruct a; (eapply triples_cons; [|apply triples_nil]); apply triple_free; naive_solver. }
  destruct (monitor_always _ _ _ Hm) as [_ _ _ _ H1 Hout]. split_and!; [exact H1| |..].
  { intros n' Hn'. eapply Forall_impl; [exact Hout|]. intros d. by apply is_mail_more. }
  - intros pkt buf rest Hc. apply (monitor_pre _ _ _ _ _ Hm) in Hc as [Hh [Hf Hs]]; [|by eexists _, _].
    specialize (Hs _ _ eq_refl). destruct (held_locked _ _ Hh) as [Ha Ho].
    split; [exact Ha|]. split; [exact Ho|]. destruct Hf as ([Hdev Hoff Hbusy Hbox _ _] & Hfl & _).
    split; [exact Hfl|]. cbn in Hdev, Hbusy. destruct Hs as (Hfrom & Hl & Hml & _ & Hlen).
    assert (sizeof_MailHeader + MaxMailSize = MaxPacketSize /\ 0 < sizeof_MailHeader) as [Hsz Hq] by done.
    cbv zeta. cbn [call fst snd]. unfold network_Send. rewrite Send_spec by (congruence || lia).
    destruct (loses _ _); [|cbv zeta; destruct (sendto _ _); [|done]]; cbn [bind].
    + eexists. split; [done|]. cbn. by rewrite app_nil_r.
    + by eexists.
  - intros rest Hc. apply (monitor_release _ _ _ _ Hm) in Hc as (_ & Hf & Hv). split; [exact Hf|exact Hv].
Qed.

Lemma returned_snoc t l m : returned t (l ++ [(t, Some m)]) = Some m.
Proof.
  unfold returned. rewrite filter_app, filter_cons_True by done. cbn [filter list_filter].
  by rewrite last_snoc.
Qed.

(** The last calls of [MailBox::Get] for the first mail of a box. *)
Lemma first_mail b t po m ms bytes :
  SynchList.list (boxes po b) = Some m :: ms -> mail_length (mailHdr m) <= MaxMailSize ->
  zread 0 (mail_length (mailHdr m)) (data m) = Ok bytes ->
  exists po1 po2, call (InBox b SynchList.ListRemove) t po = Ok (po1, []) /\
    SynchList.list (boxes po1 b) = ms /\
    call (TakeMail b) t po1 = Ok (po2, []) /\ taken po2 = taken po ++ [(t, (pktHdr m, mailHdr m, bytes))].
Proof.
  intros Hl Hm Hb. cbn [call SynchList.run]. rewrite Hl. cbn [bind head default tail].
  eexists _, _. split; [done|]. unfold set_box, take_mail. cbn [boxes]. rewrite !upd_lookup, !decide_True by done.
  cbn [SynchList.list SynchList.removed id]. split; [done|]. rewrite returned_snoc, Hb. cbn [bind].
  rewrite ASSERT_true by (by apply Z.leb_le). by split.
Qed.

(** C26: mail arrives as it was sent.  Let the packet that [Send] prepares be sent and not
    lost, and let its datagram be the next in the socket of the machine [to pkt], whose
    device is free and whose post office has the box [to_box mail].  Then the next poll of
    that device takes it and announces it; the postal worker puts a mail into that box; and
    a thread that gets this mail gets the headers and the bytes of the sender. *)
Theorem mail_roundtrip pkt mail bytes po po' hdr buf po1 po1' addr g gs po2 poll :
  let b := Z.to_nat (to_box mail) in
  Z.of_nat (List.length junk52) = MaxPacketSize -> MaxPacketSize <= Z.of_nat (List.length junk64) ->
  Z.of_nat (List.length junk40) = MaxMailSize ->
  is_s32 (numBoxes po) -> is_s32 (netAddr po) -> is_s32 (to pkt) -> is_s32 (from_box mail) ->
  Send pkt mail bytes po =
    Ok (po', [Acquire sendLock; Call (NetSend hdr buf); P messageSent; Release sendLock]) ->
  network_Send hdr buf po1 = Ok po1' -> sent po1' = sent po1 ++ [(addr, g)] ->
  ident (network po2) = to pkt -> to_box mail < numBoxes po2 ->
  length (inHdr (network po2)) = 0 -> sock (network po2) = g :: gs ->
  Z.of_nat (List.length (inbox (network po2))) = MaxPacketSize ->
  Z.of_nat (List.length (buffer po2)) = MaxPacketSize ->
  Interrupt.Interrupt.handler poll = NetworkReadPoll ->
  addr = to pkt /\ hdr = mkPacketHeader (to pkt) (netAddr po) (mail_length mail + sizeof_MailHeader) /\
  exists po3 po4 m, fire poll po2 = Ok (messageAvailable, po3) /\ sock (network po3) = gs /\
    deliver po3 = Ok (po4, SynchList.Append (InBox b) (boxLock b) (boxEmpty b) (Some m) ++ PostalDelivery) /\
    (forall po5 t, exists po6, call (InBox b (SynchList.ListAppend (Some m))) t po5 = Ok (po6, []) /\
       SynchList.list (boxes po6 b) = SynchList.list (boxes po5 b) ++ [Some m]) /\
    (forall po5 t ms, SynchList.list (boxes po5 b) = Some m :: ms ->
       exists po6 po7, call (InBox b SynchList.ListRemove) t po5 = Ok (po6, []) /\
         SynchList.list (boxes po6 b) = ms /\ call (TakeMail b) t po6 = Ok (po7, []) /\
         taken po7 = taken po5 ++ [(t, (hdr, mail, zslice 0 (mail_length mail) bytes))]).
Proof.
  intros b H52 H64 H40 Hn Ha Hto Hfrom HS Hnet Hsent Hid Hbox2 H0 Hsock Hinbox Hbuffer Hpoll.
  apply bind_Ok in Hnet as ([d w'] & Hnet & E). apply Ok_inj in E as <-.
  apply app_inv_head in Hsent. destruct d as [d|]; [|done]. injection Hsent as ->.
  apply Send_sent in Hnet as (_ & _ & _ & -> & -> & _).
  apply Send_packet in HS as HP; [|done]. destruct HP as (_ & Hb & Hm & Hl & junk & E & Hbuf).
  injection E as Ehdr Ebuf.
  change (buf = put_mail_header mail ++ zslice 0 (mail_length mail) bytes ++ junk) in Ebuf.
  assert (sizeof_MailHeader + MaxMailSize = MaxPacketSize /\ 0 < sizeof_MailHeader) as [Hsz Hq] by done.
  assert (sizeof_PacketHeader + MaxPacketSize = MaxWireSize /\ 0 < sizeof_PacketHeader) as [Hsz' Hq'] by done.
  assert (is_u32 MaxMailSize /\ is_u32 MaxPacketSize) as [U1 U2] by done.
  assert (length hdr = mail_length mail + sizeof_MailHeader) as El by (by rewrite Ehdr).
  assert (Z.of_nat (List.length buf) = MaxPacketSize) as Hlen by (by rewrite Ebuf).
  set (g := wire hdr (zslice 0 (length hdr) buf) junk64) in *.
  assert (Z.of_nat (List.length (zslice 0 (length hdr) buf)) = length hdr) as Hbytes
    by (apply length_zslice; lia).
  assert (get_header g = hdr) as Eh.
  { apply wire_header; [|done|lia..]. rewrite Ehdr. split_and!; [done..|]. cbn. unfold is_u32 in *. lia. }
  assert (payload g = zslice 0 (length hdr) buf) as Ep.
  { unfold payload. rewrite Eh. apply wire_payload; [done|lia..]. }
  assert (get_mail_header (payload g) = mail) as Em.
  { rewrite Ep, get_mail_header_zslice, Ebuf by lia.
    apply get_put_mail_header; [|done|]; unfold is_s32, is_u32 in *; lia. }
  assert (is_mail (numBoxes po2) (to pkt) g) as Hmail.
  { destruct (wire_shape hdr (zslice 0 (length hdr) buf) junk64) as [Hw _]; [done|lia..|].
    split; rewrite ?Em, ?Eh; [done|by rewrite Ehdr|lia..]. }
  split; [by rewrite Ehdr|]. split; [done|].
  destruct (poll_datagram (to pkt) (numBoxes po2) g gs po2) as (w & Epoll & Hbox & Hpay); [done..|].
  set (net := arrived _ _ _ _) in *. set (po3 := set_network net (set_world w po2)).
  destruct (deliver_ok (to pkt) (numBoxes po2) H40 po3) as (g' & buf' & Hg' & Eh' & Ep' & _ & Ed); [done..| |].
  { exists g. by split_and!. }
  change (get_header g = get_header g') in Eh'.
  change (zslice 0 (length (get_header g')) (inbox net) = payload g') in Ep'.
  rewrite <- Eh', Hpay in Ep'. set (m := mail_in g).
  assert (mail_in g' = m) as Em' by (unfold m, mail_in; by rewrite <- Ep', <- Eh').
  assert (box_of g' = b) as Eb by (unfold box_of, b; by rewrite <- Ep', Em).
  rewrite Em', Eb in Ed. exists po3. eexists _, m. split_and!.
  - unfold fire. rewrite Hpoll, Epoll. done.
  - done.
  - exact Ed.
  - intros po5 t. eexists. split; [done|]. unfold set_box. cbn [boxes]. by rewrite upd_lookup, decide_True.
  - intros po5 t ms Hms.
    destruct (first_mail b t po5 m ms (zslice 0 (mail_length mail) bytes)) as (po6 & po7 & E1 & E2 & E3 & E4).
    + exact Hms.
    + unfold m, mail_in. cbn [mailHdr]. rewrite Em. lia.
    + unfold m, mail_in. cbn [mailHdr data]. rewrite Em, Ep, zslice_zslice by lia.
      assert (zslice sizeof_MailHeader (mail_length mail) buf = zslice 0 (mail_length mail) bytes) as ->
        by (rewrite Ebuf; apply zslice_app; [apply length_words|done]).
      rewrite zread_Ok by (rewrite ?length_zsplice; lia). f_equal.
      pose proof (zslice_zsplice 0 (zslice 0 (mail_length mail) bytes) junk40) as E. rewrite Hl in E. by apply E; lia.
    + exists po6, po7. rewrite E4. unfold m, mail_in. cbn [pktHdr mailHdr]. by rewrite Eh, Em.
Qed.


End code.
(** ** Witness: a machine that sends mail to itself *)
Module Sample.

Definition waits_b (po : Office unit) : bool :=
  (length (inHdr (network po)) =? 0) && match sock (network po) with [] => false | _ => true end.

Definition is_mail_b (n addr : Z) (g : list Z) : bool :=
  let m := get_mail_header (payload g) in
  (Z.of_nat (List.length g) =? MaxWireSize) && (to (get_header g) =? addr) &&
  (length (get_header g) =? mail_length m + sizeof_MailHeader) &&
  ((0 <=? mail_length m) && (mail_length m <=? MaxMailSize)) && ((0 <=? to_box m) && (to_box m <? n)).

Lemma waits_b_ok po : waits_b po = true -> packet_waits po.
Proof.
  unfold waits_b, packet_waits. rewrite andb_true_iff, Z.eqb_eq. intros [H1 H2]. split; [done|].
  by destruct (sock (network po)).
Qed.

Lemma is_mail_b_ok n addr g : is_mail_b n addr g = true -> is_mail n addr g.
Proof.
  unfold is_mail_b. rewrite !andb_true_iff, !Z.eqb_eq, !Z.leb_le, Z.ltb_lt. intros ((((? & ?) & ?) & ?) & ?). by split.
Qed.

(** An interrupt of the device, with what came in the meantime. *)
Definition poll_ready (p : PendingInterrupt handler) (po : Office unit) : bool :=
  match Interrupt.Interrupt.handler p with NetworkReadPoll => waits_b po | NetworkSendDone => true end.

Definition move (m : nat * list (list Z)) (x : Office unit) : res (nat * Office unit) :=
  let '(i, more) := m in
  let y := later Stats.new more x in
  match pending (interrupt (world y)) !! i with
  | None => UB
  | Some (_, p) =>
      ASSERT (poll_ready p y);;
      fire p (remove_pending (take i (pending (interrupt (world y))) ++
                              drop (S i) (pending (interrupt (world y)))) y)
  end.

Lemma move_irq m x s x' : move m x = Ok (s, x') -> irq x s x'.
Proof.
  destruct m as [i more]. unfold move. destruct (_ !! i) as [[t p]|] eqn:Ei; [|done]. intros H.
  apply bind_Ok in H as ([] & Hp & Hf). apply ASSERT_Ok in Hp. exists Stats.new, more. cbv zeta.
  - left. eexists _, t, p, _. split; [symmetry; by apply take_drop_middle|]. split; [|exact Hf].
    unfold poll_ready in Hp. intros E. rewrite E in Hp. by apply waits_b_ok.
Qed.

Definition no_loss (r : Z) (c : unit) : bool := false.
Definition sends_all (a : Z) (g : list Z) : bool := true.
Definition random (i : nat) : Z := 0.
Definition j52 : list Z := replicate 52 0.
Definition j64 : list Z := replicate 64 0.
Definition j40 : list Z := replicate 40 0.

Definition office_call : piece -> nat -> Office unit -> res (Office unit * list (ucall piece)) :=
  call no_loss sends_all random j52 j64 j40.

Definition at_boot : World unit handler := mkWorld None Interrupt.new Stats.new tt.

Definition office0 : res (Office unit * list (ucall piece)) :=
  new tt tt (fun _ => false) (fun _ => false) 1 tt 2 worker_thread (mkPacketHeader 0 0 0) j52 j52 at_boot.

Definition letter : MailHeader := mkMailHeader 0 1 3.
Definition wrapped : PacketHeader := mkPacketHeader 1 1 15.
Definition packet : list Z := put_mail_header letter ++ [7; 8; 9] ++ replicate 37 0.
Definition datagram : list Z := wire wrapped (zslice 0 15 packet) j64.

Definition exchange : list (prog action) :=
  [ForkOf 2 [Op (ReceiveMail 0)]; Op (SendMail (mkPacketHeader 1 0 0) letter [7; 8; 9])].

Definition office_state : Office unit :=
  match office0 with Ok (po, _) => po | _ => mkOffice (mkWorld None Interrupt.new Stats.new
    (mkNetwork 1 tt [] false (mkPacketHeader 0 0 0) [])) 0 0 (fun _ => SynchList.empty tt) [] 0 [] [] [] end.

Definition office_objects : list (ucall piece) := match office0 with Ok (_, us) => us | _ => [] end.

Lemma office0_eq : office0 = Ok (office_state, office_objects).
Proof. reflexivity. Qed.

Definition sample (l : list (nat * list (list Z))) : res (list event * Kernel (Office unit) piece) :=
  simulate saved saved office_call removeResources move 200
    l (start no_loss sends_all random j52 j64 j40 exchange office_state).

Lemma exchange_runs l es k :
  sample l = Ok (es, k) ->
  runs saved saved (call no_loss sends_all random j52 j64 j40) removeResources irq
    (start no_loss sends_all random j52 j64 j40 exchange office_state) es k.
Proof. apply (simulate_runs saved saved office_call removeResources irq move 200 move_irq). Qed.

(** The packet is sent, its interrupt comes, and then the packet itself. *)
Definition script : list (nat * list (list Z)) := [(1%nat, []); (0%nat, [datagram])].


(** The packet is on its way. *)
Lemma mail_sending_correct_witness :
  exists es k, sample [] = Ok (es, k) /\ sent (client k) = [(1, datagram)] /\
    (sends (pending (interrupt (world (client k)))) <= 1)%nat /\
    Forall (fun d => is_mail 3 (s32 d.1) d.2) (sent (client k)).
Proof.
  assert (is_s32 2) as Hn by (by unfold is_s32). assert (MaxPacketSize <= Z.of_nat (List.length j64)) as H64 by (by vm_compute).
  destruct (shown_inv sent (sample []) [(1, datagram)]) as (es & k & E & Et); [vm_compute; reflexivity|].
  exists es, k. split; [exact E|]. split; [exact Et|].
  destruct (mail_sending_correct tt tt (fun _ => false) (fun _ => false) no_loss sends_all random j52 j64 j40
    1 tt 2 (mkPacketHeader 0 0 0) j52 j52 at_boot office_state office_objects exchange es k) as (H1 & H2 & _);
    [reflexivity|exact H64|exact Hn|reflexivity|exact office0_eq|exact (exchange_runs [] es k E)|].
  split; [exact H1|apply H2; lia].
Defined.

(** The same datagram, at the other end. *)
Definition waiting : Office unit :=
  set_network (set_sock [datagram] (network office_state)) office_state.

Definition sent_state : Office unit :=
  match network_Send no_loss sends_all random j64 wrapped packet office_state with Ok po => po | _ => office_state end.

(** The box with that mail. *)
Definition with_mail (m : Mail) : Office unit := set_box 0 (SynchList.mkState [Some m] tt [] []) waiting.

Lemma mail_roundtrip_witness :
  exists po3 po4 m, fire (mkPending NetworkReadPoll 100 NetworkRecvInt) waiting = Ok (messageAvailable, po3) /\
    deliver j40 po3 = Ok (po4, SynchList.Append (InBox 0) (boxLock 0) (boxEmpty 0) (Some m) ++ PostalDelivery) /\
    exists po6 po7, office_call (InBox 0 SynchList.ListRemove) 2 (with_mail m) = Ok (po6, []) /\
      office_call (TakeMail 0) 2 po6 = Ok (po7, []) /\ taken po7 = [(2%nat, (wrapped, letter, [7; 8; 9]))].
Proof.
  destruct (mail_roundtrip no_loss sends_all random j52 j64 j40 (mkPacketHeader 1 0 0) letter [7; 8; 9]
    office_state office_state wrapped packet office_state sent_state 1 datagram [] waiting
    (mkPending NetworkReadPoll 100 NetworkRecvInt)) as (_ & _ & po3 & po4 & m & H1 & _ & H2 & _ & H3);
    [reflexivity|by vm_compute|reflexivity|by unfold is_s32|by unfold is_s32|by unfold is_s32|by unfold is_s32
    |vm_compute; reflexivity..|].
  exists po3, po4, m. split; [exact H1|]. split; [exact H2|].
  destruct (H3 (with_mail m) 2%nat [] eq_refl) as (po6 & po7 & E1 & _ & E2 & E3).
  exists po6, po7. split; [exact E1|]. split; [exact E2|exact E3].
Defined.

End Sample.

End Post.
