(* ===== verification/Console.v ===== *)
(** machine/console.h, console.cc: the terminal; userprog/progtest.cc: its test.

    Module [Console] is the device, with the characters that were typed and not yet read
    and those on the display, and [ConsoleTest] as code for the kernel of [Synch], with
    the two interrupts of the device.  [typed] is not in the code: it records what was
    typed.  Any byte can be typed, 255 too, and the keyboard can be a file that ends. *)

From S2P Require Import Prelude LinkedList Interrupt Synch Monitor.

Module Console.

Import Interrupt.Stats Interrupt.Interrupt Threads Monitor.

(** ** The device

    A [char] is its value, from -128 to 127. *)
Definition EOF : Z := -1.

Record Console := mkConsole {
  keyboard : list Z;       (* the file [readFileNo]: what is not read yet *)
  ended : bool;            (* nothing more will come *)
  display : list Z;        (* the file [writeFileNo] *)
  putBusy : bool;
  incoming : Z
}.

(** The handlers of the device. *)
Inductive handler := ConsoleReadPoll | ConsoleWriteDone.

#[export] Instance console_handler_eq_dec : EqDecision handler.
Proof. solve_decision. Defined.

(** [stats->numConsoleCharsRead++], [stats->numConsoleCharsWritten++] *)
Definition count_read (s : Statistics) : Statistics :=
  mkStats (totalTicks s) (idleTicks s) (systemTicks s) (userTicks s) (numDiskReads s)
    (numDiskWrites s) (s32 (numConsoleCharsRead s + 1)) (numConsoleCharsWritten s) (numPageFaults s)
    (numPacketsSent s) (numPacketsRecvd s).
Definition count_written (s : Statistics) : Statistics :=
  mkStats (totalTicks s) (idleTicks s) (systemTicks s) (userTicks s) (numDiskReads s)
    (numDiskWrites s) (numConsoleCharsRead s) (s32 (numConsoleCharsWritten s + 1)) (numPageFaults s)
    (numPacketsSent s) (numPacketsRecvd s).

Section device.
Context {K : Type}.
Implicit Types w : World K handler.
Implicit Types c : Console.

Definition set_keyboard l c := mkConsole l (ended c) (display c) (putBusy c) (incoming c).
Definition set_ended b c := mkConsole (keyboard c) b (display c) (putBusy c) (incoming c).
Definition set_display l c := mkConsole (keyboard c) (ended c) l (putBusy c) (incoming c).
Definition set_busy b c := mkConsole (keyboard c) (ended c) (display c) b (incoming c).
Definition set_incoming ch c := mkConsole (keyboard c) (ended c) (display c) (putBusy c) ch.

(** [Console::Console] *)
Definition new w : res (Console * World K handler) :=
  w ← Schedule ConsoleReadPoll ConsoleTime ConsoleReadInt w;
  Ok (mkConsole [] false [] false EOF, w).

(** [PollFile] finds a file at its end readable, and the [ASSERT] of [Read] fails there. *)
Definition CheckCharAvail (readHandler : World K handler -> res (World K handler)) c w
    : res (Console * World K handler) :=
  w ← Schedule ConsoleReadPoll ConsoleTime ConsoleReadInt w;
  if negb (incoming c =? EOF) then Ok (c, w) else
  match keyboard c with
  | [] => if ended c then Abort else Ok (c, w)
  | ch :: chs =>
      let c := set_incoming ch (set_keyboard chs c) in
      let w := set_stats (count_read (stats w)) w in
      w ← readHandler w;
      Ok (c, w)
  end.

Definition WriteDone (writeHandler : World K handler -> res (World K handler)) c w
    : res (Console * World K handler) :=
  let c := set_busy false c in
  let w := set_stats (count_written (stats w)) w in
  w ← writeHandler w;
  Ok (c, w).

Definition GetChar c : Z * Console := (incoming c, set_incoming EOF c).

Definition PutChar (ch : Z) c w : res (Console * World K handler) :=
  ASSERT (negb (putBusy c));;
  let c := set_busy true (set_display (display c ++ [ch]) c) in
  w ← Schedule ConsoleWriteDone ConsoleTime ConsoleWriteInt w;
  Ok (c, w).

(** What a poll does not change. *)
Lemma CheckCharAvail_frame c w c' w' :
  CheckCharAvail (fun w => Ok w) c w = Ok (c', w') ->
  exists when, pending (interrupt w') =
      sorted_insert (mkPending ConsoleReadPoll when ConsoleReadInt) when (pending (interrupt w)) /\
    putBusy c' = putBusy c.
Proof.
  unfold CheckCharAvail. cbn [bind Schedule]. intros E.
  destruct (negb _); [|destruct (keyboard c); [destruct (ended c); [done|]|]]; apply Ok_inj, pair_equal_spec in E as [<- <-]; by eexists.
Qed.

End device.

(** ** ConsoleTest *)
Record Test := mkTest {
  world : World Console handler;       (* with the device *)
  ch : Z;                              (* the local variable *)
  typed : list Z
}.

Definition console (x : Test) : Console := kernel (world x).
Definition set_world y x : Test := mkTest y (ch x) (typed x).
Definition set_console c x : Test := set_world (set_kernel c (world x)) x.

(** The pieces of the code between the calls of the kernel. *)
Inductive piece := Echo | Quit.

Section code.
Context (readAvail writeDone : nat).

(** One round of the loop. *)
Definition echo_loop : list (ucall piece) := [P readAvail; Call Echo; P writeDone; Call Quit].

Definition ConsoleTest : list (ucall piece) := [New (QSem readAvail) 0; New (QSem writeDone) 0] ++ echo_loop.

(** [console = new Console(...)], before the semaphores. *)
Definition start_test (w : World unit handler) : res Test :=
  '(c, w) ← new w;
  Ok (mkTest (mkWorld (machine w) (interrupt w) (stats w) c) 0 []).

Definition q : Z := 113.

(** After the test returns, main halts the machine. *)
Definition call (p : piece) (t : nat) (x : Test) : res (Test * list (ucall piece)) :=
  match p with
  | Echo =>
      let '(c0, c) := GetChar (console x) in
      '(c, w) ← PutChar c0 c (world x);
      Ok (mkTest (set_kernel c w) c0 (typed x), [])
  | Quit =>
      if ch x =? q then '(_) ← Halt (world x); Ok (x, [])
      else Ok (x, echo_loop)
  end.

(** *** The interrupts of the device

    The handlers are [ReadAvail] and [WriteDone] of progtest.cc; a poll that finds no
    character changes nothing but its own schedule. *)
Definition fire (p : PendingInterrupt handler) (x : Test) : res (nat * Test) :=
  match Interrupt.Interrupt.handler p with
  | ConsoleReadPoll =>
      '(c, w) ← CheckCharAvail (fun w => Ok w) (console x) (world x);
      Ok (readAvail, set_console c (set_world w x))
  | ConsoleWriteDone =>
      '(c, w) ← WriteDone (fun w => Ok w) (console x) (world x);
      Ok (writeDone, set_console c (set_world w x))
  end.

Definition remove_pending (l : list (Z * PendingInterrupt handler)) (x : Test) : Test :=
  set_world (set_pending l (world x)) x.

(** Some time later, when more was typed, or the file of the keyboard has come to its end. *)
Definition later (st : Statistics) (more : list Z) (fin : bool) (x : Test) : Test :=
  let x := mkTest (set_stats st (world x)) (ch x) (typed x ++ more) in
  set_console (set_ended fin (set_keyboard (keyboard (console x) ++ more) (console x))) x.

Definition char_waits (x : Test) : Prop := incoming (console x) = EOF /\ keyboard (console x) <> [].

(** Any bytes may have been typed.  A poll at the end of the file aborts: the execution ends
    there. *)
Definition irq (x : Test) (s : nat) (x' : Test) : Prop :=
  exists st more fin l1 t p l2, (ended (console x) = true -> more = [] /\ fin = true) /\
    let y := later st more fin x in
    pending (interrupt (world y)) = l1 ++ (t, p) :: l2 /\
    (Interrupt.Interrupt.handler p = ConsoleReadPoll -> char_waits y) /\
    fire p (remove_pending (l1 ++ l2) y) = Ok (s, x').

Definition saved (t : nat) (x : Test) : Test := x.
Definition removeResources (t : nat) (x : Test) : res Test := Ok x.

(** ** The rules

    Two protocols: what was typed, the buffer of the device and what was echoed, with the
    semaphore [readAvail]; and the write that is under way, with [writeDone].  Only the
    thread of the test uses the device: its exclusive use is a lock that no code names and
    that the thread always has. *)
Context (Hne : readAvail <> writeDone).
Definition user : nat := 0.

Record read_view := mkRead {
  rv_typed : list Z;
  rv_keyboard : list Z;
  rv_display : list Z;
  rv_incoming : Z;
  rv_ch : Z
}.

Definition read_part (x : Test) : read_view :=
  mkRead (typed x) (keyboard (console x)) (display (console x)) (incoming (console x)) (ch x).
Definition write_part (x : Test) : nat * bool :=
  (pending_of ConsoleWriteDone (pending (interrupt (world x))), putBusy (console x)).

Definition buffered (ch : Z) : list Z := if ch =? EOF then [] else [ch].

(** Everything typed is on the display, in the buffer, or still in the keyboard; and the
    test stops at the first [q].  This is so until the byte 255 is typed: in a [char] it is
    [EOF], so the device takes its buffer for empty. *)
Record read_ok (y : read_view) : Prop := {
  ra_typed : rv_typed y = rv_display y ++ buffered (rv_incoming y) ++ rv_keyboard y;
  ra_keyboard : Forall (fun ch => ch <> EOF) (rv_keyboard y);
  ra_display : Forall (fun ch => ch <> q) (removelast (rv_display y))
}.

Definition lost (y : read_view) : Prop := EOF ∈ rv_typed y.
Definition read_always (y : read_view) : Prop := lost y \/ read_ok y.

Definition read_shared : Shared Test read_view := mkShared read_part irq (Some readAvail) read_always.
Definition write_shared : Shared Test (nat * bool) :=
  mkShared write_part irq (Some writeDone) (fun y => (y.1 <= 1)%nat).

(** A poll that finds a character announces it. *)
Definition announced (y : read_view) (v : Z) : Prop :=
  (rv_incoming y = EOF /\ v = 0) \/ (rv_incoming y <> EOF /\ v = 1).

Definition no_q (y : read_view) : Prop := Forall (fun ch => ch <> q) (rv_display y).
Definition echoed (y : read_view) : Prop :=
  exists d, rv_display y = d ++ [rv_ch y] /\ Forall (fun ch => ch <> q) d.

Definition read_wait y v : Prop := lost y \/ read_ok y /\ no_q y /\ announced y v.
Definition read_ready y v : Prop := lost y \/ read_ok y /\ no_q y /\ rv_incoming y <> EOF /\ v = 0.
Definition read_echoed y v : Prop := lost y \/ read_ok y /\ echoed y /\ announced y v.

Definition write_idle (y : nat * bool) (v : Z) : Prop := y = (0%nat, false) /\ v = 0.
Definition write_under_way (y : nat * bool) (v : Z) : Prop :=
  (y = (1%nat, true) /\ v = 0) \/ (y = (0%nat, false) /\ v = 1).

Lemma read_bump s v : bump read_shared s v = if decide (s = readAvail) then s32 (v + 1) else v.
Proof. unfold bump. cbn. repeat case_decide; congruence. Qed.
Lemma write_bump s v : bump write_shared s v = if decide (s = writeDone) then s32 (v + 1) else v.
Proof. unfold bump. cbn. repeat case_decide; congruence. Qed.

(** *** What an interrupt does *)
Lemma irq_typed x s x' : irq x s x' -> exists more, typed x' = typed x ++ more.
Proof.
  intros (st & more & fin & l1 & t & p & l2 & _ & _ & _ & H). exists more.
  unfold fire in H. destruct (Interrupt.Interrupt.handler p);
    apply bind_Ok in H as ([c w] & _ & H); by apply Ok_inj, pair_equal_spec in H as [_ <-].
Qed.

Lemma lost_stable (A A' : Prop) x s x' :
  irq x s x' -> (~ lost (read_part x') -> A -> A') -> lost (read_part x) \/ A -> lost (read_part x') \/ A'.
Proof.
  intros Hi HA H. destruct (decide (EOF ∈ typed x')) as [Hl|Hl]; [by left|].
  destruct H as [H|H]; [|right; auto]. destruct Hl.
  apply irq_typed in Hi as (more & ->). apply elem_of_app. by left.
Qed.

Lemma irq_read x s x' :
  irq x s x' -> ~ lost (read_part x') -> read_ok (read_part x) ->
  let y := read_part x in
  let y' := read_part x' in
  read_ok y' /\ rv_display y' = rv_display y /\ rv_ch y' = rv_ch y /\
  ((s = writeDone /\ rv_incoming y' = rv_incoming y) \/
   (s = readAvail /\ rv_incoming y = EOF /\ rv_incoming y' <> EOF)).
Proof.
  intros (st & more & fin & l1 & t & p & l2 & _ & Hp & Hw & H) Hm [H1 H2 H3]. cbv zeta.
  assert (typed x' = typed x ++ more) as Et.
  { unfold fire in H. destruct (Interrupt.Interrupt.handler p);
      apply bind_Ok in H as ([c w] & _ & H); by apply Ok_inj, pair_equal_spec in H as [_ <-]. }
  assert (Forall (fun ch => ch <> EOF) more) as Hmore.
  { apply Forall_forall. intros c Hc ->. apply Hm. unfold lost. cbn. rewrite Et. apply elem_of_app. by right. }
  clear Hm Et. cbn in H1, H2, H3. unfold console in *. unfold fire, console in H.
  destruct (Interrupt.Interrupt.handler p) eqn:Eh.
  - destruct (Hw eq_refl) as [Hi Hk]. cbn in Hi, Hk.
    unfold CheckCharAvail in H. cbn -[EOF] in H. rewrite Hi in H. cbn in H.
    rewrite Hi in H1. cbn in H1.
    destruct (keyboard (kernel (world x)) ++ more) as [|c cs] eqn:Ek; [done|].
    assert (Forall (fun ch => ch <> EOF) (c :: cs)) as [Hc Hcs]%Forall_cons by (rewrite <- Ek; by apply Forall_app).
    apply Ok_inj, pair_equal_spec in H as [<- <-]. split.
    + split; [|exact Hcs|exact H3]. cbn. rewrite H1. unfold buffered.
      destruct (Z.eqb_spec c EOF); [done|]. rewrite <- app_assoc. cbn. by rewrite <- Ek.
    + split_and!; [done..|]. right. by split_and!.
  - apply Ok_inj, pair_equal_spec in H as [<- <-]. split.
    + split; [|by apply Forall_app|exact H3]. cbn. rewrite H1. unfold console. by rewrite <- !app_assoc.
    + split_and!; [done..|]. by left.
Qed.

Lemma irq_write x s x' :
  irq x s x' ->
  (s = readAvail /\ write_part x' = write_part x) \/
  (s = writeDone /\ exists m, (write_part x).1 = S m /\ write_part x' = (m, false)).
Proof.
  intros (st & more & fin & l1 & t & p & l2 & _ & Hp & Hw & H). unfold write_part at 2 3.
  change (pending (interrupt (world x))) with (pending (interrupt (world (later st more fin x)))).
  change (putBusy (console x)) with (putBusy (console (later st more fin x))).
  revert H Hp. generalize (later st more fin x). intros y H Hp. rewrite Hp, pending_of_middle, pending_of_cons.
  unfold fire in H. cbn [snd]. destruct (Interrupt.Interrupt.handler p) eqn:Eh.
  - left. rewrite decide_False by done. apply bind_Ok in H as ([c w] & Hc & H).
    apply Ok_inj, pair_equal_spec in H as [<- <-]. split; [done|].
    apply CheckCharAvail_frame in Hc as (when & Ep & Eb). unfold write_part. cbn. rewrite Ep, Eb.
    f_equal. rewrite pending_of_insert. done.
  - right. rewrite decide_True by done. apply Ok_inj, pair_equal_spec in H as [<- <-]. split; [done|].
    by eexists.
Qed.

(** *** The assertions are stable *)
Lemma read_stable (A : read_view -> Prop) x s x' v :
  (forall y y', rv_display y' = rv_display y -> rv_ch y' = rv_ch y -> A y -> A y') ->
  irq x s x' ->
  lost (read_part x) \/ read_ok (read_part x) /\ A (read_part x) /\ announced (read_part x) v ->
  lost (read_part x') \/
    read_ok (read_part x') /\ A (read_part x') /\ announced (read_part x') (bump read_shared s v).
Proof.
  intros HA Hi. apply (lost_stable _ _ _ _ _ Hi). intros Hl (Hr & Ha & Hv).
  apply irq_read in Hi as (Hr' & Ed & Ec & Hi); [|done..].
  split; [done|]. split; [by eapply HA|]. rewrite read_bump. unfold announced in *.
  destruct Hi as [[-> E]|(-> & E & E')].
  - rewrite decide_False by done. by rewrite E.
  - rewrite decide_True by done. destruct Hv as [[_ ->]|[? _]]; [by right|done].
Qed.

Lemma read_wait_stable x s x' v :
  irq x s x' -> read_wait (read_part x) v -> read_wait (read_part x') (bump read_shared s v).
Proof. apply read_stable. unfold no_q. by intros y y' ->. Qed.

Lemma read_echoed_stable x s x' v :
  irq x s x' -> read_echoed (read_part x) v -> read_echoed (read_part x') (bump read_shared s v).
Proof. apply read_stable. unfold echoed. by intros y y' -> ->. Qed.

Lemma read_ready_stable x s x' v :
  irq x s x' -> read_ready (read_part x) v -> read_ready (read_part x') (bump read_shared s v).
Proof.
  intros Hi. apply (lost_stable _ _ _ _ _ Hi). intros Hl (Hr & Ha & Hc & ->).
  apply irq_read in Hi as (Hr' & Ed & _ & Hi); [|done..]. rewrite read_bump.
  destruct Hi as [[-> E]|(-> & E & _)]; [|done]. rewrite decide_False by done.
  split; [done|]. unfold no_q. by rewrite Ed, E.
Qed.

Lemma write_idle_stable x s x' v :
  irq x s x' -> write_idle (write_part x) v -> write_idle (write_part x') (bump write_shared s v).
Proof.
  intros Hi [E ->]. apply irq_write in Hi. rewrite write_bump, E in *.
  destruct Hi as [[-> ->]|(_ & m & [=] & _)]. by rewrite decide_False.
Qed.

Lemma write_under_way_stable x s x' v :
  irq x s x' -> write_under_way (write_part x) v -> write_under_way (write_part x') (bump write_shared s v).
Proof.
  intros Hi Hv. apply irq_write in Hi. rewrite write_bump.
  destruct Hi as [[-> ->]|(-> & m & E & ->)]; [by rewrite decide_False|]. rewrite decide_True by done.
  right. destruct Hv as [[Ey ->]|[Ey _]]; rewrite Ey in E; [|done]. by injection E as <-.
Qed.

Lemma read_wait_always y v : read_wait y v -> read_always y.
Proof. intros [?|[? _]]; [by left|by right]. Qed.
Lemma read_ready_always y v : read_ready y v -> read_always y.
Proof. intros [?|[? _]]; [by left|by right]. Qed.
Lemma read_echoed_always y v : read_echoed y v -> read_always y.
Proof. intros [?|[? _]]; [by left|by right]. Qed.
Lemma write_idle_always y v : write_idle y v -> (y.1 <= 1)%nat.
Proof. intros [-> _]. cbn. lia. Qed.
Lemma write_under_way_always y v : write_under_way y v -> (y.1 <= 1)%nat.
Proof. intros [[-> _]|[-> _]]; cbn; lia. Qed.

Definition read_wait_inv : Assertion read_shared :=
  mkAssertion (sh := read_shared) read_wait read_wait_stable read_wait_always.
Definition read_ready_inv : Assertion read_shared :=
  mkAssertion (sh := read_shared) read_ready read_ready_stable read_ready_always.
Definition read_echoed_inv : Assertion read_shared :=
  mkAssertion (sh := read_shared) read_echoed read_echoed_stable read_echoed_always.
Definition write_idle_inv : Assertion write_shared :=
  mkAssertion (sh := write_shared) write_idle write_idle_stable write_idle_always.
Definition write_under_way_inv : Assertion write_shared :=
  mkAssertion (sh := write_shared) write_under_way write_under_way_stable write_under_way_always.

Definition read_rules : Rules read_shared piece :=
  mkRules user read_wait_inv (fun _ => True) (fun _ => False)
    (fun p => match p with Echo => read_ready | Quit => read_echoed end)
    (fun p => match p with Echo => read_echoed_inv | Quit => never end).
Definition write_rules : Rules write_shared piece :=
  mkRules user write_idle_inv (fun _ => True) (fun _ => False)
    (fun _ => write_idle)
    (fun p => match p with Echo => write_under_way_inv | Quit => never end).

(** *** The code follows the rules *)
Lemma echo_read : triples read_shared read_rules (Some read_wait_inv) echo_loop (Some never).
Proof.
  eapply triples_cons; [apply (triple_P read_shared read_rules _ read_ready_inv); [done|]|].
  { intros y v [Hl|(Hr & Hq & [[_ ->]|[Hi ->]])] Hv; [by left|done|]. right. by split_and!. }
  eapply triples_cons; [by apply triple_call|].
  eapply triples_cons; [apply triple_other; cbn; congruence|].
  eapply triples_cons; [by apply triple_call|apply triples_nil].
Qed.

Lemma echo_write : triples write_shared write_rules (Some write_idle_inv) echo_loop (Some never).
Proof.
  eapply triples_cons; [apply triple_other; cbn; congruence|].
  eapply triples_cons; [by apply triple_call|].
  eapply triples_cons; [apply (triple_P write_shared write_rules _ write_idle_inv); [done|]|].
  { intros y v [[_ ->]|[-> ->]] Hv; [done|]. by split. }
  eapply triples_cons; [by apply triple_call|apply triples_nil].
Qed.

(** One round of the test. *)
Definition after_echo (x : Test) : Test :=
  mkTest (set_pending (sorted_insert
      (mkPending ConsoleWriteDone (s32 (totalTicks (stats (world x)) + ConsoleTime)) ConsoleWriteInt)
      (s32 (totalTicks (stats (world x)) + ConsoleTime)) (pending (interrupt (world x))))
    (set_kernel (set_busy true (set_display (display (console x) ++ [incoming (console x)])
                   (set_incoming EOF (console x)))) (world x)))
    (incoming (console x)) (typed x).

Lemma call_Echo t x : putBusy (console x) = false -> call Echo t x = Ok (after_echo x, []).
Proof. intros Hb. unfold call, GetChar, PutChar. cbn [putBusy set_incoming]. rewrite Hb. done. Qed.

Lemma Echo_read x v :
  read_ready (read_part x) v -> read_echoed (read_part (after_echo x)) v.
Proof.
  intros [Hl|([H1 H2 H3] & Hq & Hi & ->)]; [by left|]. right. unfold no_q in Hq. cbn in H1, H2, H3, Hq, Hi.
  split; [split|split; [|by left]].
  - cbn. rewrite H1. unfold buffered. destruct (Z.eqb_spec (incoming (console x)) EOF); [done|].
    cbn. by rewrite <- app_assoc.
  - exact H2.
  - cbn. by rewrite removelast_last.
  - by exists (display (console x)).
Qed.

Lemma read_sound : Sound read_shared read_rules saved saved call removeResources.
Proof.
  split; [by intros t x x' [= ->]|done|done| |by intros p t x x' us []].
  intros p t x x' us v _ Hpre H. destruct p.
  - pose proof H as Hb. apply bind_Ok in Hb as ([c w] & Hb & _).
    apply bind_Ok in Hb as ([] & Hb & _). apply ASSERT_Ok, negb_true_iff in Hb.
    rewrite call_Echo in H by exact Hb. apply Ok_inj, pair_equal_spec in H as [<- <-].
    exists read_echoed_inv. split; [by apply Echo_read|apply triples_nil].
  - cbn [call] in H. destruct (Z.eqb_spec (ch x) q) as [E|E]; [done|].
    apply Ok_inj, pair_equal_spec in H as [<- <-]. exists read_wait_inv. split; [|apply echo_read].
    destruct Hpre as [Hl|(Hr & (d & Ed & Hd) & Hv)]; [by left|]. right. split_and!; [done| |done].
    unfold no_q. rewrite Ed. apply Forall_app. split; [done|]. by constructor.
Qed.

Lemma write_sound : Sound write_shared write_rules saved saved call removeResources.
Proof.
  split; [by intros t x x' [= ->]|done|done| |by intros p t x x' us []].
  intros p t x x' us v _ [E ->] H. injection E as En Eb. destruct p.
  - rewrite call_Echo in H by exact Eb. apply Ok_inj, pair_equal_spec in H as [<- <-].
    exists write_under_way_inv. split; [|apply triples_nil]. left. split; [|done].
    change (write_part (after_echo x) = (1%nat, true)). unfold write_part. f_equal.
    cbn [after_echo world interrupt set_pending pending set_kernel].
    etrans; [apply pending_of_insert|]. by rewrite decide_True, En.
  - cbn [call] in H. destruct (ch x =? q); [done|].
    apply Ok_inj, pair_equal_spec in H as [<- <-]. exists write_idle_inv. split; [|apply echo_write].
    split; [|done]. cbn. unfold write_part. by rewrite En, Eb.
Qed.

(** ** The execution *)
Definition start (x : Test) : Kernel Test piece :=
  boot echo_loop x (fun _ => new_Semaphore 0) (fun _ => mkLock false (Some user)) (fun _ => new_Condition)
    (fun _ => new_Mutex) (fun _ => new_Barrier 2).

(** C40: the console test echoes, however the interrupts of the terminal come.  In every
    execution the test writes a character without failing the assertion of [PutChar], and
    looks at the character only when the device has written it.  As long as the byte 255,
    which is [EOF] as a [char], was not typed: what was typed is what is on the display,
    then the character in the buffer of the device, then what still waits; the test takes a
    character only when there is one, and it halts the machine at the first [q].  (When the
    file of the keyboard ends, a poll with an empty buffer aborts the program, which ends
    the execution.) *)
Theorem console_echo (w : World unit handler) x0 es k :
  pending_of ConsoleWriteDone (pending (interrupt w)) = 0%nat -> start_test w = Ok x0 ->
  runs saved saved call removeResources irq (start x0) es k ->
  let x := client k in
  let t := currentThread k in
  (forall rest, codes k t = Some (Do (Call Echo) :: rest) -> call Echo t x = Ok (after_echo x, [])) /\
  (forall rest, codes k t = Some (Do (Call Quit) :: rest) ->
     putBusy (console x) = false /\ pending_of ConsoleWriteDone (pending (interrupt (world x))) = 0%nat /\
     call Quit t x = if ch x =? q then Exit 0 else Ok (x, echo_loop)) /\
  (~ (EOF ∈ typed x) ->
     typed x = display (console x) ++ buffered (incoming (console x)) ++ keyboard (console x) /\
     Forall (fun ch => ch <> q) (removelast (display (console x))) /\
     (forall rest, codes k t = Some (Do (Call Echo) :: rest) -> incoming (console x) <> EOF) /\
     (forall rest, codes k t = Some (Do (Call Quit) :: rest) ->
        exists d, display (console x) = d ++ [ch x])).
Proof.
  intros Hw H0 Hr. apply bind_Ok in H0 as ([c w1] & Hn & H0). apply Ok_inj in H0 as <-.
  apply bind_Ok in Hn as (w2 & Hs & Hn). apply Ok_inj, pair_equal_spec in Hn as [<- <-]. apply Ok_inj in Hs as <-.
  set (x0 := mkTest _ _ _) in Hr.
  assert (monitor_ok read_shared read_rules k) as HR.
  { eapply (runs_monitor _ _ _ _ _ _ read_sound); [apply boot_wf| |exact Hr].
    apply (boot_owner_monitor read_shared read_rules read_wait_inv); [done| |].
    - right. split; [by split; cbn|]. split; [apply Forall_nil_2|by left].
    - apply triples_never, echo_read. }
  assert (monitor_ok write_shared write_rules k) as HW.
  { eapply (runs_monitor _ _ _ _ _ _ write_sound); [apply boot_wf| |exact Hr].
    apply (boot_owner_monitor write_shared write_rules write_idle_inv); [done| |].
    - split; [|done]. cbn. unfold write_part. f_equal. cbn. etrans; [apply pending_of_insert|].
      rewrite decide_False by done. exact Hw.
    - apply triples_never, echo_write. }
  assert (forall p rest, codes k (currentThread k) = Some (Do (Call p) :: rest) ->
    putBusy (console (client k)) = false /\
    pending_of ConsoleWriteDone (pending (interrupt (world (client k)))) = 0%nat) as Hidle.
  { intros p rest Hc. apply (monitor_pre _ _ _ _ _ HW) in Hc as [_ [E _]]; [|done]. by injection E as En Eb. }
  split_and!.
  - intros rest Hc. apply Hidle in Hc as [Eb _]. by apply call_Echo.
  - intros rest Hc. apply Hidle in Hc as [Eb En]. split_and!; [done..|]. cbn [call]. by destruct (ch (client k) =? q).
  - intros Hl. destruct (monitor_always _ _ _ HR) as [?|[H1 _ H3]]; [done|]. split_and!; [exact H1|exact H3|..].
    + intros rest Hc. apply (monitor_pre _ _ _ _ _ HR) in Hc as [_ [?|(_ & _ & Hi & _)]]; [done|exact Hi|done].
    + intros rest Hc. apply (monitor_pre _ _ _ _ _ HR) in Hc as [_ [?|(_ & (d & Ed & _) & _)]]; [done| |done].
      by exists d.
Qed.

End code.
(** ** Witness: [a] and [q] are typed *)
Module Sample.

Definition waits_b (x : Test) : bool :=
  (incoming (console x) =? EOF) && match keyboard (console x) with [] => false | _ => true end.

Lemma char_waits_b_ok x : waits_b x = true -> char_waits x.
Proof.
  unfold waits_b, char_waits. rewrite andb_true_iff, Z.eqb_eq. intros [H1 H2]. split; [done|].
  by destruct (keyboard (console x)).
Qed.

(** An interrupt of the terminal, and what was typed before it. *)
Definition move (m : nat * list Z) (x : Test) : res (nat * Test) :=
  let '(i, more) := m in
  let y := later Stats.new more (ended (console x)) x in
  match pending (interrupt (world y)) !! i with
  | None => UB
  | Some (_, p) =>
      ASSERT (match more with [] => true | _ => negb (ended (console x)) end &&
              match Interrupt.Interrupt.handler p with ConsoleReadPoll => waits_b y | _ => true end);;
      fire 0 1 p (remove_pending (take i (pending (interrupt (world y))) ++
                                  drop (S i) (pending (interrupt (world y)))) y)
  end.

Lemma move_console_irq m x s x' : move m x = Ok (s, x') -> irq 0 1 x s x'.
Proof.
  destruct m as [i more]. unfold move. destruct (_ !! i) as [[t p]|] eqn:Ei; [|done]. intros H.
  apply bind_Ok in H as ([] & Ha & Hf). apply ASSERT_Ok in Ha. rewrite andb_true_iff in Ha.
  destruct Ha as [Hmore Hp]. eexists Stats.new, more, _, _, t, p, _. split.
  - intros E. split; [|exact E]. destruct more; [done|]. by rewrite E in Hmore.
  - split; [symmetry; by apply take_drop_middle|]. split; [|exact Hf].
    intros E. rewrite E in Hp. by apply char_waits_b_ok.
Qed.

Definition at_boot : World unit handler := mkWorld None Interrupt.new Stats.new tt.

Definition test0 : Test :=
  match start_test at_boot with
  | Ok x => x
  | _ => mkTest (mkWorld None Interrupt.new Stats.new (mkConsole [] false [] false EOF)) 0 []
  end.

Definition sample (l : list (nat * list Z)) : res (list event * Kernel Test piece) :=
  simulate saved saved (call 0 1) removeResources move 100 l (start 0 1 test0).

Lemma sample_console_runs l es k :
  sample l = Ok (es, k) -> runs saved saved (call 0 1) removeResources (irq 0 1) (start 0 1 test0) es k.
Proof. apply (simulate_runs saved saved (call 0 1) removeResources (irq 0 1) move 100 move_console_irq). Qed.

(** [a] is typed, read and written; then [q] and [b] are typed, and [q] is read. *)
Definition script : list (nat * list Z) := [(0%nat, [97]); (1%nat, [113; 98]); (0%nat, [])].

Lemma console_echo_witness :
  exists es k, sample script = Ok (es, k) /\
    (display (console (client k)), typed (client k)) = ([97; 113], [97; 113; 98]) /\
    typed (client k) = display (console (client k)) ++ buffered (incoming (console (client k)))
                       ++ keyboard (console (client k)).
Proof.
  destruct (shown_inv (fun x => (display (console x), typed x)) (sample script) ([97; 113], [97; 113; 98]))
    as (es & k & E & Et); [vm_compute; reflexivity|].
  exists es, k. split; [exact E|]. split; [exact Et|].
  destruct (console_echo 0 1 ltac:(congruence) at_boot test0 es k) as (_ & _ & H);
    [reflexivity|reflexivity|exact (sample_console_runs script es k E)|]. apply H.
  injection Et as _ ->. rewrite !elem_of_cons, elem_of_nil. unfold EOF. lia.
Defined.

End Sample.

End Console.
